(* ===== verification/_CoqProject ===== *)
-Q . S2P
Prelude.v
Bytes.v
Wire.v
VecBuilder.v
Varint.v
Primitives.v
PrimitiveLaws.v
Record.v
Codec.v
RecordBatch.v
RefCrates.v
RawSnappy.v
PrimitiveProps.v
RecordProps.v
ApiKey.v
ErrorCode.v
Versioned.v
Header.v
ApiVersionsMsg.v
DataMessages.v
TopicMessages.v
SaslMessages.v
MessageProps.v
Schema.v
SchemaLaws.v
RoundtripTests.v
RequestSchemas.v
ResponseSchemas.v
MessageSchemas.v
Frame.v
ProtocolTests.v
CompressionFixtures.v
Support.v
MetadataCache.v
Messenger.v
MessengerSystem.v
WriteSide.v
Io.v
Backoff.v
Deadline.v
Topology.v
Transport.v
TransportStream.v
Session.v
BrokerCache.v
Connection.v
ConnectionTests.v
ConnectionDisplay.v
Aggregator.v
Batch.v
Broadcast.v
Producer.v
ProducerDrop.v
ProducerTests.v
BroadcastTest.v
Partition.v
PartitionProps.v
Retry.v
Controller.v
PartitionClient.v
CacheRefinement.v
BatchProducer.v
Client.v
FuzzTarget.v
MessengerTests.v
CancelTest.v
Consumer.v
ClientTests.v
ConsumerLog.v
BrokerLog.v
ConsumerClient.v
ReferenceBroker.v
EndToEnd.v
