(* ===== verification/Prelude.v ===== *)
(** * rskafka: a verification development

    rskafka is a Kafka client in Rust.  This library models its protocol layer,
    the messenger that multiplexes requests over one connection, the connection
    management with its caches and retries, the controller and partition
    clients, the batching producer and the consumer stream, and proves what
    makes them correct.

    ** The program and its parts

    - The protocol layer (src/src/protocol) turns values into bytes and back.
      Primitive types are read from any [std::io::Read] and written to any
      [Write]; a [VecBuilder] keeps length fields of the network from causing
      large allocations; record batches carry a checksum and a compressed
      payload; messages choose their layout by the API version; frames put
      messages on the connection.
    - The messenger (src/src/messenger.rs) gives each request a correlation ID,
      writes it as a frame and waits on a channel; a reader task takes frames
      off the connection and hands each response to the channel that is
      registered under its ID.  Before that, the two sides negotiate versions.
    - The connector (src/src/connection.rs) knows the brokers of the cluster
      from metadata responses, connects to one by address or to any of them,
      and caches one connection and one metadata response.  Failures are
      retried with exponential backoff (src/src/backoff.rs).
    - The clients (src/src/client) sit on top: a partition client that finds
      and caches the leader, turns records into produce requests and fetch
      responses into records; a controller client that creates and deletes
      topics; producers that collect records in an aggregator and send them as
      one request; a consumer that yields the records of successive fetches as
      a stream.

    ** Which file models what

    - [Prelude]: outcomes of Rust calls ([Ok], [Err], [Panic]), machine
      integers, tactics and hint databases.
    - [Bytes]: bytes, big-endian integers, UTF-8 (Rust's standard library).
    - [Wire]: protocol/traits.rs; sources and writers, the classes [ReadType]
      and [WriteType], and the laws [RoundTrip], [Streaming], [NoPanic] and
      [ReadWf] that the types promise to their users.
    - [VecBuilder]: protocol/vec_builder.rs.  [Varint], [Primitives],
      [PrimitiveLaws]: protocol/primitives.rs, with one instance of each law per
      type.  Array types take the laws of their element type.
    - [Record], [Codec], [RecordBatch]: protocol/record.rs, and [Records] of
      protocol/primitives.rs.  [RefCrates]: concrete crates, see below;
      [RawSnappy]: one more instance, with a decoder of the snappy format.
    - [ApiKey], [ErrorCode]: protocol/api_key.rs, protocol/error.rs.
    - [Versioned]: protocol/api_version.rs, messages/mod.rs and
      messages/constants.rs.  [Header], [ApiVersionsMsg], [DataMessages],
      [TopicMessages], [SaslMessages]: the files of protocol/messages.
    - [Schema]: a specification, with no code behind it: messages as schemas of
      typed fields, each with the versions it exists in, an encoder and a
      decoder for all of them.  [RequestSchemas] and [ResponseSchemas] have the
      schemas of the messages as the Kafka protocol defines them (the guide, and
      the notes on versions at the fields in the source); [SchemaLaws] relates
      writers and readers to schemas, [MessageSchemas] has the result.
    - [Frame]: protocol/frame.rs.  [Support]: validation.rs, throttle.rs.
    - [MetadataCache]: client/metadata_cache.rs.
    - [Messenger]: the functions of messenger.rs; [MessengerSystem]: callers,
      cancellations and the reader task as a step relation; [WriteSide]: the
      same with the lock of the write half, partial writes and the tasks that
      finish cancelled writes.
    - [Io]: computations on a world that may fail, panic or not return.
      [Backoff]: backoff.rs, on IEEE doubles; [Deadline]: what rounding does to
      the sum of the intervals, and that a deadline ends the retries.
      [Topology], [Transport]: connection/topology.rs, connection/transport.rs
      and transport/sasl.rs; [TransportStream]: the transport as a stream.
    - [Session]: the world of a client, and the messenger on it: requests,
      version negotiation, SASL.
    - [BrokerCache]: the trait of that name as a class, the generations of its
      connections, laws that the three caches of the client turn out to have
      (the trait itself asks for none), and the abstract cell with these laws.
      [Connection]: connection.rs, with the first cache.  [Controller]
      (client/controller.rs) and [PartitionClient] (client/partition.rs) have the
      other two; [Retry] is the retry loop that they share, proved against the
      class.  [CacheRefinement]: the three caches as steps of the cell, and what
      a retry does to them.  [ConnectionDisplay]: the texts of connection.rs.
    - [Client]: client/mod.rs, topic.rs, build_info.rs.
    - [Aggregator]: record.rs and client/producer/aggregator.rs; the laws of an
      aggregator are a class that [Producer] is proved against.
    - [Batch]: client/producer/broadcast.rs and batch.rs; [Broadcast]: the lock
      and the notification of the former, step by step; [Producer]:
      client/producer.rs, with callers, lingers, flushes and answers of the
      client as a step relation; [ProducerDrop]: what happens when a producer is
      dropped; [BatchProducer]: its builder, and the same system with a
      partition client as the client.
    - [Partition], [PartitionProps]: the requests, responses and errors of
      client/partition.rs and client/error.rs.
    - [Consumer]: client/consumer.rs, for any sequence of answers to its
      fetches; [ConsumerLog]: a log as its specification; [BrokerLog]: the log of
      a partition, read off the batches that a broker stores without the code of
      the client; [ConsumerClient]: the stream on a partition client and a
      network, against that log.
    - [ReferenceBroker]: a specification, with no code behind it: what the client
      relies on of a broker, as a class [PartitionBroker] in terms of the schemas
      and of the log, and one instance.  [EndToEnd]: the client against any such
      broker, through all layers.
    - [FuzzTarget]: the two programs under src/fuzz/fuzz_targets.
    - [ProtocolTests], [CompressionFixtures], [MessengerTests], [CancelTest],
      [ConnectionTests], [ProducerTests], [BroadcastTest], [ClientTests]: unit
      tests of the source, replayed on the definitions.  [ProducerTests] has the
      step relation of the producer as a function of events, and shows that the
      two are the same; [CancelTest] cancels its request at every byte.
      [RoundtripTests]: the macros of protocol/test_utils.rs and
      messages/test_utils.rs, and the tests made with them, for all values.
    - [PrimitiveProps], [RecordProps], [MessageProps]: the properties of the
      lower layers that need several files at once.  The other components have
      their properties at the end of their own file.

    ** How code corresponds to definitions

    A function that returns a [Result] becomes one that returns an [outcome],
    in which a panic is a third result apart from the error, so that "never
    panics" can be said.  A reader takes a source (the bytes it will deliver,
    and the error it ends with) to a value and the rest of the source; a writer
    is the bytes it appends.  Traits are classes, impls are instances, and the
    source's names are kept ([UnsignedVarint::read] is [UnsignedVarint_read]).
    Integers are [Z] with the width in the well-formedness predicate; casts,
    conversions and shifts write out what they do at that width.  Arithmetic
    that overflows asks the [Profile], which says whether the build has
    overflow checks, and panics or wraps.

    What is shared between tasks (the channels of calls, the cells in which the
    result of a batch is published) is a store that steps read and write.

    Code that awaits the network is a function on a [World]: the network, the
    correlation counters of the messengers, the topology, and the cells behind
    the mutexes of the clients.  Such a function runs to its end before the next
    one starts.  What tasks can do to each other between two awaits is the
    subject of the step relations and of the runs in [BrokerCache] and
    [MetadataCache], where calls come in any order.

    Third-party crates are parameters: [VarIntCrate] (integer-encoding),
    [Codecs] (crc32c, flate2, lz4, zstd, snap), [Chrono] (chrono), [RngCore]
    (rand), [Timer] (tokio's clock), [Sockets] (TcpStream, async_socks5,
    rustls), [Network] (sockets and the exchange of one message for its
    response) and [Rsasl], with their documented behaviour as the classes whose
    names end in [Ok].  That an exchange can only fail in the ways [NetworkOk]
    allows is [MessengerSystem.call_results].  [RefCrates], [Partition] and
    [Session.RefNetwork] have instances that meet the laws; witnesses run on
    those.  In [MessengerTests] the exchange is made of the code of the
    messenger itself, on a stream.  [Notify] (tokio) is a parameter of
    [Broadcast].

    ** What the theorems show

    - Round trips: of primitives, arrays, record batches, frames, and of every
      message the crate can both write and read.  All of them hold in front of
      arbitrary further input and leave the source right after the value.  End
      to end, the records of a produce request come back from the bytes of the
      stored batch, at consecutive offsets.  The property tests of the source
      pass for every value, not only for samples, and no writer panics.
    - The protocol: at every version that can be negotiated, each request
      writer emits what the schema of the message says, and each response
      reader returns the values of whatever message the schema allows, with
      unknown tagged fields and null arrays; so the two sides agree although
      the crate has only one of them.
    - Truncation: a proper prefix of an encoding is an end-of-file error, from
      which follows that [Records::read] returns exactly the complete batches
      of a response that the broker cut off.
    - Safety: no bytes of the network make the readers panic, record batches
      and responses included; the two exceptions in the code are theorems too.
      No input makes a fuzz target fail, under any schedule of its reader task.
    - Data from outside: record batches recorded from the C and the Java client
      decode as the tests of the source expect, and the other tests pass too.
    - Data structures: the block-wise vector is a plain vector to its users and
      over-allocates at most one block; the cache never drops an entry newer
      than the one its caller saw; the aggregator keeps to its limit and gives
      each accepted record its own offset.
    - The messenger: in every interleaving a response goes to the call with its
      correlation ID and no call waits for nobody; negotiated versions are
      supported by both sides, the negotiation ends, and over a network its
      result is that of the first answer without an error code that can be read.
    - The producer: in every interleaving no call of produce waits for nothing,
      each call returns the offset of its own record, and nothing panics.  No
      receiver of a result misses its notification.  When a producer is dropped,
      every write that runs on was taken by a call of flush, and can still
      publish its result.
    - The consumer: records come in strictly increasing order, none of a fetch
      is lost, and an error is reported once.  The stream reads a log: its
      records from the start offset on, without gap or repetition, and up to the
      end; on a partition client, the log is that of the batches which the
      brokers store, with the fields of the records.
    - The wire: while no write fails, a broker reads exactly the messages that
      were sent, whole and in one order, whoever is cancelled; the lock of the
      write half always comes free again; and the system with these writes
      refines the one in which sending is one action.
    - Connections: the three broker caches refine one abstract cache, in which a
      connection that was reported broken is never handed out again; a retry
      starts without it.  New connections of the clients go to the broker that
      is the leader or the controller.  Which errors are retried, what is
      cached when, and what each operation returns is stated for every branch.
      The topology is the last announced address of each broker.
    - Backoff: the retry loop is characterised without fuel, and every sleep
      lies between the configured bounds, rounding included, one for each failed
      attempt.  With a deadline
      it ends: the number of retried errors is bounded, although the intervals
      are random and their sum is rounded.
    - End to end: the offset that a call of a producer on a partition client
      returns is the one the broker gave its record.  Against any broker that
      follows the protocol, which may throttle and refuse, the offsets of a
      successful produce call are consecutive, and a successful fetch at one of
      them returns the records from there on, while they are stored.
    - Errors: corrupted, overlong and out-of-range data is refused with the
      error of the source.  Some theorems state behaviour that its authors
      will not want: a zero limit for frames, overlong client IDs, a zero length
      of compact bytes, a tenth varint byte that is too large, batches with a
      short body, duplicate names in a cache lookup, offsets at the end of their
      range, timestamps that are stored early, concurrent calls of flush, a
      zero backoff, cached metadata that names a former leader, a write that
      fails after its caller was cancelled, one that outlives its producer, a
      metadata request for all topics at version 0, a produce request that was
      carried out and throttled, which is sent again.

    ** Fuel

    Loops that are not structural take fuel, and theorems say that it is
    enough.  The varint loops have 10 iterations (the code stops by itself at
    the tenth byte).  The loop of [Records::read] and that over the chunks of
    Java's snappy framing have the length of their buffer, as each iteration
    consumes a byte.  The snappy retry loop has 65: the buffer doubles, and an
    allocation stays below 2^64.  The loop that skips a message on the
    connection takes its fuel as an argument: one theorem of [Frame] gives the
    bound for a positive limit, and another shows that there is none for zero.
    The negotiation runs over the list of answers it receives, the consumer over
    the list of clients it fetches from.  The loops of a [World] (retries,
    negotiation, SASL) share one fuel; a result does not change with more of it
    ([retry_le] and the lemmas on [io_le]), and there is no bound in general, as
    a client without a deadline retries for ever.  [retry_with_backoff_spec]
    says for which runs there is enough; with a deadline, [Deadline] has a bound
    in terms of the configuration and of the number of throttled answers, which
    do not count towards the deadline.  Schemas are finite trees; their
    decoder recurses on them and on the counts it has read.  The raw snappy
    decoder has the length of its input, as each element consumes a byte; the
    tests use fixed amounts that their data does not exhaust.

    ** What is not modelled

    The inside of sockets, TLS and SASL mechanisms, logging, the wording of
    error messages, and the runtime's scheduling beyond the interleavings named
    above.  A sleep has a length in the retry loop and in the consumer on a
    client; in the producer and the negotiation it is a step or a value.
    Dropping a messenger, which aborts its reader task, is not a step: nobody
    holds a channel of it then.  Correlation IDs repeat after 2^32 requests on a
    connection; the theorems on interleavings are about the requests before
    that.  Likewise, the generations of the caches are [usize] and wrap or panic
    at 2^64, and the theorems on runs of calls are about runs that stay below.
    The [Debug] impls and the sorted listing of version ranges serve
    logging only.  Of the tests, the fixtures in
    gzip, lz4 and zstd are replayed relative to what the crates make of their
    payload, as there is no model of these formats here, and the wait loop of
    the mock client of the consumer tests is an event.

    Two operations on one client interleave at their awaits.  What they share
    are the connection caches, behind a lock that is held until a lookup has its
    connection, so that their interleavings are the runs of [BrokerCache]; the
    metadata, whose lookups and updates come in any order in [MetadataCache];
    and the messenger, whose interleavings are those of [MessengerSystem] and
    [WriteSide].  One step relation for all of them is not stated. *)

From Stdlib Require Import ZArith Lia.
From stdpp Require Import base list numbers.

Local Open Scope Z_scope.

(** ** Outcomes of a Rust computation

    A call of the program ends in one of three ways: it returns [Ok], it
    returns [Err], or it panics (a failed [assert!], an [expect] on [None], an
    arithmetic overflow with overflow checks, an [unreachable!]).  Keeping the
    panic apart from the error is what lets the theorems say "never panics". *)
Inductive panic : Type :=
| AssertFailed
| ArithOverflow
| IndexOutOfBounds
| ExpectFailed
| Unreachable
| ExplicitPanic.

Inductive outcome (E A : Type) : Type :=
| Ok (a : A)
| Err (e : E)
| Panic (p : panic).
Arguments Ok {E A} a.
Arguments Err {E A} e.
Arguments Panic {E A} p.

#[export] Instance panic_eq_dec : EqDecision panic.
Proof. solve_decision. Defined.

#[export] Instance outcome_eq_dec `{EqDecision E, EqDecision A} : EqDecision (outcome E A).
Proof. solve_decision. Defined.

#[export] Instance Ok_inj {E A} : Inj (=) (=) (@Ok E A).
Proof. by intros ? ? [=]. Qed.

(** The [?] operator. *)
Definition obind {E A B} (m : outcome E A) (k : A -> outcome E B) : outcome E B :=
  match m with
  | Ok a => k a
  | Err e => Err e
  | Panic p => Panic p
  end.

(** [Result::map_err]. *)
Definition omap_err {E F A} (f : E -> F) (m : outcome E A) : outcome F A :=
  match m with
  | Ok a => Ok a
  | Err e => Err (f e)
  | Panic p => Panic p
  end.

(** [Option::ok_or]. *)
Definition ok_or {E A} (e : E) (o : option A) : outcome E A :=
  match o with
  | Some a => Ok a
  | None => Err e
  end.

(** [assert!]. *)
Definition oassert {E} (b : bool) : outcome E unit :=
  if b then Ok tt else Panic AssertFailed.

Declare Scope rust_scope.
Delimit Scope rust_scope with rust.

Notation "'let!' x ':=' m 'in' k" := (obind m (fun x => k))
  (at level 10, x pattern, m at level 100, k at level 200,
   format "'[v' 'let!'  x  ':='  m  'in' '/' k ']'") : rust_scope.

Lemma obind_ok {E A B} (m : outcome E A) (k : A -> outcome E B) b :
  obind m k = Ok b <-> exists a, m = Ok a /\ k a = Ok b.
Proof. destruct m; simpl; split; naive_solver. Qed.

Lemma obind_assoc {E A B C} (m : outcome E A) (f : A -> outcome E B) (g : B -> outcome E C) :
  obind (obind m f) g = obind m (fun x => obind (f x) g).
Proof. by destruct m. Qed.

Lemma obind_no_panic {E A B} (m : outcome E A) (k : A -> outcome E B) :
  (forall p, m <> Panic p) -> (forall a, m = Ok a -> forall p, k a <> Panic p) ->
  forall p, obind m k <> Panic p.
Proof. intros Hm Hk p. destruct m; simpl; [by apply Hk|done|intros _; by eapply Hm]. Qed.

Lemma omap_err_ok {E F A} (f : E -> F) (m : outcome E A) a :
  omap_err f m = Ok a <-> m = Ok a.
Proof. destruct m; simpl; split; naive_solver. Qed.

Lemma ok_or_ok {E A} (e : E) (o : option A) a : ok_or e o = Ok a <-> o = Some a.
Proof. destruct o; simpl; split; naive_solver. Qed.

(** ** Build profile

    Rust's [+], [-] and [*] on machine integers panic on overflow when the
    crate is built with overflow checks (the debug profile) and wrap around
    when it is not (the release profile).  Definitions in which the operands
    come from the network take the profile as a parameter. *)
Class Profile : Type := overflow_checks : bool.

Definition debug_profile : Profile := true.
Definition release_profile : Profile := false.

(** ** Machine integers

    A value of an integer type of width [w] is a [Z] in the range of the type. *)
Definition in_signed (w z : Z) : Prop := - 2 ^ (w - 1) <= z < 2 ^ (w - 1).
Definition in_unsigned (w z : Z) : Prop := 0 <= z < 2 ^ w.

Definition in_signed_b (w z : Z) : bool := (- 2 ^ (w - 1) <=? z) && (z <? 2 ^ (w - 1)).
Definition in_unsigned_b (w z : Z) : bool := (0 <=? z) && (z <? 2 ^ w).

(** Two's complement wrap-around. *)
Definition wrap_unsigned (w z : Z) : Z := z mod 2 ^ w.
Definition wrap_signed (w z : Z) : Z := (z + 2 ^ (w - 1)) mod 2 ^ w - 2 ^ (w - 1).

(** [iN::try_from] and [uN::try_from]: [None] is a [TryFromIntError]. *)
Definition signed_try_from (w z : Z) : option Z :=
  if in_signed_b w z then Some z else None.
Definition unsigned_try_from (w z : Z) : option Z :=
  if in_unsigned_b w z then Some z else None.

(** The targets of the crate are 64-bit: [usize] has 64 bits. *)
Definition usize_bits : Z := 64.
Definition usize_try_from (z : Z) : option Z := unsigned_try_from usize_bits z.

(** Overflow behaviour of an arithmetic operation whose exact result is [z]. *)
Definition arith_unsigned {prof : Profile} {E} (w z : Z) : outcome E Z :=
  if in_unsigned_b w z then Ok z
  else if overflow_checks then Panic ArithOverflow else Ok (wrap_unsigned w z).
Definition arith_signed {prof : Profile} {E} (w z : Z) : outcome E Z :=
  if in_signed_b w z then Ok z
  else if overflow_checks then Panic ArithOverflow else Ok (wrap_signed w z).

Lemma in_signed_b_true w z : in_signed_b w z = true <-> in_signed w z.
Proof. unfold in_signed_b, in_signed. rewrite andb_true_iff, Z.leb_le, Z.ltb_lt. done. Qed.

Lemma in_unsigned_b_true w z : in_unsigned_b w z = true <-> in_unsigned w z.
Proof. unfold in_unsigned_b, in_unsigned. rewrite andb_true_iff, Z.leb_le, Z.ltb_lt. done. Qed.

Lemma signed_try_from_some w z z' :
  signed_try_from w z = Some z' <-> z' = z /\ in_signed w z.
Proof.
  unfold signed_try_from. destruct (in_signed_b w z) eqn:E;
    rewrite <-in_signed_b_true, E; naive_solver.
Qed.

Lemma unsigned_try_from_some w z z' :
  unsigned_try_from w z = Some z' <-> z' = z /\ in_unsigned w z.
Proof.
  unfold unsigned_try_from. destruct (in_unsigned_b w z) eqn:E;
    rewrite <-in_unsigned_b_true, E; naive_solver.
Qed.

Lemma wrap_signed_id w z : 0 < w -> in_signed w z -> wrap_signed w z = z.
Proof.
  unfold in_signed, wrap_signed. intros Hw Hz.
  assert (2 ^ w = 2 * 2 ^ (w - 1)) as ->.
  { rewrite <-Z.pow_succ_r by lia. f_equal. lia. }
  rewrite Z.mod_small; lia.
Qed.

Lemma wrap_signed_range w z : 0 < w -> in_signed w (wrap_signed w z).
Proof.
  unfold in_signed, wrap_signed. intros Hw.
  assert (E : 2 ^ w = 2 * 2 ^ (w - 1)).
  { rewrite <-Z.pow_succ_r by lia. f_equal. lia. }
  assert (0 < 2 ^ (w - 1)) by (apply Z.pow_pos_nonneg; lia).
  pose proof (Z.mod_pos_bound (z + 2 ^ (w - 1)) (2 ^ w)). lia.
Qed.

Lemma wrap_signed_mod w z : 0 < w -> wrap_signed w (z mod 2 ^ w) = wrap_signed w z.
Proof.
  intros Hw. unfold wrap_signed. f_equal.
  rewrite Z.add_mod_idemp_l; [done|]. apply Z.pow_nonzero; lia.
Qed.

(** ** Lengths as machine integers *)
Definition zlen {A} (l : list A) : Z := Z.of_nat (length l).

Lemma zlen_nonneg {A} (l : list A) : 0 <= zlen l.
Proof. unfold zlen. lia. Qed.

Lemma zlen_app {A} (l k : list A) : zlen (l ++ k) = zlen l + zlen k.
Proof. unfold zlen. rewrite length_app. lia. Qed.

Lemma zlen_nil {A} : zlen (@nil A) = 0.
Proof. done. Qed.

Lemma zlen_cons {A} (x : A) l : zlen (x :: l) = 1 + zlen l.
Proof. unfold zlen. simpl length. lia. Qed.

Lemma zlen_0 {A} (l : list A) : zlen l = 0 -> l = [].
Proof. unfold zlen. destruct l; simpl length; [done|lia]. Qed.

Lemma to_nat_zlen {A} (l : list A) : Z.to_nat (zlen l) = length l.
Proof. unfold zlen. lia. Qed.

(** ** Prefixes *)

(** A cut of [b1 ++ b2] lies strictly inside [b1] or inside [b2]. *)
Lemma app_cut {A} (b1 b2 p q : list A) :
  b1 ++ b2 = p ++ q ->
  (exists r, b1 = p ++ r /\ r <> []) \/ (exists r, p = b1 ++ r /\ b2 = r ++ q).
Proof.
  revert p. induction b1 as [|x b1 IH]; intros p H; simpl in *.
  - right. exists p. done.
  - destruct p as [|y p]; simpl in *.
    + left. exists (x :: b1). done.
    + injection H as -> H. destruct (IH p H) as [(r & -> & Hr)|(r & -> & ->)].
      * left. by exists r.
      * right. by exists r.
Qed.

(** ** Automation *)
Create HintDb rust discriminated.
Create HintDb streaming.
Create Rewrite HintDb zlen.
#[export] Hint Resolve zlen_nonneg : rust.
#[export] Hint Rewrite @zlen_app @zlen_nil @zlen_cons : zlen.

(** Turns the [= Ok] facts about compound computations into facts about their
    parts. *)
Ltac invert_ok :=
  repeat match goal with
  | H : obind _ _ = Ok _ |- _ => apply obind_ok in H as (? & ? & ?)
  | H : omap_err _ _ = Ok _ |- _ => apply omap_err_ok in H
  | H : ok_or _ _ = Ok _ |- _ => apply ok_or_ok in H
  | H : signed_try_from _ _ = Some _ |- _ => apply signed_try_from_some in H as [? ?]
  | H : usize_try_from _ = Some _ |- _ => apply unsigned_try_from_some in H as [? ?]
  | H : unsigned_try_from _ _ = Some _ |- _ => apply unsigned_try_from_some in H as [? ?]
  | H : Ok _ = Ok _ |- _ => injection H as H
  | H : (_, _) = (_, _) |- _ => injection H as H
  | H : Err _ = Ok _ |- _ => discriminate H
  | H : Panic _ = Ok _ |- _ => discriminate H
  | H : exists _, _ |- _ => destruct H
  | H : _ /\ _ |- _ => destruct H
  | H : ?x = _ |- _ => is_var x; subst x
  | H : _ = ?x |- _ => is_var x; subst x
  end.
