(* ===== verification/Bytes.v ===== *)
(** * Bytes, big-endian integers and UTF-8

    The pieces of Rust's standard library that the protocol code is written
    in: [u8] values, [to_be_bytes] / [from_be_bytes] at every integer width
    used by the crate, and the validation done by [String::from_utf8]. *)

From Stdlib Require Import ZArith Lia.
From Stdlib Require Strings.Byte.
From stdpp Require Import base list numbers.
From S2P Require Import Prelude.

Local Open Scope Z_scope.

Abbreviation byte := Byte.byte.

(** ** Bytes *)
Definition byte_to_Z (b : byte) : Z := Z.of_N (Byte.to_N b).

Definition byte_of_Z (z : Z) : byte :=
  match Byte.of_N (Z.to_N (z mod 256)) with
  | Some b => b
  | None => Byte.x00
  end.

#[export] Instance byte_eq_dec : EqDecision byte := Byte.byte_eq_dec.

(** ** Big-endian integers *)

(** The [n] bytes of [z] in network order, [z] taken modulo [256 ^ n]. *)
Fixpoint be_bytes (n : nat) (z : Z) : list byte :=
  match n with
  | O => []
  | S n => be_bytes n (z / 256) ++ [byte_of_Z z]
  end.

(** The unsigned value of bytes in network order. *)
Definition be_value (bs : list byte) : Z :=
  fold_left (fun acc b => acc * 256 + byte_to_Z b) bs 0.

(** [iN::to_be_bytes] / [iN::from_be_bytes] for [N = 8 * n]. *)
Definition to_be_bytes (n : nat) (z : Z) : list byte := be_bytes n z.
Definition from_be_bytes_signed (bs : list byte) : Z := wrap_signed (8 * zlen bs) (be_value bs).
Definition from_be_bytes_unsigned (bs : list byte) : Z := be_value bs.

(** ** UTF-8

    [String::from_utf8] accepts exactly the well-formed sequences of the
    Unicode standard's table 3-7: no overlong forms, no surrogates, nothing
    above U+10FFFF. *)
Definition byte_in (lo hi : Z) (b : byte) : bool :=
  (lo <=? byte_to_Z b) && (byte_to_Z b <=? hi).

Definition is_continuation (b : byte) : bool := byte_in 0x80 0xBF b.

Fixpoint utf8_valid (bs : list byte) : bool :=
  match bs with
  | [] => true
  | b0 :: rest0 =>
      if byte_in 0x00 0x7F b0 then utf8_valid rest0
      else match rest0 with
      | [] => false
      | b1 :: rest1 =>
          if byte_in 0xC2 0xDF b0 then is_continuation b1 && utf8_valid rest1
          else match rest1 with
          | [] => false
          | b2 :: rest2 =>
              if byte_in 0xE0 0xE0 b0 then
                byte_in 0xA0 0xBF b1 && is_continuation b2 && utf8_valid rest2
              else if byte_in 0xE1 0xEC b0 || byte_in 0xEE 0xEF b0 then
                is_continuation b1 && is_continuation b2 && utf8_valid rest2
              else if byte_in 0xED 0xED b0 then
                byte_in 0x80 0x9F b1 && is_continuation b2 && utf8_valid rest2
              else match rest2 with
              | [] => false
              | b3 :: rest3 =>
                  let tail_ok := is_continuation b2 && is_continuation b3 && utf8_valid rest3 in
                  if byte_in 0xF0 0xF0 b0 then byte_in 0x90 0xBF b1 && tail_ok
                  else if byte_in 0xF1 0xF3 b0 then is_continuation b1 && tail_ok
                  else if byte_in 0xF4 0xF4 b0 then byte_in 0x80 0x8F b1 && tail_ok
                  else false
              end
          end
      end
  end.

(** A Rust [String] is the list of its UTF-8 bytes; [rstring_wf] is the
    invariant of the type. *)
Definition rstring : Type := list byte.
Definition rstring_wf (s : rstring) : Prop := utf8_valid s = true.

(** [String::from_utf8]. *)
Definition from_utf8 (bs : list byte) : option rstring :=
  if utf8_valid bs then Some bs else None.

(** ** Lemmas *)
Lemma byte_to_Z_range b : 0 <= byte_to_Z b < 256.
Proof.
  unfold byte_to_Z. pose proof (Byte.to_N_bounded b). lia.
Qed.

Lemma byte_to_of_Z z : byte_to_Z (byte_of_Z z) = z mod 256.
Proof.
  unfold byte_to_Z, byte_of_Z.
  pose proof (Z.mod_pos_bound z 256 ltac:(lia)) as Hm.
  destruct (Byte.of_N (Z.to_N (z mod 256))) as [b|] eqn:E.
  - apply Byte.to_of_N in E. rewrite E. lia.
  - apply Byte.of_N_None_iff in E. lia.
Qed.

Lemma byte_to_Z_inj b c : byte_to_Z b = byte_to_Z c -> b = c.
Proof.
  unfold byte_to_Z. intros H. apply N2Z.inj in H.
  pose proof (Byte.of_to_N b) as Hb. pose proof (Byte.of_to_N c) as Hc.
  rewrite H in Hb. congruence.
Qed.

Lemma byte_of_to_Z b : byte_of_Z (byte_to_Z b) = b.
Proof.
  apply byte_to_Z_inj. rewrite byte_to_of_Z.
  apply Z.mod_small, byte_to_Z_range.
Qed.

Lemma length_be_bytes n z : length (be_bytes n z) = n.
Proof.
  revert z. induction n as [|n IH]; intros z; simpl; [done|].
  rewrite length_app, IH. simpl. lia.
Qed.

Lemma zlen_be_bytes n z : zlen (be_bytes n z) = Z.of_nat n.
Proof. unfold zlen. by rewrite length_be_bytes. Qed.

Lemma be_value_snoc bs b : be_value (bs ++ [b]) = be_value bs * 256 + byte_to_Z b.
Proof. unfold be_value. by rewrite fold_left_app. Qed.

Lemma be_value_bytes n z : be_value (be_bytes n z) = z mod 256 ^ Z.of_nat n.
Proof.
  revert z. induction n as [|n IH]; intros z.
  - simpl. by rewrite Z.mod_1_r.
  - cbn [be_bytes]. rewrite be_value_snoc, IH, byte_to_of_Z.
    rewrite Nat2Z.inj_succ, Z.pow_succ_r by lia.
    rewrite Z.rem_mul_r by (try apply Z.pow_pos_nonneg; lia). lia.
Qed.

Lemma be_value_range bs : 0 <= be_value bs < 256 ^ zlen bs.
Proof.
  induction bs as [|b bs IH] using rev_ind; [done|].
  rewrite be_value_snoc, zlen_app. change (zlen [b]) with 1.
  rewrite Z.pow_add_r, Z.pow_1_r by (pose proof (zlen_nonneg bs); lia).
  pose proof (byte_to_Z_range b). nia.
Qed.

Lemma be_bytes_value bs n : length bs = n -> be_bytes n (be_value bs) = bs.
Proof.
  revert n. induction bs as [|b bs IH] using rev_ind; intros n Hn.
  - by subst.
  - rewrite length_app in Hn. simpl in Hn. destruct n as [|n]; [lia|].
    cbn [be_bytes]. rewrite be_value_snoc.
    pose proof (byte_to_Z_range b).
    replace ((be_value bs * 256 + byte_to_Z b) / 256) with (be_value bs)
      by (rewrite Z.div_add_l, Z.div_small by lia; lia).
    rewrite IH by lia. f_equal. f_equal. apply byte_to_Z_inj.
    rewrite byte_to_of_Z, Z.add_comm, Z.mod_add by lia. apply Z.mod_small. lia.
Qed.

Lemma pow_256 n : 0 <= n -> 256 ^ n = 2 ^ (8 * n).
Proof. intros. rewrite Z.pow_mul_r by lia. done. Qed.

Lemma from_to_be_bytes_signed n z :
  (0 < n)%nat -> in_signed (8 * Z.of_nat n) z ->
  from_be_bytes_signed (to_be_bytes n z) = z.
Proof.
  intros Hn Hz. unfold from_be_bytes_signed, to_be_bytes.
  rewrite zlen_be_bytes, be_value_bytes, pow_256 by lia.
  rewrite wrap_signed_mod by lia. apply wrap_signed_id; [lia|done].
Qed.

Lemma from_to_be_bytes_unsigned n z :
  in_unsigned (8 * Z.of_nat n) z -> from_be_bytes_unsigned (to_be_bytes n z) = z.
Proof.
  unfold in_unsigned, from_be_bytes_unsigned, to_be_bytes. intros Hz.
  rewrite be_value_bytes, pow_256 by lia. by apply Z.mod_small.
Qed.

Lemma from_be_bytes_signed_range bs :
  bs <> [] -> in_signed (8 * zlen bs) (from_be_bytes_signed bs).
Proof.
  intros H. apply wrap_signed_range. destruct bs; [done|]. rewrite zlen_cons.
  pose proof (zlen_nonneg bs). lia.
Qed.

Lemma to_from_be_bytes_signed bs n :
  length bs = n -> (0 < n)%nat -> to_be_bytes n (from_be_bytes_signed bs) = bs.
Proof.
  intros Hl Hn. unfold to_be_bytes, from_be_bytes_signed, wrap_signed.
  assert (Hz : zlen bs = Z.of_nat n) by (unfold zlen; lia). rewrite Hz.
  set (h := 2 ^ (8 * Z.of_nat n - 1)). set (v := be_value bs).
  assert (Hmod : forall a b, a mod 256 ^ Z.of_nat n = b mod 256 ^ Z.of_nat n ->
    be_bytes n a = be_bytes n b).
  { intros a b Hab.
    rewrite <-(be_bytes_value (be_bytes n a) n), <-(be_bytes_value (be_bytes n b) n)
      by apply length_be_bytes.
    by rewrite !be_value_bytes, Hab. }
  transitivity (be_bytes n v); [|by apply be_bytes_value].
  apply Hmod. rewrite pow_256 by lia.
  rewrite Zminus_mod_idemp_l. f_equal. lia.
Qed.

Lemma from_utf8_some bs s : from_utf8 bs = Some s <-> s = bs /\ rstring_wf bs.
Proof. unfold from_utf8, rstring_wf. destruct (utf8_valid bs); naive_solver. Qed.

#[export] Hint Resolve byte_to_Z_range : rust.
