(* ===== verification/Wire.v ===== *)
(** * Readers, writers and the traits of src/protocol/traits.rs

    A [Read]er is a [src]: the bytes it will still deliver and the error it
    reports once they are exhausted.  [Cursor<Vec<u8>>] is a source without an
    error of its own, [Take<R>] and the decompressors are sources derived from
    another one.  A [Write]r is the bytes it appends to a [Vec<u8>].

    [ReadType] and [WriteType] are the traits of the source.  The laws that
    tie them together are classes too: [RoundTrip] (what is written is read
    back, and nothing else is consumed) and [Streaming] (a reader depends only
    on the bytes it consumes, and reports end-of-file on any proper prefix of
    them). *)

From Stdlib Require Import ZArith Lia.
From stdpp Require Import base list numbers.
From S2P Require Import Prelude Bytes.

Local Open Scope Z_scope.
Local Open Scope rust_scope.

(** ** Errors *)

(** [std::io::ErrorKind], as far as the crate looks at it. *)
Inductive ErrorKind : Type :=
| UnexpectedEof
| InvalidData
| InvalidInput
| OtherIo.

#[export] Instance ErrorKind_eq_dec : EqDecision ErrorKind.
Proof. solve_decision. Defined.

(** The errors of the raw snappy decoder that the crate inspects. *)
Inductive SnapError : Type :=
| SnapEmpty
| SnapCopyWrite
| SnapLiteral (len dst_len src_len : Z)
| SnapHeaderMismatch (expected_len got_len : Z)
| SnapBufferTooSmall
| SnapOffset
| SnapOther.

(** The payload of [Malformed]: which check of the crate failed, with the
    values its message reports. *)
Inductive malformed : Type :=
| VarintOverflow
| NegativeLength (l : Z)
| NegativeArrayLength (l : Z)
| TryFromInt
| Utf8
| ZeroLengthCompactString
| TrailingAfterRecord (n : Z)
| UnknownControlVersion (v : Z)
| UnknownControlType (t : Z)
| BatchLenTooSmall (l : Z)
| InvalidMagic (m : Z)
| CrcMismatch (actual expected : Z)
| TrailingAfterBatch (n : Z)
| ExpectedOneControlRecord (n : Z)
| InvalidCompression (c : Z)
| UnimplementedCompression
| JavaSnappyVersion (buf : list byte)
| JavaSnappyCompat (buf : list byte)
| JavaSnappyChunk (chunk_length bytes_left : Z)
| Snap (e : SnapError)
| BrokenSnappy
| DataLeftGzip
| DataLeftLz4
| DataLeftSnappy
| DataLeftZstd.

(** [traits::ReadError] and [traits::WriteError]. *)
Inductive ReadError : Type :=
| ReadIO (e : ErrorKind)
| ReadOverflow
| ReadMalformed (m : malformed).

Inductive WriteError : Type :=
| WriteIO (e : ErrorKind)
| WriteOverflow
| WriteMalformed (m : malformed).

(** Error types an I/O error converts into ([From<std::io::Error>]). *)
Class FromIo (E : Type) : Type := from_io : ErrorKind -> E.
#[export] Instance FromIo_ErrorKind : FromIo ErrorKind := fun e => e.
#[export] Instance FromIo_ReadError : FromIo ReadError := ReadIO.

(** ** Sources *)
Record src : Type := mkSrc {
  src_data : list byte;
  src_tail : option ErrorKind;
}.

(** [Cursor::new]. *)
Definition cursor (bs : list byte) : src := mkSrc bs None.

(** The source that delivers [bs] and then behaves like [s]. *)
Definition src_app (bs : list byte) (s : src) : src := mkSrc (bs ++ src_data s) (src_tail s).

Infix "+>" := src_app (at level 60, right associativity) : rust_scope.

(** What [read_exact] reports when the bytes run out. *)
Definition eof_error (tail : option ErrorKind) : ErrorKind := default UnexpectedEof tail.

(** [Read::take]. *)
Definition src_take (n : Z) (s : src) : src :=
  if n <=? zlen (src_data s) then mkSrc (take (Z.to_nat n) (src_data s)) None
  else s.

Definition src_drop (n : Z) (s : src) : src :=
  mkSrc (drop (Z.to_nat n) (src_data s)) (src_tail s).

(** ** The reader monad *)
Definition reader (E A : Type) : Type := src -> outcome E (A * src).

Definition rret {E A} (a : A) : reader E A := fun s => Ok (a, s).

Definition rbind {E A B} (m : reader E A) (k : A -> reader E B) : reader E B :=
  fun s => match m s with
           | Ok (a, s') => k a s'
           | Err e => Err e
           | Panic p => Panic p
           end.

Definition rlift {E A} (m : outcome E A) : reader E A :=
  fun s => match m with
           | Ok a => Ok (a, s)
           | Err e => Err e
           | Panic p => Panic p
           end.

Definition rerr {E A} (e : E) : reader E A := rlift (Err e).

Definition rmap_err {E F A} (f : E -> F) (m : reader E A) : reader F A :=
  fun s => omap_err f (m s).

Definition rassert {E} (b : bool) : reader E unit := rlift (oassert b).

Notation "'let?' x ':=' m 'in' k" := (rbind m (fun x => k))
  (at level 10, x pattern, m at level 100, k at level 200,
   format "'[v' 'let?'  x  ':='  m  'in' '/' k ']'") : rust_scope.

(** [for _ in 0..n { out.push(r(reader)?) }]. *)
Fixpoint read_many {E A} (n : nat) (r : reader E A) : reader E (list A) :=
  match n with
  | O => rret []
  | S n => let? x := r in let? xs := read_many n r in rret (x :: xs)
  end.

(** [(b).then(|| r(reader)).transpose()?]. *)
Definition read_when {E A} (b : bool) (r : reader E A) : reader E (option A) :=
  if b then let? x := r in rret (Some x) else rret None.

(** [Read::read_exact] for a buffer of [n] bytes. *)
Definition read_exact (n : Z) : reader ErrorKind (list byte) :=
  fun s =>
    if n <=? zlen (src_data s)
    then Ok (take (Z.to_nat n) (src_data s), src_drop n s)
    else Err (eof_error (src_tail s)).

(** [reader.read_exact(&mut buf)?] in a function that returns [ReadError]. *)
Definition read_exact_io (n : Z) : reader ReadError (list byte) := rmap_err ReadIO (read_exact n).

(** ** Writers *)
Definition writer (E : Type) : Type := outcome E (list byte).

(** [writer.write_all(bs)?] on a [Vec<u8>]. *)
Definition write_all {E} (bs : list byte) : writer E := Ok bs.

Definition wseq {E} (a b : writer E) : writer E :=
  let! x := a in let! y := b in Ok (x ++ y).

Infix ";+" := wseq (at level 55, right associativity) : rust_scope.

Definition wnil {E} : writer E := Ok [].

Arguments wseq : simpl never.
Arguments write_all : simpl never.

(** [for x in l { x.write(writer)? }]. *)
Fixpoint write_many {E A} (w : A -> writer E) (l : list A) : writer E :=
  match l with
  | [] => wnil
  | x :: l => w x ;+ write_many w l
  end.

(** [if b { w }]. *)
Definition write_when {E} (b : bool) (w : writer E) : writer E := if b then w else wnil.

(** ** The traits *)
Class ReadType (A : Type) : Type := read : reader ReadError A.
Class WriteType (A : Type) : Type := write : A -> writer WriteError.

(** The invariant of a Rust type that its Rocq counterpart does not carry in
    its structure: integer ranges and UTF-8 validity. *)
Class WellFormed (A : Type) : Type := wf : A -> Prop.

Arguments read : simpl never.
Arguments write : simpl never.
Arguments wf : simpl never.

(** ** Laws *)
Definition round_trip {E F A} (ok : A -> Prop) (w : A -> writer E) (r : reader F A) : Prop :=
  forall x bs s, ok x -> w x = Ok bs -> r (bs +> s) = Ok (x, s).

Definition streaming {E A} `{FromIo E} (r : reader E A) : Prop :=
  forall s x s', r s = Ok (x, s') ->
  exists bs,
    s = bs +> s' /\
    (forall t, r (bs +> t) = Ok (x, t)) /\
    (forall p q tail, bs = p ++ q -> q <> [] -> r (mkSrc p tail) = Err (from_io (eof_error tail))).

Definition no_panic {E A} (r : reader E A) : Prop := forall s p, r s <> Panic p.

Class RoundTrip (A : Type) `{ReadType A, WriteType A, WellFormed A} : Prop :=
  read_write : round_trip wf write read.
Class Streaming (A : Type) `{ReadType A} : Prop := read_streaming : streaming read.
Class NoPanic (A : Type) `{ReadType A} : Prop := read_no_panic : no_panic read.
Class ReadWf (A : Type) `{ReadType A, WellFormed A} : Prop :=
  read_wf : forall s x s', read s = Ok (x, s') -> wf x.

(** ** Lemmas on sources *)
Lemma src_app_nil s : [] +> s = s.
Proof. by destruct s. Qed.

Lemma src_app_app a b s : (a ++ b) +> s = a +> b +> s.
Proof. unfold src_app. simpl. by rewrite (assoc_L (++)). Qed.

Lemma src_app_inj_l a b s : a +> s = b +> s -> a = b.
Proof. unfold src_app. intros [= H]. by apply app_inv_tail in H. Qed.

Lemma src_app_mkSrc bs p tail : bs +> mkSrc p tail = mkSrc (bs ++ p) tail.
Proof. done. Qed.

Lemma src_app_cursor bs : bs +> cursor [] = cursor bs.
Proof. unfold src_app, cursor. simpl. by rewrite app_nil_r. Qed.

Lemma src_eta s : s = mkSrc (src_data s) (src_tail s).
Proof. by destruct s. Qed.

(** ** Lemmas on readers *)
Lemma rbind_ok {E A B} (m : reader E A) (k : A -> reader E B) s b s'' :
  rbind m k s = Ok (b, s'') <-> exists a s', m s = Ok (a, s') /\ k a s' = Ok (b, s'').
Proof.
  unfold rbind. destruct (m s) as [[a s']|e|p]; split; try naive_solver.
Qed.

Lemma rbind_run {E A B} (m : reader E A) (k : A -> reader E B) s a s' :
  m s = Ok (a, s') -> rbind m k s = k a s'.
Proof. unfold rbind. by intros ->. Qed.

Lemma rlift_ok {E A} (m : outcome E A) s a s' :
  rlift m s = Ok (a, s') <-> m = Ok a /\ s' = s.
Proof. unfold rlift. destruct m; naive_solver. Qed.

Lemma rret_ok {E A} (a b : A) s s' : @rret E A a s = Ok (b, s') <-> b = a /\ s' = s.
Proof. unfold rret. naive_solver. Qed.

Lemma rmap_err_ok {E F A} (f : E -> F) (m : reader E A) s x :
  rmap_err f m s = Ok x <-> m s = Ok x.
Proof. unfold rmap_err. apply omap_err_ok. Qed.

Lemma rassert_true {E} s : @rassert E true s = Ok (tt, s).
Proof. done. Qed.

Lemma read_exact_app n bs s :
  n = zlen bs -> read_exact n (bs +> s) = Ok (bs, s).
Proof.
  intros ->. unfold read_exact, src_drop, src_app. simpl.
  rewrite zlen_app, to_nat_zlen, take_app_length, drop_app_length.
  pose proof (zlen_nonneg (src_data s)).
  destruct (Z.leb_spec (zlen bs) (zlen bs + zlen (src_data s))); [|lia].
  by destruct s.
Qed.

Lemma read_exact_ok n s bs s' :
  0 <= n -> read_exact n s = Ok (bs, s') -> s = bs +> s' /\ zlen bs = n.
Proof.
  unfold read_exact, src_drop, src_app. intros Hn.
  destruct (Z.leb_spec n (zlen (src_data s))) as [Hle|]; [|done].
  intros [= <- <-]. simpl. rewrite take_drop. split; [by destruct s|].
  unfold zlen in *. rewrite length_take. lia.
Qed.

Lemma read_exact_progress n s bs s' :
  0 <= n -> read_exact n s = Ok (bs, s') ->
  Z.of_nat (length (src_data s)) = n + Z.of_nat (length (src_data s')).
Proof.
  intros Hn H. apply read_exact_ok in H as [-> <-]; [|done]. simpl.
  rewrite length_app. unfold zlen. lia.
Qed.

(** Reading [k + m] bytes is reading [k] bytes and then [m] bytes. *)
Lemma read_exact_add k m s :
  0 <= k -> 0 <= m ->
  read_exact (k + m) s =
    rbind (read_exact k) (fun a => rbind (read_exact m) (fun b => rret (a ++ b))) s.
Proof.
  intros Hk Hm. unfold rbind, rret, read_exact, src_drop, zlen. simpl.
  destruct (Z.leb_spec k (Z.of_nat (length (src_data s)))).
  2: { destruct (Z.leb_spec (k + m) (Z.of_nat (length (src_data s)))); [lia|done]. }
  simpl. rewrite length_drop.
  destruct (Z.leb_spec m (Z.of_nat (length (src_data s) - Z.to_nat k))) as [H1|H1];
    destruct (Z.leb_spec (k + m) (Z.of_nat (length (src_data s)))) as [H2|H2]; try lia; [|done].
  rewrite drop_drop, Z2Nat.inj_add by lia. do 2 f_equal.
  rewrite <-(take_drop (Z.to_nat k) (take (Z.to_nat k + Z.to_nat m) (src_data s))).
  rewrite take_take, skipn_firstn_comm. f_equal; f_equal; lia.
Qed.

Lemma read_exact_io_app n bs s :
  n = zlen bs -> read_exact_io n (bs +> s) = Ok (bs, s).
Proof. intros H. apply rmap_err_ok, read_exact_app, H. Qed.

Lemma read_exact_io_ok n s bs s' :
  0 <= n -> read_exact_io n s = Ok (bs, s') -> s = bs +> s' /\ zlen bs = n.
Proof. intros Hn H. apply rmap_err_ok in H. by apply read_exact_ok. Qed.

(** *** Streaming is preserved by the combinators *)
Lemma streaming_ret {E A} `{FromIo E} (a : A) : streaming (rret a : reader E A).
Proof.
  intros s x s' [-> ->]%rret_ok. exists []. split; [by rewrite src_app_nil|].
  split; [intros t; by rewrite src_app_nil|].
  intros p q tail [-> ->]%eq_sym%app_nil Hq. done.
Qed.

Lemma streaming_lift {E A} `{FromIo E} (m : outcome E A) : streaming (rlift m).
Proof.
  destruct m as [a|e|p]; [apply streaming_ret| |]; intros s x s'; done.
Qed.

Lemma streaming_err {E A} `{FromIo E} (e : E) : streaming (rerr e : reader E A).
Proof. apply streaming_lift. Qed.

Lemma streaming_bind_where {E A B} `{FromIo E} (P : A -> Prop) (m : reader E A)
    (k : A -> reader E B) :
  streaming m -> (forall s a s', m s = Ok (a, s') -> P a) ->
  (forall a, P a -> streaming (k a)) -> streaming (rbind m k).
Proof.
  intros Hm HP Hk s b s'' (a & s' & H1 & H2)%rbind_ok.
  destruct (Hm _ _ _ H1) as (b1 & -> & L1 & T1).
  destruct (Hk _ (HP _ _ _ H1) _ _ _ H2) as (b2 & -> & L2 & T2).
  exists (b1 ++ b2). split; [by rewrite src_app_app|]. split.
  - intros t. rewrite src_app_app. erewrite rbind_run by apply L1. apply L2.
  - intros p q tail Hpq Hq. destruct (app_cut _ _ _ _ Hpq) as [(r & -> & Hr)|(r & -> & ->)].
    + unfold rbind. by rewrite (T1 _ _ tail eq_refl Hr).
    + rewrite <-src_app_mkSrc. erewrite rbind_run by apply L1. by apply (T2 _ q).
Qed.

Lemma streaming_bind {E A B} `{FromIo E} (m : reader E A) (k : A -> reader E B) :
  streaming m -> (forall a, streaming (k a)) -> streaming (rbind m k).
Proof. intros Hm Hk. by apply (streaming_bind_where (fun _ => True)). Qed.

Lemma streaming_map_err {E F A} `{FromIo E, FromIo F} (f : E -> F) (r : reader E A) :
  (forall e, f (from_io e) = from_io e) -> streaming r -> streaming (rmap_err f r).
Proof.
  intros Hf Hr s x s' Hs%rmap_err_ok. destruct (Hr _ _ _ Hs) as (bs & -> & L & T).
  exists bs. split; [done|]. split.
  - intros t. apply rmap_err_ok, L.
  - intros p q tail Hpq Hq. unfold rmap_err. rewrite (T _ _ tail Hpq Hq). simpl. by rewrite Hf.
Qed.

Lemma streaming_read_exact n : 0 <= n -> streaming (read_exact n).
Proof.
  intros Hn s bs s' H. apply read_exact_ok in H as [-> Hl]; [|done].
  exists bs. split; [done|]. split; [intros t; by apply read_exact_app|].
  intros p q tail -> Hq. unfold read_exact. simpl.
  rewrite zlen_app in Hl. destruct (Z.leb_spec n (zlen p)); [|done].
  assert (zlen q = 0) by (pose proof (zlen_nonneg q); lia). by apply zlen_0 in H0.
Qed.

Lemma streaming_read_exact_io n : 0 <= n -> streaming (read_exact_io n).
Proof. intros Hn. apply streaming_map_err; [done|]. by apply streaming_read_exact. Qed.

Lemma streaming_read_many {E A} `{FromIo E} n (r : reader E A) :
  streaming r -> streaming (read_many n r).
Proof.
  intros Hr. induction n as [|n IH]; simpl; [apply streaming_ret|].
  repeat (apply streaming_bind; [done|intros ?]). apply streaming_ret.
Qed.

Lemma streaming_read_when {E A} `{FromIo E} b (r : reader E A) :
  streaming r -> streaming (read_when b r).
Proof.
  intros Hr. destruct b; simpl; [|apply streaming_ret].
  apply streaming_bind; [done|]. intros ?. apply streaming_ret.
Qed.

(** *** So is the absence of panics *)
Lemma no_panic_ret {E A} (a : A) : no_panic (rret a : reader E A).
Proof. by intros s p. Qed.

Lemma no_panic_err {E A} (e : E) : no_panic (rerr e : reader E A).
Proof. by intros s p. Qed.

Lemma no_panic_bind_where {E A B} (P : A -> Prop) (m : reader E A) (k : A -> reader E B) :
  no_panic m -> (forall s a s', m s = Ok (a, s') -> P a) ->
  (forall a, P a -> no_panic (k a)) -> no_panic (rbind m k).
Proof.
  intros Hm HP Hk s p. unfold rbind. specialize (Hm s). specialize (HP s).
  destruct (m s) as [[a s']|e|p'] eqn:E1; [by eapply Hk, HP|done|]. intros _. by apply (Hm p').
Qed.

Lemma no_panic_bind {E A B} (m : reader E A) (k : A -> reader E B) :
  no_panic m -> (forall a, no_panic (k a)) -> no_panic (rbind m k).
Proof. intros Hm Hk. by apply (no_panic_bind_where (fun _ => True)). Qed.

Lemma no_panic_map_err {E F A} (f : E -> F) (m : reader E A) :
  no_panic m -> no_panic (rmap_err f m).
Proof.
  intros Hm s p. unfold rmap_err. specialize (Hm s). destruct (m s); simpl; [done|done|].
  intros _. by apply (Hm p0).
Qed.

Lemma no_panic_lift {E A} (m : outcome E A) : (forall p, m <> Panic p) -> no_panic (rlift m).
Proof. intros Hm s p. unfold rlift. destruct m as [|?|p']; [done|done|]. by destruct (Hm p'). Qed.

Lemma no_panic_ok_or {E A} (e : E) (o : option A) : no_panic (rlift (ok_or e o)).
Proof. intros s p. by destruct o. Qed.

Lemma no_panic_read_exact n : no_panic (read_exact n).
Proof. intros s p. unfold read_exact. by destruct (_ <=? _). Qed.

Lemma no_panic_read_exact_io n : no_panic (read_exact_io n).
Proof. apply no_panic_map_err, no_panic_read_exact. Qed.

Lemma no_panic_read_many {E A} n (r : reader E A) : no_panic r -> no_panic (read_many n r).
Proof.
  intros Hr. induction n as [|n IH]; simpl; [apply no_panic_ret|].
  repeat (apply no_panic_bind; [done|intros ?]). apply no_panic_ret.
Qed.

Lemma no_panic_read_when {E A} (b : bool) (r : reader E A) :
  (b = true -> no_panic r) -> no_panic (read_when b r).
Proof.
  intros Hr. destruct b; simpl; [|apply no_panic_ret].
  apply no_panic_bind; [by apply Hr|]. intros ?. apply no_panic_ret.
Qed.

(** ** Lemmas on writers *)
Lemma wseq_ok {E} (a b : writer E) bs :
  (a ;+ b) = Ok bs <-> exists x y, a = Ok x /\ b = Ok y /\ bs = x ++ y.
Proof.
  unfold wseq. split.
  - intros (x & Hx & (y & Hy & [= <-])%obind_ok)%obind_ok. naive_solver.
  - intros (x & y & -> & -> & ->). done.
Qed.

Lemma write_all_ok {E} (bs cs : list byte) : @write_all E bs = Ok cs <-> cs = bs.
Proof. unfold write_all. naive_solver. Qed.

Lemma wnil_ok {E} (bs : list byte) : @wnil E = Ok bs <-> bs = [].
Proof. unfold wnil. naive_solver. Qed.

Lemma round_trip_many {E F A} (ok : A -> Prop) (w : A -> writer E) (r : reader F A) :
  round_trip ok w r ->
  forall l bs s, Forall ok l -> write_many w l = Ok bs ->
  read_many (length l) r (bs +> s) = Ok (l, s).
Proof.
  intros Hrt l. induction l as [|x l IH]; intros bs s Hok Hw; simpl in *.
  - apply wnil_ok in Hw as ->. by rewrite src_app_nil.
  - apply wseq_ok in Hw as (b1 & b2 & H1 & H2 & ->). inversion Hok; subst.
    rewrite src_app_app. erewrite rbind_run by (by apply Hrt).
    erewrite rbind_run by (by apply IH). done.
Qed.

(** ** Consequences of the laws *)

(** Encodings form a prefix code: two encoded values that start the same
    stream are the same value, and leave the same rest. *)
Lemma encoding_unique {E F A} (ok : A -> Prop) (w : A -> writer E) (r : reader F A) x y bx b_y rx ry :
  round_trip ok w r -> ok x -> ok y ->
  w x = Ok bx -> w y = Ok b_y -> bx ++ rx = b_y ++ ry -> x = y /\ rx = ry.
Proof.
  intros Hrt Hx Hy Wx Wy Heq.
  pose proof (Hrt _ _ (cursor rx) Hx Wx) as H1.
  pose proof (Hrt _ _ (cursor ry) Hy Wy) as H2.
  unfold src_app, cursor in *. simpl in *. rewrite Heq, H2 in H1. naive_solver.
Qed.

(** ** Automation *)
#[export] Hint Resolve streaming_ret streaming_lift streaming_err streaming_read_exact_io
  streaming_read_many streaming_read_when : streaming.
#[export] Hint Resolve no_panic_ret no_panic_err no_panic_ok_or no_panic_read_exact_io
  no_panic_read_many no_panic_read_when : streaming.
