(* ===== verification/VecBuilder.v ===== *)
(** * The memory-bounded vector builder (src/protocol/vec_builder.rs)

    [VecBuilder] collects elements in blocks of at most [elements_per_block]
    so that a length field taken from the network never makes the client
    allocate more than one block ahead of the data it has actually received.
    The operations are modelled on the blocks themselves; the refinement
    theorems say that a builder is, to its callers, the list of the elements
    pushed so far, and that filling it from a reader is one [read_exact]. *)

From Stdlib Require Import ZArith Lia.
From stdpp Require Import base list numbers.
From S2P Require Import Prelude Bytes Wire.

Local Open Scope Z_scope.
Local Open Scope rust_scope.

(** [DEFAULT_BLOCK_SIZE]: 10 MB. *)
Definition DEFAULT_BLOCK_SIZE : Z := 1024 * 1024 * 10.

(** [struct VecBuilder<T>]. *)
Record VecBuilder (T : Type) : Type := mkVecBuilder {
  elements_per_block : Z;
  blocks : list (list T);
  remaining_elements : Z;
}.
Arguments mkVecBuilder {T} _ _ _.
Arguments elements_per_block {T} _.
Arguments blocks {T} _.
Arguments remaining_elements {T} _.

Section operations.
Context {T : Type}.

(** [VecBuilder::new_with_block_size]; [element_size] is [size_of::<T>()]. *)
Definition new_with_block_size {E} (element_size expected_elements block_size : Z) :
    outcome E (VecBuilder T) :=
  let epb := if element_size =? 0 then expected_elements else block_size / element_size in
  if epb =? 0 then Panic ExplicitPanic
  else Ok (mkVecBuilder epb [[]] expected_elements).

(** [VecBuilder::new]. *)
Definition VecBuilder_new {E} (element_size expected_elements : Z) : outcome E (VecBuilder T) :=
  new_with_block_size element_size expected_elements DEFAULT_BLOCK_SIZE.

(** The code that [push] and [read_exact] share: the last block, or a new one
    when the last block is full.  The result is the blocks before it and the
    block itself. *)
Definition target_block {E} (b : VecBuilder T) : outcome E (list (list T) * list T) :=
  match list.last (blocks b) with
  | None => Panic ExpectFailed
  | Some blk =>
      if elements_per_block b <=? zlen blk then Ok (blocks b, [])
      else Ok (removelast (blocks b), blk)
  end.

(** [VecBuilder::push]. *)
Definition push {E} (element : T) (b : VecBuilder T) : outcome E (VecBuilder T) :=
  let! _ := oassert (0 <? remaining_elements b) in
  let! (before, blk) := target_block b in
  Ok (mkVecBuilder (elements_per_block b) (before ++ [blk ++ [element]])
        (remaining_elements b - 1)).

(** [impl From<VecBuilder<T>> for Vec<T>]. *)
Definition into_vec (b : VecBuilder T) : list T :=
  match blocks b with
  | [blk] => blk
  | blks => fold_left (fun out blk => out ++ blk) blks []
  end.
End operations.

(** The loop of [VecBuilder<u8>::read_exact].  An iteration reads at least one
    byte, so one iteration more than there are bytes in the source is enough;
    [None] says that the fuel ran out. *)
Fixpoint read_exact_loop (fuel : nat) (b : VecBuilder byte) (s : src) :
    option (outcome ErrorKind (VecBuilder byte * src)) :=
  match fuel with
  | O => None
  | S fuel =>
      if remaining_elements b <=? 0 then Some (Ok (b, s))
      else match target_block b with
      | Ok (before, buf) =>
          let to_read := Z.min (remaining_elements b) (elements_per_block b - zlen buf) in
          match read_exact to_read s with
          | Ok (bs, s') =>
              read_exact_loop fuel
                (mkVecBuilder (elements_per_block b) (before ++ [buf ++ bs])
                   (remaining_elements b - to_read)) s'
          | Err e => Some (Err e)
          | Panic p => Some (Panic p)
          end
      | Err e => Some (Err e)
      | Panic p => Some (Panic p)
      end
  end.

(** [VecBuilder<u8>::read_exact]. *)
Definition builder_read_exact (b : VecBuilder byte) : reader ErrorKind (VecBuilder byte) :=
  fun s => default (Panic Unreachable) (read_exact_loop (S (length (src_data s))) b s).

(** The idiom of the protocol code:
    [let mut buf = VecBuilder::new(len); buf = buf.read_exact(reader)?; buf.into()]. *)
Definition read_bytes (len : Z) : reader ReadError (list byte) :=
  let? buf := rlift (VecBuilder_new 1 len) in
  let? buf := rmap_err ReadIO (builder_read_exact buf) in
  rret (into_vec buf).

(** The other idiom: [for _ in 0..len { builder.push(T::read(reader)?) }]. *)
Fixpoint read_push_loop {E T} (n : nat) (r : reader E T) (b : VecBuilder T) :
    reader E (VecBuilder T) :=
  match n with
  | O => rret b
  | S n => let? x := r in let? b := rlift (push x b) in read_push_loop n r b
  end.

(** ** Invariant *)

(** Every block but the last is full, no block is larger than the limit, and
    there is always a last block. *)
Record builder_inv {T} (b : VecBuilder T) : Prop := {
  inv_epb : 0 < elements_per_block b;
  inv_remaining : 0 <= remaining_elements b;
  inv_blocks : exists before blk,
    blocks b = before ++ [blk] /\
    Forall (fun x => zlen x = elements_per_block b) before /\
    zlen blk <= elements_per_block b;
}.

(** The abstract value of a builder: the elements pushed so far. *)
Definition contents {T} (b : VecBuilder T) : list T := concat (blocks b).

Section lemmas.
Context {T : Type}.
Implicit Types b : VecBuilder T.

Lemma new_inv {E} element_size expected block_size b :
  0 <= expected -> 0 <= element_size -> 0 <= block_size ->
  new_with_block_size (E:=E) element_size expected block_size = Ok b ->
  builder_inv b /\ contents b = [] /\ remaining_elements b = expected.
Proof.
  intros He Hs Hb. unfold new_with_block_size.
  destruct (Z.eqb_spec element_size 0) as [->|Hne].
  - destruct (Z.eqb_spec expected 0); [done|]. intros [= <-].
    split; [|done]. split; simpl; [lia|lia|]. exists [], []. done.
  - destruct (Z.eqb_spec (block_size / element_size) 0); [done|]. intros [= <-].
    assert (0 <= block_size / element_size) by (apply Z.div_pos; lia).
    split; [|done]. split; simpl; [lia|lia|]. exists [], []. split; [done|].
    split; [done|]. rewrite zlen_nil. lia.
Qed.

Lemma target_block_inv {E} b :
  builder_inv b ->
  exists before blk,
    target_block (E:=E) b = Ok (before, blk) /\
    contents b = concat before ++ blk /\
    Forall (fun x => zlen x = elements_per_block b) before /\
    zlen blk < elements_per_block b.
Proof.
  intros [He Hr (before & blk & Hb & Hf & Hl)]. unfold target_block, contents.
  rewrite Hb, last_snoc, removelast_last.
  destruct (Z.leb_spec (elements_per_block b) (zlen blk)).
  - exists (before ++ [blk]), []. split; [done|]. rewrite app_nil_r. split; [done|].
    split; [|by rewrite zlen_nil]. apply Forall_app. split; [done|].
    apply Forall_singleton. lia.
  - exists before, blk. split; [done|]. rewrite concat_app. simpl. by rewrite app_nil_r.
Qed.

Lemma push_inv {E} x b :
  builder_inv b -> 0 < remaining_elements b ->
  exists b', push (E:=E) x b = Ok b' /\ builder_inv b' /\
    contents b' = contents b ++ [x] /\
    remaining_elements b' = remaining_elements b - 1.
Proof.
  intros Hinv Hr. unfold push. apply Z.ltb_lt in Hr as Hr'. rewrite Hr'. simpl.
  destruct (target_block_inv (E:=E) b Hinv) as (before & blk & -> & Hc & Hf & Hl). simpl.
  eexists. split; [done|]. unfold contents in *. simpl. rewrite Hc, concat_app. simpl.
  rewrite app_nil_r, (assoc_L (++)). split; [|done].
  destruct Hinv as [He _ _]. split; simpl; [done|lia|].
  exists before, (blk ++ [x]). split; [done|]. split; [done|].
  rewrite zlen_app. change (zlen [x]) with 1. lia.
Qed.

Lemma into_vec_contents b : into_vec b = contents b.
Proof.
  unfold into_vec, contents.
  assert (H : forall (l : list (list T)) acc,
    fold_left (fun out blk => out ++ blk) l acc = acc ++ concat l).
  { induction l as [|x l IH]; intros acc; simpl; [by rewrite app_nil_r|].
    rewrite IH. by rewrite (assoc_L (++)). }
  destruct (blocks b) as [|blk [|blk' l]]; [done| |].
  - simpl. by rewrite app_nil_r.
  - rewrite H. done.
Qed.

(** Reading [n] elements into a builder with room for them is [read_many]. *)
Lemma read_push_loop_spec {E} n (r : reader E T) b s :
  builder_inv b -> Z.of_nat n <= remaining_elements b ->
  match read_many n r s with
  | Ok (xs, s') => exists b', read_push_loop n r b s = Ok (b', s') /\
                     builder_inv b' /\ contents b' = contents b ++ xs
  | Err e => read_push_loop n r b s = Err e
  | Panic p => read_push_loop n r b s = Panic p
  end.
Proof.
  revert b s. induction n as [|n IH]; intros b s Hinv Hr; simpl.
  - exists b. by rewrite app_nil_r.
  - unfold rbind. destruct (r s) as [[x s']|e|p]; [|done|done].
    destruct (push_inv (E:=E) x b Hinv) as (b' & Hp & Hinv' & Hc & Hr'); [lia|].
    unfold rlift. rewrite Hp. specialize (IH b' s' Hinv' ltac:(lia)).
    destruct (read_many n r s') as [[xs s'']|e|p]; [|done|done].
    destruct IH as (b'' & -> & Hi & Hcc). exists b''. split; [done|]. split; [done|].
    by rewrite Hcc, Hc, <-(assoc_L (++)).
Qed.
End lemmas.

(** A block can always take one more byte, and the loop reads exactly the
    remaining bytes or stops at the end of the source. *)
Lemma read_exact_loop_spec fuel b s :
  builder_inv b -> (length (src_data s) < fuel)%nat ->
  match read_exact (remaining_elements b) s with
  | Ok (bs, s') => exists b', read_exact_loop fuel b s = Some (Ok (b', s')) /\
                     builder_inv b' /\ contents b' = contents b ++ bs
  | Err e => read_exact_loop fuel b s = Some (Err e)
  | Panic p => False
  end.
Proof.
  revert b s. induction fuel as [|fuel IH]; intros b s Hinv Hfuel; [lia|]. simpl.
  pose proof Hinv as [He Hr _].
  destruct (Z.leb_spec (remaining_elements b) 0) as [Hz|Hpos].
  { assert (remaining_elements b = 0) as -> by lia. unfold read_exact, src_drop. simpl.
    destruct (Z.leb_spec 0 (zlen (src_data s))); [|pose proof (zlen_nonneg (src_data s)); lia].
    simpl. rewrite drop_0. exists b. rewrite app_nil_r. by destruct s. }
  destruct (target_block_inv (E:=ErrorKind) b Hinv) as (before & blk & -> & Hc & Hf & Hl).
  set (k := Z.min (remaining_elements b) (elements_per_block b - zlen blk)).
  assert (Hk : 0 < k <= remaining_elements b) by lia.
  replace (read_exact (remaining_elements b) s)
    with (read_exact (k + (remaining_elements b - k)) s) by (f_equal; lia).
  rewrite read_exact_add by lia. unfold rbind at 1.
  destruct (read_exact k s) as [[d s1]|e|p] eqn:Hread; [|done|].
  2: { by apply no_panic_read_exact in Hread. }
  apply read_exact_progress in Hread as Hlen; [|lia].
  apply read_exact_ok in Hread as [-> Hd]; [|lia].
  set (b' := mkVecBuilder (elements_per_block b) (before ++ [blk ++ d]) (remaining_elements b - k)).
  assert (Hinv' : builder_inv b').
  { split; simpl; [lia|lia|]. exists before, (blk ++ d). split; [done|]. split; [done|].
    rewrite zlen_app. lia. }
  specialize (IH b' s1 Hinv' ltac:(lia)). change (remaining_elements b') with (remaining_elements b - k) in IH.
  unfold rbind. destruct (read_exact (remaining_elements b - k) s1) as [[bs s']|e|p]; [|done|done].
  destruct IH as (b'' & Hloop & Hi & Hcont). exists b''. split; [done|]. split; [done|].
  rewrite Hcont, Hc. unfold contents, b'. simpl.
  rewrite concat_app. simpl. by rewrite app_nil_r, <-!(assoc_L (++)).
Qed.

(** The idiom reads [len] bytes, like a plain [read_exact] into a vector of
    that size. *)
Lemma read_bytes_read_exact len s :
  0 <= len -> read_bytes len s = read_exact_io len s.
Proof.
  intros Hlen. unfold read_bytes, read_exact_io.
  destruct (VecBuilder_new (E:=ReadError) 1 len) as [b|e|p] eqn:Hnew; try done.
  pose proof Hnew as Hnew'. unfold VecBuilder_new in Hnew'.
  apply new_inv in Hnew' as (Hinv & Hc & Hr); [|unfold DEFAULT_BLOCK_SIZE; lia..].
  unfold rlift, rbind, rmap_err, builder_read_exact.
  pose proof (read_exact_loop_spec (S (length (src_data s))) b s Hinv ltac:(lia)) as Hspec.
  rewrite Hr in Hspec. destruct (read_exact len s) as [[bs s']|e|p].
  - destruct Hspec as (b' & -> & _ & Hb'). simpl. unfold rret.
    rewrite into_vec_contents, Hb', Hc. done.
  - rewrite Hspec. done.
  - done.
Qed.

Lemma read_bytes_app len bs s : len = zlen bs -> read_bytes len (bs +> s) = Ok (bs, s).
Proof.
  intros ->. rewrite read_bytes_read_exact by apply zlen_nonneg. by apply read_exact_io_app.
Qed.

Lemma streaming_read_bytes len : 0 <= len -> streaming (read_bytes len).
Proof.
  intros Hl s x s'. rewrite read_bytes_read_exact by done. intros H.
  destruct (streaming_read_exact_io len Hl s x s' H) as (bs & -> & L & Tr).
  exists bs. split; [done|]. split.
  - intros t. rewrite read_bytes_read_exact by done. apply L.
  - intros p q tail Hpq Hq. rewrite read_bytes_read_exact by done. by apply (Tr _ q).
Qed.

Lemma no_panic_read_bytes len : 0 <= len -> no_panic (read_bytes len).
Proof.
  intros Hl s p. rewrite read_bytes_read_exact by done. apply no_panic_read_exact_io.
Qed.

#[export] Hint Resolve streaming_read_bytes no_panic_read_bytes : streaming.
