(* ===== verification/Varint.v ===== *)
(** * Variable-length integers (src/protocol/primitives.rs)

    [UnsignedVarint] is read and written by loops of the crate itself; they
    are modelled bit by bit.  [Varint] and [Varlong] delegate to the
    [integer-encoding] crate, whose two functions are parameters here
    ([VarIntCrate]) with their documented behaviour as laws ([VarIntCrateOk]). *)

From Stdlib Require Import ZArith Lia.
From stdpp Require Import base list numbers.
From S2P Require Import Prelude Bytes Wire.

Local Open Scope Z_scope.
Local Open Scope rust_scope.

(** ** Unsigned varints *)

(** [struct UnsignedVarint(pub u64)]. *)
Record UnsignedVarint : Type := mkUnsignedVarint { uvarint : Z }.

(** The loop of [UnsignedVarint::read].  [shift] grows by 7 in each iteration
    and the loop stops once it exceeds 63, so ten iterations are enough. *)
Fixpoint uvarint_read_loop (fuel : nat) (res shift : Z) : reader ReadError Z :=
  match fuel with
  | O => rlift (Panic Unreachable)
  | S fuel =>
      let? buf := read_exact_io 1 in
      let c := byte_to_Z (hd Byte.x00 buf) in
      let res := Z.lor res (wrap_unsigned 64 (Z.shiftl (Z.land c 0x7f) shift)) in
      let shift := shift + 7 in
      if Z.land c 0x80 =? 0 then rret res
      else if 63 <? shift then rerr (ReadMalformed VarintOverflow)
      else uvarint_read_loop fuel res shift
  end.

(** [UnsignedVarint::read]. *)
Definition UnsignedVarint_read : reader ReadError UnsignedVarint :=
  let? res := uvarint_read_loop 10 0 0 in rret (mkUnsignedVarint res).

(** The loop of [UnsignedVarint::write]: a [u64] has at most ten groups of
    seven bits. *)
Fixpoint uvarint_write_loop (fuel : nat) (curr : Z) : writer WriteError :=
  match fuel with
  | O => Panic Unreachable
  | S fuel =>
      let! c := ok_or WriteOverflow (unsigned_try_from 8 (Z.land curr 0x7f)) in
      let curr := Z.shiftr curr 7 in
      let c := if 0 <? curr then Z.lor c 0x80 else c in
      write_all [byte_of_Z c] ;+ (if curr =? 0 then wnil else uvarint_write_loop fuel curr)
  end.

(** [UnsignedVarint::write]. *)
Definition UnsignedVarint_write (x : UnsignedVarint) : writer WriteError :=
  uvarint_write_loop 10 (uvarint x).

#[export] Instance UnsignedVarint_ReadType : ReadType UnsignedVarint := UnsignedVarint_read.
#[export] Instance UnsignedVarint_WriteType : WriteType UnsignedVarint := UnsignedVarint_write.
#[export] Instance UnsignedVarint_WellFormed : WellFormed UnsignedVarint :=
  fun x => in_unsigned 64 (uvarint x).

(** ** Zig-zag varints: the [integer-encoding] crate *)
Class VarIntCrate : Type := {
  (** [VarIntReader::read_varint::<i64>] *)
  read_varint_i64 : reader ErrorKind Z;
  (** [VarIntWriter::write_varint] at [i32] and at [i64] *)
  write_varint_i32 : Z -> list byte;
  write_varint_i64 : Z -> list byte;
}.

(** What the crate documents: both widths use the zig-zag encoding of Protocol
    Buffers, so that a value written at either width is read back as itself;
    the reader consumes exactly one encoded integer and reports
    [UnexpectedEof] when the input ends inside it. *)
Class VarIntCrateOk `{VarIntCrate} : Prop := {
  varint_i32_round_trip :
    round_trip (E:=WriteError) (in_signed 32) (fun z => write_all (write_varint_i32 z)) read_varint_i64;
  varint_i64_round_trip :
    round_trip (E:=WriteError) (in_signed 64) (fun z => write_all (write_varint_i64 z)) read_varint_i64;
  varint_streaming : streaming read_varint_i64;
  varint_no_panic : no_panic read_varint_i64;
  varint_range : forall s z s', read_varint_i64 s = Ok (z, s') -> in_signed 64 z;
}.

(** [struct Varint(pub i32)] and [struct Varlong(pub i64)]. *)
Record Varint : Type := mkVarint { varint : Z }.
Record Varlong : Type := mkVarlong { varlong : Z }.

Section crate.
Context `{VarIntCrate}.

(** [Varint::read]: a 64-bit read and a checked downcast. *)
Definition Varint_read : reader ReadError Varint :=
  let? i := rmap_err ReadIO read_varint_i64 in
  let? v := rlift (ok_or ReadOverflow (signed_try_from 32 i)) in
  rret (mkVarint v).

Definition Varint_write (x : Varint) : writer WriteError := write_all (write_varint_i32 (varint x)).

(** [Varlong::read] and [Varlong::write]. *)
Definition Varlong_read : reader ReadError Varlong :=
  let? i := rmap_err ReadIO read_varint_i64 in rret (mkVarlong i).

Definition Varlong_write (x : Varlong) : writer WriteError := write_all (write_varint_i64 (varlong x)).

#[export] Instance Varint_ReadType : ReadType Varint := Varint_read.
#[export] Instance Varint_WriteType : WriteType Varint := Varint_write.
#[export] Instance Varlong_ReadType : ReadType Varlong := Varlong_read.
#[export] Instance Varlong_WriteType : WriteType Varlong := Varlong_write.
End crate.

#[export] Instance Varint_WellFormed : WellFormed Varint := fun x => in_signed 32 (varint x).
#[export] Instance Varlong_WellFormed : WellFormed Varlong := fun x => in_signed 64 (varlong x).

(** ** Automation for the laws of readers *)
#[export] Hint Extern 0 (streaming (read)) => apply read_streaming : streaming.
#[export] Hint Extern 0 (no_panic (read)) => apply read_no_panic : streaming.
#[export] Hint Extern 1 (_ <= _) => lia : streaming.

Ltac solve_streaming :=
  repeat first
    [ solve [auto with streaming]
    | apply streaming_bind; [|intros ?]
    | apply streaming_map_err; [done|]
    | case_match ].

Ltac solve_no_panic :=
  repeat first
    [ solve [auto with streaming]
    | apply no_panic_bind; [|intros ?]
    | apply no_panic_map_err
    | case_match ].

(** ** Arithmetic of the loops *)
Lemma land_7f b : Z.land (byte_to_Z b) 0x7f = byte_to_Z b mod 128.
Proof. by destruct b. Qed.

Lemma land_80 b : (Z.land (byte_to_Z b) 0x80 =? 0) = (byte_to_Z b <? 128).
Proof. by destruct b. Qed.

Lemma lor_80 z : 0 <= z < 128 -> Z.lor z 0x80 = z + 128.
Proof.
  intros Hz. rewrite <-Z.lxor_lor.
  - rewrite Z.add_nocarry_lxor; [done|].
    replace z with (z mod 2 ^ 7) by (apply Z.mod_small; lia).
    rewrite <-Z.land_ones, <-Z.land_assoc by lia. apply Z.land_0_r.
  - replace z with (z mod 2 ^ 7) by (apply Z.mod_small; lia).
    rewrite <-Z.land_ones, <-Z.land_assoc by lia. apply Z.land_0_r.
Qed.

Lemma testbit_high w a i : 0 <= a < 2 ^ w -> 0 <= w <= i -> Z.testbit a i = false.
Proof.
  intros Ha Hi. rewrite <-(Z.mod_small a (2 ^ w)) by done. by apply Z.mod_pow2_bits_high.
Qed.

Lemma lor_shiftl a b n :
  0 <= n -> 0 <= a < 2 ^ n -> Z.lor a (Z.shiftl b n) = a + b * 2 ^ n.
Proof.
  intros Hn Ha. rewrite <-Z.shiftl_mul_pow2 by done.
  assert (Z.land a (Z.shiftl b n) = 0) as Hl.
  { apply Z.bits_inj'. intros i Hi. rewrite Z.land_spec, Z.bits_0.
    destruct (Z.lt_ge_cases i n).
    - rewrite Z.shiftl_spec_low by done. apply andb_false_r.
    - by rewrite (testbit_high n) by lia. }
  by rewrite Z.add_nocarry_lxor, Z.lxor_lor.
Qed.

Lemma lor_unsigned w a b :
  0 <= w -> in_unsigned w a -> in_unsigned w b -> in_unsigned w (Z.lor a b).
Proof.
  unfold in_unsigned. intros Hw Ha Hb. split; [apply Z.lor_nonneg; lia|].
  assert (Z.lor a b = Z.lor a b mod 2 ^ w) as ->.
  { apply Z.bits_inj'. intros i Hi. destruct (Z.lt_ge_cases i w).
    - by rewrite Z.mod_pow2_bits_low.
    - rewrite Z.mod_pow2_bits_high, Z.lor_spec by lia.
      by rewrite (testbit_high w a), (testbit_high w b) by lia. }
  apply Z.mod_pos_bound, Z.pow_pos_nonneg; lia.
Qed.

Lemma byte_of_Z_small z : 0 <= z < 256 -> byte_to_Z (byte_of_Z z) = z.
Proof. intros. rewrite byte_to_of_Z. by apply Z.mod_small. Qed.

(** What one iteration of the writer emits, in arithmetic terms. *)
Lemma uvarint_write_step fuel curr :
  0 <= curr ->
  uvarint_write_loop (S fuel) curr =
    (if curr <? 128 then Ok [byte_of_Z curr]
     else write_all [byte_of_Z (curr mod 128 + 128)] ;+ uvarint_write_loop fuel (curr / 128)).
Proof.
  intros Hc. cbn [uvarint_write_loop].
  change 0x7f with (Z.ones 7). rewrite Z.land_ones by lia. change (2 ^ 7) with 128.
  rewrite Z.shiftr_div_pow2 by lia. change (2 ^ 7) with 128.
  pose proof (Z.mod_pos_bound curr 128 ltac:(lia)) as Hm.
  unfold unsigned_try_from, in_unsigned_b. change (2 ^ 8) with 256.
  destruct (Z.leb_spec 0 (curr mod 128)); [|lia].
  destruct (Z.ltb_spec (curr mod 128) 256); [|lia]. simpl.
  destruct (Z.ltb_spec curr 128).
  - rewrite (Z.div_small curr 128), (Z.mod_small curr 128) by lia. done.
  - assert (0 < curr / 128) by (apply Z.div_str_pos; lia).
    destruct (Z.ltb_spec 0 (curr / 128)); [|lia].
    destruct (Z.eqb_spec (curr / 128) 0); [lia|]. by rewrite lor_80.
Qed.

(** What one iteration of the reader does. *)
Lemma uvarint_read_step fuel res shift b s :
  0 <= shift -> 0 <= res < 2 ^ shift ->
  (byte_to_Z b mod 128) * 2 ^ shift < 2 ^ 64 ->
  uvarint_read_loop (S fuel) res shift ([b] +> s) =
    (let res' := res + byte_to_Z b mod 128 * 2 ^ shift in
     if byte_to_Z b <? 128 then Ok (res', s)
     else if 63 <? shift + 7 then Err (ReadMalformed VarintOverflow)
     else uvarint_read_loop fuel res' (shift + 7) s).
Proof.
  intros Hs Hr Hb. cbn [uvarint_read_loop].
  erewrite rbind_run by (by apply read_exact_io_app). cbn [hd].
  rewrite land_80, land_7f. unfold wrap_unsigned.
  assert (0 <= byte_to_Z b mod 128) by (apply Z.mod_pos_bound; lia).
  rewrite Z.mod_small.
  2: { rewrite Z.shiftl_mul_pow2 by done. split; [|done].
       apply Z.mul_nonneg_nonneg; [done|]. apply Z.pow_nonneg. lia. }
  rewrite lor_shiftl by done. cbv zeta.
  destruct (byte_to_Z b <? 128); [done|]. by destruct (63 <? shift + 7).
Qed.

(** ** Laws of [UnsignedVarint] *)
Lemma uvarint_loop_round_trip fuel : forall curr bs res shift s,
  0 <= shift -> 0 <= res < 2 ^ shift -> 0 <= curr ->
  res + curr * 2 ^ shift < 2 ^ 64 -> shift + 7 * Z.of_nat fuel <= 70 ->
  uvarint_write_loop fuel curr = Ok bs ->
  uvarint_read_loop fuel res shift (bs +> s) = Ok (res + curr * 2 ^ shift, s).
Proof.
  induction fuel as [|fuel IH]; intros curr bs res shift s Hs Hr Hc Hmax Hf Hw; [done|].
  rewrite uvarint_write_step in Hw by done.
  assert (0 < 2 ^ shift) by (apply Z.pow_pos_nonneg; lia).
  destruct (Z.ltb_spec curr 128) as [Hlt|Hge].
  - injection Hw as <-.
    assert (byte_to_Z (byte_of_Z curr) = curr) as Hb by (apply byte_of_Z_small; lia).
    rewrite uvarint_read_step by (rewrite ?Hb, ?Z.mod_small by lia; nia).
    cbv zeta. rewrite Hb, Z.mod_small by lia. by apply Z.ltb_lt in Hlt as ->.
  - apply wseq_ok in Hw as (b1 & b2 & <-%eq_sym%write_all_ok & Hw & ->).
    rewrite src_app_app.
    pose proof (Z.mod_pos_bound curr 128 ltac:(lia)) as Hm.
    pose proof (Z.div_mod curr 128 ltac:(lia)) as Hdm.
    assert (0 <= curr / 128) by (apply Z.div_pos; lia).
    assert (Hb : byte_to_Z (byte_of_Z (curr mod 128 + 128)) = curr mod 128 + 128)
      by (apply byte_of_Z_small; lia).
    assert (Hb' : (curr mod 128 + 128) mod 128 = curr mod 128).
    { rewrite <-(Z.mul_1_l 128) at 2. rewrite Z.mod_add by lia. apply Z.mod_small. lia. }
    rewrite uvarint_read_step by (rewrite ?Hb, ?Hb'; nia).
    cbv zeta. rewrite Hb, Hb'.
    destruct (Z.ltb_spec (curr mod 128 + 128) 128); [lia|].
    assert (Hpow : 2 ^ (shift + 7) = 2 ^ shift * 128) by (rewrite Z.pow_add_r by lia; done).
    assert (Hsmall : 2 ^ (shift + 7) < 2 ^ 64).
    { rewrite Hpow. assert (1 <= curr / 128) by (apply Z.div_le_lower_bound; lia). nia. }
    apply Z.pow_lt_mono_r_iff in Hsmall; [|lia..].
    destruct (Z.ltb_spec 63 (shift + 7)); [lia|].
    rewrite (IH (curr / 128) b2); [do 2 f_equal; rewrite Hpow; nia|lia|rewrite Hpow; nia|done| |lia|done].
    rewrite Hpow. nia.
Qed.

Lemma uvarint_loop_streaming fuel res shift : streaming (uvarint_read_loop fuel res shift).
Proof.
  revert res shift. induction fuel as [|fuel IH]; intros res shift; simpl; [apply streaming_lift|].
  apply streaming_bind; [by apply streaming_read_exact_io|]. intros buf.
  case_match; [apply streaming_ret|]. case_match; [apply streaming_lift|]. apply IH.
Qed.

Lemma uvarint_loop_no_panic fuel res shift :
  shift <= 63 < shift + 7 * Z.of_nat fuel -> no_panic (uvarint_read_loop fuel res shift).
Proof.
  revert res shift. induction fuel as [|fuel IH]; intros res shift Hf; simpl; [lia|].
  apply no_panic_bind; [apply no_panic_read_exact_io|]. intros buf.
  case_match; [apply no_panic_ret|].
  destruct (Z.ltb_spec 63 (shift + 7)); [apply no_panic_err|]. apply IH. lia.
Qed.

Lemma uvarint_loop_range fuel res shift s z s' :
  in_unsigned 64 res -> uvarint_read_loop fuel res shift s = Ok (z, s') -> in_unsigned 64 z.
Proof.
  revert res shift s. induction fuel as [|fuel IH]; intros res shift s Hr; simpl; [done|].
  intros (buf & s1 & _ & H)%rbind_ok. revert H.
  assert (Hlor : in_unsigned 64 (Z.lor res
    (wrap_unsigned 64 (Z.shiftl (Z.land (byte_to_Z (hd Byte.x00 buf)) 0x7f) shift)))).
  { apply lor_unsigned; [lia|done|]. unfold in_unsigned, wrap_unsigned.
    apply Z.mod_pos_bound. done. }
  case_match; [intros [= <- <-]; done|]. case_match; [done|]. apply IH, Hlor.
Qed.

Arguments uvarint_read_loop : simpl never.
Arguments uvarint_write_loop : simpl never.

#[export] Instance UnsignedVarint_RoundTrip : RoundTrip UnsignedVarint.
Proof.
  intros [v] bs s Hv Hw. unfold read, UnsignedVarint_ReadType, UnsignedVarint_read.
  unfold wf, UnsignedVarint_WellFormed, in_unsigned in Hv. simpl in Hv.
  assert (Hl : uvarint_read_loop 10 0 0 (bs +> s) = Ok (0 + v * 2 ^ 0, s))
    by (apply uvarint_loop_round_trip; [lia..|exact Hw]).
  replace (0 + v * 2 ^ 0) with v in Hl by lia.
  by erewrite rbind_run by exact Hl.
Qed.

#[export] Instance UnsignedVarint_Streaming : Streaming UnsignedVarint.
Proof.
  apply streaming_bind; [apply uvarint_loop_streaming|]. intros ?. apply streaming_ret.
Qed.

#[export] Instance UnsignedVarint_NoPanic : NoPanic UnsignedVarint.
Proof.
  apply no_panic_bind; [apply uvarint_loop_no_panic; lia|]. intros ?. apply no_panic_ret.
Qed.

#[export] Instance UnsignedVarint_ReadWf : ReadWf UnsignedVarint.
Proof.
  intros s x s' (z & s1 & H & [= <- <-])%rbind_ok.
  apply (uvarint_loop_range 10 0 0 s z s1); [done|exact H].
Qed.

(** Every [u64] can be written. *)
Lemma uvarint_write_total fuel curr :
  0 <= curr < 2 ^ (7 * Z.of_nat fuel) -> (0 < fuel)%nat ->
  exists bs, uvarint_write_loop fuel curr = Ok bs /\ (1 <= length bs <= fuel)%nat.
Proof.
  revert curr. induction fuel as [|fuel IH]; intros curr Hc Hf; [lia|].
  rewrite uvarint_write_step by lia.
  destruct (Z.ltb_spec curr 128); [eexists; split; [done|]; simpl; lia|].
  assert (Hp : 2 ^ (7 * Z.of_nat (S fuel)) = 128 * 2 ^ (7 * Z.of_nat fuel)).
  { replace (7 * Z.of_nat (S fuel)) with (7 + 7 * Z.of_nat fuel) by lia.
    rewrite Z.pow_add_r by lia. done. }
  destruct (IH (curr / 128)) as (bs & -> & Hl).
  - split; [apply Z.div_pos; lia|]. apply Z.div_lt_upper_bound; lia.
  - destruct fuel; [simpl in Hc; lia|lia].
  - eexists. split; [done|]. rewrite length_app. simpl. lia.
Qed.

(** ** Laws of [Varint] and [Varlong] *)
Section crate_laws.
Context `{VarIntCrateOk}.

#[export] Instance Varint_RoundTrip : RoundTrip Varint.
Proof.
  intros [v] bs s Hv Hw. unfold wf, Varint_WellFormed in Hv. simpl in Hv.
  unfold read, Varint_ReadType, Varint_read.
  erewrite rbind_run by (apply rmap_err_ok; by apply (varint_i32_round_trip v bs)).
  erewrite rbind_run; [done|]. apply rlift_ok. split; [|done].
  apply ok_or_ok, signed_try_from_some. done.
Qed.

#[export] Instance Varint_Streaming : Streaming Varint.
Proof. pose proof varint_streaming. unfold Streaming, read, Varint_ReadType, Varint_read. solve_streaming. Qed.

#[export] Instance Varint_NoPanic : NoPanic Varint.
Proof. pose proof varint_no_panic. unfold NoPanic, read, Varint_ReadType, Varint_read. solve_no_panic. Qed.

#[export] Instance Varint_ReadWf : ReadWf Varint.
Proof.
  intros s x s' (i & s1 & _ & (v & s2 & [Hv _]%rlift_ok & [= <- <-])%rbind_ok)%rbind_ok.
  apply ok_or_ok, signed_try_from_some in Hv as [-> Hv]. exact Hv.
Qed.

#[export] Instance Varlong_RoundTrip : RoundTrip Varlong.
Proof.
  intros [v] bs s Hv Hw. unfold read, Varlong_ReadType, Varlong_read.
  erewrite rbind_run; [done|]. apply rmap_err_ok. by apply (varint_i64_round_trip v bs).
Qed.

#[export] Instance Varlong_Streaming : Streaming Varlong.
Proof. pose proof varint_streaming. unfold Streaming, read, Varlong_ReadType, Varlong_read. solve_streaming. Qed.

#[export] Instance Varlong_NoPanic : NoPanic Varlong.
Proof. pose proof varint_no_panic. unfold NoPanic, read, Varlong_ReadType, Varlong_read. solve_no_panic. Qed.

#[export] Instance Varlong_ReadWf : ReadWf Varlong.
Proof.
  intros s x s' (i & s1 & Hi & [= <- <-])%rbind_ok. apply rmap_err_ok in Hi.
  by eapply varint_range.
Qed.
End crate_laws.
