(* ===== verification/Primitives.v ===== *)
(** * Primitive protocol types (src/protocol/primitives.rs)

    Booleans, fixed-width integers, the string and byte types, tagged fields
    and arrays, each with its [read] and [write] as in the source.  [Varint],
    [Varlong] and [UnsignedVarint] are in [Varint], [Records] is in
    [RecordBatch].  The laws of every type are instances of the classes of
    [Wire]. *)

From Stdlib Require Import ZArith Lia.
From stdpp Require Import base list numbers.
From S2P Require Import Prelude Bytes Wire VecBuilder Varint.

Local Open Scope Z_scope.
Local Open Scope rust_scope.

(** ** Booleans and fixed-width integers *)
Record Boolean : Type := mkBoolean { boolean : bool }.
Record Int8 : Type := mkInt8 { int8 : Z }.
Record Int16 : Type := mkInt16 { int16 : Z }.
Record Int32 : Type := mkInt32 { int32 : Z }.
Record Int64 : Type := mkInt64 { int64 : Z }.

#[export] Instance Int16_eq_dec : EqDecision Int16.
Proof. solve_decision. Defined.
#[export] Instance Int32_eq_dec : EqDecision Int32.
Proof. solve_decision. Defined.

Definition Boolean_read : reader ReadError Boolean :=
  let? buf := read_exact_io 1 in
  rret (mkBoolean (negb (byte_to_Z (hd Byte.x00 buf) =? 0))).

Definition Boolean_write (x : Boolean) : writer WriteError :=
  match boolean x with
  | true => write_all [byte_of_Z 1]
  | false => write_all [byte_of_Z 0]
  end.

Definition Int8_read : reader ReadError Int8 :=
  let? buf := read_exact_io 1 in rret (mkInt8 (from_be_bytes_signed buf)).
Definition Int8_write (x : Int8) : writer WriteError := write_all (to_be_bytes 1 (int8 x)).

Definition Int16_read : reader ReadError Int16 :=
  let? buf := read_exact_io 2 in rret (mkInt16 (from_be_bytes_signed buf)).
Definition Int16_write (x : Int16) : writer WriteError := write_all (to_be_bytes 2 (int16 x)).

Definition Int32_read : reader ReadError Int32 :=
  let? buf := read_exact_io 4 in rret (mkInt32 (from_be_bytes_signed buf)).
Definition Int32_write (x : Int32) : writer WriteError := write_all (to_be_bytes 4 (int32 x)).

Definition Int64_read : reader ReadError Int64 :=
  let? buf := read_exact_io 8 in rret (mkInt64 (from_be_bytes_signed buf)).
Definition Int64_write (x : Int64) : writer WriteError := write_all (to_be_bytes 8 (int64 x)).

#[export] Instance Boolean_ReadType : ReadType Boolean := Boolean_read.
#[export] Instance Boolean_WriteType : WriteType Boolean := Boolean_write.
#[export] Instance Boolean_WellFormed : WellFormed Boolean := fun _ => True.
#[export] Instance Int8_ReadType : ReadType Int8 := Int8_read.
#[export] Instance Int8_WriteType : WriteType Int8 := Int8_write.
#[export] Instance Int8_WellFormed : WellFormed Int8 := fun x => in_signed 8 (int8 x).
#[export] Instance Int16_ReadType : ReadType Int16 := Int16_read.
#[export] Instance Int16_WriteType : WriteType Int16 := Int16_write.
#[export] Instance Int16_WellFormed : WellFormed Int16 := fun x => in_signed 16 (int16 x).
#[export] Instance Int32_ReadType : ReadType Int32 := Int32_read.
#[export] Instance Int32_WriteType : WriteType Int32 := Int32_write.
#[export] Instance Int32_WellFormed : WellFormed Int32 := fun x => in_signed 32 (int32 x).
#[export] Instance Int64_ReadType : ReadType Int64 := Int64_read.
#[export] Instance Int64_WriteType : WriteType Int64 := Int64_write.
#[export] Instance Int64_WellFormed : WellFormed Int64 := fun x => in_signed 64 (int64 x).

(** ** Strings *)
Record NullableString : Type := mkNullableString { nullable_string : option rstring }.
Record String_ : Type := mkString_ { string_ : rstring }.
Record CompactString : Type := mkCompactString { compact_string : rstring }.
Record CompactNullableString : Type :=
  mkCompactNullableString { compact_nullable_string : option rstring }.

(** [#[derive(Default)]]. *)
Definition NullableString_default : NullableString := mkNullableString None.
Definition CompactString_default : CompactString := mkCompactString [].

(** [String::from_utf8(buf.into()).map_err(|e| ReadError::Malformed(Box::new(e)))?]. *)
Definition parse_utf8 (buf : list byte) : reader ReadError rstring :=
  rlift (ok_or (ReadMalformed Utf8) (from_utf8 buf)).

Definition NullableString_read : reader ReadError NullableString :=
  let? len := read (A:=Int16) in
  let l := int16 len in
  if l <? -1 then rerr (ReadMalformed (NegativeLength l))
  else if l =? -1 then rret (mkNullableString None)
  else
    let? len := rlift (ok_or ReadOverflow (usize_try_from l)) in
    let? buf := read_bytes len in
    let? s := parse_utf8 buf in
    rret (mkNullableString (Some s)).

Definition NullableString_write (x : NullableString) : writer WriteError :=
  match nullable_string x with
  | Some s =>
      let! l := ok_or (WriteMalformed TryFromInt) (signed_try_from 16 (zlen s)) in
      write (mkInt16 l) ;+ write_all s
  | None => write (mkInt16 (-1))
  end.

Definition String_read : reader ReadError String_ :=
  let? len := read (A:=Int16) in
  let? len := rlift (ok_or (ReadMalformed TryFromInt) (usize_try_from (int16 len))) in
  let? buf := read_bytes len in
  let? s := parse_utf8 buf in
  rret (mkString_ s).

Definition String_write (x : String_) : writer WriteError :=
  let! len := ok_or WriteOverflow (signed_try_from 16 (zlen (string_ x))) in
  write (mkInt16 len) ;+ write_all (string_ x).

Definition CompactString_read : reader ReadError CompactString :=
  let? len := read (A:=UnsignedVarint) in
  let len := uvarint len in
  if len =? 0 then rerr (ReadMalformed ZeroLengthCompactString)
  else
    let? len := rlift (ok_or ReadOverflow (usize_try_from len)) in
    let len := len - 1 in
    let? buf := read_bytes len in
    let? s := parse_utf8 buf in
    rret (mkCompactString s).

(** [CompactStringRef], the borrowed form used by the writers. *)
Definition CompactStringRef_write (s : rstring) : writer WriteError :=
  let! len := ok_or WriteOverflow (unsigned_try_from 64 (zlen s + 1)) in
  write (mkUnsignedVarint len) ;+ write_all s.

Definition CompactString_write (x : CompactString) : writer WriteError :=
  CompactStringRef_write (compact_string x).

Definition CompactNullableString_read : reader ReadError CompactNullableString :=
  let? len := read (A:=UnsignedVarint) in
  let len := uvarint len in
  if len =? 0 then rret (mkCompactNullableString None)
  else
    let? len := rlift (ok_or ReadOverflow (usize_try_from len)) in
    let len := len - 1 in
    let? buf := read_bytes len in
    let? s := parse_utf8 buf in
    rret (mkCompactNullableString (Some s)).

Definition CompactNullableStringRef_write (o : option rstring) : writer WriteError :=
  match o with
  | Some s =>
      let! len := ok_or WriteOverflow (unsigned_try_from 64 (zlen s + 1)) in
      write (mkUnsignedVarint len) ;+ write_all s
  | None => write (mkUnsignedVarint 0)
  end.

Definition CompactNullableString_write (x : CompactNullableString) : writer WriteError :=
  CompactNullableStringRef_write (compact_nullable_string x).

#[export] Instance NullableString_ReadType : ReadType NullableString := NullableString_read.
#[export] Instance NullableString_WriteType : WriteType NullableString := NullableString_write.
#[export] Instance NullableString_WellFormed : WellFormed NullableString :=
  fun x => from_option rstring_wf True (nullable_string x).
#[export] Instance String_ReadType : ReadType String_ := String_read.
#[export] Instance String_WriteType : WriteType String_ := String_write.
#[export] Instance String_WellFormed : WellFormed String_ := fun x => rstring_wf (string_ x).
#[export] Instance CompactString_ReadType : ReadType CompactString := CompactString_read.
#[export] Instance CompactString_WriteType : WriteType CompactString := CompactString_write.
#[export] Instance CompactString_WellFormed : WellFormed CompactString :=
  fun x => rstring_wf (compact_string x).
#[export] Instance CompactNullableString_ReadType : ReadType CompactNullableString :=
  CompactNullableString_read.
#[export] Instance CompactNullableString_WriteType : WriteType CompactNullableString :=
  CompactNullableString_write.
#[export] Instance CompactNullableString_WellFormed : WellFormed CompactNullableString :=
  fun x => from_option rstring_wf True (compact_nullable_string x).

(** ** Byte sequences *)
Record Bytes : Type := mkBytes { bytes_0 : list byte }.
Record CompactBytes : Type := mkCompactBytes { compact_bytes : list byte }.
Record NullableBytes : Type := mkNullableBytes { nullable_bytes : option (list byte) }.

Definition Bytes_read : reader ReadError Bytes :=
  let? len := read (A:=Int32) in
  let? len := rlift (ok_or ReadOverflow (usize_try_from (int32 len))) in
  let? buf := read_bytes len in
  rret (mkBytes buf).

Definition Bytes_write (x : Bytes) : writer WriteError :=
  let! l := ok_or (WriteMalformed TryFromInt) (signed_try_from 32 (zlen (bytes_0 x))) in
  write (mkInt32 l) ;+ write_all (bytes_0 x).

(** [CompactBytes::read]: [len - 1] is not guarded against [len = 0]. *)
Definition CompactBytes_read {prof : Profile} : reader ReadError CompactBytes :=
  let? len := read (A:=UnsignedVarint) in
  let? len := rlift (ok_or ReadOverflow (usize_try_from (uvarint len))) in
  let? len := rlift (arith_unsigned usize_bits (len - 1)) in
  let? buf := read_bytes len in
  rret (mkCompactBytes buf).

Definition CompactBytesRef_write (bs : list byte) : writer WriteError :=
  let! len := ok_or WriteOverflow (unsigned_try_from 64 (zlen bs + 1)) in
  write (mkUnsignedVarint len) ;+ write_all bs.

Definition CompactBytes_write (x : CompactBytes) : writer WriteError :=
  CompactBytesRef_write (compact_bytes x).

Definition NullableBytes_read : reader ReadError NullableBytes :=
  let? len := read (A:=Int32) in
  let l := int32 len in
  if l <? -1 then rerr (ReadMalformed (NegativeLength l))
  else if l =? -1 then rret (mkNullableBytes None)
  else
    let? len := rlift (ok_or ReadOverflow (usize_try_from l)) in
    let? buf := read_bytes len in
    rret (mkNullableBytes (Some buf)).

Definition NullableBytes_write (x : NullableBytes) : writer WriteError :=
  match nullable_bytes x with
  | Some s =>
      let! l := ok_or (WriteMalformed TryFromInt) (signed_try_from 32 (zlen s)) in
      write (mkInt32 l) ;+ write_all s
  | None => write (mkInt32 (-1))
  end.

#[export] Instance Bytes_ReadType : ReadType Bytes := Bytes_read.
#[export] Instance Bytes_WriteType : WriteType Bytes := Bytes_write.
#[export] Instance Bytes_WellFormed : WellFormed Bytes := fun _ => True.
#[export] Instance CompactBytes_ReadType {prof : Profile} : ReadType CompactBytes := CompactBytes_read.
#[export] Instance CompactBytes_WriteType : WriteType CompactBytes := CompactBytes_write.
#[export] Instance CompactBytes_WellFormed : WellFormed CompactBytes := fun _ => True.
#[export] Instance NullableBytes_ReadType : ReadType NullableBytes := NullableBytes_read.
#[export] Instance NullableBytes_WriteType : WriteType NullableBytes := NullableBytes_write.
#[export] Instance NullableBytes_WellFormed : WellFormed NullableBytes := fun _ => True.

(** ** Tagged fields *)
Record TaggedFields : Type := mkTaggedFields { tagged_fields_0 : list (UnsignedVarint * list byte) }.

Definition TaggedFields_default : TaggedFields := mkTaggedFields [].

(** The body of the loop of [TaggedFields::read]. *)
Definition tagged_field_read : reader ReadError (UnsignedVarint * list byte) :=
  let? tag := read (A:=UnsignedVarint) in
  let? data_len := read (A:=UnsignedVarint) in
  let? data_len := rlift (ok_or ReadOverflow (usize_try_from (uvarint data_len))) in
  let? data := read_bytes data_len in
  rret (tag, data).

Definition TaggedFields_read : reader ReadError TaggedFields :=
  let? len := read (A:=UnsignedVarint) in
  let? len := rlift (ok_or ReadOverflow (usize_try_from (uvarint len))) in
  let? res := read_many (Z.to_nat len) tagged_field_read in
  rret (mkTaggedFields res).

(** The body of the loop of [TaggedFields::write]. *)
Definition tagged_field_write (f : UnsignedVarint * list byte) : writer WriteError :=
  let (tag, data) := f in
  write tag ;+
  (let! data_len := ok_or WriteOverflow (unsigned_try_from 64 (zlen data)) in
   write (mkUnsignedVarint data_len) ;+ write_all data).

Definition TaggedFields_write (x : TaggedFields) : writer WriteError :=
  let! len := ok_or WriteOverflow (unsigned_try_from 64 (zlen (tagged_fields_0 x))) in
  write (mkUnsignedVarint len) ;+ write_many tagged_field_write (tagged_fields_0 x).

#[export] Instance TaggedFields_ReadType : ReadType TaggedFields := TaggedFields_read.
#[export] Instance TaggedFields_WriteType : WriteType TaggedFields := TaggedFields_write.
#[export] Instance TaggedFields_WellFormed : WellFormed TaggedFields :=
  fun x => Forall (fun f => wf (fst f)) (tagged_fields_0 x).

(** ** Arrays *)
Record Array (T : Type) : Type := mkArray { array_0 : option (list T) }.
Record CompactArray (T : Type) : Type := mkCompactArray { compact_array : option (list T) }.
Arguments mkArray {T} _.
Arguments array_0 {T} _.
Arguments mkCompactArray {T} _.
Arguments compact_array {T} _.

Section arrays.
Context {T : Type}.

(** [Array<T>::read]. *)
Definition Array_read `{ReadType T} : reader ReadError (Array T) :=
  let? len := read (A:=Int32) in
  if int32 len =? -1 then rret (mkArray None)
  else
    let? len := rlift (ok_or ReadOverflow (usize_try_from (int32 len))) in
    let? res := read_many (Z.to_nat len) (read (A:=T)) in
    rret (mkArray (Some res)).

(** [ArrayRef<'_, T>::write], for any element writer. *)
Definition ArrayRef_write (w : T -> writer WriteError) (inner : option (list T)) : writer WriteError :=
  match inner with
  | None => write (mkInt32 (-1))
  | Some inner =>
      let! len := ok_or WriteOverflow (signed_try_from 32 (zlen inner)) in
      write (mkInt32 len) ;+ write_many w inner
  end.

Definition Array_write `{WriteType T} (x : Array T) : writer WriteError :=
  ArrayRef_write write (array_0 x).

(** [CompactArray<T>::read]. *)
Definition CompactArray_read `{ReadType T} : reader ReadError (CompactArray T) :=
  let? len := read (A:=UnsignedVarint) in
  let n := uvarint len in
  if n =? 0 then rret (mkCompactArray None)
  else
    let? len := rlift (ok_or ReadOverflow (usize_try_from (n - 1))) in
    let? res := read_many (Z.to_nat len) (read (A:=T)) in
    rret (mkCompactArray (Some res)).

(** [CompactArrayRef<'_, T>::write], for any element writer. *)
Definition CompactArrayRef_write (w : T -> writer WriteError) (inner : option (list T)) :
    writer WriteError :=
  match inner with
  | None => write (mkUnsignedVarint 0)
  | Some inner =>
      let! len := ok_or WriteOverflow (unsigned_try_from 64 (zlen inner + 1)) in
      write (mkUnsignedVarint len) ;+ write_many w inner
  end.

Definition CompactArray_write `{WriteType T} (x : CompactArray T) : writer WriteError :=
  CompactArrayRef_write write (compact_array x).
End arrays.

#[export] Instance Array_ReadType `{ReadType T} : ReadType (Array T) := Array_read.
#[export] Instance Array_WriteType `{WriteType T} : WriteType (Array T) := Array_write.
#[export] Instance Array_WellFormed `{WellFormed T} : WellFormed (Array T) :=
  fun x => from_option (Forall wf) True (array_0 x).
#[export] Instance CompactArray_ReadType `{ReadType T} : ReadType (CompactArray T) := CompactArray_read.
#[export] Instance CompactArray_WriteType `{WriteType T} : WriteType (CompactArray T) :=
  CompactArray_write.
#[export] Instance CompactArray_WellFormed `{WellFormed T} : WellFormed (CompactArray T) :=
  fun x => from_option (Forall wf) True (compact_array x).
