(* ===== verification/PrimitiveLaws.v ===== *)
(** * Laws of the primitive types

    [RoundTrip], [Streaming], [NoPanic] and [ReadWf] for every type of
    [Primitives].  The one exception is [CompactBytes], whose reader panics (or
    wraps) on a zero length field; it has a round trip and its own theorem. *)

From Stdlib Require Import ZArith Lia.
From stdpp Require Import base list numbers.
From S2P Require Import Prelude Bytes Wire VecBuilder Varint Primitives.

Local Open Scope Z_scope.
Local Open Scope rust_scope.

(** ** Running a reader on what a writer produced *)
Lemma run_ok_or {E A B} (e : E) (o : option A) a (k : A -> reader E B) s :
  o = Some a -> rbind (rlift (ok_or e o)) k s = k a s.
Proof. by intros ->. Qed.

Lemma run_utf8 {B} (buf : rstring) (k : rstring -> reader ReadError B) s :
  rstring_wf buf -> rbind (parse_utf8 buf) k s = k buf s.
Proof.
  intros H. unfold parse_utf8. by rewrite (run_ok_or _ _ buf) by (by apply from_utf8_some).
Qed.

Lemma run_read_bytes {B} len bs (k : list byte -> reader ReadError B) s :
  len = zlen bs -> rbind (read_bytes len) k (bs +> s) = k bs s.
Proof. intros ->. by erewrite rbind_run by (by apply read_bytes_app). Qed.

Lemma run_read `{RoundTrip A} {B} (x : A) bs (k : A -> reader ReadError B) s :
  write x = Ok bs -> wf x -> rbind read k (bs +> s) = k x s.
Proof. intros Hw Hx. by erewrite rbind_run by (by apply read_write). Qed.

Lemma usize_try_from_ok z : 0 <= z < 2 ^ 64 -> usize_try_from z = Some z.
Proof. intros. by apply unsigned_try_from_some. Qed.

(** A length that was accepted by a checked conversion. *)
Lemma usize_of_signed w z : 0 <= z -> 0 < w <= 64 -> in_signed w z -> usize_try_from z = Some z.
Proof.
  unfold in_signed. intros Hz Hw Hs. apply usize_try_from_ok. split; [done|].
  apply Z.lt_le_trans with (2 ^ (w - 1)); [lia|]. apply Z.pow_le_mono_r; lia.
Qed.

Ltac invert_write :=
  repeat first
    [ progress invert_ok
    | match goal with
      | H : wseq _ _ = Ok _ |- _ => apply wseq_ok in H as (? & ? & ? & ? & ->)
      | H : write_all _ = Ok _ |- _ => apply write_all_ok in H as ->
      | H : wnil = Ok _ |- _ => apply wnil_ok in H as ->
      end ].

(** ** Fixed-width integers *)
Lemma be_round_trip n (A : Type) (mk : Z -> A) (pr : A -> Z) (x : A) bs s :
  (0 < n)%nat -> mk (pr x) = x -> in_signed (8 * Z.of_nat n) (pr x) ->
  write_all (E:=WriteError) (to_be_bytes n (pr x)) = Ok bs ->
  (let? buf := read_exact_io (Z.of_nat n) in rret (mk (from_be_bytes_signed buf))) (bs +> s)
    = Ok (x, s).
Proof.
  intros Hn Hmk Hx ->%write_all_ok.
  erewrite rbind_run by (apply read_exact_io_app; by rewrite zlen_be_bytes).
  by rewrite from_to_be_bytes_signed, Hmk.
Qed.

Lemma be_read_wf n s bs s' :
  0 < n -> read_exact_io n s = Ok (bs, s') -> in_signed (8 * n) (from_be_bytes_signed bs).
Proof.
  intros Hn H. apply read_exact_io_ok in H as [_ Hl]; [|lia]. rewrite <-Hl.
  apply from_be_bytes_signed_range. intros ->. rewrite zlen_nil in Hl. lia.
Qed.

#[export] Instance Boolean_RoundTrip : RoundTrip Boolean.
Proof.
  intros [[]] bs s _ ->%write_all_ok; unfold read, Boolean_ReadType, Boolean_read;
    by erewrite rbind_run by (by apply read_exact_io_app).
Qed.
#[export] Instance Int8_RoundTrip : RoundTrip Int8.
Proof. intros [z] bs s Hx Hw. apply (be_round_trip 1 _ mkInt8 int8); [lia|done|exact Hx|exact Hw]. Qed.
#[export] Instance Int16_RoundTrip : RoundTrip Int16.
Proof. intros [z] bs s Hx Hw. apply (be_round_trip 2 _ mkInt16 int16); [lia|done|exact Hx|exact Hw]. Qed.
#[export] Instance Int32_RoundTrip : RoundTrip Int32.
Proof. intros [z] bs s Hx Hw. apply (be_round_trip 4 _ mkInt32 int32); [lia|done|exact Hx|exact Hw]. Qed.
#[export] Instance Int64_RoundTrip : RoundTrip Int64.
Proof. intros [z] bs s Hx Hw. apply (be_round_trip 8 _ mkInt64 int64); [lia|done|exact Hx|exact Hw]. Qed.

#[export] Instance Boolean_Streaming : Streaming Boolean.
Proof. unfold Streaming, read, Boolean_ReadType, Boolean_read. solve_streaming. Qed.
#[export] Instance Int8_Streaming : Streaming Int8.
Proof. unfold Streaming, read, Int8_ReadType, Int8_read. solve_streaming. Qed.
#[export] Instance Int16_Streaming : Streaming Int16.
Proof. unfold Streaming, read, Int16_ReadType, Int16_read. solve_streaming. Qed.
#[export] Instance Int32_Streaming : Streaming Int32.
Proof. unfold Streaming, read, Int32_ReadType, Int32_read. solve_streaming. Qed.
#[export] Instance Int64_Streaming : Streaming Int64.
Proof. unfold Streaming, read, Int64_ReadType, Int64_read. solve_streaming. Qed.

#[export] Instance Boolean_NoPanic : NoPanic Boolean.
Proof. unfold NoPanic, read, Boolean_ReadType, Boolean_read. solve_no_panic. Qed.
#[export] Instance Int8_NoPanic : NoPanic Int8.
Proof. unfold NoPanic, read, Int8_ReadType, Int8_read. solve_no_panic. Qed.
#[export] Instance Int16_NoPanic : NoPanic Int16.
Proof. unfold NoPanic, read, Int16_ReadType, Int16_read. solve_no_panic. Qed.
#[export] Instance Int32_NoPanic : NoPanic Int32.
Proof. unfold NoPanic, read, Int32_ReadType, Int32_read. solve_no_panic. Qed.
#[export] Instance Int64_NoPanic : NoPanic Int64.
Proof. unfold NoPanic, read, Int64_ReadType, Int64_read. solve_no_panic. Qed.

#[export] Instance Boolean_ReadWf : ReadWf Boolean.
Proof. done. Qed.
#[export] Instance Int8_ReadWf : ReadWf Int8.
Proof. intros s x s' (buf & s1 & H & [= <- <-])%rbind_ok. apply (be_read_wf 1 s buf s1); [lia|exact H]. Qed.
#[export] Instance Int16_ReadWf : ReadWf Int16.
Proof. intros s x s' (buf & s1 & H & [= <- <-])%rbind_ok. apply (be_read_wf 2 s buf s1); [lia|exact H]. Qed.
#[export] Instance Int32_ReadWf : ReadWf Int32.
Proof. intros s x s' (buf & s1 & H & [= <- <-])%rbind_ok. apply (be_read_wf 4 s buf s1); [lia|exact H]. Qed.
#[export] Instance Int64_ReadWf : ReadWf Int64.
Proof. intros s x s' (buf & s1 & H & [= <- <-])%rbind_ok. apply (be_read_wf 8 s buf s1); [lia|exact H]. Qed.

(** ** Strings and byte sequences *)
#[export] Instance NullableString_RoundTrip : RoundTrip NullableString.
Proof.
  intros [[v|]] bs s Hx Hw; unfold write, NullableString_WriteType, NullableString_write in Hw;
    simpl in Hw; unfold read, NullableString_ReadType, NullableString_read.
  - invert_write.
    rewrite src_app_app.
    erewrite run_read by (first [eassumption|done]). cbn [int16].
    pose proof (zlen_nonneg v).
    destruct (Z.ltb_spec (zlen v) (-1)); [lia|]. destruct (Z.eqb_spec (zlen v) (-1)); [lia|].
    rewrite (run_ok_or _ _ (zlen v)) by (by apply (usize_of_signed 16)).
    rewrite run_read_bytes by done. by rewrite run_utf8.
  - by erewrite run_read by (first [eassumption|done]).
Qed.

#[export] Instance String_RoundTrip : RoundTrip String_.
Proof.
  intros [v] bs s Hx Hw. unfold write, String_WriteType, String_write in Hw.
  unfold read, String_ReadType, String_read. invert_write. simpl in *.
  rewrite src_app_app. erewrite run_read by (first [eassumption|done]). cbn [int16].
  rewrite (run_ok_or _ _ (zlen v)) by (apply (usize_of_signed 16); [apply zlen_nonneg|lia|done]).
  rewrite run_read_bytes by done. by rewrite run_utf8.
Qed.

(** The length prefix of the compact types. *)
Lemma compact_len_run {B} (v : list byte) b (k : Z -> reader ReadError B) s :
  in_unsigned 64 (zlen v + 1) -> write (mkUnsignedVarint (zlen v + 1)) = Ok b ->
  (let? len := read (A:=UnsignedVarint) in
   let? len := rlift (ok_or ReadOverflow (usize_try_from (uvarint len))) in k len) (b +> s)
  = k (zlen v + 1) s.
Proof.
  intros Hr Hw. erewrite run_read by (first [eassumption|done]). cbn [uvarint].
  by rewrite (run_ok_or _ _ (zlen v + 1)) by (by apply usize_try_from_ok).
Qed.

#[export] Instance CompactString_RoundTrip : RoundTrip CompactString.
Proof.
  intros [v] bs s Hx Hw.
  unfold write, CompactString_WriteType, CompactString_write, CompactStringRef_write in Hw.
  unfold read, CompactString_ReadType, CompactString_read. invert_write. simpl in *.
  rewrite src_app_app. erewrite run_read by (first [eassumption|done]). cbn [uvarint].
  pose proof (zlen_nonneg v). destruct (Z.eqb_spec (zlen v + 1) 0); [lia|].
  rewrite (run_ok_or _ _ (zlen v + 1)) by (by apply usize_try_from_ok).
  rewrite run_read_bytes by lia. by rewrite run_utf8.
Qed.

#[export] Instance CompactNullableString_RoundTrip : RoundTrip CompactNullableString.
Proof.
  intros [[v|]] bs s Hx Hw; unfold write, CompactNullableString_WriteType,
    CompactNullableString_write, CompactNullableStringRef_write in Hw; simpl in Hw;
    unfold read, CompactNullableString_ReadType, CompactNullableString_read.
  - invert_write. rewrite src_app_app. erewrite run_read by (first [eassumption|done]). cbn [uvarint].
    pose proof (zlen_nonneg v). destruct (Z.eqb_spec (zlen v + 1) 0); [lia|].
    rewrite (run_ok_or _ _ (zlen v + 1)) by (by apply usize_try_from_ok).
    rewrite run_read_bytes by lia. by rewrite run_utf8.
  - by erewrite run_read by (first [eassumption|done]).
Qed.

#[export] Instance Bytes_RoundTrip : RoundTrip Bytes.
Proof.
  intros [v] bs s Hx Hw. unfold write, Bytes_WriteType, Bytes_write in Hw.
  unfold read, Bytes_ReadType, Bytes_read. invert_write. simpl in *.
  rewrite src_app_app. erewrite run_read by (first [eassumption|done]). cbn [int32].
  rewrite (run_ok_or _ _ (zlen v)) by (apply (usize_of_signed 32); [apply zlen_nonneg|lia|done]).
  by rewrite run_read_bytes by done.
Qed.

#[export] Instance CompactBytes_RoundTrip {prof : Profile} : RoundTrip CompactBytes.
Proof.
  intros [v] bs s Hx Hw.
  unfold write, CompactBytes_WriteType, CompactBytes_write, CompactBytesRef_write in Hw.
  unfold read, CompactBytes_ReadType, CompactBytes_read. invert_write. simpl in *.
  rewrite src_app_app, (compact_len_run v) by done. replace (zlen v + 1 - 1) with (zlen v) by lia.
  unfold in_unsigned in *. pose proof (zlen_nonneg v).
  assert (arith_unsigned (E:=ReadError) usize_bits (zlen v) = Ok (zlen v)) as ->.
  { unfold arith_unsigned. rewrite (proj2 (in_unsigned_b_true _ _)); [done|].
    unfold in_unsigned, usize_bits. lia. }
  erewrite rbind_run by done. by rewrite run_read_bytes by done.
Qed.

#[export] Instance NullableBytes_RoundTrip : RoundTrip NullableBytes.
Proof.
  intros [[v|]] bs s Hx Hw; unfold write, NullableBytes_WriteType, NullableBytes_write in Hw;
    simpl in Hw; unfold read, NullableBytes_ReadType, NullableBytes_read.
  - invert_write. rewrite src_app_app. erewrite run_read by (first [eassumption|done]). cbn [int32].
    pose proof (zlen_nonneg v).
    destruct (Z.ltb_spec (zlen v) (-1)); [lia|]. destruct (Z.eqb_spec (zlen v) (-1)); [lia|].
    rewrite (run_ok_or _ _ (zlen v)) by (by apply (usize_of_signed 32)).
    by rewrite run_read_bytes by done.
  - by erewrite run_read by (first [eassumption|done]).
Qed.

(** *** Lengths that have passed [usize::try_from] are not negative *)
Lemma streaming_usize {E B} `{FromIo E} (e : E) z (k : Z -> reader E B) :
  (0 <= z -> streaming (k z)) ->
  streaming (let? len := rlift (ok_or e (usize_try_from z)) in k len).
Proof.
  intros Hk. destruct (usize_try_from z) as [len|] eqn:Hu; simpl.
  - apply unsigned_try_from_some in Hu as [-> [Hz _]]. intros s x s'. simpl. apply (Hk Hz).
  - intros s x s'. done.
Qed.

Lemma no_panic_usize {E B} (e : E) z (k : Z -> reader E B) :
  (0 <= z -> no_panic (k z)) ->
  no_panic (let? len := rlift (ok_or e (usize_try_from z)) in k len).
Proof.
  intros Hk. destruct (usize_try_from z) as [len|] eqn:Hu; simpl.
  - apply unsigned_try_from_some in Hu as [-> [Hz _]]. intros s p. apply (Hk Hz).
  - intros s p. done.
Qed.

Lemma streaming_utf8 buf : streaming (parse_utf8 buf).
Proof. apply streaming_lift. Qed.
Lemma no_panic_utf8 buf : no_panic (parse_utf8 buf).
Proof. apply no_panic_ok_or. Qed.

Ltac prim_streaming_step :=
  first
    [ solve [auto with streaming]
    | apply streaming_usize; intros ?
    | apply streaming_utf8
    | apply streaming_bind; [|intros ?]
    | match goal with |- context [?a =? ?b] => destruct (Z.eqb_spec a b) end
    | case_match ].
Ltac prim_streaming := repeat prim_streaming_step.

Ltac prim_no_panic_step :=
  first
    [ solve [auto with streaming]
    | apply no_panic_usize; intros ?
    | apply no_panic_utf8
    | apply no_panic_bind; [|intros ?]
    | match goal with |- context [?a =? ?b] => destruct (Z.eqb_spec a b) end
    | case_match ].
Ltac prim_no_panic := repeat prim_no_panic_step.

#[export] Instance NullableString_Streaming : Streaming NullableString.
Proof. unfold Streaming, read, NullableString_ReadType, NullableString_read. prim_streaming. Qed.
#[export] Instance String_Streaming : Streaming String_.
Proof. unfold Streaming, read, String_ReadType, String_read. prim_streaming. Qed.
#[export] Instance Bytes_Streaming : Streaming Bytes.
Proof. unfold Streaming, read, Bytes_ReadType, Bytes_read. prim_streaming. Qed.
#[export] Instance NullableBytes_Streaming : Streaming NullableBytes.
Proof. unfold Streaming, read, NullableBytes_ReadType, NullableBytes_read. prim_streaming. Qed.

#[export] Instance NullableString_NoPanic : NoPanic NullableString.
Proof. unfold NoPanic, read, NullableString_ReadType, NullableString_read. prim_no_panic. Qed.
#[export] Instance String_NoPanic : NoPanic String_.
Proof. unfold NoPanic, read, String_ReadType, String_read. prim_no_panic. Qed.
#[export] Instance Bytes_NoPanic : NoPanic Bytes.
Proof. unfold NoPanic, read, Bytes_ReadType, Bytes_read. prim_no_panic. Qed.
#[export] Instance NullableBytes_NoPanic : NoPanic NullableBytes.
Proof. unfold NoPanic, read, NullableBytes_ReadType, NullableBytes_read. prim_no_panic. Qed.

#[export] Instance CompactString_Streaming : Streaming CompactString.
Proof. unfold Streaming, read, CompactString_ReadType, CompactString_read. prim_streaming. Qed.
#[export] Instance CompactNullableString_Streaming : Streaming CompactNullableString.
Proof.
  unfold Streaming, read, CompactNullableString_ReadType, CompactNullableString_read.
  prim_streaming.
Qed.
#[export] Instance CompactString_NoPanic : NoPanic CompactString.
Proof. unfold NoPanic, read, CompactString_ReadType, CompactString_read. prim_no_panic. Qed.
#[export] Instance CompactNullableString_NoPanic : NoPanic CompactNullableString.
Proof.
  unfold NoPanic, read, CompactNullableString_ReadType, CompactNullableString_read.
  prim_no_panic.
Qed.

#[export] Instance CompactBytes_Streaming {prof : Profile} : Streaming CompactBytes.
Proof.
  unfold Streaming, read, CompactBytes_ReadType, CompactBytes_read.
  apply streaming_bind; [auto with streaming|]. intros len. apply streaming_usize. intros Hz.
  unfold arith_unsigned. destruct (in_unsigned_b _ _) eqn:Hb.
  - apply in_unsigned_b_true in Hb as [? _]. intros s x s'. revert s x s'.
    change (streaming (let? buf := read_bytes (uvarint len - 1) in
      rret (mkCompactBytes buf) : reader ReadError CompactBytes)). prim_streaming.
  - case_match; [intros s x s'; done|].
    assert (0 <= wrap_unsigned usize_bits (uvarint len - 1))
      by (apply Z.mod_pos_bound; done).
    change (streaming (let? buf := read_bytes (wrap_unsigned usize_bits (uvarint len - 1)) in
      rret (mkCompactBytes buf) : reader ReadError CompactBytes)). prim_streaming.
Qed.

Lemma parse_utf8_ok buf s x s' :
  parse_utf8 buf s = Ok (x, s') -> x = buf /\ s' = s /\ rstring_wf buf.
Proof.
  intros [H ->]%rlift_ok. apply ok_or_ok, from_utf8_some in H as [-> H]. done.
Qed.

(** Takes a successful read apart. *)
Ltac invert_read :=
  repeat match goal with
  | H : rbind _ _ _ = Ok _ |- _ => apply rbind_ok in H as (? & ? & ? & ?)
  | H : rret _ _ = Ok _ |- _ => apply rret_ok in H as [? ?]
  | H : rlift _ _ = Ok _ |- _ => apply rlift_ok in H as [? ?]
  | H : rerr _ _ = Ok _ |- _ => discriminate H
  | H : parse_utf8 _ _ = Ok _ |- _ => apply parse_utf8_ok in H as (? & ? & ?)
  | H : (if ?b then _ else _) _ = Ok _ |- _ => destruct b eqn:?
  end; subst.

#[export] Instance NullableString_ReadWf : ReadWf NullableString.
Proof.
  intros s x s' H. unfold read, NullableString_ReadType, NullableString_read in H. by invert_read.
Qed.
#[export] Instance String_ReadWf : ReadWf String_.
Proof. intros s x s' H. unfold read, String_ReadType, String_read in H. by invert_read. Qed.
#[export] Instance CompactString_ReadWf : ReadWf CompactString.
Proof.
  intros s x s' H. unfold read, CompactString_ReadType, CompactString_read in H. by invert_read.
Qed.
#[export] Instance CompactNullableString_ReadWf : ReadWf CompactNullableString.
Proof.
  intros s x s' H. unfold read, CompactNullableString_ReadType, CompactNullableString_read in H.
  by invert_read.
Qed.
#[export] Instance Bytes_ReadWf : ReadWf Bytes.
Proof. done. Qed.
#[export] Instance CompactBytes_ReadWf {prof : Profile} : ReadWf CompactBytes.
Proof. done. Qed.
#[export] Instance NullableBytes_ReadWf : ReadWf NullableBytes.
Proof. done. Qed.

(** ** Tagged fields *)
Lemma tagged_field_round_trip :
  round_trip (fun f => wf (fst f)) tagged_field_write tagged_field_read.
Proof.
  intros [tag data] bs s Hx Hw. unfold tagged_field_write in Hw. unfold tagged_field_read.
  invert_write. rewrite !src_app_app. simpl in Hx.
  do 2 erewrite run_read by (first [eassumption|done]). cbn [uvarint].
  rewrite (run_ok_or _ _ (zlen data)) by (by apply usize_try_from_ok).
  by rewrite run_read_bytes.
Qed.

#[export] Instance TaggedFields_RoundTrip : RoundTrip TaggedFields.
Proof.
  intros [l] bs s Hx Hw. unfold write, TaggedFields_WriteType, TaggedFields_write in Hw.
  unfold read, TaggedFields_ReadType, TaggedFields_read. simpl in Hw. invert_write.
  rewrite src_app_app. erewrite run_read by (first [eassumption|done]). cbn [uvarint].
  rewrite (run_ok_or _ _ (zlen l)) by (by apply usize_try_from_ok). rewrite to_nat_zlen.
  by erewrite rbind_run by (by apply (round_trip_many _ _ _ tagged_field_round_trip)).
Qed.

Lemma streaming_tagged_field : streaming tagged_field_read.
Proof. unfold tagged_field_read. prim_streaming. Qed.
Lemma no_panic_tagged_field : no_panic tagged_field_read.
Proof. unfold tagged_field_read. prim_no_panic. Qed.
#[export] Hint Resolve streaming_tagged_field no_panic_tagged_field : streaming.

#[export] Instance TaggedFields_Streaming : Streaming TaggedFields.
Proof. unfold Streaming, read, TaggedFields_ReadType, TaggedFields_read. prim_streaming. Qed.
#[export] Instance TaggedFields_NoPanic : NoPanic TaggedFields.
Proof. unfold NoPanic, read, TaggedFields_ReadType, TaggedFields_read. prim_no_panic. Qed.

Lemma read_many_forall {E A} (P : A -> Prop) (r : reader E A) :
  (forall s x s', r s = Ok (x, s') -> P x) ->
  forall n s l s', read_many n r s = Ok (l, s') -> Forall P l.
Proof.
  intros Hr n. induction n as [|n IH]; intros s l s' H; simpl in H; invert_read;
    constructor; eauto.
Qed.

Lemma read_many_length {E A} (r : reader E A) n s l s' :
  read_many n r s = Ok (l, s') -> length l = n.
Proof.
  revert s l s'. induction n as [|n IH]; intros s l s' H; simpl in H; invert_read; simpl; eauto.
Qed.

#[export] Instance TaggedFields_ReadWf : ReadWf TaggedFields.
Proof.
  intros s x s' H. unfold read, TaggedFields_ReadType, TaggedFields_read in H. invert_read.
  eapply (read_many_forall _ tagged_field_read); [|eassumption].
  intros s0 f s0' Hf. unfold tagged_field_read in Hf. invert_read. simpl.
  eapply read_wf; eassumption.
Qed.

(** ** Arrays *)
Section arrays.
Context `{RoundTrip T}.

#[export] Instance Array_RoundTrip : RoundTrip (Array T).
Proof.
  intros [[l|]] bs s Hx Hw; unfold write, Array_WriteType, Array_write, ArrayRef_write in Hw;
    simpl in Hw; unfold read, Array_ReadType, Array_read.
  - invert_write. rewrite src_app_app. erewrite run_read by (first [eassumption|done]).
    cbn [int32]. pose proof (zlen_nonneg l). destruct (Z.eqb_spec (zlen l) (-1)); [lia|].
    rewrite (run_ok_or _ _ (zlen l)) by (by apply (usize_of_signed 32)). rewrite to_nat_zlen.
    by erewrite rbind_run by (by apply (round_trip_many _ _ _ read_write)).
  - by erewrite run_read by (first [eassumption|done]).
Qed.

#[export] Instance CompactArray_RoundTrip : RoundTrip (CompactArray T).
Proof.
  intros [[l|]] bs s Hx Hw;
    unfold write, CompactArray_WriteType, CompactArray_write, CompactArrayRef_write in Hw;
    simpl in Hw; unfold read, CompactArray_ReadType, CompactArray_read.
  - invert_write. rewrite src_app_app. erewrite run_read by (first [eassumption|done]).
    cbn [uvarint]. pose proof (zlen_nonneg l). destruct (Z.eqb_spec (zlen l + 1) 0); [lia|].
    replace (zlen l + 1 - 1) with (zlen l) by lia.
    rewrite (run_ok_or _ _ (zlen l)) by (apply usize_try_from_ok; unfold in_unsigned in *; lia).
    rewrite to_nat_zlen.
    by erewrite rbind_run by (by apply (round_trip_many _ _ _ read_write)).
  - by erewrite run_read by (first [eassumption|done]).
Qed.
End arrays.

#[export] Instance Array_Streaming `{Streaming T} : Streaming (Array T).
Proof. unfold Streaming, read, Array_ReadType, Array_read. prim_streaming. Qed.
#[export] Instance CompactArray_Streaming `{Streaming T} : Streaming (CompactArray T).
Proof. unfold Streaming, read, CompactArray_ReadType, CompactArray_read. prim_streaming. Qed.
#[export] Instance Array_NoPanic `{NoPanic T} : NoPanic (Array T).
Proof. unfold NoPanic, read, Array_ReadType, Array_read. prim_no_panic. Qed.
#[export] Instance CompactArray_NoPanic `{NoPanic T} : NoPanic (CompactArray T).
Proof. unfold NoPanic, read, CompactArray_ReadType, CompactArray_read. prim_no_panic. Qed.
#[export] Instance Array_ReadWf `{ReadWf T} : ReadWf (Array T).
Proof.
  intros s x s' Hr. unfold read, Array_ReadType, Array_read in Hr. invert_read; [done|].
  eapply read_many_forall; [|eassumption]. apply read_wf.
Qed.
#[export] Instance CompactArray_ReadWf `{ReadWf T} : ReadWf (CompactArray T).
Proof.
  intros s x s' Hr. unfold read, CompactArray_ReadType, CompactArray_read in Hr.
  invert_read; [done|]. eapply read_many_forall; [|eassumption]. apply read_wf.
Qed.

(** ** The defaults are well-formed *)
Lemma NullableString_default_wf : wf NullableString_default.
Proof. exact I. Qed.
Lemma CompactString_default_wf : wf CompactString_default.
Proof. reflexivity. Qed.
Lemma TaggedFields_default_wf : wf TaggedFields_default.
Proof. constructor. Qed.
#[export] Hint Resolve NullableString_default_wf CompactString_default_wf
  TaggedFields_default_wf : rust.
