(* ===== verification/Record.v ===== *)
(** * Records and control records (src/protocol/record.rs)

    [RecordHeader], [Record] and [ControlBatchRecord].  A [Record] carries its
    own length: it is read through [Read::take] and must use up the whole
    limit. *)

From Stdlib Require Import ZArith Lia.
From stdpp Require Import base list numbers.
From S2P Require Import Prelude Bytes Wire VecBuilder Varint Primitives PrimitiveLaws.

Local Open Scope Z_scope.
Local Open Scope rust_scope.

(** ** Data *)
Record RecordHeader : Type := mkRecordHeader {
  header_key : rstring;
  header_value : list byte;
}.

Record Record_ : Type := mkRecord {
  timestamp_delta : Z;
  offset_delta : Z;
  key : option (list byte);
  value : option (list byte);
  headers : list RecordHeader;
}.

Inductive ControlBatchRecord : Type := Abort | Commit.

#[export] Instance RecordHeader_WellFormed : WellFormed RecordHeader :=
  fun h => rstring_wf (header_key h).
#[export] Instance Record_WellFormed : WellFormed Record_ :=
  fun r => in_signed 64 (timestamp_delta r) /\ in_signed 32 (offset_delta r) /\
           Forall wf (headers r).
#[export] Instance ControlBatchRecord_WellFormed : WellFormed ControlBatchRecord := fun _ => True.

(** ** Operations *)
Section operations.
Context `{VarIntCrate}.

(** [Varint::read(reader)?] followed by
    [usize::try_from(len.0).map_err(|e| ReadError::Malformed(Box::new(e)))?]. *)
Definition read_varint_len : reader ReadError Z :=
  let? len := read (A:=Varint) in
  rlift (ok_or (ReadMalformed TryFromInt) (usize_try_from (varint len))).

(** [i32::try_from(len).map_err(|e| WriteError::Malformed(Box::new(e)))?] and
    [Varint(l).write(writer)?]. *)
Definition write_varint_len (len : Z) : writer WriteError :=
  let! l := ok_or (WriteMalformed TryFromInt) (signed_try_from 32 len) in
  write (mkVarint l).

Definition RecordHeader_read : reader ReadError RecordHeader :=
  let? len := read_varint_len in
  let? buf := read_bytes len in
  let? key := parse_utf8 buf in
  let? len := read_varint_len in
  let? value := read_bytes len in
  rret (mkRecordHeader key value).

Definition RecordHeader_write (h : RecordHeader) : writer WriteError :=
  write_varint_len (zlen (header_key h)) ;+ write_all (header_key h) ;+
  write_varint_len (zlen (header_value h)) ;+ write_all (header_value h).

#[export] Instance RecordHeader_ReadType : ReadType RecordHeader := RecordHeader_read.
#[export] Instance RecordHeader_WriteType : WriteType RecordHeader := RecordHeader_write.

(** The key and the value of a record. *)
Definition read_opt_bytes : reader ReadError (option (list byte)) :=
  let? len := read (A:=Varint) in
  if varint len =? -1 then rret None
  else
    let? len := rlift (ok_or (ReadMalformed TryFromInt) (usize_try_from (varint len))) in
    let? bs := read_bytes len in
    rret (Some bs).

Definition write_opt_bytes (o : option (list byte)) : writer WriteError :=
  match o with
  | Some bs => write_varint_len (zlen bs) ;+ write_all bs
  | None => write (mkVarint (-1))
  end.

(** The fields of a record, inside its length limit. *)
Definition record_fields_read : reader ReadError Record_ :=
  let? _ := read (A:=Int8) in
  let? timestamp_delta := read (A:=Varlong) in
  let? offset_delta := read (A:=Varint) in
  let? key := read_opt_bytes in
  let? value := read_opt_bytes in
  let? n_headers := read_varint_len in
  let? headers := read_many (Z.to_nat n_headers) (read (A:=RecordHeader)) in
  rret (mkRecord (varlong timestamp_delta) (varint offset_delta) key value headers).

(** [Record::read].  What the [Take] adapter has left of its limit is the
    length minus the bytes that were taken from it. *)
Definition Record_read : reader ReadError Record_ :=
  let? len := read (A:=Varint) in
  let? len := rlift (ok_or (ReadMalformed TryFromInt) (unsigned_try_from 64 (varint len))) in
  fun s =>
    let inner := src_take len s in
    match record_fields_read inner with
    | Ok (r, inner') =>
        let consumed := zlen (src_data inner) - zlen (src_data inner') in
        let limit := len - consumed in
        if negb (limit =? 0) then Err (ReadMalformed (TrailingAfterRecord limit))
        else Ok (r, src_drop consumed s)
    | Err e => Err e
    | Panic p => Panic p
    end.

Definition record_fields_write (r : Record_) : writer WriteError :=
  write (mkInt8 0) ;+
  write (mkVarlong (timestamp_delta r)) ;+
  write (mkVarint (offset_delta r)) ;+
  write_opt_bytes (key r) ;+
  write_opt_bytes (value r) ;+
  write_varint_len (zlen (headers r)) ;+
  write_many write (headers r).

(** [Record::write]: the fields go to a buffer first, because their length
    precedes them. *)
Definition Record_write (r : Record_) : writer WriteError :=
  let! data := record_fields_write r in
  write_varint_len (zlen data) ;+ write_all data.

#[export] Instance Record_ReadType : ReadType Record_ := Record_read.
#[export] Instance Record_WriteType : WriteType Record_ := Record_write.
End operations.

Definition ControlBatchRecord_read : reader ReadError ControlBatchRecord :=
  let? version := read (A:=Int16) in
  if negb (int16 version =? 0) then rerr (ReadMalformed (UnknownControlVersion (int16 version)))
  else
    let? t := read (A:=Int16) in
    if int16 t =? 0 then rret Abort
    else if int16 t =? 1 then rret Commit
    else rerr (ReadMalformed (UnknownControlType (int16 t))).

Definition ControlBatchRecord_write (c : ControlBatchRecord) : writer WriteError :=
  write (mkInt16 0) ;+
  write (mkInt16 match c with Abort => 0 | Commit => 1 end).

#[export] Instance ControlBatchRecord_ReadType : ReadType ControlBatchRecord := ControlBatchRecord_read.
#[export] Instance ControlBatchRecord_WriteType : WriteType ControlBatchRecord :=
  ControlBatchRecord_write.

(** ** Laws *)
#[export] Instance ControlBatchRecord_RoundTrip : RoundTrip ControlBatchRecord.
Proof.
  intros c bs s _ Hw. unfold write, ControlBatchRecord_WriteType, ControlBatchRecord_write in Hw.
  unfold read, ControlBatchRecord_ReadType, ControlBatchRecord_read.
  invert_write. rewrite src_app_app.
  erewrite run_read by (first [eassumption|done]). cbn [int16 Z.eqb negb].
  by destruct c; erewrite run_read by (first [eassumption|done]).
Qed.

#[export] Instance ControlBatchRecord_Streaming : Streaming ControlBatchRecord.
Proof.
  unfold Streaming, read, ControlBatchRecord_ReadType, ControlBatchRecord_read. prim_streaming.
Qed.
#[export] Instance ControlBatchRecord_NoPanic : NoPanic ControlBatchRecord.
Proof.
  unfold NoPanic, read, ControlBatchRecord_ReadType, ControlBatchRecord_read. prim_no_panic.
Qed.

Section laws.
Context `{VarIntCrateOk}.

Lemma run_varint_len {B} n bs (k : Z -> reader ReadError B) s :
  write_varint_len n = Ok bs -> 0 <= n -> rbind read_varint_len k (bs +> s) = k n s.
Proof.
  intros Hw Hn. unfold write_varint_len in Hw. invert_write.
  unfold read_varint_len. erewrite rbind_run; [done|].
  erewrite run_read by (first [eassumption|done]). cbn [varint].
  by rewrite (usize_of_signed 32).
Qed.

Lemma read_varint_len_nonneg s n s' : read_varint_len s = Ok (n, s') -> 0 <= n.
Proof. intros Hn. unfold read_varint_len in Hn. invert_read. invert_ok. unfold in_unsigned in *. lia. Qed.

Lemma streaming_varint_len {B} (k : Z -> reader ReadError B) :
  (forall n, 0 <= n -> streaming (k n)) -> streaming (rbind read_varint_len k).
Proof.
  intros Hk. apply (streaming_bind_where (fun n => 0 <= n)); [|exact read_varint_len_nonneg|done].
  unfold read_varint_len. prim_streaming.
Qed.

Lemma no_panic_varint_len {B} (k : Z -> reader ReadError B) :
  (forall n, 0 <= n -> no_panic (k n)) -> no_panic (rbind read_varint_len k).
Proof.
  intros Hk. apply (no_panic_bind_where (fun n => 0 <= n)); [|exact read_varint_len_nonneg|done].
  unfold read_varint_len. prim_no_panic.
Qed.

Ltac record_streaming :=
  repeat first [apply streaming_varint_len; intros ? ?|prim_streaming_step].
Ltac record_no_panic :=
  repeat first [apply no_panic_varint_len; intros ? ?|prim_no_panic_step].

#[export] Instance RecordHeader_RoundTrip : RoundTrip RecordHeader.
Proof.
  intros [k v] bs s Hx Hw. unfold write, RecordHeader_WriteType, RecordHeader_write in Hw.
  unfold read, RecordHeader_ReadType, RecordHeader_read. simpl in Hw. invert_write.
  rewrite !src_app_app. erewrite run_varint_len by (first [eassumption|apply zlen_nonneg]).
  rewrite run_read_bytes, run_utf8 by done.
  erewrite run_varint_len by (first [eassumption|apply zlen_nonneg]).
  by rewrite run_read_bytes.
Qed.

#[export] Instance RecordHeader_Streaming : Streaming RecordHeader.
Proof. unfold Streaming, read, RecordHeader_ReadType, RecordHeader_read. record_streaming. Qed.
#[export] Instance RecordHeader_NoPanic : NoPanic RecordHeader.
Proof. unfold NoPanic, read, RecordHeader_ReadType, RecordHeader_read. record_no_panic. Qed.

Lemma run_opt_bytes {B} o bs (k : option (list byte) -> reader ReadError B) s :
  write_opt_bytes o = Ok bs -> rbind read_opt_bytes k (bs +> s) = k o s.
Proof.
  intros Hw. erewrite rbind_run; [done|]. unfold read_opt_bytes.
  destruct o as [v|]; simpl in Hw.
  - unfold write_varint_len in Hw. invert_write. rewrite src_app_app.
    erewrite run_read by (first [eassumption|done]). cbn [varint].
    pose proof (zlen_nonneg v). destruct (Z.eqb_spec (zlen v) (-1)); [lia|].
    rewrite (run_ok_or _ _ (zlen v)) by (by apply (usize_of_signed 32)).
    by rewrite run_read_bytes.
  - by erewrite run_read by (first [eassumption|done]).
Qed.

Lemma record_fields_round_trip : round_trip wf record_fields_write record_fields_read.
Proof.
  intros r bs s (Ht & Ho & Hh) Hw. unfold record_fields_write in Hw.
  unfold record_fields_read. invert_write. rewrite !src_app_app.
  do 3 erewrite run_read by (first [eassumption|done]).
  do 2 erewrite run_opt_bytes by eassumption.
  erewrite run_varint_len by (first [eassumption|apply zlen_nonneg]). rewrite to_nat_zlen.
  erewrite rbind_run by (by apply (round_trip_many _ _ _ read_write)). by destruct r.
Qed.

Lemma record_fields_streaming : streaming record_fields_read.
Proof. unfold record_fields_read, read_opt_bytes. record_streaming. Qed.
Lemma record_fields_no_panic : no_panic record_fields_read.
Proof. unfold record_fields_read, read_opt_bytes. record_no_panic. Qed.

(** A reader that consumed everything it was given is unaffected by the limit
    it was given. *)
Lemma src_take_app n bs s : n = zlen bs -> src_take n (bs +> s) = cursor bs.
Proof.
  intros ->. unfold src_take. simpl. autorewrite with zlen.
  pose proof (zlen_nonneg (src_data s)).
  destruct (Z.leb_spec (zlen bs) (zlen bs + zlen (src_data s))); [|lia].
  by rewrite to_nat_zlen, take_app_length.
Qed.

Lemma src_drop_app n bs s : n = zlen bs -> src_drop n (bs +> s) = s.
Proof.
  intros ->. unfold src_drop. simpl. rewrite to_nat_zlen, drop_app_length. by destruct s.
Qed.

#[export] Instance Record_RoundTrip : RoundTrip Record_.
Proof.
  intros r bs s Hx Hw. unfold write, Record_WriteType, Record_write in Hw.
  unfold read, Record_ReadType, Record_read. apply obind_ok in Hw as (data & Hd & Hw).
  apply wseq_ok in Hw as (b1 & b2 & Hb & ->%write_all_ok & ->).
  unfold write_varint_len in Hb. invert_write. rewrite src_app_app.
  erewrite run_read by (first [eassumption|done]). cbn [varint].
  rewrite (run_ok_or _ _ (zlen data))
    by (by apply (usize_of_signed 32); [apply zlen_nonneg| |]).
  cbv zeta. rewrite src_take_app by done.
  pose proof (record_fields_round_trip _ _ (cursor []) Hx Hd) as Hf.
  rewrite src_app_cursor in Hf. rewrite Hf. simpl. rewrite zlen_nil, Z.sub_0_r, Z.sub_diag. simpl.
  by rewrite src_drop_app.
Qed.

(** The part of [Record::read] after the length. *)
Lemma record_body_streaming len :
  0 <= len ->
  streaming (fun s =>
    let inner := src_take len s in
    match record_fields_read inner with
    | Ok (r, inner') =>
        let consumed := zlen (src_data inner) - zlen (src_data inner') in
        let limit := len - consumed in
        if negb (limit =? 0) then Err (ReadMalformed (TrailingAfterRecord limit))
        else Ok (r, src_drop consumed s)
    | Err e => Err e
    | Panic p => Panic p
    end : outcome ReadError (Record_ * src)).
Proof.
  intros Hlen s x s'. cbv zeta.
  destruct (record_fields_read (src_take len s)) as [[r inner']|e|p] eqn:Hf; [|done|done].
  destruct (Z.eqb_spec (len - (zlen (src_data (src_take len s)) - zlen (src_data inner'))) 0)
    as [Hl|]; [|done]. simpl. intros [= <- <-].
  destruct (record_fields_streaming _ _ _ Hf) as (bs & Htake & L & Tr).
  assert (Hbs : len = zlen bs).
  { rewrite Htake in Hl. simpl in Hl. rewrite zlen_app in Hl. lia. }
  assert (Hs : s = bs +> src_drop len s).
  { unfold src_take in Htake. destruct (Z.leb_spec len (zlen (src_data s))) as [Hle|Hle].
    - injection Htake as Htk _. rewrite (src_eta s) at 1. unfold src_drop, src_app. simpl. f_equal.
      rewrite <-(take_drop (Z.to_nat len) (src_data s)) at 1. f_equal.
      apply (f_equal (take (length bs))) in Htk. rewrite take_app_length in Htk.
      rewrite <-Htk, take_take. f_equal. unfold zlen in *. lia.
    - rewrite Htake in Hle. simpl in Hle. rewrite zlen_app in Hle.
      pose proof (zlen_nonneg (src_data inner')). lia. }
  assert (Hcons : zlen (src_data (src_take len s)) - zlen (src_data inner') = len) by lia.
  rewrite Hcons. exists bs. split; [done|]. split.
  - intros t. rewrite src_take_app by done.
    pose proof (L (cursor [])) as L0. rewrite src_app_cursor in L0. rewrite L0. simpl.
    rewrite zlen_nil, Z.sub_0_r, Hbs, Z.sub_diag. simpl. by rewrite src_drop_app.
  - intros p q tail Hpq Hq.
    assert (Hlt : zlen p < len).
    { rewrite Hbs, Hpq, zlen_app. pose proof (zlen_nonneg q).
      destruct (Z.eq_dec (zlen q) 0) as [E0|]; [by apply zlen_0 in E0|lia]. }
    unfold src_take. simpl. destruct (Z.leb_spec len (zlen p)); [lia|].
    by rewrite (Tr _ _ tail Hpq Hq).
Qed.

#[export] Instance Record_Streaming : Streaming Record_.
Proof.
  unfold Streaming, read, Record_ReadType, Record_read.
  apply streaming_bind; [auto with streaming|]. intros len.
  apply (streaming_usize (ReadMalformed TryFromInt) (varint len)). apply record_body_streaming.
Qed.

#[export] Instance Record_NoPanic : NoPanic Record_.
Proof.
  unfold NoPanic, read, Record_ReadType, Record_read.
  apply no_panic_bind; [auto with streaming|]. intros len.
  apply no_panic_bind; [auto with streaming|]. intros n s p.
  pose proof (record_fields_no_panic (src_take n s)) as Hf.
  destruct (record_fields_read (src_take n s)) as [[r s']|e|p']; [by case_match|done|].
  by destruct (Hf p').
Qed.
End laws.
