(* ===== verification/Codec.v ===== *)
(** * Compression and checksums used by src/protocol/record.rs

    The codecs are crates: [crc32c], [flate2] (gzip), [lz4], [zstd] and [snap].
    Their functions are the fields of [Codecs], what the program relies on is
    in [CodecsOk].  A decompressor is a [Read]er over another one: its input
    source determines the source it presents and what it leaves of the input
    once it is exhausted.

    [carefully_decompress_snappy] is code of this crate and is modelled here,
    retry loop and all. *)

From Stdlib Require Import ZArith Lia.
From stdpp Require Import base list numbers.
From S2P Require Import Prelude Bytes Wire VecBuilder Varint Primitives PrimitiveLaws.

Local Open Scope Z_scope.
Local Open Scope rust_scope.

Class Codecs : Type := {
  (** [crc32c::crc32c] *)
  crc32c : list byte -> Z;
  (** the cargo features [compression-*] *)
  feature_gzip : bool;
  feature_lz4 : bool;
  feature_snappy : bool;
  feature_zstd : bool;
  (** [flate2::read::GzDecoder], [flate2::write::GzEncoder] *)
  gzip_decoder : src -> src;
  gzip_rest : src -> src;
  gzip_encode : list byte -> ErrorKind + list byte;
  (** [lz4::Decoder::new], what it reads, [Decoder::finish], [lz4::EncoderBuilder] *)
  lz4_decoder : src -> ErrorKind + src;
  lz4_rest : src -> src;
  lz4_finish : src -> ErrorKind + unit;
  lz4_encode : list byte -> ErrorKind + list byte;
  (** [zstd::Decoder::new], [zstd::Encoder] *)
  zstd_decoder : src -> ErrorKind + src;
  zstd_rest : src -> src;
  zstd_encode : list byte -> ErrorKind + list byte;
  (** [snap::raw::decompress_len]; [Decoder::decompress] into a buffer of the
      given size, with the bytes written and the final buffer;
      [Encoder::compress] *)
  snap_decompress_len : list byte -> SnapError + Z;
  snap_decompress : list byte -> Z -> SnapError + (Z * list byte);
  snap_compress : list byte -> SnapError + list byte;
}.

(** A [Result] of a crate that does not panic. *)
Definition of_sum {E A} (x : E + A) : outcome E A :=
  match x with inl e => Err e | inr a => Ok a end.

(** The bytes [UnsignedVarint(n).write] produces. *)
Definition uvarint_bytes {E} (n : Z) : outcome E (list byte) :=
  match write (mkUnsignedVarint n) with
  | Ok bs => Ok bs
  | Err _ => Panic ExpectFailed
  | Panic p => Panic p
  end.

(** [ensure_eof]: one more read of one byte. *)
Definition ensure_eof (msg : malformed) (s : src) : outcome ReadError unit :=
  match src_data s, src_tail s with
  | _ :: _, _ => Err (ReadMalformed msg)
  | [], None => Ok tt
  | [], Some UnexpectedEof => Ok tt
  | [], Some e => Err (ReadIO e)
  end.

(** Does this decoder error say that the output buffer was too small? *)
Definition looks_like_dst_too_small {E} (e : SnapError) : outcome E bool :=
  match e with
  | SnapCopyWrite => Ok true
  | SnapLiteral len dst_len src_len => Ok ((dst_len <? len) && (len <=? src_len))
  | SnapHeaderMismatch expected_len got_len => Ok (expected_len <? got_len)
  | SnapBufferTooSmall => Panic Unreachable
  | SnapOffset => Ok false
  | SnapEmpty | SnapOther => Ok false
  end.

Section snappy.
Context `{Codecs} {prof : Profile}.

(** The loop of [carefully_decompress_snappy]; [None]: out of fuel. *)
Fixpoint snappy_loop (fuel : nat) (input : list byte)
    (uncompressed_size encoded_length max_uncompressed_size : Z) :
    option (outcome ReadError (list byte)) :=
  match fuel with
  | O => None
  | S fuel =>
      let try_uncompressed_size := Z.min uncompressed_size max_uncompressed_size in
      match uvarint_bytes try_uncompressed_size with
      | Ok header =>
          if zlen input <? encoded_length then Some (Panic IndexOutOfBounds)
          else
          let try_input := header ++ drop (Z.to_nat encoded_length) input in
          match snap_decompress try_input try_uncompressed_size with
          | inr (actual_uncompressed_size, output) =>
              if negb (actual_uncompressed_size =? uncompressed_size)
              then Some (Err (ReadMalformed BrokenSnappy))
              else Some (Ok output)
          | inl e =>
              match looks_like_dst_too_small e with
              | Ok too_small =>
                  let used_smaller_dst := max_uncompressed_size <? uncompressed_size in
                  if too_small && used_smaller_dst
                  then match arith_unsigned usize_bits (max_uncompressed_size * 2) with
                       | Ok m => snappy_loop fuel input uncompressed_size encoded_length m
                       | Err e => Some (Err e)
                       | Panic p => Some (Panic p)
                       end
                  else Some (Err (ReadMalformed (Snap e)))
              | Err e => Some (Err e)
              | Panic p => Some (Panic p)
              end
          end
      | Err e => Some (Err e)
      | Panic p => Some (Panic p)
      end
  end.

(** The loop doubles the buffer and stops once it reaches the length the
    message announces, a [usize]: 65 iterations are enough when the first
    buffer is not empty. *)
Definition snappy_fuel : nat := 65.

(** [carefully_decompress_snappy]. *)
Definition carefully_decompress_snappy (input : list byte) (start_block_size : Z) :
    outcome ReadError (list byte) :=
  match input with
  | [] => Err (ReadMalformed (Snap SnapEmpty))
  | _ =>
      let! uncompressed_size :=
        omap_err (fun e => ReadMalformed (Snap e)) (of_sum (snap_decompress_len input)) in
      let! buf := uvarint_bytes uncompressed_size in
      default (Panic Unreachable)
        (snappy_loop snappy_fuel input uncompressed_size (zlen buf) start_block_size)
  end.
End snappy.

(** The magic bytes of the framing the Java snappy library uses. *)
Definition JAVA_MAGIC : list byte := map byte_of_Z [0x82; 0x53; 0x4e; 0x41; 0x50; 0x50; 0x59; 0].

(** [slice::starts_with]. *)
Definition starts_with (prefix l : list byte) : bool := bool_decide (prefix `prefix_of` l).

(** ** What the program relies on *)

(** A raw snappy message is the varint of the plain length and a payload, and
    a decoder that is told a smaller length reports that the buffer is too
    small. *)
Class CodecsOk `{Codecs} : Prop := {
  crc32c_u32 : forall bs, in_unsigned 32 (crc32c bs);
  gzip_ok : forall plain c, gzip_encode plain = inr c ->
    gzip_decoder (cursor c) = cursor plain /\ gzip_rest (cursor c) = cursor [];
  lz4_ok : forall plain c, lz4_encode plain = inr c ->
    lz4_decoder (cursor c) = inr (cursor plain) /\ lz4_finish (cursor c) = inr tt /\
    lz4_rest (cursor c) = cursor [];
  zstd_ok : forall plain c, zstd_encode plain = inr c ->
    zstd_decoder (cursor c) = inr (cursor plain) /\ zstd_rest (cursor c) = cursor [];
  snap_ok : forall plain c, snap_compress plain = inr c ->
    exists header payload,
      c = header ++ payload /\
      write (mkUnsignedVarint (zlen plain)) = Ok header /\
      zlen plain < 2 ^ 32 /\
      snap_decompress_len c = inr (zlen plain) /\
      snap_decompress c (zlen plain) = inr (zlen plain, plain);
  snap_shortened : forall plain header payload short n,
    snap_compress plain = inr (header ++ payload) ->
    write (mkUnsignedVarint (zlen plain)) = Ok header ->
    0 < n < zlen plain -> write (mkUnsignedVarint n) = Ok short ->
    exists e, snap_decompress (short ++ payload) n = inl e /\
      looks_like_dst_too_small (E:=ReadError) e = Ok true;
  (** in the raw format a message cannot start with a back-reference, which
      the third byte of the magic would be *)
  snap_not_java : forall plain c, snap_compress plain = inr c -> starts_with JAVA_MAGIC c = false;
  (** an empty message has length 0, although it has no length field *)
  snap_len_empty : snap_decompress_len [] = inr 0;
  snap_len_range : forall input n, input <> [] -> snap_decompress_len input = inr n ->
    0 <= n < 2 ^ 32 /\
    exists header, write (mkUnsignedVarint n) = Ok header /\ zlen header <= zlen input;
  snap_no_buffer_too_small : forall short payload n,
    write (mkUnsignedVarint n) = Ok short ->
    snap_decompress (short ++ payload) n <> inl SnapBufferTooSmall;
}.

(** ** The retry loop *)
Section laws.
Context `{CodecsOk} {prof : Profile}.

Lemma uvarint_bytes_total {E} n :
  in_unsigned 64 n ->
  exists bs, write (mkUnsignedVarint n) = Ok bs /\ uvarint_bytes (E:=E) n = Ok bs.
Proof.
  intros [H1 H2]. destruct (uvarint_write_total 10 n) as (bs & Hbs & _).
  { split; [done|]. eapply Z.lt_le_trans; [done|]. apply Z.pow_le_mono_r; lia. } { lia. }
  exists bs. unfold uvarint_bytes, write, UnsignedVarint_WriteType, UnsignedVarint_write.
  simpl. by rewrite Hbs.
Qed.

Lemma arith_double {E} m : 0 <= m < 2 ^ 32 -> arith_unsigned (E:=E) usize_bits (m * 2) = Ok (m * 2).
Proof.
  intros Hm. unfold arith_unsigned. rewrite (proj2 (in_unsigned_b_true _ _)); [done|].
  unfold in_unsigned, usize_bits. lia.
Qed.

(** Once the buffer has the announced size the loop makes its last turn. *)
Lemma snappy_loop_round_trip plain header payload fuel m :
  snap_compress plain = inr (header ++ payload) ->
  write (mkUnsignedVarint (zlen plain)) = Ok header ->
  snap_decompress (header ++ payload) (zlen plain) = inr (zlen plain, plain) ->
  zlen plain < 2 ^ 32 -> 0 < m -> zlen plain <= m * 2 ^ Z.of_nat fuel ->
  snappy_loop (S fuel) (header ++ payload) (zlen plain) (zlen header) m = Some (Ok plain).
Proof.
  intros Hc Hh Hd Hlen. pose proof (zlen_nonneg plain) as Hpl. revert m.
  assert (Hlast : forall fuel m, zlen plain <= m ->
    snappy_loop (S fuel) (header ++ payload) (zlen plain) (zlen header) m = Some (Ok plain)).
  { intros fuel' m Hm. cbn [snappy_loop]. rewrite Z.min_l by done.
    unfold uvarint_bytes at 1. rewrite Hh, zlen_app. pose proof (zlen_nonneg payload).
    destruct (Z.ltb_spec (zlen header + zlen payload) (zlen header)); [lia|].
    rewrite to_nat_zlen, drop_app_length, Hd, Z.eqb_refl. done. }
  induction fuel as [|fuel IH]; intros m Hm Hfuel; [apply Hlast; lia|].
  destruct (Z.le_gt_cases (zlen plain) m) as [Hle|Hgt]; [by apply Hlast|].
  remember (S fuel) as fuel' eqn:Hf'. cbn [snappy_loop]. rewrite Z.min_r by lia.
  destruct (uvarint_bytes_total (E:=ReadError) m) as (short & Hs & ->).
  { unfold in_unsigned. lia. }
  rewrite zlen_app. pose proof (zlen_nonneg payload).
  destruct (Z.ltb_spec (zlen header + zlen payload) (zlen header)); [lia|].
  rewrite to_nat_zlen, drop_app_length.
  destruct (snap_shortened plain header payload short m) as (e & -> & ->); [done..|].
  destruct (Z.ltb_spec m (zlen plain)); [|lia]. simpl andb.
  rewrite arith_double by lia. subst fuel'. apply IH; [lia|].
  rewrite Nat2Z.inj_succ, Z.pow_succ_r in Hfuel by lia. lia.
Qed.

(** The loop ends, without a panic, for whatever the message contains. *)
Definition returns {E A} (o : option (outcome E A)) : Prop :=
  exists x, o = Some x /\ forall p, x <> Panic p.

Lemma snappy_loop_step input size (hd : list byte) fuel m :
  0 <= size < 2 ^ 32 -> zlen hd <= zlen input -> 0 < m ->
  (m < size -> returns (snappy_loop fuel input size (zlen hd) (m * 2))) ->
  returns (snappy_loop (S fuel) input size (zlen hd) m).
Proof.
  intros Hsize Hhd Hm Hrec. cbn [snappy_loop].
  destruct (uvarint_bytes_total (E:=ReadError) (Z.min size m)) as (short & Hs & ->).
  { unfold in_unsigned. lia. }
  destruct (Z.ltb_spec (zlen input) (zlen hd)); [lia|].
  pose proof (snap_no_buffer_too_small short (drop (Z.to_nat (zlen hd)) input) _ Hs) as Hnb.
  destruct (snap_decompress _ _) as [e|[n out]]; [|case_match; by eexists].
  destruct (looks_like_dst_too_small e) as [too_small| |] eqn:He; try (by destruct e); [].
  destruct (Z.ltb_spec m size); [|rewrite andb_false_r; by eexists].
  destruct too_small; [|by eexists]. cbn [andb]. rewrite arith_double by lia. by apply Hrec.
Qed.

Lemma snappy_loop_total input size (hd : list byte) fuel m :
  0 <= size < 2 ^ 32 -> zlen hd <= zlen input -> 0 < m -> size <= m * 2 ^ Z.of_nat fuel ->
  returns (snappy_loop (S fuel) input size (zlen hd) m).
Proof.
  intros Hsize Hhd. revert m.
  induction fuel as [|fuel IH]; intros m Hm Hfuel; apply snappy_loop_step; try done.
  - lia.
  - intros _. apply IH; [lia|]. rewrite Nat2Z.inj_succ, Z.pow_succ_r in Hfuel by lia. lia.
Qed.

Local Arguments snappy_loop : simpl never.

Lemma carefully_decompress_compress plain c start :
  snap_compress plain = inr c -> 0 < start ->
  carefully_decompress_snappy c start = Ok plain.
Proof.
  intros Hc Hstart. destruct (snap_ok _ _ Hc) as (header & payload & -> & Hh & Hlen & Hl & Hd).
  assert (Hne : exists b l, header ++ payload = b :: l).
  { destruct (uvarint_write_total 10 (zlen plain)) as (bs & Hbs & Hbl).
    { pose proof (zlen_nonneg plain). simpl. lia. } { lia. }
    unfold write, UnsignedVarint_WriteType, UnsignedVarint_write in Hh. simpl in Hh.
    rewrite Hbs in Hh. injection Hh as <-. destruct bs; [simpl in Hbl; lia|]. by eexists _, _. }
  destruct Hne as (b & l & Hbl). unfold carefully_decompress_snappy. rewrite Hbl, <-Hbl, Hl. simpl.
  unfold uvarint_bytes at 1. rewrite Hh. simpl.
  change snappy_fuel with (S 64).
  rewrite (snappy_loop_round_trip plain) by (first [done|lia]). done.
Qed.

(** The early exit for an empty message matters: the loop after it would take
    the slice behind a length field that is not there. *)
Lemma empty_input_needs_exit fuel m :
  0 < m -> snappy_loop (S fuel) [] 0 1 m = Some (Panic IndexOutOfBounds).
Proof. intros Hm. unfold snappy_loop. by rewrite Z.min_l by lia. Qed.

Lemma carefully_decompress_no_panic input start p :
  0 < start -> carefully_decompress_snappy input start <> Panic p.
Proof.
  intros Hstart. unfold carefully_decompress_snappy. destruct input as [|b input]; [done|].
  destruct (snap_decompress_len (b :: input)) as [e|n] eqn:Hn; [done|]. simpl.
  destruct (snap_len_range (b :: input) n ltac:(done) Hn) as (Hr & header & Hw & Hh).
  unfold uvarint_bytes. rewrite Hw. simpl.
  destruct (snappy_loop_total (b :: input) n header 64 start) as (x & Hx & Hp); [done..|lia|].
  change snappy_fuel with (S 64). rewrite Hx. apply Hp.
Qed.
End laws.
