(* ===== verification/RecordBatch.v ===== *)
(** * Record batches (src/protocol/record.rs) and [Records] (src/protocol/primitives.rs)

    A [RecordBatch] is a fixed header, a CRC-protected body and in it the
    records, possibly compressed.  [Records] is a sequence of batches of which
    the broker may have cut off the last one. *)

From Stdlib Require Import ZArith Lia.
From stdpp Require Import base list numbers.
From S2P Require Import Prelude Bytes Wire VecBuilder Varint Primitives PrimitiveLaws Record.
From S2P Require Import Codec.

Local Open Scope Z_scope.
Local Open Scope rust_scope.

(** ** Data *)
Inductive ControlBatchOrRecords : Type :=
| ControlBatch (c : ControlBatchRecord)
| RecordList (l : list Record_).

Inductive RecordBatchCompression : Type := NoCompression | Gzip | Snappy | Lz4 | Zstd.

Inductive RecordBatchTimestampType : Type := CreateTime | LogAppendTime.

Record RecordBatchBody : Type := mkRecordBatchBody {
  body_last_offset_delta : Z;
  body_first_timestamp : Z;
  body_max_timestamp : Z;
  body_producer_id : Z;
  body_producer_epoch : Z;
  body_base_sequence : Z;
  body_records : ControlBatchOrRecords;
  body_compression : RecordBatchCompression;
  body_is_transactional : bool;
  body_timestamp_type : RecordBatchTimestampType;
}.

Record RecordBatch : Type := mkRecordBatch {
  base_offset : Z;
  partition_leader_epoch : Z;
  last_offset_delta : Z;
  first_timestamp : Z;
  max_timestamp : Z;
  producer_id : Z;
  producer_epoch : Z;
  base_sequence : Z;
  records : ControlBatchOrRecords;
  compression : RecordBatchCompression;
  is_transactional : bool;
  timestamp_type : RecordBatchTimestampType;
}.

Record Records : Type := mkRecords { records_0 : list RecordBatch }.

(** The fields that [RecordBatch] and its body share: [RecordBatch::write]
    builds a [RecordBatchBodyRef], [RecordBatch::read] unpacks the body. *)
Definition batch_body (b : RecordBatch) : RecordBatchBody :=
  mkRecordBatchBody (last_offset_delta b) (first_timestamp b) (max_timestamp b) (producer_id b)
    (producer_epoch b) (base_sequence b) (records b) (compression b) (is_transactional b)
    (timestamp_type b).

Definition batch_of_body (base_offset partition_leader_epoch : Z) (b : RecordBatchBody) : RecordBatch :=
  mkRecordBatch base_offset partition_leader_epoch (body_last_offset_delta b)
    (body_first_timestamp b) (body_max_timestamp b) (body_producer_id b) (body_producer_epoch b)
    (body_base_sequence b) (body_records b) (body_compression b) (body_is_transactional b)
    (body_timestamp_type b).

#[export] Instance ControlBatchOrRecords_WellFormed : WellFormed ControlBatchOrRecords :=
  fun r => match r with ControlBatch _ => True | RecordList l => Forall wf l end.
#[export] Instance RecordBatchBody_WellFormed : WellFormed RecordBatchBody := fun b =>
  in_signed 32 (body_last_offset_delta b) /\ in_signed 64 (body_first_timestamp b) /\
  in_signed 64 (body_max_timestamp b) /\ in_signed 64 (body_producer_id b) /\
  in_signed 16 (body_producer_epoch b) /\ in_signed 32 (body_base_sequence b) /\
  wf (body_records b).
#[export] Instance RecordBatch_WellFormed : WellFormed RecordBatch := fun b =>
  in_signed 64 (base_offset b) /\ in_signed 32 (partition_leader_epoch b) /\ wf (batch_body b).

#[export] Instance Records_WellFormed : WellFormed Records := fun r => Forall wf (records_0 r).

(** ** Attributes *)
Definition compression_code (c : RecordBatchCompression) : Z :=
  match c with NoCompression => 0 | Gzip => 1 | Snappy => 2 | Lz4 => 3 | Zstd => 4 end.

(** [attributes] as [RecordBatchBodyRef::write] assembles it. *)
Definition write_attributes (c : RecordBatchCompression) (t : RecordBatchTimestampType)
    (is_transactional is_control : bool) : Z :=
  let attributes := compression_code c in
  let attributes := match t with
                    | CreateTime => attributes
                    | LogAppendTime => Z.lor attributes (Z.shiftl 1 3)
                    end in
  let attributes := if is_transactional then Z.lor attributes (Z.shiftl 1 4) else attributes in
  if is_control then Z.lor attributes (Z.shiftl 1 5) else attributes.

(** [attributes] as [RecordBatchBody::read] takes it apart. *)
Definition read_attributes (attributes : Z) :
    outcome ReadError (RecordBatchCompression * RecordBatchTimestampType * bool * bool) :=
  let! c := match Z.land attributes 0x7 with
            | 0 => Ok NoCompression
            | 1 => Ok Gzip
            | 2 => Ok Snappy
            | 3 => Ok Lz4
            | 4 => Ok Zstd
            | other => Err (ReadMalformed (InvalidCompression other))
            end in
  let t := if Z.land (Z.shiftr attributes 3) 0x1 =? 0 then CreateTime else LogAppendTime in
  let is_transactional := Z.land (Z.shiftr attributes 4) 0x1 =? 1 in
  let is_control := Z.land (Z.shiftr attributes 5) 0x1 =? 1 in
  Ok (c, t, is_transactional, is_control).

(** ** Operations *)
Section operations.
Context `{VarIntCrate, Codecs} {prof : Profile}.

(** [RecordBatchBody::read_records]. *)
Definition read_records (is_control : bool) (n_records : Z) :
    reader ReadError ControlBatchOrRecords :=
  if is_control then
    if negb (n_records =? 1) then rerr (ReadMalformed (ExpectedOneControlRecord n_records))
    else let? record := read (A:=ControlBatchRecord) in rret (ControlBatch record)
  else
    let? records := read_many (Z.to_nat n_records) (read (A:=Record_)) in
    rret (RecordList records).

(** The chunks of the Java framing: [while cursor.position() < len]. Every
    chunk has a length field of four bytes. *)
Fixpoint java_chunks (fuel : nat) (cursor output : list byte) : outcome ReadError (list byte) :=
  match cursor with
  | [] => Ok output
  | _ =>
      match fuel with
      | O => Panic Unreachable
      | S fuel =>
          let! (buf, s) := read_exact_io 4 (Wire.cursor cursor) in
          let chunk_length := from_be_bytes_unsigned buf in
          let bytes_left := zlen (src_data s) in
          if bytes_left <? chunk_length
          then Err (ReadMalformed (JavaSnappyChunk chunk_length bytes_left))
          else
            let! (chunk_data, s) := read_exact_io chunk_length s in
            let! buf := carefully_decompress_snappy chunk_data DEFAULT_BLOCK_SIZE in
            java_chunks fuel (src_data s) (output ++ buf)
      end
  end.

(** The two forms of snappy data. *)
Definition snappy_output (input : list byte) : outcome ReadError (list byte) :=
  if starts_with JAVA_MAGIC input then
    let content := drop (length JAVA_MAGIC) input in
    let! (buf_version, s) := read_exact_io 4 (cursor content) in
    if negb (bool_decide (buf_version = map byte_of_Z [0; 0; 0; 1]))
    then Err (ReadMalformed (JavaSnappyVersion buf_version))
    else
      let! (buf_compatible, s) := read_exact_io 4 s in
      if negb (bool_decide (buf_compatible = map byte_of_Z [0; 0; 0; 1]))
      then Err (ReadMalformed (JavaSnappyCompat buf_compatible))
      else java_chunks (length (src_data s)) (src_data s) []
  else carefully_decompress_snappy input DEFAULT_BLOCK_SIZE.

(** [reader.read_to_end(&mut input)?]. *)
Definition read_to_end : reader ReadError (list byte) := fun s =>
  match src_tail s with
  | None => Ok (src_data s, mkSrc [] None)
  | Some e => Err (ReadIO e)
  end.

(** The [match compression] of [RecordBatchBody::read]. *)
Definition decode_records (c : RecordBatchCompression) (is_control : bool) (n_records : Z) :
    reader ReadError ControlBatchOrRecords := fun s =>
  match c with
  | NoCompression => read_records is_control n_records s
  | Gzip =>
      if feature_gzip then
        let! (records, decoder) := read_records is_control n_records (gzip_decoder s) in
        let! _ := ensure_eof DataLeftGzip decoder in
        Ok (records, gzip_rest s)
      else Err (ReadMalformed UnimplementedCompression)
  | Lz4 =>
      if feature_lz4 then
        let! decoder := omap_err ReadIO (of_sum (lz4_decoder s)) in
        let! (records, decoder) := read_records is_control n_records decoder in
        let! _ := ensure_eof DataLeftLz4 decoder in
        let! _ := omap_err ReadIO (of_sum (lz4_finish s)) in
        Ok (records, lz4_rest s)
      else Err (ReadMalformed UnimplementedCompression)
  | Snappy =>
      if feature_snappy then
        let! (input, s) := read_to_end s in
        let! output := snappy_output input in
        let! (records, decoder) := read_records is_control n_records (cursor output) in
        let! _ := ensure_eof DataLeftSnappy decoder in
        Ok (records, s)
      else Err (ReadMalformed UnimplementedCompression)
  | Zstd =>
      if feature_zstd then
        let! decoder := omap_err ReadIO (of_sum (zstd_decoder s)) in
        let! (records, decoder) := read_records is_control n_records decoder in
        let! _ := ensure_eof DataLeftZstd decoder in
        Ok (records, zstd_rest s)
      else Err (ReadMalformed UnimplementedCompression)
  end.

(** [RecordBatchBody::read]. *)
Definition RecordBatchBody_read : reader ReadError RecordBatchBody :=
  let? attributes := read (A:=Int16) in
  let? (compression, timestamp_type, is_transactional, is_control) :=
    rlift (read_attributes (int16 attributes)) in
  let? last_offset_delta := read (A:=Int32) in
  let? first_timestamp := read (A:=Int64) in
  let? max_timestamp := read (A:=Int64) in
  let? producer_id := read (A:=Int64) in
  let? producer_epoch := read (A:=Int16) in
  let? base_sequence := read (A:=Int32) in
  let? n := read (A:=Int32) in
  let? n_records := rlift (if int32 n =? -1 then Ok 0
                           else ok_or ReadOverflow (usize_try_from (int32 n))) in
  let? records := decode_records compression is_control n_records in
  rret (mkRecordBatchBody (int32 last_offset_delta) (int64 first_timestamp) (int64 max_timestamp)
          (int64 producer_id) (int16 producer_epoch) (int32 base_sequence) records compression
          is_transactional timestamp_type).

(** [RecordBatchBodyRef::write_records]. *)
Definition write_records (r : ControlBatchOrRecords) : writer WriteError :=
  match r with
  | ControlBatch c => write c
  | RecordList l => write_many write l
  end.

(** The [match self.compression] of [RecordBatchBodyRef::write]. *)
Definition encode_records (c : RecordBatchCompression) (r : ControlBatchOrRecords) :
    writer WriteError :=
  match c with
  | NoCompression => write_records r
  | Gzip =>
      if feature_gzip then
        let! plain := write_records r in omap_err WriteIO (of_sum (gzip_encode plain))
      else Err (WriteMalformed UnimplementedCompression)
  | Lz4 =>
      if feature_lz4 then
        let! plain := write_records r in omap_err WriteIO (of_sum (lz4_encode plain))
      else Err (WriteMalformed UnimplementedCompression)
  | Snappy =>
      if feature_snappy then
        let! plain := write_records r in
        omap_err (fun e => WriteMalformed (Snap e)) (of_sum (snap_compress plain))
      else Err (WriteMalformed UnimplementedCompression)
  | Zstd =>
      if feature_zstd then
        let! plain := write_records r in omap_err WriteIO (of_sum (zstd_encode plain))
      else Err (WriteMalformed UnimplementedCompression)
  end.

Definition is_control_batch (r : ControlBatchOrRecords) : bool :=
  match r with ControlBatch _ => true | RecordList _ => false end.

Definition record_count (r : ControlBatchOrRecords) : Z :=
  match r with ControlBatch _ => 1 | RecordList l => zlen l end.

(** [RecordBatchBodyRef::write], also [RecordBatchBody::write]. *)
Definition RecordBatchBody_write (b : RecordBatchBody) : writer WriteError :=
  write (mkInt16 (write_attributes (body_compression b) (body_timestamp_type b)
                    (body_is_transactional b) (is_control_batch (body_records b)))) ;+
  write (mkInt32 (body_last_offset_delta b)) ;+
  write (mkInt64 (body_first_timestamp b)) ;+
  write (mkInt64 (body_max_timestamp b)) ;+
  write (mkInt64 (body_producer_id b)) ;+
  write (mkInt16 (body_producer_epoch b)) ;+
  write (mkInt32 (body_base_sequence b)) ;+
  (let! n := ok_or WriteOverflow (signed_try_from 32 (record_count (body_records b))) in
   write (mkInt32 n)) ;+
  encode_records (body_compression b) (body_records b).

(** [usize::checked_sub]. *)
Definition checked_sub (a b : Z) : option Z := if a <? b then None else Some (a - b).

(** The part of [RecordBatch::read] after the CRC-checked bytes were read. *)
Definition parse_checked (crc : Z) (data : list byte) : outcome ReadError RecordBatchBody :=
  let actual_crc := crc32c data in
  if negb (crc =? actual_crc) then Err (ReadMalformed (CrcMismatch actual_crc crc))
  else
    let! (body, rest) := RecordBatchBody_read (cursor data) in
    let bytes_left := zlen (src_data rest) in
    if negb (bytes_left =? 0) then Err (ReadMalformed (TrailingAfterBatch bytes_left))
    else Ok body.

(** [RecordBatch::read]. *)
Definition RecordBatch_read : reader ReadError RecordBatch :=
  let? base_offset := read (A:=Int64) in
  let? len := read (A:=Int32) in
  let? len := rlift (ok_or (ReadMalformed TryFromInt) (usize_try_from (int32 len))) in
  let? len := rlift (ok_or (ReadMalformed (BatchLenTooSmall len)) (checked_sub len (4 + 1 + 4))) in
  let? partition_leader_epoch := read (A:=Int32) in
  let? magic := read (A:=Int8) in
  if negb (int8 magic =? 2) then rerr (ReadMalformed (InvalidMagic (int8 magic)))
  else
    let? crc := read (A:=Int32) in
    let crc := from_be_bytes_unsigned (to_be_bytes 4 (int32 crc)) in
    let? data := read_bytes len in
    let? body := rlift (parse_checked crc data) in
    rret (batch_of_body (int64 base_offset) (int32 partition_leader_epoch) body).

(** [RecordBatch::write]. *)
Definition RecordBatch_write (b : RecordBatch) : writer WriteError :=
  let! data := RecordBatchBody_write (batch_body b) in
  write (mkInt64 (base_offset b)) ;+
  (let! l := ok_or (WriteMalformed TryFromInt) (signed_try_from 32 (zlen data + 4 + 1 + 4)) in
   write (mkInt32 l)) ;+
  write (mkInt32 (partition_leader_epoch b)) ;+
  write (mkInt8 2) ;+
  write (mkInt32 (from_be_bytes_signed (to_be_bytes 4 (crc32c data)))) ;+
  write_all data.

#[export] Instance RecordBatch_ReadType : ReadType RecordBatch := RecordBatch_read.
#[export] Instance RecordBatch_WriteType : WriteType RecordBatch := RecordBatch_write.

(** The loop of [Records::read].  A batch has a header, so every iteration
    makes progress and the length of the buffer is enough fuel. *)
Fixpoint records_loop (fuel : nat) (buf : list byte) (batches : list RecordBatch) :
    outcome ReadError (list RecordBatch) :=
  match buf with
  | [] => Ok batches
  | _ =>
      match fuel with
      | O => Panic Unreachable
      | S fuel =>
          match read (A:=RecordBatch) (cursor buf) with
          | Ok (batch, rest) => records_loop fuel (src_data rest) (batches ++ [batch])
          | Err (ReadIO UnexpectedEof) => Ok batches
          | Err e => Err e
          | Panic p => Panic p
          end
      end
  end.

(** [Records::read]. *)
Definition Records_read : reader ReadError Records :=
  let? buf := read (A:=NullableBytes) in
  let buf := default [] (nullable_bytes buf) in
  let? batches := rlift (records_loop (length buf) buf []) in
  rret (mkRecords batches).

(** [Records::write]. *)
Definition Records_write (r : Records) : writer WriteError :=
  let! buf := write_many write (records_0 r) in
  write (mkNullableBytes (Some buf)).

#[export] Instance Records_ReadType : ReadType Records := Records_read.
#[export] Instance Records_WriteType : WriteType Records := Records_write.
End operations.

(** ** Laws *)
Lemma read_write_attributes c t tr ct :
  read_attributes (write_attributes c t tr ct) = Ok (c, t, tr, ct) /\
  in_signed 16 (write_attributes c t tr ct).
Proof. destruct c, t, tr, ct; vm_compute; split; done. Qed.

Section laws.
Context {VC : VarIntCrate} {VO : VarIntCrateOk} {CC : Codecs} {CO : CodecsOk} {prof : Profile}.

Lemma record_count_nonneg r : 0 <= record_count r.
Proof. destruct r; simpl; [lia|apply zlen_nonneg]. Qed.

Lemma records_round_trip r plain s :
  wf r -> write_records r = Ok plain ->
  read_records (is_control_batch r) (record_count r) (plain +> s) = Ok (r, s).
Proof.
  intros Hr Hw. unfold read_records. destruct r as [c|l]; simpl in *.
  - by erewrite run_read by (first [eassumption|done]).
  - rewrite to_nat_zlen. by erewrite rbind_run by (by apply (round_trip_many _ _ _ read_write)).
Qed.

Lemma records_round_trip_cursor r plain :
  wf r -> write_records r = Ok plain ->
  read_records (is_control_batch r) (record_count r) (cursor plain) = Ok (r, cursor []).
Proof. intros Hr Hw. rewrite <-src_app_cursor. by apply records_round_trip. Qed.

Lemma of_sum_ok {E A} (x : E + A) a : of_sum x = Ok a -> x = inr a.
Proof. destruct x; simpl; congruence. Qed.

Lemma snappy_output_compress plain c :
  snap_compress plain = inr c -> snappy_output c = Ok plain.
Proof.
  intros Hc. unfold snappy_output. rewrite (snap_not_java _ _ Hc).
  by apply carefully_decompress_compress.
Qed.

Lemma decode_encode_records c r bs :
  wf r -> encode_records c r = Ok bs ->
  decode_records c (is_control_batch r) (record_count r) (cursor bs) = Ok (r, cursor []).
Proof.
  intros Hr Hw. unfold decode_records. destruct c; simpl in Hw;
    [by apply records_round_trip_cursor|..];
    (case_match; [|done]); apply obind_ok in Hw as (plain & Hp & Hw);
    apply omap_err_ok, of_sum_ok in Hw.
  - apply gzip_ok in Hw as [-> ->]. by rewrite records_round_trip_cursor.
  - simpl. rewrite (snappy_output_compress _ _ Hw). simpl. by rewrite records_round_trip_cursor.
  - apply lz4_ok in Hw as (-> & -> & ->). simpl. by rewrite records_round_trip_cursor.
  - apply zstd_ok in Hw as [-> ->]. simpl. by rewrite records_round_trip_cursor.
Qed.

Lemma body_round_trip b bs :
  wf b -> RecordBatchBody_write b = Ok bs ->
  RecordBatchBody_read (cursor bs) = Ok (b, cursor []).
Proof.
  intros (H1 & H2 & H3 & H4 & H5 & H6 & Hr) Hw. unfold RecordBatchBody_write in Hw.
  apply wseq_ok in Hw as (ba & bs' & Ha & Hw & ->). invert_write.
  destruct (read_write_attributes (body_compression b) (body_timestamp_type b)
    (body_is_transactional b) (is_control_batch (body_records b))) as [Hattr Hrange].
  rewrite <-src_app_cursor, !src_app_app, src_app_cursor.
  unfold RecordBatchBody_read. erewrite run_read by (first [eassumption|done]). cbn [int16].
  rewrite Hattr. erewrite rbind_run by done. cbv beta iota.
  do 7 erewrite run_read by (first [eassumption|done]). cbn [int32].
  pose proof (record_count_nonneg (body_records b)).
  destruct (Z.eqb_spec (record_count (body_records b)) (-1)); [lia|].
  rewrite (run_ok_or _ _ (record_count (body_records b))) by (by apply (usize_of_signed 32)).
  erewrite rbind_run by (by apply decode_encode_records). by destruct b.
Qed.

Lemma crc_round_trip c :
  in_unsigned 32 c ->
  in_signed 32 (from_be_bytes_signed (to_be_bytes 4 c)) /\
  from_be_bytes_unsigned (to_be_bytes 4 (from_be_bytes_signed (to_be_bytes 4 c))) = c.
Proof.
  intros Hc. split.
  - replace 32 with (8 * zlen (to_be_bytes 4 c)) by (by unfold to_be_bytes; rewrite zlen_be_bytes).
    by apply from_be_bytes_signed_range.
  - rewrite to_from_be_bytes_signed by (first [apply length_be_bytes|lia]).
    by apply from_to_be_bytes_unsigned.
Qed.

(** The header of a batch with checked data of [len] bytes. *)
Definition batch_header (off epoch len crc : Z) : list byte :=
  to_be_bytes 8 off ++ to_be_bytes 4 (len + 4 + 1 + 4) ++ to_be_bytes 4 epoch ++
  to_be_bytes 1 2 ++ to_be_bytes 4 crc.

(** What [RecordBatch::read] makes of the checked data behind it. *)
Definition batch_from_checked (off epoch crc : Z) (data : list byte) (s : src) :
    outcome ReadError (RecordBatch * src) :=
  let! body := parse_checked crc data in Ok (batch_of_body off epoch body, s).

Lemma batch_header_read off epoch crc data s :
  in_signed 64 off -> in_signed 32 epoch -> in_unsigned 32 crc -> zlen data + 4 + 1 + 4 < 2 ^ 31 ->
  read (A:=RecordBatch) ((batch_header off epoch (zlen data) crc ++ data) +> s)
  = batch_from_checked off epoch crc data s.
Proof.
  intros Ho He Hc Hlen. destruct (crc_round_trip crc Hc) as [Hcs Hcu].
  pose proof (zlen_nonneg data).
  assert (Hl : in_signed 32 (zlen data + 4 + 1 + 4)) by (unfold in_signed; lia).
  unfold batch_header. rewrite <-!app_assoc, !src_app_app.
  unfold read at 1, RecordBatch_ReadType, RecordBatch_read.
  erewrite (run_read (mkInt64 off)) by done.
  erewrite (run_read (mkInt32 (zlen data + 4 + 1 + 4))) by done. cbn [int32].
  rewrite (run_ok_or _ _ (zlen data + 4 + 1 + 4)) by (apply (usize_of_signed 32); [lia|lia|done]).
  unfold checked_sub. destruct (Z.ltb_spec (zlen data + 4 + 1 + 4) (4 + 1 + 4)); [lia|].
  erewrite (run_ok_or _ _ (zlen data)) by (f_equal; lia).
  erewrite (run_read (mkInt32 epoch)) by done.
  erewrite (run_read (mkInt8 2)) by done. cbn [int8 Z.eqb negb Pos.eqb].
  erewrite (run_read (mkInt32 (from_be_bytes_signed (to_be_bytes 4 crc)))).
  2: { unfold write, Int32_WriteType, Int32_write, write_all. cbn [int32].
       rewrite to_from_be_bytes_signed by (first [apply length_be_bytes|lia]). done. }
  2: { done. }
  cbv zeta. cbn [int32]. rewrite Hcu, run_read_bytes by done. unfold batch_from_checked.
  by destruct (parse_checked crc data).
Qed.

(** A written batch is that header and the checked data. *)
Lemma batch_write_layout b bs :
  write b = Ok bs ->
  exists data, RecordBatchBody_write (batch_body b) = Ok data /\
    zlen data + 4 + 1 + 4 < 2 ^ 31 /\
    bs = batch_header (base_offset b) (partition_leader_epoch b) (zlen data) (crc32c data) ++ data.
Proof.
  intros Hw. unfold write, RecordBatch_WriteType, RecordBatch_write in Hw.
  apply obind_ok in Hw as (data & Hd & Hw). invert_write. exists data. split; [done|].
  repeat match goal with
  | H : write (mkInt64 ?z) = Ok ?b |- _ =>
      change (Ok (E:=WriteError) (to_be_bytes 8 z) = Ok b) in H; apply Ok_inj in H; subst b
  | H : write (mkInt32 ?z) = Ok ?b |- _ =>
      change (Ok (E:=WriteError) (to_be_bytes 4 z) = Ok b) in H; apply Ok_inj in H; subst b
  | H : write (mkInt8 ?z) = Ok ?b |- _ =>
      change (Ok (E:=WriteError) (to_be_bytes 1 z) = Ok b) in H; apply Ok_inj in H; subst b
  end.
  unfold in_signed in *. split; [lia|]. unfold batch_header. rewrite <-!app_assoc.
  rewrite to_from_be_bytes_signed by (first [apply length_be_bytes|lia]). done.
Qed.

#[export] Instance RecordBatch_RoundTrip : RoundTrip RecordBatch.
Proof.
  intros b bs s (Ho & He & Hb) Hw.
  destruct (batch_write_layout b bs Hw) as (data & Hd & Hlen & ->).
  rewrite batch_header_read by (try done; apply crc32c_u32). unfold batch_from_checked, parse_checked. rewrite Z.eqb_refl. simpl.
  rewrite (body_round_trip _ _ Hb Hd). simpl. by destruct b.
Qed.

Lemma run_checked_sub {B} len (k : Z -> reader ReadError B) :
  (forall n, 0 <= n -> streaming (k n)) ->
  streaming (let? n := rlift (ok_or (ReadMalformed (BatchLenTooSmall len))
                                (checked_sub len (4 + 1 + 4))) in k n).
Proof.
  intros Hk. apply (streaming_bind_where (fun n => 0 <= n)); [apply streaming_lift| |done].
  intros s a s' [Ha _]%rlift_ok. apply ok_or_ok in Ha. unfold checked_sub in Ha.
  destruct (Z.ltb_spec len (4 + 1 + 4)); [done|]. injection Ha as <-. lia.
Qed.

#[export] Instance RecordBatch_Streaming : Streaming RecordBatch.
Proof.
  unfold Streaming, read, RecordBatch_ReadType, RecordBatch_read.
  repeat first [apply run_checked_sub; intros ? ? | prim_streaming_step].
Qed.

(** *** No panics *)
Lemma read_records_no_panic ctl n : no_panic (read_records ctl n).
Proof. unfold read_records. prim_no_panic. Qed.

Lemma ensure_eof_no_panic msg s p : ensure_eof msg s <> Panic p.
Proof. unfold ensure_eof. by destruct (src_data s), (src_tail s) as [[]|]. Qed.

Lemma of_sum_no_panic {E F A} (f : E -> F) (x : E + A) p : omap_err f (of_sum x) <> Panic p.
Proof. by destruct x. Qed.

Lemma java_chunks_no_panic fuel cur out p :
  (length cur <= fuel)%nat -> java_chunks fuel cur out <> Panic p.
Proof.
  revert cur out p. induction fuel as [|fuel IH]; intros cur out p Hf.
  { by destruct cur; simpl in Hf; [|lia]. }
  destruct cur as [|b cur]; [done|]. cbn [java_chunks].
  apply obind_no_panic; [apply no_panic_read_exact_io|]. intros [buf s] Hbuf q.
  apply read_exact_io_ok in Hbuf as [Hs Hb]; [|lia].
  case_match; [done|]. revert q.
  apply obind_no_panic; [apply no_panic_read_exact_io|]. intros [chunk s2] Hc.
  apply read_exact_io_ok in Hc as [Hs2 _].
  2: { pose proof (be_value_range buf). unfold from_be_bytes_unsigned. lia. }
  apply obind_no_panic; [intros q; by apply carefully_decompress_no_panic|].
  intros dec _ q. apply IH.
  apply (f_equal (fun s => length (src_data s))) in Hs, Hs2. simpl in Hs, Hs2, Hf.
  rewrite length_app in Hs, Hs2. unfold zlen in Hb. lia.
Qed.

Lemma snappy_output_no_panic input p : snappy_output input <> Panic p.
Proof.
  unfold snappy_output. case_match; [|by apply carefully_decompress_no_panic].
  revert p. apply obind_no_panic; [apply no_panic_read_exact_io|]. intros [v s] _ p.
  case_match; [done|]. revert p. apply obind_no_panic; [apply no_panic_read_exact_io|].
  intros [c s2] _ p. case_match; [done|]. by apply java_chunks_no_panic.
Qed.

Lemma read_to_end_no_panic : no_panic read_to_end.
Proof. intros s p. unfold read_to_end. by destruct (src_tail s). Qed.

Lemma decode_records_no_panic c ctl n : no_panic (decode_records c ctl n).
Proof.
  intros s. unfold decode_records. destruct c; [apply read_records_no_panic|..];
    intros p; (case_match; [|done]); revert p.
  all: repeat (apply obind_no_panic;
    [first [apply read_records_no_panic|apply ensure_eof_no_panic|apply of_sum_no_panic
           |apply snappy_output_no_panic|apply read_to_end_no_panic]
    |let a := fresh in intros a _; try destruct a]).
  all: done.
Qed.

Lemma read_attributes_no_panic a p : read_attributes a <> Panic p.
Proof.
  revert p. unfold read_attributes. apply obind_no_panic; [|done]. intros p.
  by repeat case_match.
Qed.

Lemma body_no_panic : no_panic RecordBatchBody_read.
Proof.
  unfold RecordBatchBody_read. apply no_panic_bind; [auto with streaming|]. intros a.
  apply no_panic_bind.
  { apply no_panic_lift, read_attributes_no_panic. }
  intros [[[c t] tr] ct]. do 7 (apply no_panic_bind; [auto with streaming|intros ?]).
  apply no_panic_bind; [case_match; auto with streaming; by intros s p|]. intros n.
  apply no_panic_bind; [apply decode_records_no_panic|]. auto with streaming.
Qed.

Lemma parse_checked_no_panic crc data p : parse_checked crc data <> Panic p.
Proof.
  unfold parse_checked. case_match; [done|]. revert p.
  apply obind_no_panic; [apply body_no_panic|]. intros [b s] _ p. by case_match.
Qed.

#[export] Instance RecordBatch_NoPanic : NoPanic RecordBatch.
Proof.
  unfold NoPanic, read, RecordBatch_ReadType, RecordBatch_read.
  apply no_panic_bind; [auto with streaming|]. intros bo.
  apply no_panic_bind; [auto with streaming|]. intros len. apply no_panic_usize. intros Hlen.
  apply (no_panic_bind_where (fun n => 0 <= n)); [auto with streaming| |].
  { intros s a s' [Ha _]%rlift_ok. apply ok_or_ok in Ha. unfold checked_sub in Ha.
    destruct (Z.ltb_spec (int32 len) (4 + 1 + 4)); [done|]. injection Ha as <-. lia. }
  intros n Hn. do 2 (apply no_panic_bind; [auto with streaming|intros ?]).
  case_match; [auto with streaming|]. apply no_panic_bind; [auto with streaming|]. intros crc.
  apply no_panic_bind; [auto with streaming|]. intros data.
  apply no_panic_bind; [|auto with streaming]. apply no_panic_lift, parse_checked_no_panic.
Qed.

(** *** Sequences of batches *)
Lemma batch_read_progress buf b rest :
  read (A:=RecordBatch) (cursor buf) = Ok (b, rest) ->
  exists bs, buf = bs ++ src_data rest /\ bs <> [] /\ rest = cursor (src_data rest).
Proof.
  intros Hr. destruct (read_streaming _ _ _ Hr) as (bs & Hs & L & _).
  unfold cursor, src_app in Hs. injection Hs as Hb Ht. exists bs. split; [done|].
  split; [|rewrite (src_eta rest) at 1; by rewrite <-Ht].
  intros ->. pose proof (L (cursor [])) as L0. by rewrite src_app_nil in L0.
Qed.

Lemma records_loop_no_panic fuel buf acc p :
  (length buf <= fuel)%nat -> records_loop fuel buf acc <> Panic p.
Proof.
  revert buf acc. induction fuel as [|fuel IH]; intros buf acc Hf.
  { by destruct buf; simpl in Hf; [|lia]. }
  destruct buf as [|x buf]; [done|]. cbn [records_loop].
  destruct (read (cursor (x :: buf))) as [[b rest]|e|p'] eqn:Hr.
  - apply IH. apply batch_read_progress in Hr as (bs & Hb & Hne & _).
    apply (f_equal length) in Hb. rewrite length_app in Hb. destruct bs; [done|].
    simpl in *. lia.
  - by destruct e as [[]| |].
  - by apply read_no_panic in Hr.
Qed.

(** The loop over the encodings of some batches, followed by other bytes. *)
Lemma records_loop_app l bs rest fuel acc :
  Forall wf l -> write_many write l = Ok bs -> (length (bs ++ rest) <= fuel)%nat ->
  exists fuel', (length rest <= fuel')%nat /\
    records_loop fuel (bs ++ rest) acc = records_loop fuel' rest (acc ++ l).
Proof.
  revert bs fuel acc. induction l as [|b l IH]; intros bs fuel acc Hwf Hw Hf; simpl in Hw.
  - apply wnil_ok in Hw as ->. exists fuel. by rewrite app_nil_r.
  - apply wseq_ok in Hw as (b1 & b2 & H1 & H2 & ->). inversion Hwf as [|? ? Hb Hl]; subst.
    pose proof (read_write _ _ (cursor (b2 ++ rest)) Hb H1) as Hr.
    rewrite <-(app_assoc b1) in Hf |- *.
    change (b1 +> cursor (b2 ++ rest)) with (cursor (b1 ++ (b2 ++ rest))) in Hr.
    pose proof (batch_read_progress _ _ _ Hr) as (bs' & Hbs & Hne & _). simpl in Hbs.
    assert (b1 <> []) as Hb1 by (intros ->; by apply app_inv_tail in Hbs as <-).
    destruct b1 as [|x b1]; [done|]. destruct fuel as [|fuel]; [simpl in Hf; lia|].
    destruct (IH b2 fuel (acc ++ [b]) Hl H2) as (fuel' & Hf' & Heq).
    { simpl in Hf. rewrite length_app in Hf. lia. }
    exists fuel'. split; [done|]. simpl app at 1. cbn [records_loop].
    simpl app in Hr. rewrite Hr. change (src_data (cursor (b2 ++ rest))) with (b2 ++ rest). rewrite Heq. by rewrite <-app_assoc.
Qed.

(** The encoding of the batches can be cut inside the next batch. *)
Lemma records_loop_truncated l bs (b : RecordBatch) nb p q :
  Forall wf l -> wf b -> write_many write l = Ok bs -> write b = Ok nb ->
  nb = p ++ q -> q <> [] ->
  records_loop (length (bs ++ p)) (bs ++ p) [] = Ok l.
Proof.
  intros Hl Hb Hw Hnb Hpq Hq.
  destruct (records_loop_app l bs p (length (bs ++ p)) [] Hl Hw) as (f & Hf & ->); [done|].
  destruct p as [|x p]; [by destruct f|]. destruct f as [|f]; [simpl in Hf; lia|].
  cbn [records_loop app].
  pose proof (read_write _ _ (cursor []) Hb Hnb) as Hr. rewrite src_app_cursor in Hr.
  destruct (read_streaming _ _ _ Hr) as (cs & Hcs & _ & Tr).
  rewrite src_app_cursor in Hcs. injection Hcs as <-.
  unfold cursor at 1. rewrite (Tr _ _ None Hpq Hq). done.
Qed.

#[export] Instance Records_RoundTrip : RoundTrip Records.
Proof.
  intros [l] bs s Hx Hw. unfold write, Records_WriteType, Records_write in Hw.
  apply obind_ok in Hw as (buf & Hb & Hw). unfold read, Records_ReadType, Records_read.
  erewrite run_read by (first [eassumption|done]). cbn [nullable_bytes default from_option id].
  destruct (records_loop_app l buf [] (length buf) [] Hx Hb) as (f & _ & Heq).
  { by rewrite app_nil_r. }
  rewrite app_nil_r in Heq. cbv zeta. rewrite Heq. by destruct f.
Qed.

#[export] Instance Records_Streaming : Streaming Records.
Proof. unfold Streaming, read, Records_ReadType, Records_read. prim_streaming. Qed.

#[export] Instance Records_NoPanic : NoPanic Records.
Proof.
  unfold NoPanic, read, Records_ReadType, Records_read.
  apply no_panic_bind; [auto with streaming|]. intros buf.
  apply no_panic_bind; [|auto with streaming]. apply no_panic_lift. intros p.
  by apply records_loop_no_panic.
Qed.
End laws.
