(* ===== verification/RefCrates.v ===== *)
(** * Reference instances of the crates

    Concrete functions with the documented behaviour of [integer-encoding]
    (zig-zag varints), [crc32c] and the compressors, and the proof that they
    meet [VarIntCrateOk] and [CodecsOk].  They show that what the development
    assumes of the crates can be met, and they let definitions run on concrete
    inputs.  The compressors store their input; the varints and the checksum
    are the real ones. *)

From Stdlib Require Import ZArith Lia.
From stdpp Require Import base list numbers.
From S2P Require Import Prelude Bytes Wire VecBuilder Varint Primitives PrimitiveLaws Codec.

Local Open Scope Z_scope.
Local Open Scope rust_scope.

(** ** Zig-zag varints *)
Definition zigzag (z : Z) : Z := if 0 <=? z then 2 * z else -2 * z - 1.
Definition unzigzag (u : Z) : Z := if Z.even u then u / 2 else - (u / 2) - 1.

Lemma unzigzag_zigzag z : unzigzag (zigzag z) = z.
Proof.
  unfold zigzag, unzigzag. destruct (Z.leb_spec 0 z).
  - rewrite Z.even_mul. simpl. rewrite Z.mul_comm, Z.div_mul; lia.
  - replace (-2 * z - 1) with (1 + (- z - 1) * 2) by lia.
    rewrite Z.div_add by lia.
    rewrite Z.even_add, Z.even_mul, orb_true_r. simpl Bool.eqb. cbv iota.
    change (1 / 2) with 0. lia.
Qed.

Lemma zigzag_range z : in_signed 64 z -> in_unsigned 64 (zigzag z).
Proof. unfold in_signed, in_unsigned, zigzag. destruct (Z.leb_spec 0 z); simpl; lia. Qed.

Lemma unzigzag_range u : in_unsigned 64 u -> in_signed 64 (unzigzag u).
Proof.
  unfold in_signed, in_unsigned, unzigzag. intros Hu.
  assert (0 <= u / 2 < 2 ^ 63).
  { split; [apply Z.div_pos; lia|]. apply Z.div_lt_upper_bound; lia. }
  destruct (Z.even u); simpl in *; lia.
Qed.

Definition io_kind (e : ReadError) : ErrorKind :=
  match e with ReadIO e => e | _ => InvalidData end.

#[export] Instance ref_varint : VarIntCrate := {
  read_varint_i64 :=
    let? u := rmap_err io_kind (read (A:=UnsignedVarint)) in rret (unzigzag (uvarint u));
  write_varint_i32 z := match UnsignedVarint_write (mkUnsignedVarint (zigzag z)) with
                        | Ok bs => bs | _ => [] end;
  write_varint_i64 z := match UnsignedVarint_write (mkUnsignedVarint (zigzag z)) with
                        | Ok bs => bs | _ => [] end;
}.

Lemma ref_varint_round_trip z s :
  in_signed 64 z -> read_varint_i64 (write_varint_i64 z +> s) = Ok (z, s).
Proof.
  intros Hz. apply zigzag_range in Hz as Hu. simpl.
  destruct (uvarint_bytes_total (E:=ReadError) _ Hu) as (bs & Hw & _).
  unfold write, UnsignedVarint_WriteType in Hw. rewrite Hw.
  erewrite rbind_run by (apply rmap_err_ok; by apply (read_write (mkUnsignedVarint (zigzag z)))).
  cbn [uvarint]. by rewrite unzigzag_zigzag.
Qed.

#[export] Instance ref_varint_ok : VarIntCrateOk.
Proof.
  split.
  - intros z bs s Hz ->%write_all_ok. apply ref_varint_round_trip.
    unfold in_signed in *. simpl in *. lia.
  - intros z bs s Hz ->%write_all_ok. by apply ref_varint_round_trip.
  - simpl. apply streaming_bind; [|intros; apply streaming_ret].
    apply streaming_map_err; [done|]. apply read_streaming.
  - simpl. apply no_panic_bind; [|intros; apply no_panic_ret].
    apply no_panic_map_err, read_no_panic.
  - simpl. intros s z s' (u & s1 & Hu%rmap_err_ok & [= <- <-])%rbind_ok.
    apply unzigzag_range. by apply read_wf in Hu.
Qed.

(** ** CRC-32C *)
Definition crc_step (c : Z) : Z :=
  if Z.odd c then Z.lxor (Z.shiftr c 1) 0x82F63B78 else Z.shiftr c 1.
Definition crc_byte (c : Z) (b : byte) : Z := Nat.iter 8 crc_step (Z.lxor c (byte_to_Z b)).
Definition ref_crc32c (bs : list byte) : Z :=
  Z.lxor (fold_left crc_byte bs 0xFFFFFFFF) 0xFFFFFFFF mod 2 ^ 32.

(** The check value of the algorithm: the CRC of [123456789]. *)
Example ref_crc32c_check :
  ref_crc32c (map byte_of_Z [0x31; 0x32; 0x33; 0x34; 0x35; 0x36; 0x37; 0x38; 0x39]) = 0xE3069283.
Proof. vm_compute. reflexivity. Qed.

(** ** Storing compressors *)
Definition stored_rest (s : src) : src := mkSrc [] (src_tail s).

Definition ref_snap_header (input : list byte) : SnapError + Z :=
  match read (A:=UnsignedVarint) (cursor input) with
  | Ok (n, _) =>
      match write n with
      | Ok header =>
          if (uvarint n <? 2 ^ 32) && bool_decide (header `prefix_of` input)
          then inr (uvarint n) else inl SnapOther
      | _ => inl SnapOther
      end
  | _ => inl SnapOther
  end.

Definition ref_snap_len (input : list byte) : SnapError + Z :=
  match input with
  | [] => inr 0
  | _ => ref_snap_header input
  end.

Definition ref_snap_decompress (input : list byte) (dst : Z) : SnapError + (Z * list byte) :=
  match read (A:=UnsignedVarint) (cursor input) with
  | Ok (n, s) =>
      let payload := src_data s in
      if uvarint n =? zlen payload then inr (uvarint n, payload)
      else if uvarint n <? zlen payload then inl SnapCopyWrite
      else inl SnapOther
  | _ => inl SnapOther
  end.

Definition ref_snap_compress (plain : list byte) : SnapError + list byte :=
  match write (mkUnsignedVarint (zlen plain)) with
  | Ok header =>
      if (zlen plain <? 2 ^ 32) && negb (starts_with JAVA_MAGIC (header ++ plain))
      then inr (header ++ plain) else inl SnapOther
  | _ => inl SnapOther
  end.

#[export] Instance ref_codecs : Codecs := {
  crc32c := ref_crc32c;
  feature_gzip := true; feature_lz4 := true; feature_snappy := true; feature_zstd := true;
  gzip_decoder s := s; gzip_rest := stored_rest; gzip_encode := inr;
  lz4_decoder := inr; lz4_rest := stored_rest; lz4_finish _ := inr tt; lz4_encode := inr;
  zstd_decoder := inr; zstd_rest := stored_rest; zstd_encode := inr;
  snap_decompress_len := ref_snap_len;
  snap_decompress := ref_snap_decompress;
  snap_compress := ref_snap_compress;
}.

Lemma read_uvarint_cursor n header payload :
  in_unsigned 64 n -> write (mkUnsignedVarint n) = Ok header ->
  read (cursor (header ++ payload)) = Ok (mkUnsignedVarint n, cursor payload).
Proof.
  intros Hn Hw. exact (read_write (mkUnsignedVarint n) header (cursor payload) Hn Hw).
Qed.

(** A message that starts with a length field is not empty. *)
Lemma ref_snap_len_header n header payload :
  in_unsigned 64 n -> write (mkUnsignedVarint n) = Ok header ->
  ref_snap_len (header ++ payload) = ref_snap_header (header ++ payload).
Proof.
  intros Hn Hw. pose proof (read_uvarint_cursor n header payload Hn Hw) as Hr.
  by destruct (header ++ payload).
Qed.

Lemma ref_snap_compress_inv plain c :
  ref_snap_compress plain = inr c ->
  exists header, c = header ++ plain /\ write (mkUnsignedVarint (zlen plain)) = Ok header /\
    zlen plain < 2 ^ 32 /\ starts_with JAVA_MAGIC c = false.
Proof.
  unfold ref_snap_compress. destruct (write (mkUnsignedVarint (zlen plain))) as [header|?|?]; [|done..].
  destruct (Z.ltb_spec (zlen plain) (2 ^ 32)); [|done]. simpl.
  destruct (starts_with _ _) eqn:Hs; [done|]. intros [= <-]. by exists header.
Qed.

Lemma zlen_in_u64 {A} (l : list A) : zlen l < 2 ^ 32 -> in_unsigned 64 (zlen l).
Proof. pose proof (zlen_nonneg l). unfold in_unsigned. lia. Qed.

#[export] Instance ref_codecs_ok : CodecsOk.
Proof.
  split; simpl; try (intros plain c [= <-]; done).
  - intros bs. apply Z.mod_pos_bound. done.
  - intros plain c (header & -> & Hw & Hlt & Hj)%ref_snap_compress_inv.
    apply zlen_in_u64 in Hlt as Hu. exists header, plain. do 3 (split; [done|]).
    rewrite (ref_snap_len_header _ _ _ Hu Hw). unfold ref_snap_header, ref_snap_decompress.
    rewrite (read_uvarint_cursor _ _ _ Hu Hw), Hw. simpl.
    destruct (Z.ltb_spec (zlen plain) (2 ^ 32)); [|lia].
    rewrite bool_decide_true by (by exists plain). rewrite Z.eqb_refl. done.
  - intros plain header payload short n (h & Heq & Hw & Hlt & Hj)%ref_snap_compress_inv Hh Hn Hs.
    rewrite Hw in Hh. injection Hh as ->. apply app_inv_head in Heq as ->.
    unfold ref_snap_decompress.
    rewrite (read_uvarint_cursor n short) by (unfold in_unsigned; first [done|lia]). simpl.
    destruct (Z.eqb_spec n (zlen plain)); [lia|]. destruct (Z.ltb_spec n (zlen plain)); [|lia].
    by exists SnapCopyWrite.
  - by intros plain c (header & _ & _ & _ & Hj)%ref_snap_compress_inv.
  - done.
  - intros input n Hne. assert (ref_snap_len input = ref_snap_header input) as -> by by destruct input.
    unfold ref_snap_header. destruct (read (cursor input)) as [[[u] s]|?|?] eqn:Hr; [|done..].
    apply read_wf in Hr as Hu. destruct (write (mkUnsignedVarint u)) as [header|?|?] eqn:Hw; [|done..].
    simpl. destruct (Z.ltb_spec u (2 ^ 32)); [|done]. case_bool_decide as Hp; [|done].
    intros [= <-]. unfold wf, UnsignedVarint_WellFormed, in_unsigned in Hu. simpl in Hu.
    split; [lia|]. exists header. split; [done|]. destruct Hp as [k ->]. rewrite zlen_app.
    pose proof (zlen_nonneg k). lia.
  - intros short payload n Hw. unfold ref_snap_decompress.
    destruct (read _) as [[u s]|?|?]; [|done..]. by repeat case_match.
Qed.
