(* ===== verification/RawSnappy.v ===== *)
(** * The raw snappy format

    [RefCrates] instantiates the compression crates by ones that store.  Here
    is an instance whose snappy decoder is the one of the published format:
    literals and copies from the output so far, with the errors of
    [snap::raw::Decoder].  The encoder emits literals only, which the format
    allows.  It satisfies what the program relies on, and it can decode data
    that other encoders wrote. *)

From Stdlib Require Import ZArith Lia.
From stdpp Require Import base list numbers.
From S2P Require Import Prelude Bytes Wire VecBuilder Varint Primitives PrimitiveLaws Codec RefCrates.

Local Open Scope Z_scope.
Local Open Scope rust_scope.

(** A little-endian number. *)
Fixpoint le_value (bs : list byte) : Z :=
  match bs with
  | [] => 0
  | b :: bs => byte_to_Z b + 256 * le_value bs
  end.

(** [len] bytes from [offset] bytes before the end, which may overlap what is
    being written. *)
Fixpoint copy_back (len : nat) (offset : Z) (out : list byte) : list byte :=
  match len with
  | O => out
  | S len => copy_back len offset (out ++ take 1 (drop (Z.to_nat (zlen out - offset)) out))
  end.

(** The elements of a message, with a buffer of [dst] bytes. *)
Fixpoint raw_decode (fuel : nat) (input out : list byte) (dst : Z) : SnapError + list byte :=
  match input, fuel with
  | [], _ => inr out
  | _, O => inl SnapOther
  | tag :: input, S fuel =>
      let t := byte_to_Z tag in
      let room := dst - zlen out in
      if t mod 4 =? 0 then
        let extra := if t / 4 <? 60 then 0 else t / 4 - 59 in
        if zlen input <? extra then inl (SnapLiteral 4 room (zlen input))
        else
          let body := drop (Z.to_nat extra) input in
          let len := 1 + (if t / 4 <? 60 then t / 4 else le_value (take (Z.to_nat extra) input)) in
          if (room <? len) || (zlen body <? len) then inl (SnapLiteral len room (zlen body))
          else raw_decode fuel (drop (Z.to_nat len) body) (out ++ take (Z.to_nat len) body) dst
      else
        let extra := if t mod 4 =? 1 then 1 else if t mod 4 =? 2 then 2 else 4 in
        let len := if t mod 4 =? 1 then 4 + (t / 4) mod 8 else 1 + t / 4 in
        if zlen input <? extra then inl SnapOther
        else
          let low := le_value (take (Z.to_nat extra) input) in
          let offset := if t mod 4 =? 1 then (t / 32) * 256 + low else low in
          if (offset =? 0) || (zlen out <? offset) then inl SnapOffset
          else if room <? len then inl SnapCopyWrite
          else raw_decode fuel (drop (Z.to_nat extra) input) (copy_back (Z.to_nat len) offset out) dst
  end.

Definition raw_decompress (input : list byte) (dst : Z) : SnapError + (Z * list byte) :=
  match read (A:=UnsignedVarint) (cursor input) with
  | Ok (n, s) =>
      let n := uvarint n in
      if dst <? n then inl SnapBufferTooSmall
      else
        match raw_decode (length (src_data s)) (src_data s) [] n with
        | inl e => inl e
        | inr out =>
            if zlen out =? n then inr (n, out ++ replicate (Z.to_nat (dst - n)) (byte_of_Z 0))
            else inl (SnapHeaderMismatch n (zlen out))
        end
  | _ => inl SnapOther
  end.

(** Literals of at most 60 bytes. *)
Fixpoint literals (fuel : nat) (plain : list byte) : list byte :=
  match plain, fuel with
  | [], _ | _, O => []
  | _, S fuel =>
      let chunk := take 60 plain in
      byte_of_Z (4 * (zlen chunk - 1)) :: chunk ++ literals fuel (drop 60 plain)
  end.

Definition raw_compress (plain : list byte) : SnapError + list byte :=
  match write (mkUnsignedVarint (zlen plain)) with
  | Ok header =>
      if zlen plain <? 2 ^ 32 then inr (header ++ literals (length plain) plain) else inl SnapOther
  | _ => inl SnapOther
  end.

Definition raw_codecs : Codecs := {|
  crc32c := ref_crc32c;
  feature_gzip := true; feature_lz4 := true; feature_snappy := true; feature_zstd := true;
  gzip_decoder s := s; gzip_rest := stored_rest; gzip_encode := inr;
  lz4_decoder := inr; lz4_rest := stored_rest; lz4_finish _ := inr tt; lz4_encode := inr;
  zstd_decoder := inr; zstd_rest := stored_rest; zstd_encode := inr;
  snap_decompress_len := ref_snap_len;
  snap_decompress := raw_decompress;
  snap_compress := raw_compress;
|}.

(** ** Literals are decoded *)

Lemma literals_step plain fuel :
  plain <> [] ->
  exists chunk, 1 <= zlen chunk <= 60 /\ plain = chunk ++ drop 60 plain /\
    literals (S fuel) plain = byte_of_Z (4 * (zlen chunk - 1)) :: chunk ++ literals fuel (drop 60 plain).
Proof.
  intros Hne. exists (take 60 plain). split; [|split; [by rewrite take_drop|by destruct plain]].
  unfold zlen. rewrite length_take. destruct plain; [done|]. simpl length. lia.
Qed.

(** One literal is read, or it is too long for the buffer. *)
Lemma raw_decode_literal fuel chunk rest out dst :
  1 <= zlen chunk <= 60 ->
  raw_decode (S fuel) (byte_of_Z (4 * (zlen chunk - 1)) :: chunk ++ rest) out dst =
  if dst - zlen out <? zlen chunk then inl (SnapLiteral (zlen chunk) (dst - zlen out) (zlen (chunk ++ rest)))
  else raw_decode fuel rest (out ++ chunk) dst.
Proof.
  intros Hc. cbn [raw_decode]. rewrite byte_to_of_Z, (Z.mod_small _ 256) by lia.
  replace ((4 * (zlen chunk - 1)) mod 4) with 0 by (rewrite Z.mul_comm, Z.mod_mul; lia).
  replace (4 * (zlen chunk - 1) / 4) with (zlen chunk - 1) by (rewrite Z.mul_comm, Z.div_mul; lia).
  rewrite (proj2 (Z.eqb_eq 0 0)) by done. destruct (Z.ltb_spec (zlen chunk - 1) 60); [|lia].
  destruct (Z.ltb_spec (zlen (chunk ++ rest)) 0) as [H0|_]; [pose proof (zlen_nonneg (chunk ++ rest)); lia|].
  rewrite drop_0. replace (1 + (zlen chunk - 1)) with (zlen chunk) by lia.
  destruct (Z.ltb_spec (zlen (chunk ++ rest)) (zlen chunk)) as [Hlt|_].
  { rewrite zlen_app in Hlt. pose proof (zlen_nonneg rest). lia. }
  rewrite orb_false_r. destruct (dst - zlen out <? zlen chunk); [done|].
  by rewrite to_nat_zlen, take_app_length, drop_app_length.
Qed.

Lemma raw_decode_literals fuel fuel' plain out dst :
  (length plain <= fuel)%nat -> (length (literals fuel plain) <= fuel')%nat ->
  zlen out + zlen plain <= dst ->
  raw_decode fuel' (literals fuel plain) out dst = inr (out ++ plain).
Proof.
  revert fuel' plain out. induction fuel as [|fuel IH]; intros fuel' plain out Hf Hf' Hd.
  { destruct plain; [|simpl in Hf; lia]. simpl. by destruct fuel'; rewrite app_nil_r. }
  destruct (decide (plain = [])) as [->|Hne]; [simpl; by destruct fuel'; rewrite app_nil_r|].
  destruct (literals_step plain fuel Hne) as (chunk & Hc & Hp & Hl). rewrite Hl in Hf' |- *.
  simpl in Hf'. rewrite length_app in Hf'. destruct fuel' as [|fuel']; [lia|].
  rewrite raw_decode_literal by done. rewrite Hp, zlen_app in Hd. pose proof (zlen_nonneg (drop 60 plain)).
  destruct (Z.ltb_spec (dst - zlen out) (zlen chunk)); [lia|].
  rewrite IH; [by rewrite <-app_assoc, <-Hp| |lia|rewrite zlen_app; lia].
  rewrite length_drop. destruct plain; [done|]. simpl in *. lia.
Qed.

(** A buffer that is too small is reported as such. *)
Lemma raw_decode_shortened fuel fuel' plain out dst :
  (length plain <= fuel)%nat -> (length (literals fuel plain) <= fuel')%nat ->
  zlen out <= dst < zlen out + zlen plain ->
  exists e, raw_decode fuel' (literals fuel plain) out dst = inl e /\
    looks_like_dst_too_small (E:=ReadError) e = Ok true.
Proof.
  revert fuel' plain out. induction fuel as [|fuel IH]; intros fuel' plain out Hf Hf' Hd.
  { destruct plain; [unfold zlen in Hd; simpl in Hd; lia|simpl in Hf; lia]. }
  destruct (decide (plain = [])) as [->|Hne]; [unfold zlen in Hd; simpl in Hd; lia|].
  destruct (literals_step plain fuel Hne) as (chunk & Hc & Hp & Hl). rewrite Hl in Hf' |- *.
  simpl in Hf'. rewrite length_app in Hf'. destruct fuel' as [|fuel']; [lia|].
  rewrite raw_decode_literal by done. rewrite Hp, zlen_app in Hd.
  destruct (Z.ltb_spec (dst - zlen out) (zlen chunk)) as [Hlt|Hge].
  - eexists. split; [done|]. simpl. rewrite (proj2 (Z.ltb_lt _ _) Hlt), zlen_app.
    destruct (Z.leb_spec (zlen chunk) (zlen chunk + zlen (literals fuel (drop 60 plain)))); [done|].
    pose proof (zlen_nonneg (literals fuel (drop 60 plain))). lia.
  - apply IH; [|lia|rewrite zlen_app; lia]. rewrite length_drop. destruct plain; [done|]. simpl in *. lia.
Qed.

(** A message never starts with the tag of a copy. *)
Lemma literals_first fuel plain b rest :
  literals fuel plain = b :: rest -> byte_to_Z b mod 4 = 0.
Proof.
  intros Hl. destruct (decide (plain = [])) as [->|Hne]; [by destruct fuel|].
  destruct fuel as [|fuel]; [by destruct plain|].
  destruct (literals_step plain fuel Hne) as (chunk & Hc & _ & Heq). rewrite Heq in Hl.
  injection Hl as <- _. rewrite byte_to_of_Z, (Z.mod_small _ 256) by lia.
  rewrite Z.mul_comm, Z.mod_mul; lia.
Qed.

Lemma raw_decode_buffer fuel input out dst : raw_decode fuel input out dst <> inl SnapBufferTooSmall.
Proof.
  revert input out. induction fuel as [|fuel IH]; intros [|tag input] out; try done.
  cbn [raw_decode]. by repeat case_match.
Qed.

Lemma raw_compress_inv plain c :
  raw_compress plain = inr c ->
  exists header, c = header ++ literals (length plain) plain /\
    write (mkUnsignedVarint (zlen plain)) = Ok header /\ zlen plain < 2 ^ 32.
Proof.
  unfold raw_compress. destruct (write (mkUnsignedVarint (zlen plain))) as [header|?|?]; [|done..].
  destruct (Z.ltb_spec (zlen plain) (2 ^ 32)); [|done]. intros [= <-]. by exists header.
Qed.

Lemma raw_compress_not_java plain c : raw_compress plain = inr c -> starts_with JAVA_MAGIC c = false.
Proof.
  intros (header & -> & Hw & Hlt)%raw_compress_inv. unfold starts_with.
  apply bool_decide_eq_false. intros [tail Htail].
  pose proof (read_uvarint_cursor _ _ (literals (length plain) plain) (zlen_in_u64 _ Hlt) Hw) as Hr.
  assert (Hm : read (cursor (take 2 JAVA_MAGIC ++ drop 2 JAVA_MAGIC ++ tail)) =
    Ok (mkUnsignedVarint 10626, cursor (drop 2 JAVA_MAGIC ++ tail)))
    by (by apply read_uvarint_cursor).
  rewrite app_assoc, take_drop, <-Htail, Hr in Hm.
  injection Hm as _ Hlit. by apply literals_first in Hlit.
Qed.

#[local] Arguments uvarint_write_loop : simpl nomatch.

Lemma uvarint_write_negative fuel n bs : n < 0 -> uvarint_write_loop fuel n <> Ok bs.
Proof.
  revert n bs. induction fuel as [|fuel IH]; intros n bs Hn; [done|]. intros Hw.
  assert (Z.shiftr n 7 < 0) as Hs by (by apply Z.shiftr_neg). cbn [uvarint_write_loop] in Hw.
  destruct (ok_or (E:=WriteError) WriteOverflow (unsigned_try_from 8 (Z.land n 0x7f))); [|done..].
  cbn [obind] in Hw. destruct (Z.eqb_spec (Z.shiftr n 7) 0); [lia|].
  specialize (IH (Z.shiftr n 7)). destruct (uvarint_write_loop fuel _); naive_solver.
Qed.

#[export] Instance raw_codecs_ok : CodecsOk (H:=raw_codecs).
Proof.
  split; simpl; try (intros plain c [= <-]; done).
  - apply (crc32c_u32 (H:=ref_codecs)).
  - intros plain c (header & -> & Hw & Hlt)%raw_compress_inv. apply zlen_in_u64 in Hlt as Hu.
    exists header, (literals (length plain) plain). do 3 (split; [done|]).
    rewrite (ref_snap_len_header _ _ _ Hu Hw). unfold ref_snap_header, raw_decompress. rewrite (read_uvarint_cursor _ _ _ Hu Hw), Hw. simpl.
    rewrite (proj2 (Z.ltb_lt _ _) Hlt), bool_decide_true by (by eexists). split; [done|].
    rewrite Z.ltb_irrefl, raw_decode_literals by (done || reflexivity). simpl.
    by rewrite Z.eqb_refl, Z.sub_diag, app_nil_r.
  - intros plain header payload short n (h & Heq & Hw & Hlt)%raw_compress_inv Hh Hn Hs.
    rewrite Hw in Hh. injection Hh as ->. apply app_inv_head in Heq as ->. unfold raw_decompress.
    rewrite (read_uvarint_cursor n short) by (unfold in_unsigned; first [done|lia]). simpl.
    rewrite Z.ltb_irrefl.
    destruct (raw_decode_shortened (length plain) (length (literals (length plain) plain)) plain [] n)
      as (e & -> & He); [done..|unfold zlen in *; simpl; lia|]. by exists e.
  - apply raw_compress_not_java.
  - apply (snap_len_empty (H:=ref_codecs)).
  - apply (snap_len_range (H:=ref_codecs)).
  - intros short payload n Hw. unfold raw_decompress.
    destruct (read (cursor (short ++ payload))) as [[[u] s]|?|?] eqn:Hr; [|done..].
    cbn [uvarint]. destruct (Z.ltb_spec n u) as [Hlt|_].
    2: { pose proof (raw_decode_buffer (length (src_data s)) (src_data s) [] u).
         repeat case_match; congruence. }
    pose proof (read_wf _ _ _ Hr) as [Hu1 Hu2]. simpl in Hu1, Hu2, Hlt.
    destruct (Z.le_gt_cases 0 n) as [Hn|Hn]; [|by apply uvarint_write_negative in Hw].
    rewrite (read_uvarint_cursor n short payload) in Hr by (done || (split; lia)).
    injection Hr as -> _. lia.
Qed.
