(* ===== verification/PrimitiveProps.v ===== *)
(** * Properties of the primitive layer

    What the laws of [VecBuilder], [Varint] and [PrimitiveLaws] say of
    src/protocol/vec_builder.rs and src/protocol/primitives.rs, in terms of the
    functions of the source. *)

From Stdlib Require Import ZArith Lia.
From stdpp Require Import base list numbers.
From S2P Require Import Prelude Bytes Wire VecBuilder Varint Primitives PrimitiveLaws Record Codec RecordBatch RefCrates.

Local Open Scope Z_scope.
Local Open Scope rust_scope.

(** ** The vector builder *)

(** Filling a [VecBuilder] block by block with [read_exact] and turning it
    into a vector is one [read_exact] of [len] bytes: same bytes, same rest of
    the source, same error at the end of the input, and never a panic. *)
Theorem vec_builder_reads_exactly len s :
  0 <= len ->
  read_bytes len s = read_exact_io len s /\ forall p, read_bytes len s <> Panic p.
Proof.
  intros Hl. rewrite read_bytes_read_exact by done. split; [done|]. apply no_panic_read_exact_io.
Qed.

Lemma vec_builder_reads_exactly_witness :
  read_bytes 2 (cursor (map byte_of_Z [1; 2; 3]))
    = Ok (map byte_of_Z [1; 2], cursor (map byte_of_Z [3])).
Proof. rewrite (proj1 (vec_builder_reads_exactly 2 _ ltac:(lia))). reflexivity. Defined.

(** C34: The push loop of the array readers.  Reading [n] elements one by one
    into a builder made for [n] elements and converting it is reading a plain
    list: the elements come out in the order read, errors and panics of the
    element reader come through, and the [assert!] and [expect] of [push] never
    fire. *)
Theorem push_loop_is_read_many {E T} (element_size : Z) (n : nat) (r : reader E T) s :
  0 < element_size <= DEFAULT_BLOCK_SIZE ->
  (let? b := rlift (VecBuilder_new element_size (Z.of_nat n)) in
   let? b := read_push_loop n r b in
   rret (into_vec b)) s = read_many n r s.
Proof.
  intros Hsize. destruct (VecBuilder_new (T:=T) (E:=E) element_size (Z.of_nat n)) as [b|e|p] eqn:Hnew.
  - pose proof Hnew as Hn. unfold VecBuilder_new in Hn.
    apply new_inv in Hn as (Hinv & Hc & Hr); [|lia..].
    unfold rlift, rbind. pose proof (read_push_loop_spec n r b s Hinv ltac:(lia)) as Hspec.
    destruct (read_many n r s) as [[xs s']|e|p]; [|by rewrite Hspec..].
    destruct Hspec as (b' & -> & _ & Hb'). unfold rret. by rewrite into_vec_contents, Hb', Hc.
  - unfold VecBuilder_new, new_with_block_size in Hnew. by case_match; case_match.
  - unfold VecBuilder_new, new_with_block_size in Hnew.
    destruct (Z.eqb_spec element_size 0); [lia|].
    destruct (Z.eqb_spec (DEFAULT_BLOCK_SIZE / element_size) 0) as [Hz|]; [|done].
    assert (1 <= DEFAULT_BLOCK_SIZE / element_size) by (apply Z.div_le_lower_bound; lia). lia.
Qed.

Lemma push_loop_is_read_many_witness :
  (let? b := rlift (VecBuilder_new 2 2) in
   let? b := read_push_loop 2 (read (A:=Int16)) b in
   rret (into_vec b)) (cursor (map byte_of_Z [0; 1; 0; 2]))
  = Ok ([mkInt16 1; mkInt16 2], cursor []).
Proof.
  rewrite (push_loop_is_read_many 2 2 (read (A:=Int16))) by (vm_compute; split; congruence).
  reflexivity.
Defined.

Lemma push_many_inv {E T} (ys : list T) : forall b1,
  builder_inv b1 -> zlen ys <= remaining_elements b1 ->
  exists b, foldl (fun m x => obind m (push (E:=E) x)) (Ok b1) ys = Ok b /\ builder_inv b /\
    contents b = contents b1 ++ ys.
Proof.
  induction ys as [|y ys IH]; intros b1 Hi Hl; simpl.
  - exists b1. by rewrite app_nil_r.
  - rewrite zlen_cons in Hl. pose proof (zlen_nonneg ys).
    destruct (push_inv (E:=E) y b1 Hi ltac:(lia)) as (b2 & -> & Hi2 & Hc2 & Hr2).
    destruct (IH b2 Hi2 ltac:(lia)) as (b & Hb & Hib & Hcb). exists b. split; [done|].
    split; [done|]. by rewrite Hcb, Hc2, <-app_assoc.
Qed.

(** The builder holds at most one block more than the data it was given.
    After any number of pushes into a new builder the blocks but the last are
    full, so the room in the blocks exceeds the elements received by at most
    one block, and the pushed elements are the content. *)
Theorem vec_builder_bounded {E T} element_size expected block_size (b0 : VecBuilder T) (xs : list T) :
  0 <= element_size -> 0 <= block_size -> zlen xs <= expected ->
  new_with_block_size (E:=E) element_size expected block_size = Ok b0 ->
  exists b, foldl (fun m x => obind m (push (E:=E) x)) (Ok b0) xs = Ok b /\
    into_vec b = xs /\
    elements_per_block b * (zlen (blocks b) - 1) <= zlen xs /\
    Forall (fun blk => zlen blk <= elements_per_block b) (blocks b).
Proof.
  intros Hes Hbs Hlen Hnew. pose proof (zlen_nonneg xs).
  apply new_inv in Hnew as (Hinv & Hc & Hr); [|lia..].
  destruct (push_many_inv (E:=E) xs b0 Hinv ltac:(lia)) as (b & Hb & Hib & Hcb). exists b. split; [done|].
  rewrite into_vec_contents, Hcb, Hc. split; [done|].
  destruct Hib as [He _ (before & blk & Hbl & Hf & Hblk)]. rewrite Hc in Hcb. simpl in Hcb.
  split; [|rewrite Hbl; apply Forall_app; split; [|by apply Forall_singleton];
           eapply Forall_impl; [|exact Hf]; simpl; intros; lia].
  rewrite <-Hcb. unfold contents. rewrite Hbl, concat_app, zlen_app.
  assert (Hsum : zlen (concat before) = elements_per_block b * zlen before).
  { clear -Hf. induction Hf as [|x l Hx Hl IH]; simpl; [unfold zlen; simpl; lia|].
    rewrite zlen_app, zlen_cons, IH, Hx. lia. }
  rewrite zlen_app, Hsum. change (zlen [blk]) with 1. pose proof (zlen_nonneg (concat [blk])). lia.
Qed.

Lemma vec_builder_bounded_witness :
  exists b, foldl (fun m x => obind m (push (E:=unit) x)) (Ok (mkVecBuilder 2 [[]] 3)) [7; 8; 9] = Ok b /\
    into_vec b = [7; 8; 9] /\
    elements_per_block b * (zlen (blocks b) - 1) <= 3 /\
    Forall (fun blk => zlen blk <= elements_per_block b) (blocks b).
Proof.
  apply (vec_builder_bounded 1 3 2 (mkVecBuilder 2 [[]] 3) [7; 8; 9]);
    [lia|lia|vm_compute; congruence|reflexivity].
Defined.

(** ** Round trips *)

(** The scalar, string and byte types: what [write] produced, [read]
    returns, and it leaves the source exactly after it, whatever follows. *)
Theorem primitive_round_trips {prof : Profile} :
  round_trip wf write (read (A:=Boolean)) /\ round_trip wf write (read (A:=Int8)) /\
  round_trip wf write (read (A:=Int16)) /\ round_trip wf write (read (A:=Int32)) /\
  round_trip wf write (read (A:=Int64)) /\ round_trip wf write (read (A:=UnsignedVarint)) /\
  round_trip wf write (read (A:=String_)) /\ round_trip wf write (read (A:=NullableString)) /\
  round_trip wf write (read (A:=CompactString)) /\
  round_trip wf write (read (A:=CompactNullableString)) /\
  round_trip wf write (read (A:=Bytes)) /\ round_trip wf write (read (A:=NullableBytes)) /\
  round_trip wf write (read (A:=CompactBytes)) /\ round_trip wf write (read (A:=TaggedFields)).
Proof. repeat split; apply read_write. Qed.

(** Arrays and compact arrays of any type that round-trips do so too,
    null arrays included. *)
Theorem array_round_trips T `{RoundTrip T} :
  round_trip wf write (read (A:=Array T)) /\ round_trip wf write (read (A:=CompactArray T)).
Proof. split; apply read_write. Qed.

Lemma array_round_trips_witness :
  round_trip wf write (read (A:=Array String_)) /\ round_trip wf write (read (A:=CompactArray String_)).
Proof. apply (array_round_trips String_). Defined.

(** The encoding of a value of the type, cut short, is an end-of-file error. *)
Definition cut_is_eof (A : Type) `{ReadType A, WriteType A, WellFormed A} : Prop :=
  forall (x : A) bs p q, wf x -> write x = Ok bs -> bs = p ++ q -> q <> [] ->
  read (A:=A) (cursor p) = Err (ReadIO UnexpectedEof).

Lemma cut_streaming A `{RoundTrip A, !Streaming A} : cut_is_eof A.
Proof.
  intros x bs p q Hx Hw Hpq Hq. pose proof (read_write _ _ (cursor []) Hx Hw) as Hr.
  rewrite src_app_cursor in Hr. destruct (read_streaming _ _ _ Hr) as (cs & Hcs & _ & Ht).
  rewrite src_app_cursor in Hcs. injection Hcs as <-. apply (Ht p q None Hpq Hq).
Qed.

(** C35: a value cut short is an end-of-file error, never another value or
    another error: reading any proper prefix of what a primitive type, a record
    header, a record, a control record, a record batch or a [Records] field was
    written as gives [UnexpectedEof].  This is how a record batch that the broker cut off is told
    from a malformed one. *)
Theorem truncated_encoding_is_eof {VC : VarIntCrate} {VO : VarIntCrateOk} {CC : Codecs} {CO : CodecsOk} {prof : Profile} :
  (cut_is_eof Boolean /\ cut_is_eof Int8 /\ cut_is_eof Int16 /\ cut_is_eof Int32 /\ cut_is_eof Int64 /\
   cut_is_eof Varint /\ cut_is_eof Varlong /\ cut_is_eof UnsignedVarint) /\
  (cut_is_eof String_ /\ cut_is_eof NullableString /\ cut_is_eof CompactString /\ cut_is_eof CompactNullableString /\
   cut_is_eof Bytes /\ cut_is_eof NullableBytes /\ cut_is_eof CompactBytes /\ cut_is_eof TaggedFields) /\
  (cut_is_eof (Array Int32) /\ cut_is_eof (CompactArray Int32)) /\
  (cut_is_eof RecordHeader /\ cut_is_eof Record_ /\ cut_is_eof ControlBatchRecord /\ cut_is_eof RecordBatch /\
   cut_is_eof Records).
Proof. repeat match goal with |- _ /\ _ => split end; exact (cut_streaming _). Qed.

Lemma truncated_encoding_is_eof_witness :
  read (A:=CompactString) (cursor (map byte_of_Z [3; 65])) = Err (ReadIO UnexpectedEof).
Proof.
  destruct (truncated_encoding_is_eof (VC:=ref_varint) (CC:=ref_codecs) (prof:=debug_profile))
    as (_ & (_ & _ & Hc & _) & _).
  apply (Hc (mkCompactString (map byte_of_Z [65; 66]))
    (map byte_of_Z [3; 65; 66]) _ (map byte_of_Z [66])); [reflexivity|reflexivity|reflexivity|done].
Defined.

(** ** Panics *)

(** A reader that panics on no input and keeps the invariant of its type. *)
Definition safe_reader (A : Type) `{ReadType A, WellFormed A} : Prop :=
  no_panic (read (A:=A)) /\ forall s x s', read (A:=A) s = Ok (x, s') -> wf x.

Lemma safe_of_laws A `{ReadType A, WellFormed A, !NoPanic A, !ReadWf A} : safe_reader A.
Proof. split; [apply read_no_panic|apply read_wf]. Qed.

Lemma compact_bytes_release : no_panic (CompactBytes_read (prof:=release_profile)).
Proof.
  unfold CompactBytes_read. apply no_panic_bind; [auto with streaming|]. intros len.
  apply no_panic_usize. intros Hz.
  assert (Hk : forall n, 0 <= n -> no_panic (let? buf := read_bytes n in
    rret (mkCompactBytes buf) : reader ReadError CompactBytes)) by (intros; prim_no_panic).
  unfold arith_unsigned. destruct (in_unsigned_b _ _) eqn:Hb.
  - apply in_unsigned_b_true in Hb as [? _]. by apply Hk.
  - apply Hk, Z.mod_pos_bound. done.
Qed.

(** C36: no input makes the reader of a primitive type panic, and what it returns
    satisfies the invariant of the type: integers are in range, strings and the
    keys of tagged fields are well formed (UTF-8, [u64]).  [CompactBytes] is the
    exception: it panics on no input in a build without overflow checks, and on
    a zero length in one with them.  Arrays are as safe as their elements. *)
Theorem primitive_readers_safe {VC : VarIntCrate} {VO : VarIntCrateOk} :
  (safe_reader Boolean /\ safe_reader Int8 /\ safe_reader Int16 /\ safe_reader Int32 /\ safe_reader Int64 /\
   safe_reader Varint /\ safe_reader Varlong /\ safe_reader UnsignedVarint) /\
  (safe_reader String_ /\ safe_reader NullableString /\ safe_reader CompactString /\
   safe_reader CompactNullableString /\ safe_reader Bytes /\ safe_reader NullableBytes /\ safe_reader TaggedFields) /\
  safe_reader CompactBytes (H:=CompactBytes_ReadType (prof:=release_profile)) /\
  (forall T `{ReadType T, WellFormed T}, safe_reader T -> safe_reader (Array T) /\ safe_reader (CompactArray T)).
Proof.
  split; [|split; [|split]].
  - repeat match goal with |- _ /\ _ => split end; exact (safe_of_laws _).
  - repeat match goal with |- _ /\ _ => split end; exact (safe_of_laws _).
  - split; [apply compact_bytes_release|apply read_wf].
  - intros T HR HW [Hnp Hwf]. assert (NoPanic T) by exact Hnp. assert (ReadWf T) by exact Hwf.
    split; exact (safe_of_laws _).
Qed.

Lemma primitive_readers_safe_witness :
  no_panic (read (A:=Array CompactString)) /\
  read (A:=CompactString) (cursor (map byte_of_Z [2; 255])) = Err (ReadMalformed Utf8) /\
  safe_reader (H:=Varint_ReadType (H:=ref_varint)) Varint.
Proof.
  destruct (primitive_readers_safe (VC:=ref_varint)) as ((_ & _ & _ & _ & _ & Hv & _) & (_ & _ & Hs & _) & _ & Ha).
  split; [exact (proj1 (proj1 (Ha _ _ _ Hs)))|]. split; [reflexivity|exact Hv].
Defined.

(** [CompactBytes::read] subtracts one from the length without checking
    for zero: on a zero length field it panics in a build with overflow checks;
    without them the length wraps to 2^64 - 1, which is an end-of-file error
    for every input that is shorter. *)
Theorem compact_bytes_zero_length rest :
  CompactBytes_read (prof:=debug_profile) (cursor (byte_of_Z 0 :: rest)) = Panic ArithOverflow /\
  (zlen rest < 2 ^ 64 - 1 ->
   CompactBytes_read (prof:=release_profile) (cursor (byte_of_Z 0 :: rest))
     = Err (ReadIO UnexpectedEof)).
Proof.
  assert (Hz : forall B (k : UnsignedVarint -> reader ReadError B),
    rbind (read (A:=UnsignedVarint)) k (cursor (byte_of_Z 0 :: rest))
    = k (mkUnsignedVarint 0) (cursor rest)).
  { intros B k. change (cursor (byte_of_Z 0 :: rest)) with ([byte_of_Z 0] +> cursor rest).
    by rewrite (run_read (mkUnsignedVarint 0)). }
  unfold CompactBytes_read. rewrite !Hz. split; [done|]. intros Hlen.
  erewrite rbind_run by done. erewrite rbind_run by done.
  change (wrap_unsigned usize_bits (uvarint (mkUnsignedVarint 0) - 1)) with (2 ^ 64 - 1).
  unfold rbind. rewrite read_bytes_read_exact by lia. unfold read_exact_io, rmap_err, read_exact.
  simpl src_data. destruct (Z.leb_spec (2 ^ 64 - 1) (zlen rest)); [lia|done].
Qed.

Lemma compact_bytes_zero_length_witness :
  CompactBytes_read (prof:=release_profile) (cursor [byte_of_Z 0]) = Err (ReadIO UnexpectedEof).
Proof. apply (compact_bytes_zero_length []). vm_compute. reflexivity. Defined.

(** ** Bounds *)

(** Every [u64] can be written as an unsigned varint, in one to ten bytes,
    and the bytes read back as it. *)
Theorem uvarint_write_bounds v s :
  in_unsigned 64 v ->
  exists bs, write (mkUnsignedVarint v) = Ok bs /\ (1 <= length bs <= 10)%nat /\
    read (bs +> s) = Ok (mkUnsignedVarint v, s).
Proof.
  intros Hv. destruct (uvarint_write_total 10 v) as (bs & Hbs & Hl).
  { unfold in_unsigned in Hv. split; [lia|]. eapply Z.lt_le_trans; [apply Hv|].
    apply Z.pow_le_mono_r; lia. } { lia. }
  exists bs. split; [exact Hbs|]. split; [done|]. by apply read_write.
Qed.

Lemma uvarint_write_bounds_witness :
  exists bs, write (mkUnsignedVarint 300) = Ok bs /\ (1 <= length bs <= 10)%nat /\
    read (bs +> cursor []) = Ok (mkUnsignedVarint 300, cursor []).
Proof. apply (uvarint_write_bounds 300). vm_compute. split; congruence. Defined.

(** The varint reader checks for overflow only by counting bytes: the bits
    of a tenth byte that lie above bit 63 are dropped, so that the encodings of
    [2^64 + v] (as of any [m * 2^64 + v] that fits ten bytes) are accepted as
    [v].  For [v = 0] and [2^64]: *)
Theorem uvarint_tenth_byte_truncated rest :
  read (A:=UnsignedVarint) (cursor (repeat (byte_of_Z 0x80) 9 ++ byte_of_Z 0x02 :: rest))
  = Ok (mkUnsignedVarint 0, cursor rest).
Proof.
  assert (H : read (A:=UnsignedVarint) (cursor (repeat (byte_of_Z 0x80) 9 ++ [byte_of_Z 0x02]))
    = Ok (mkUnsignedVarint 0, cursor [])) by reflexivity.
  destruct (read_streaming _ _ _ H) as (bs & Hbs & L & _). rewrite src_app_cursor in Hbs.
  injection Hbs as <-. specialize (L (cursor rest)). unfold src_app in L. simpl in L. exact L.
Qed.

(** The strings that can be written are those whose length fits the [i16]
    length field, and the only error is the one for longer ones. *)
Theorem string_write_bounds s :
  write (mkString_ s) =
    (if zlen s <? 2 ^ 15 then Ok (to_be_bytes 2 (zlen s) ++ s) else Err WriteOverflow) /\
  write (mkNullableString (Some s)) =
    (if zlen s <? 2 ^ 15 then Ok (to_be_bytes 2 (zlen s) ++ s) else Err (WriteMalformed TryFromInt)).
Proof.
  pose proof (zlen_nonneg s).
  unfold write, String_WriteType, String_write, NullableString_WriteType, NullableString_write.
  simpl. unfold signed_try_from, in_signed_b.
  destruct (Z.ltb_spec (zlen s) (2 ^ (16 - 1))), (Z.ltb_spec (zlen s) (2 ^ 15)),
    (Z.leb_spec (- 2 ^ (16 - 1)) (zlen s)); simpl in *; try lia; done.
Qed.
