(* ===== verification/RecordProps.v ===== *)
(** * Properties of records and record batches

    Statements about src/protocol/record.rs and [Records] of
    src/protocol/primitives.rs, for every instance of the crates that meets the
    laws; the witnesses use the reference instances. *)

From Stdlib Require Import ZArith Lia.
From stdpp Require Import base list numbers.
From S2P Require Import Prelude Bytes Wire VecBuilder Varint Primitives PrimitiveLaws Record.
From S2P Require Import Codec RecordBatch RefCrates.

Local Open Scope Z_scope.
Local Open Scope rust_scope.

(** ** A sample batch, written with the reference crates *)
Definition sample_rec (n : Z) : Record_ :=
  mkRecord n 0 None (Some [byte_of_Z n]) [mkRecordHeader [byte_of_Z 107] [byte_of_Z 118]].

Definition sample_batch (c : RecordBatchCompression) (n : Z) : RecordBatch :=
  mkRecordBatch n 0 0 0 0 (-1) (-1) (-1) (RecordList [sample_rec n; sample_rec (n + 1)]) c false CreateTime.

Definition bytes_of {E} (w : outcome E (list byte)) : list byte := match w with Ok bs => bs | _ => [] end.

#[local] Existing Instance debug_profile.

Definition sample_batch_bytes (c : RecordBatchCompression) (n : Z) : list byte :=
  bytes_of (write (sample_batch c n)).

Lemma sample_batch_wf c n : 0 <= n < 100 -> wf (sample_batch c n).
Proof.
  intros Hn. unfold wf, RecordBatch_WellFormed, wf, RecordBatchBody_WellFormed, in_signed. simpl.
  repeat match goal with |- _ /\ _ => split end; try lia.
  repeat constructor; unfold in_signed; simpl; lia.
Qed.

(** ** Round trips *)

(** C2: a record batch with any of the five compressions, any flags and any
    records, control batches included, is read back as it was written, and the
    source is left right after it. *)
Theorem record_batch_round_trip `{VarIntCrateOk, CodecsOk} {prof : Profile} (b : RecordBatch) bs s :
  wf b -> write b = Ok bs -> read (bs +> s) = Ok (b, s).
Proof. apply read_write. Qed.

Lemma record_batch_round_trip_witness :
  read (sample_batch_bytes Snappy 3 +> cursor []) = Ok (sample_batch Snappy 3, cursor []).
Proof.
  apply (record_batch_round_trip (sample_batch Snappy 3)); [|vm_compute; reflexivity].
  apply sample_batch_wf. lia.
Defined.

(** C1: a broker may cut off the last batch of a fetch response.  If the bytes
    of [Records] are complete batches followed by any proper prefix of another
    batch, then [Records::read] returns exactly the complete batches. *)
Theorem records_cut_off `{VarIntCrateOk, CodecsOk} {prof : Profile}
    (l : list RecordBatch) (b : RecordBatch) bs nb p q enc s :
  Forall wf l -> wf b -> write_many write l = Ok bs -> write b = Ok nb ->
  nb = p ++ q -> q <> [] -> write (mkNullableBytes (Some (bs ++ p))) = Ok enc ->
  read (enc +> s) = Ok (mkRecords l, s).
Proof.
  intros Hl Hb Hw Hnb Hpq Hq Henc. unfold read, Records_ReadType, Records_read.
  erewrite run_read by (first [eassumption|done]). cbn [nullable_bytes default from_option id].
  cbv zeta. by rewrite (records_loop_truncated l bs b nb p q).
Qed.

Lemma records_cut_off_witness :
  exists enc, write (mkNullableBytes (Some (sample_batch_bytes Gzip 1 ++ take 30 (sample_batch_bytes Lz4 2)))) = Ok enc /\
    read (enc +> cursor []) = Ok (mkRecords [sample_batch Gzip 1], cursor []).
Proof.
  eexists. split; [vm_compute; reflexivity|].
  apply (records_cut_off [sample_batch Gzip 1] (sample_batch Lz4 2) (sample_batch_bytes Gzip 1)
    (sample_batch_bytes Lz4 2) (take 30 (sample_batch_bytes Lz4 2)) (drop 30 (sample_batch_bytes Lz4 2))).
  - repeat constructor. all: unfold in_signed; simpl; lia.
  - apply sample_batch_wf. lia.
  - vm_compute. reflexivity.
  - vm_compute. reflexivity.
  - symmetry. apply take_drop.
  - vm_compute. congruence.
  - vm_compute. reflexivity.
Defined.

(** A list of batches written as [Records] is read back. *)
Theorem records_round_trip_all `{VarIntCrateOk, CodecsOk} {prof : Profile} (r : Records) bs s :
  wf r -> write r = Ok bs -> read (bs +> s) = Ok (r, s).
Proof. apply read_write. Qed.

Lemma records_round_trip_all_witness :
  read (bytes_of (write (mkRecords [sample_batch Zstd 1; sample_batch NoCompression 4])) +> cursor [])
  = Ok (mkRecords [sample_batch Zstd 1; sample_batch NoCompression 4], cursor []).
Proof.
  apply (records_round_trip_all (mkRecords [sample_batch Zstd 1; sample_batch NoCompression 4]));
    [|vm_compute; reflexivity].
  repeat constructor; unfold in_signed; simpl; lia.
Defined.

(** ** Safety *)

(** C19: no bytes from the network make the reading of record batches panic:
    not the varints, the length fields, the CRC, the compressed payload, the
    Java snappy framing or the retry loop of the snappy decoder; and the loops
    over chunks and batches end. *)
Theorem record_readers_never_panic `{VarIntCrateOk, CodecsOk} {prof : Profile} :
  no_panic (read (A:=Record_)) /\ no_panic (read (A:=RecordBatch)) /\ no_panic (read (A:=Records)).
Proof. repeat match goal with |- _ /\ _ => split end; apply read_no_panic. Qed.

Lemma record_readers_never_panic_witness :
  no_panic (read (A:=Record_)) /\ no_panic (read (A:=RecordBatch)) /\ no_panic (read (A:=Records)).
Proof. apply record_readers_never_panic. Defined.

(** C33: corruption of the checked part is detected whenever the checksum
    differs.  For a written batch (21 bytes of header and the checked data),
    replacing the data by other data of the same length with another CRC-32C
    makes [RecordBatch::read] fail with the two checksums. *)
Theorem corrupted_batch_rejected `{VarIntCrateOk, CodecsOk} {prof : Profile} (b : RecordBatch) bs data' s :
  wf b -> write b = Ok bs -> zlen data' = zlen bs - 21 ->
  crc32c data' <> crc32c (drop 21 bs) ->
  read (A:=RecordBatch) ((take 21 bs ++ data') +> s)
  = Err (ReadMalformed (CrcMismatch (crc32c data') (crc32c (drop 21 bs)))).
Proof.
  intros (Ho & He & Hb) Hw Hlen Hcrc.
  destruct (batch_write_layout b bs Hw) as (data & Hd & Hmax & ->).
  change 21%nat with (length (batch_header (base_offset b) (partition_leader_epoch b) (zlen data)
    (crc32c data))) in Hcrc |- *.
  rewrite take_app_length. rewrite drop_app_length in Hcrc |- *.
  assert (zlen data' = zlen data) as Hdl by (rewrite Hlen, zlen_app; change (zlen (batch_header _ _ _ _)) with 21; lia).
  rewrite <-Hdl, batch_header_read by (try done; first [apply crc32c_u32|lia]).
  unfold batch_from_checked, parse_checked.
  destruct (Z.eqb_spec (crc32c data) (crc32c data')); [congruence|done].
Qed.

Lemma corrupted_batch_rejected_witness :
  exists crc1 crc2,
  read (A:=RecordBatch) ((take 21 (sample_batch_bytes NoCompression 1) ++
        (byte_of_Z 255 :: drop 22 (sample_batch_bytes NoCompression 1))) +> cursor [])
  = Err (ReadMalformed (CrcMismatch crc1 crc2)).
Proof.
  eexists _, _. apply (corrupted_batch_rejected (sample_batch NoCompression 1)).
  - apply sample_batch_wf. lia.
  - vm_compute. reflexivity.
  - vm_compute. reflexivity.
  - vm_compute. congruence.
Defined.

(** A complete batch whose checksum is right but whose body ends before the
    records it announces looks to the code like a batch that was cut off:
    [Records::read] returns the batches before it, and drops it and everything
    that follows, without an error. *)
Theorem short_body_silently_dropped `{VarIntCrateOk, CodecsOk} {prof : Profile}
    (l : list RecordBatch) bs off epoch data rest enc s :
  Forall wf l -> write_many write l = Ok bs ->
  in_signed 64 off -> in_signed 32 epoch -> zlen data + 4 + 1 + 4 < 2 ^ 31 ->
  RecordBatchBody_read (cursor data) = Err (ReadIO UnexpectedEof) ->
  write (mkNullableBytes (Some (bs ++ (batch_header off epoch (zlen data) (crc32c data) ++ data) ++ rest))) = Ok enc ->
  read (enc +> s) = Ok (mkRecords l, s).
Proof.
  intros Hl Hw Ho He Hlen Hbad Henc. unfold read, Records_ReadType, Records_read.
  erewrite run_read by (first [eassumption|done]). cbn [nullable_bytes default from_option id].
  cbv zeta. pose proof (batch_header_read off epoch (crc32c data) data (cursor rest) Ho He
    (crc32c_u32 data) Hlen) as Hr.
  unfold batch_from_checked, parse_checked in Hr. rewrite Z.eqb_refl in Hr. simpl negb in Hr.
  cbv iota in Hr. rewrite Hbad in Hr.
  set (batch := batch_header off epoch (zlen data) (crc32c data) ++ data) in *.
  destruct (records_loop_app l bs (batch ++ rest) (length (bs ++ batch ++ rest)) [] Hl Hw)
    as (f & Hf & ->); [done|].
  assert (exists x b', batch = x :: b') as (x & b' & Hx) by (by eexists _, _).
  rewrite Hx in *. destruct f as [|f]; [simpl in Hf; lia|]. cbn [app records_loop].
  change ((x :: b') +> cursor rest) with (cursor (x :: b' ++ rest)) in Hr. by rewrite Hr.
Qed.

(** A body that announces five records and has none. *)
Definition short_data : list byte :=
  take 36 (bytes_of (RecordBatchBody_write (batch_body
    (mkRecordBatch 9 0 0 0 0 (-1) (-1) (-1) (RecordList []) NoCompression false CreateTime))))
  ++ map byte_of_Z [0; 0; 0; 5].

Definition short_batch : list byte :=
  batch_header 9 0 (zlen short_data) (crc32c short_data) ++ short_data.

Lemma short_body_silently_dropped_witness :
  exists enc,
    write (mkNullableBytes (Some (sample_batch_bytes Gzip 1 ++ short_batch ++ sample_batch_bytes Gzip 2))) = Ok enc /\
    read (enc +> cursor []) = Ok (mkRecords [sample_batch Gzip 1], cursor []).
Proof.
  eexists. split; [vm_compute; reflexivity|].
  apply (short_body_silently_dropped [sample_batch Gzip 1] (sample_batch_bytes Gzip 1) 9 0 short_data
    (sample_batch_bytes Gzip 2)).
  - repeat constructor; unfold in_signed; simpl; lia.
  - vm_compute. reflexivity.
  - vm_compute. split; congruence.
  - vm_compute. split; congruence.
  - vm_compute. reflexivity.
  - vm_compute. reflexivity.
  - vm_compute. reflexivity.
Defined.

(** A record whose length field says more than its fields take is
    rejected with the number of bytes left over. *)
Theorem record_trailing_bytes_rejected `{VarIntCrateOk} (r : Record_) fields extra hdr s :
  wf r -> record_fields_write r = Ok fields -> extra <> [] ->
  write_varint_len (zlen (fields ++ extra)) = Ok hdr ->
  read (A:=Record_) ((hdr ++ fields ++ extra) +> s)
  = Err (ReadMalformed (TrailingAfterRecord (zlen extra))).
Proof.
  intros Hr Hf Hne Hh. unfold write_varint_len in Hh. invert_write.
  unfold read, Record_ReadType, Record_read. rewrite src_app_app.
  erewrite run_read by (first [eassumption|done]). cbn [varint].
  rewrite (run_ok_or _ _ (zlen (fields ++ extra)))
    by (by apply (usize_of_signed 32); [apply zlen_nonneg| |]).
  cbv zeta. rewrite src_take_app by done.
  pose proof (record_fields_round_trip _ _ (cursor extra) Hr Hf) as Hrt.
  change (fields +> cursor extra) with (cursor (fields ++ extra)) in Hrt. rewrite Hrt. simpl.
  rewrite zlen_app. replace (zlen fields + zlen extra - (zlen fields + zlen extra - zlen extra))
    with (zlen extra) by lia.
  destruct (Z.eqb_spec (zlen extra) 0) as [Hz|]; [|done]. by apply zlen_0 in Hz.
Qed.

Lemma record_trailing_bytes_rejected_witness :
  exists hdr fields,
    read (A:=Record_) ((hdr ++ fields ++ map byte_of_Z [1; 2]) +> cursor [])
    = Err (ReadMalformed (TrailingAfterRecord 2)).
Proof.
  exists (bytes_of (write_varint_len (zlen (bytes_of (record_fields_write (sample_rec 1))) + 2))),
    (bytes_of (record_fields_write (sample_rec 1))).
  apply (record_trailing_bytes_rejected (sample_rec 1)).
  - repeat constructor; unfold in_signed; simpl; lia.
  - vm_compute. reflexivity.
  - done.
  - vm_compute. reflexivity.
Defined.

(** The snappy decoder that does not trust the announced size.  What the
    encoder produced is decompressed to the original, whatever size the first
    output buffer has, so that the doubling retries are invisible; and for
    every input the loop of retries ends without a panic. *)
Theorem snappy_careful_decompression `{CodecsOk} {prof : Profile} start :
  0 < start ->
  (forall plain c, snap_compress plain = inr c -> carefully_decompress_snappy c start = Ok plain) /\
  (forall input p, carefully_decompress_snappy input start <> Panic p).
Proof.
  intros Hs. split.
  - intros plain c Hc. by apply carefully_decompress_compress.
  - intros input p. by apply carefully_decompress_no_panic.
Qed.

Lemma snappy_careful_decompression_witness :
  exists c, snap_compress (map byte_of_Z [1; 2; 3; 4; 5; 6; 7]) = inr c /\
    carefully_decompress_snappy c 1 = Ok (map byte_of_Z [1; 2; 3; 4; 5; 6; 7]).
Proof.
  eexists. split; [vm_compute; reflexivity|].
  apply (snappy_careful_decompression 1 ltac:(lia)). vm_compute. reflexivity.
Defined.
