(* ===== verification/ApiKey.v ===== *)
(** * API keys (src/protocol/api_key.rs)

    The enum of request types and its two conversions to and from the 16-bit
    code on the wire.  Codes without a name are kept as [Unknown]. *)

From Stdlib Require Import ZArith Lia.
From stdpp Require Import base list numbers.
From S2P Require Import Prelude Bytes Wire VecBuilder Varint Primitives.

Local Open Scope Z_scope.

Module ApiKeys.
Inductive ApiKey : Type :=
| Produce  | Fetch  | ListOffsets  | Metadata  | LeaderAndIsr  | StopReplica
| UpdateMetadata  | ControlledShutdown  | OffsetCommit  | OffsetFetch  | FindCoordinator
| JoinGroup  | Heartbeat  | LeaveGroup  | SyncGroup  | DescribeGroups  | ListGroups
| SaslHandshake  | ApiVersions  | CreateTopics  | DeleteTopics  | DeleteRecords
| InitProducerId  | OffsetForLeaderEpoch  | AddPartitionsToTxn  | AddOffsetsToTxn
| EndTxn  | WriteTxnMarkers  | TxnOffsetCommit  | DescribeAcls  | CreateAcls  | DeleteAcls
| DescribeConfigs  | AlterConfigs  | AlterReplicaLogDirs  | DescribeLogDirs
| SaslAuthenticate  | CreatePartitions  | CreateDelegationToken  | RenewDelegationToken
| ExpireDelegationToken  | DescribeDelegationToken  | DeleteGroups  | ElectLeaders
| IncrementalAlterConfigs  | AlterPartitionReassignments  | ListPartitionReassignments
| OffsetDelete  | DescribeClientQuotas  | AlterClientQuotas
| DescribeUserScramCredentials  | AlterUserScramCredentials  | AlterIsr  | UpdateFeatures
| DescribeCluster  | DescribeProducers  | DescribeTransactions  | ListTransactions
| AllocateProducerIds
| Unknown (code : Int16).
End ApiKeys.
Import ApiKeys.

(** [From<Int16> for ApiKey]. *)
Definition ApiKey_from_Int16 (key : Int16) : ApiKey :=
  match int16 key with
  | 0 => Produce
  | 1 => Fetch
  | 2 => ListOffsets
  | 3 => Metadata
  | 4 => LeaderAndIsr
  | 5 => StopReplica
  | 6 => UpdateMetadata
  | 7 => ControlledShutdown
  | 8 => OffsetCommit
  | 9 => OffsetFetch
  | 10 => FindCoordinator
  | 11 => JoinGroup
  | 12 => Heartbeat
  | 13 => LeaveGroup
  | 14 => SyncGroup
  | 15 => DescribeGroups
  | 16 => ListGroups
  | 17 => SaslHandshake
  | 18 => ApiVersions
  | 19 => CreateTopics
  | 20 => DeleteTopics
  | 21 => DeleteRecords
  | 22 => InitProducerId
  | 23 => OffsetForLeaderEpoch
  | 24 => AddPartitionsToTxn
  | 25 => AddOffsetsToTxn
  | 26 => EndTxn
  | 27 => WriteTxnMarkers
  | 28 => TxnOffsetCommit
  | 29 => DescribeAcls
  | 30 => CreateAcls
  | 31 => DeleteAcls
  | 32 => DescribeConfigs
  | 33 => AlterConfigs
  | 34 => AlterReplicaLogDirs
  | 35 => DescribeLogDirs
  | 36 => SaslAuthenticate
  | 37 => CreatePartitions
  | 38 => CreateDelegationToken
  | 39 => RenewDelegationToken
  | 40 => ExpireDelegationToken
  | 41 => DescribeDelegationToken
  | 42 => DeleteGroups
  | 43 => ElectLeaders
  | 44 => IncrementalAlterConfigs
  | 45 => AlterPartitionReassignments
  | 46 => ListPartitionReassignments
  | 47 => OffsetDelete
  | 48 => DescribeClientQuotas
  | 49 => AlterClientQuotas
  | 50 => DescribeUserScramCredentials
  | 51 => AlterUserScramCredentials
  | 56 => AlterIsr
  | 57 => UpdateFeatures
  | 60 => DescribeCluster
  | 61 => DescribeProducers
  | 65 => DescribeTransactions
  | 66 => ListTransactions
  | 67 => AllocateProducerIds
  | _ => Unknown key
  end.

(** [From<ApiKey> for Int16]. *)
Definition Int16_from_ApiKey (key : ApiKey) : Int16 :=
  match key with
  | Produce => mkInt16 0
  | Fetch => mkInt16 1
  | ListOffsets => mkInt16 2
  | Metadata => mkInt16 3
  | LeaderAndIsr => mkInt16 4
  | StopReplica => mkInt16 5
  | UpdateMetadata => mkInt16 6
  | ControlledShutdown => mkInt16 7
  | OffsetCommit => mkInt16 8
  | OffsetFetch => mkInt16 9
  | FindCoordinator => mkInt16 10
  | JoinGroup => mkInt16 11
  | Heartbeat => mkInt16 12
  | LeaveGroup => mkInt16 13
  | SyncGroup => mkInt16 14
  | DescribeGroups => mkInt16 15
  | ListGroups => mkInt16 16
  | SaslHandshake => mkInt16 17
  | ApiVersions => mkInt16 18
  | CreateTopics => mkInt16 19
  | DeleteTopics => mkInt16 20
  | DeleteRecords => mkInt16 21
  | InitProducerId => mkInt16 22
  | OffsetForLeaderEpoch => mkInt16 23
  | AddPartitionsToTxn => mkInt16 24
  | AddOffsetsToTxn => mkInt16 25
  | EndTxn => mkInt16 26
  | WriteTxnMarkers => mkInt16 27
  | TxnOffsetCommit => mkInt16 28
  | DescribeAcls => mkInt16 29
  | CreateAcls => mkInt16 30
  | DeleteAcls => mkInt16 31
  | DescribeConfigs => mkInt16 32
  | AlterConfigs => mkInt16 33
  | AlterReplicaLogDirs => mkInt16 34
  | DescribeLogDirs => mkInt16 35
  | SaslAuthenticate => mkInt16 36
  | CreatePartitions => mkInt16 37
  | CreateDelegationToken => mkInt16 38
  | RenewDelegationToken => mkInt16 39
  | ExpireDelegationToken => mkInt16 40
  | DescribeDelegationToken => mkInt16 41
  | DeleteGroups => mkInt16 42
  | ElectLeaders => mkInt16 43
  | IncrementalAlterConfigs => mkInt16 44
  | AlterPartitionReassignments => mkInt16 45
  | ListPartitionReassignments => mkInt16 46
  | OffsetDelete => mkInt16 47
  | DescribeClientQuotas => mkInt16 48
  | AlterClientQuotas => mkInt16 49
  | DescribeUserScramCredentials => mkInt16 50
  | AlterUserScramCredentials => mkInt16 51
  | AlterIsr => mkInt16 56
  | UpdateFeatures => mkInt16 57
  | DescribeCluster => mkInt16 60
  | DescribeProducers => mkInt16 61
  | DescribeTransactions => mkInt16 65
  | ListTransactions => mkInt16 66
  | AllocateProducerIds => mkInt16 67
  | Unknown code => code
  end.

#[export] Instance ApiKey_eq_dec : EqDecision ApiKey.
Proof. solve_decision. Defined.

(** [Unknown] only holds codes without a name of their own; [ApiKey::from]
    produces no other. *)
Definition api_key_wf (k : ApiKey) : Prop :=
  match k with
  | Unknown code => ApiKey_from_Int16 code = k /\ in_signed 16 (int16 code)
  | _ => True
  end.

Lemma Int16_of_ApiKey_of_Int16 code : Int16_from_ApiKey (ApiKey_from_Int16 code) = code.
Proof.
  destruct code as [z]. unfold ApiKey_from_Int16. simpl int16.
  repeat match goal with |- context [match ?x with _ => _ end] => is_var x; destruct x end; done.
Qed.

Lemma ApiKey_of_Int16_of_ApiKey k : api_key_wf k -> ApiKey_from_Int16 (Int16_from_ApiKey k) = k.
Proof. destruct k; simpl; try done. by intros [? _]. Qed.

Lemma Int16_from_ApiKey_range k : api_key_wf k -> in_signed 16 (int16 (Int16_from_ApiKey k)).
Proof. destruct k; simpl; unfold in_signed; simpl; lia. Qed.

Lemma ApiKey_from_Int16_wf code : in_signed 16 (int16 code) -> api_key_wf (ApiKey_from_Int16 code).
Proof.
  intros Hr. destruct (ApiKey_from_Int16 code) eqn:E; try done.
  pose proof (Int16_of_ApiKey_of_Int16 code) as H. rewrite E in H. simpl in H. subst. done.
Qed.
