(* ===== verification/ErrorCode.v ===== *)
(** * Protocol error codes (src/protocol/error.rs)

    The enum of broker errors and its conversions to and from the 16-bit code;
    the code 0 stands for the absence of an error. *)

From Stdlib Require Import ZArith Lia.
From stdpp Require Import base list numbers.
From S2P Require Import Prelude Bytes Wire VecBuilder Varint Primitives.

Local Open Scope Z_scope.

Module Errors.
Inductive Error : Type :=
| UnknownServerError  | OffsetOutOfRange  | CorruptMessage  | UnknownTopicOrPartition
| InvalidFetchSize  | LeaderNotAvailable  | NotLeaderOrFollower  | RequestTimedOut
| BrokerNotAvailable  | ReplicaNotAvailable  | MessageTooLarge  | StaleControllerEpoch
| OffsetMetadataTooLarge  | NetworkException  | CoordinatorLoadInProgress
| CoordinatorNotAvailable  | NotCoordinator  | InvalidTopicException  | RecordListTooLarge
| NotEnoughReplicas  | NotEnoughReplicasAfterAppend  | InvalidRequiredAcks
| IllegalGeneration  | InconsistentGroupProtocol  | InvalidGroupId  | UnknownMemberId
| InvalidSessionTimeout  | RebalanceInProgress  | InvalidCommitOffsetSize
| TopicAuthorizationFailed  | GroupAuthorizationFailed  | ClusterAuthorizationFailed
| InvalidTimestamp  | UnsupportedSaslMechanism  | IllegalSaslState  | UnsupportedVersion
| TopicAlreadyExists  | InvalidPartitions  | InvalidReplicationFactor
| InvalidReplicaAssignment  | InvalidConfig  | NotController  | InvalidRequest
| UnsupportedForMessageFormat  | PolicyViolation  | OutOfOrderSequenceNumber
| DuplicateSequenceNumber  | InvalidProducerEpoch  | InvalidTxnState
| InvalidProducerIdMapping  | InvalidTransactionTimeout  | ConcurrentTransactions
| TransactionCoordinatorFenced  | TransactionalIdAuthorizationFailed  | SecurityDisabled
| OperationNotAttempted  | KafkaStorageError  | LogDirNotFound  | SaslAuthenticationFailed
| UnknownProducerId  | ReassignmentInProgress  | DelegationTokenAuthDisabled
| DelegationTokenNotFound  | DelegationTokenOwnerMismatch
| DelegationTokenRequestNotAllowed  | DelegationTokenAuthorizationFailed
| DelegationTokenExpired  | InvalidPrincipalType  | NonEmptyGroup  | GroupIdNotFound
| FetchSessionIdNotFound  | InvalidFetchSessionEpoch  | ListenerNotFound
| TopicDeletionDisabled  | FencedLeaderEpoch  | UnknownLeaderEpoch
| UnsupportedCompressionType  | StaleBrokerEpoch  | OffsetNotAvailable  | MemberIdRequired
| PreferredLeaderNotAvailable  | GroupMaxSizeReached  | FencedInstanceId
| EligibleLeadersNotAvailable  | ElectionNotNeeded  | NoReassignmentInProgress
| GroupSubscribedToTopic  | InvalidRecord  | UnstableOffsetCommit
| ThrottlingQuotaExceeded  | ProducerFenced  | ResourceNotFound  | DuplicateResource
| UnacceptableCredential  | InconsistentVoterSet  | InvalidUpdateVersion
| FeatureUpdateFailed  | PrincipalDeserializationFailure  | SnapshotNotFound
| PositionOutOfRange  | UnknownTopicId  | DuplicateBrokerRegistration
| BrokerIdNotRegistered  | InconsistentTopicId  | InconsistentClusterId
| TransactionalIdNotFound
| Unknown (code : Z).
End Errors.
Import Errors.

(** [Error::new]. *)
Definition Error_new (code : Z) : option Error :=
  match code with
  | 0 => None
  | -1 => Some UnknownServerError
  | 1 => Some OffsetOutOfRange
  | 2 => Some CorruptMessage
  | 3 => Some UnknownTopicOrPartition
  | 4 => Some InvalidFetchSize
  | 5 => Some LeaderNotAvailable
  | 6 => Some NotLeaderOrFollower
  | 7 => Some RequestTimedOut
  | 8 => Some BrokerNotAvailable
  | 9 => Some ReplicaNotAvailable
  | 10 => Some MessageTooLarge
  | 11 => Some StaleControllerEpoch
  | 12 => Some OffsetMetadataTooLarge
  | 13 => Some NetworkException
  | 14 => Some CoordinatorLoadInProgress
  | 15 => Some CoordinatorNotAvailable
  | 16 => Some NotCoordinator
  | 17 => Some InvalidTopicException
  | 18 => Some RecordListTooLarge
  | 19 => Some NotEnoughReplicas
  | 20 => Some NotEnoughReplicasAfterAppend
  | 21 => Some InvalidRequiredAcks
  | 22 => Some IllegalGeneration
  | 23 => Some InconsistentGroupProtocol
  | 24 => Some InvalidGroupId
  | 25 => Some UnknownMemberId
  | 26 => Some InvalidSessionTimeout
  | 27 => Some RebalanceInProgress
  | 28 => Some InvalidCommitOffsetSize
  | 29 => Some TopicAuthorizationFailed
  | 30 => Some GroupAuthorizationFailed
  | 31 => Some ClusterAuthorizationFailed
  | 32 => Some InvalidTimestamp
  | 33 => Some UnsupportedSaslMechanism
  | 34 => Some IllegalSaslState
  | 35 => Some UnsupportedVersion
  | 36 => Some TopicAlreadyExists
  | 37 => Some InvalidPartitions
  | 38 => Some InvalidReplicationFactor
  | 39 => Some InvalidReplicaAssignment
  | 40 => Some InvalidConfig
  | 41 => Some NotController
  | 42 => Some InvalidRequest
  | 43 => Some UnsupportedForMessageFormat
  | 44 => Some PolicyViolation
  | 45 => Some OutOfOrderSequenceNumber
  | 46 => Some DuplicateSequenceNumber
  | 47 => Some InvalidProducerEpoch
  | 48 => Some InvalidTxnState
  | 49 => Some InvalidProducerIdMapping
  | 50 => Some InvalidTransactionTimeout
  | 51 => Some ConcurrentTransactions
  | 52 => Some TransactionCoordinatorFenced
  | 53 => Some TransactionalIdAuthorizationFailed
  | 54 => Some SecurityDisabled
  | 55 => Some OperationNotAttempted
  | 56 => Some KafkaStorageError
  | 57 => Some LogDirNotFound
  | 58 => Some SaslAuthenticationFailed
  | 59 => Some UnknownProducerId
  | 60 => Some ReassignmentInProgress
  | 61 => Some DelegationTokenAuthDisabled
  | 62 => Some DelegationTokenNotFound
  | 63 => Some DelegationTokenOwnerMismatch
  | 64 => Some DelegationTokenRequestNotAllowed
  | 65 => Some DelegationTokenAuthorizationFailed
  | 66 => Some DelegationTokenExpired
  | 67 => Some InvalidPrincipalType
  | 68 => Some NonEmptyGroup
  | 69 => Some GroupIdNotFound
  | 70 => Some FetchSessionIdNotFound
  | 71 => Some InvalidFetchSessionEpoch
  | 72 => Some ListenerNotFound
  | 73 => Some TopicDeletionDisabled
  | 74 => Some FencedLeaderEpoch
  | 75 => Some UnknownLeaderEpoch
  | 76 => Some UnsupportedCompressionType
  | 77 => Some StaleBrokerEpoch
  | 78 => Some OffsetNotAvailable
  | 79 => Some MemberIdRequired
  | 80 => Some PreferredLeaderNotAvailable
  | 81 => Some GroupMaxSizeReached
  | 82 => Some FencedInstanceId
  | 83 => Some EligibleLeadersNotAvailable
  | 84 => Some ElectionNotNeeded
  | 85 => Some NoReassignmentInProgress
  | 86 => Some GroupSubscribedToTopic
  | 87 => Some InvalidRecord
  | 88 => Some UnstableOffsetCommit
  | 89 => Some ThrottlingQuotaExceeded
  | 90 => Some ProducerFenced
  | 91 => Some ResourceNotFound
  | 92 => Some DuplicateResource
  | 93 => Some UnacceptableCredential
  | 94 => Some InconsistentVoterSet
  | 95 => Some InvalidUpdateVersion
  | 96 => Some FeatureUpdateFailed
  | 97 => Some PrincipalDeserializationFailure
  | 98 => Some SnapshotNotFound
  | 99 => Some PositionOutOfRange
  | 100 => Some UnknownTopicId
  | 101 => Some DuplicateBrokerRegistration
  | 102 => Some BrokerIdNotRegistered
  | 103 => Some InconsistentTopicId
  | 104 => Some InconsistentClusterId
  | 105 => Some TransactionalIdNotFound
  | _ => Some (Unknown code)
  end.

(** [From<Option<Error>> for Int16]. *)
Definition Int16_from_Error (error : option Error) : Int16 :=
  match error with
  | None => mkInt16 0
  | Some UnknownServerError => mkInt16 (-1)
  | Some OffsetOutOfRange => mkInt16 1
  | Some CorruptMessage => mkInt16 2
  | Some UnknownTopicOrPartition => mkInt16 3
  | Some InvalidFetchSize => mkInt16 4
  | Some LeaderNotAvailable => mkInt16 5
  | Some NotLeaderOrFollower => mkInt16 6
  | Some RequestTimedOut => mkInt16 7
  | Some BrokerNotAvailable => mkInt16 8
  | Some ReplicaNotAvailable => mkInt16 9
  | Some MessageTooLarge => mkInt16 10
  | Some StaleControllerEpoch => mkInt16 11
  | Some OffsetMetadataTooLarge => mkInt16 12
  | Some NetworkException => mkInt16 13
  | Some CoordinatorLoadInProgress => mkInt16 14
  | Some CoordinatorNotAvailable => mkInt16 15
  | Some NotCoordinator => mkInt16 16
  | Some InvalidTopicException => mkInt16 17
  | Some RecordListTooLarge => mkInt16 18
  | Some NotEnoughReplicas => mkInt16 19
  | Some NotEnoughReplicasAfterAppend => mkInt16 20
  | Some InvalidRequiredAcks => mkInt16 21
  | Some IllegalGeneration => mkInt16 22
  | Some InconsistentGroupProtocol => mkInt16 23
  | Some InvalidGroupId => mkInt16 24
  | Some UnknownMemberId => mkInt16 25
  | Some InvalidSessionTimeout => mkInt16 26
  | Some RebalanceInProgress => mkInt16 27
  | Some InvalidCommitOffsetSize => mkInt16 28
  | Some TopicAuthorizationFailed => mkInt16 29
  | Some GroupAuthorizationFailed => mkInt16 30
  | Some ClusterAuthorizationFailed => mkInt16 31
  | Some InvalidTimestamp => mkInt16 32
  | Some UnsupportedSaslMechanism => mkInt16 33
  | Some IllegalSaslState => mkInt16 34
  | Some UnsupportedVersion => mkInt16 35
  | Some TopicAlreadyExists => mkInt16 36
  | Some InvalidPartitions => mkInt16 37
  | Some InvalidReplicationFactor => mkInt16 38
  | Some InvalidReplicaAssignment => mkInt16 39
  | Some InvalidConfig => mkInt16 40
  | Some NotController => mkInt16 41
  | Some InvalidRequest => mkInt16 42
  | Some UnsupportedForMessageFormat => mkInt16 43
  | Some PolicyViolation => mkInt16 44
  | Some OutOfOrderSequenceNumber => mkInt16 45
  | Some DuplicateSequenceNumber => mkInt16 46
  | Some InvalidProducerEpoch => mkInt16 47
  | Some InvalidTxnState => mkInt16 48
  | Some InvalidProducerIdMapping => mkInt16 49
  | Some InvalidTransactionTimeout => mkInt16 50
  | Some ConcurrentTransactions => mkInt16 51
  | Some TransactionCoordinatorFenced => mkInt16 52
  | Some TransactionalIdAuthorizationFailed => mkInt16 53
  | Some SecurityDisabled => mkInt16 54
  | Some OperationNotAttempted => mkInt16 55
  | Some KafkaStorageError => mkInt16 56
  | Some LogDirNotFound => mkInt16 57
  | Some SaslAuthenticationFailed => mkInt16 58
  | Some UnknownProducerId => mkInt16 59
  | Some ReassignmentInProgress => mkInt16 60
  | Some DelegationTokenAuthDisabled => mkInt16 61
  | Some DelegationTokenNotFound => mkInt16 62
  | Some DelegationTokenOwnerMismatch => mkInt16 63
  | Some DelegationTokenRequestNotAllowed => mkInt16 64
  | Some DelegationTokenAuthorizationFailed => mkInt16 65
  | Some DelegationTokenExpired => mkInt16 66
  | Some InvalidPrincipalType => mkInt16 67
  | Some NonEmptyGroup => mkInt16 68
  | Some GroupIdNotFound => mkInt16 69
  | Some FetchSessionIdNotFound => mkInt16 70
  | Some InvalidFetchSessionEpoch => mkInt16 71
  | Some ListenerNotFound => mkInt16 72
  | Some TopicDeletionDisabled => mkInt16 73
  | Some FencedLeaderEpoch => mkInt16 74
  | Some UnknownLeaderEpoch => mkInt16 75
  | Some UnsupportedCompressionType => mkInt16 76
  | Some StaleBrokerEpoch => mkInt16 77
  | Some OffsetNotAvailable => mkInt16 78
  | Some MemberIdRequired => mkInt16 79
  | Some PreferredLeaderNotAvailable => mkInt16 80
  | Some GroupMaxSizeReached => mkInt16 81
  | Some FencedInstanceId => mkInt16 82
  | Some EligibleLeadersNotAvailable => mkInt16 83
  | Some ElectionNotNeeded => mkInt16 84
  | Some NoReassignmentInProgress => mkInt16 85
  | Some GroupSubscribedToTopic => mkInt16 86
  | Some InvalidRecord => mkInt16 87
  | Some UnstableOffsetCommit => mkInt16 88
  | Some ThrottlingQuotaExceeded => mkInt16 89
  | Some ProducerFenced => mkInt16 90
  | Some ResourceNotFound => mkInt16 91
  | Some DuplicateResource => mkInt16 92
  | Some UnacceptableCredential => mkInt16 93
  | Some InconsistentVoterSet => mkInt16 94
  | Some InvalidUpdateVersion => mkInt16 95
  | Some FeatureUpdateFailed => mkInt16 96
  | Some PrincipalDeserializationFailure => mkInt16 97
  | Some SnapshotNotFound => mkInt16 98
  | Some PositionOutOfRange => mkInt16 99
  | Some UnknownTopicId => mkInt16 100
  | Some DuplicateBrokerRegistration => mkInt16 101
  | Some BrokerIdNotRegistered => mkInt16 102
  | Some InconsistentTopicId => mkInt16 103
  | Some InconsistentClusterId => mkInt16 104
  | Some TransactionalIdNotFound => mkInt16 105
  | Some (Unknown code) => mkInt16 code
  end.

#[export] Instance Error_eq_dec : EqDecision Error.
Proof. solve_decision. Defined.

(** [Unknown] only holds codes without a name; [Error::new] produces no other. *)
Definition error_wf (e : option Error) : Prop :=
  match e with
  | Some (Unknown code) => Error_new code = e /\ in_signed 16 code
  | _ => True
  end.

Lemma Int16_of_Error_new code : Int16_from_Error (Error_new code) = mkInt16 code.
Proof.
  unfold Error_new.
  repeat match goal with |- context [match ?x with _ => _ end] => is_var x; destruct x end; done.
Qed.

Lemma Error_new_of_Int16 e : error_wf e -> Error_new (int16 (Int16_from_Error e)) = e.
Proof. destruct e as [[]|]; simpl; try done. by intros [? _]. Qed.

Lemma Int16_from_Error_range e : error_wf e -> in_signed 16 (int16 (Int16_from_Error e)).
Proof. destruct e as [[]|]; simpl; unfold in_signed; simpl; lia. Qed.

Lemma Error_new_wf code : in_signed 16 code -> error_wf (Error_new code).
Proof.
  intros Hr. pose proof (Int16_of_Error_new code) as H.
  destruct (Error_new code) as [[]|] eqn:E; try done.
  simpl in H. injection H as ->. done.
Qed.
