(* ===== verification/Versioned.v ===== *)
(** * Versioned messages (src/protocol/messages/mod.rs, src/protocol/api_version.rs,
      src/protocol/messages/constants.rs)

    The traits of messages whose layout depends on the API version, the arrays
    of such messages, and the [RequestBody] trait that ties a request to its
    response, its API key and its version range. *)

From Stdlib Require Import ZArith Lia.
From stdpp Require Import base list numbers strings.
From S2P Require Import Prelude Bytes Wire VecBuilder Varint Primitives PrimitiveLaws ApiKey.

Local Open Scope Z_scope.
Local Open Scope rust_scope.

(** ** Versions *)
Record ApiVersion : Type := mkApiVersion { api_version_0 : Int16 }.

(** [version.0 .0] *)
Definition vnum (version : ApiVersion) : Z := int16 (api_version_0 version).

Definition V (n : Z) : ApiVersion := mkApiVersion (mkInt16 n).

Record ApiVersionRange : Type := mkApiVersionRange {
  range_min : ApiVersion;
  range_max : ApiVersion;
}.

(** [ApiVersionRange::new]: a range that is not empty, or a panic. *)
Definition ApiVersionRange_new {E} (min max : ApiVersion) : outcome E ApiVersionRange :=
  let! _ := oassert (vnum min <=? vnum max) in Ok (mkApiVersionRange min max).

#[export] Instance ApiVersion_eq_dec : EqDecision ApiVersion.
Proof. solve_decision. Defined.
#[export] Instance ApiVersionRange_eq_dec : EqDecision ApiVersionRange.
Proof. solve_decision. Defined.

Definition in_range (r : ApiVersionRange) (v : ApiVersion) : Prop :=
  vnum (range_min r) <= vnum v <= vnum (range_max r).

(** ** Constants *)
Definition NORMAL_CONSUMER : Int32 := mkInt32 (-1).

Inductive IsolationLevel : Type := ReadCommitted | ReadUncommitted.

(** [From<IsolationLevel> for Int8] and the default. *)
Definition Int8_from_IsolationLevel (l : IsolationLevel) : Int8 :=
  match l with ReadCommitted => mkInt8 1 | ReadUncommitted => mkInt8 0 end.
Definition IsolationLevel_default : IsolationLevel := ReadUncommitted.

(** ** Errors *)
Inductive ReadVersionedError : Type := RVReadError (e : ReadError).

Inductive WriteVersionedError : Type :=
| WVWriteError (e : WriteError)
| FieldNotAvailable (field : string) (version : ApiVersion).

#[export] Instance FromIo_ReadVersionedError : FromIo ReadVersionedError :=
  fun e => RVReadError (ReadIO e).

(** ** The traits *)
Class ReadVersionedType (A : Type) : Type :=
  read_versioned : ApiVersion -> reader ReadVersionedError A.
Class WriteVersionedType (A : Type) : Type :=
  write_versioned : ApiVersion -> A -> writer WriteVersionedError.

Arguments read_versioned : simpl never.
Arguments write_versioned : simpl never.

(** [RequestBody]; the response type is a parameter of the class. *)
Class RequestBody (Req Resp : Type) : Type := {
  API_KEY : ApiKeys.ApiKey;
  API_VERSION_RANGE : ApiVersionRange;
  FIRST_TAGGED_FIELD_IN_REQUEST_VERSION : ApiVersion;
  FIRST_TAGGED_FIELD_IN_RESPONSE_VERSION : ApiVersion;
}.

(** [T::read(reader)?] and [x.write(writer)?] inside a versioned message. *)
Definition rd (A : Type) `{ReadType A} : reader ReadVersionedError A := rmap_err RVReadError read.
Definition wr {A} `{WriteType A} (x : A) : writer WriteVersionedError :=
  omap_err WVWriteError (write x).
Arguments rd : simpl never.
Arguments wr : simpl never.

(** [match o.as_ref() { Some(x) => x.write(writer)?, None => d.write(writer)? }]. *)
Definition wr_or {A} `{WriteType A} (d : A) (o : option A) : writer WriteVersionedError :=
  wr (default d o).

(** What such a field is read back as: [b] says whether the version has it. *)
Definition norm_when {A} (b : bool) (d : A) (o : option A) : option A :=
  if b then Some (default d o) else None.

(** [if compact { String_(CompactString::read(reader)?.0) } else { String_::read(reader)? }]. *)
Definition read_name (compact : bool) : reader ReadVersionedError String_ :=
  if compact then let? s := rd CompactString in rret (mkString_ (compact_string s))
  else rd String_.

(** ** Arrays *)
Section arrays.
Context {T : Type}.

(** [read_versioned_array]. *)
Definition read_versioned_array `{ReadVersionedType T} (version : ApiVersion) :
    reader ReadVersionedError (option (list T)) :=
  let? len := rd Int32 in
  let len := int32 len in
  if len =? -1 then rret None
  else if len <? -1 then rerr (RVReadError (ReadMalformed (NegativeArrayLength len)))
  else
    let? len := rlift (ok_or (RVReadError ReadOverflow) (usize_try_from len)) in
    let? res := read_many (Z.to_nat len) (read_versioned version) in
    rret (Some res).

(** [write_versioned_array]. *)
Definition write_versioned_array `{WriteVersionedType T} (version : ApiVersion)
    (data : option (list T)) : writer WriteVersionedError :=
  match data with
  | None => wr (mkInt32 (-1))
  | Some inner =>
      let! len := ok_or (WVWriteError WriteOverflow) (signed_try_from 32 (zlen inner)) in
      wr (mkInt32 len) ;+ write_many (write_versioned version) inner
  end.

(** [read_compact_versioned_array]. *)
Definition read_compact_versioned_array `{ReadVersionedType T} (version : ApiVersion) :
    reader ReadVersionedError (option (list T)) :=
  let? len := rd UnsignedVarint in
  let n := uvarint len in
  if n =? 0 then rret None
  else
    let? len := rlift (ok_or (RVReadError ReadOverflow) (usize_try_from (n - 1))) in
    let? res := read_many (Z.to_nat len) (read_versioned version) in
    rret (Some res).

(** [write_compact_versioned_array]. *)
Definition write_compact_versioned_array `{WriteVersionedType T} (version : ApiVersion)
    (data : option (list T)) : writer WriteVersionedError :=
  match data with
  | None => wr (mkUnsignedVarint 0)
  | Some inner =>
      let! len := ok_or (WVWriteError WriteOverflow) (unsigned_try_from 64 (zlen inner + 1)) in
      wr (mkUnsignedVarint len) ;+ write_many (write_versioned version) inner
  end.

(** [read_versioned_array(reader, version)?.unwrap_or_default()] and the
    compact form. *)
Definition read_vec `{ReadVersionedType T} (version : ApiVersion) : reader ReadVersionedError (list T) :=
  let? o := read_versioned_array version in rret (default [] o).
Definition read_compact_vec `{ReadVersionedType T} (version : ApiVersion) :
    reader ReadVersionedError (list T) :=
  let? o := read_compact_versioned_array version in rret (default [] o).
End arrays.

(** ** Laws *)

(** What a message becomes when it is written at a version and read back:
    fields the version does not have are lost, and absent fields it does have
    are filled in.  [norm] says how, for each type. *)
Definition versioned_round_trip {A} `{ReadVersionedType A, WriteVersionedType A}
    (ok : A -> Prop) (norm : ApiVersion -> A -> A) : Prop :=
  forall version x bs s, ok x -> write_versioned version x = Ok bs ->
  read_versioned version (bs +> s) = Ok (norm version x, s).

(** A reader that does not panic at the versions between [lo] and [hi]. *)
Class NoPanicVersioned (A : Type) `{ReadVersionedType A} (lo hi : Z) : Prop :=
  read_versioned_no_panic : forall version, lo <= vnum version <= hi -> no_panic (read_versioned version).

Class StreamingVersioned (A : Type) `{ReadVersionedType A} : Prop :=
  read_versioned_streaming : forall version, streaming (read_versioned version).

Lemma run_rd `{RoundTrip A} {B} (x : A) bs (k : A -> reader ReadVersionedError B) s :
  wr x = Ok bs -> wf x -> rbind (rd A) k (bs +> s) = k x s.
Proof.
  intros Hw Hx. apply omap_err_ok in Hw. erewrite rbind_run; [done|].
  apply rmap_err_ok. by apply read_write.
Qed.

Lemma run_read_when {E A B} b (r : reader E A) (k : option A -> reader E B) s :
  rbind (read_when b r) k s =
    if b then rbind r (fun x => k (Some x)) s else k None s.
Proof.
  destruct b; simpl; [|done]. unfold rbind, rret. by destruct (r s) as [[]| |].
Qed.

(** An optional field with a default, written only at some versions. *)
Lemma run_wr_or `{RoundTrip A} {B} b (d : A) o bs (k : option A -> reader ReadVersionedError B) s :
  write_when b (wr_or d o) = Ok bs -> wf d -> from_option wf True o ->
  rbind (read_when b (rd A)) k (bs +> s) = k (norm_when b d o) s.
Proof.
  intros Hw Hd Ho. rewrite run_read_when. unfold norm_when. destruct b; simpl in Hw.
  - unfold wr_or in Hw. apply (run_rd (default d o) bs (fun x => k (Some x))); [done|]. by destruct o.
  - apply wnil_ok in Hw as ->. by rewrite src_app_nil.
Qed.

Lemma streaming_rd A `{Streaming A} : streaming (rd A).
Proof. apply streaming_map_err; [done|]. apply read_streaming. Qed.
Lemma no_panic_rd A `{NoPanic A} : no_panic (rd A).
Proof. apply no_panic_map_err, read_no_panic. Qed.

Lemma streaming_rassert {E} `{FromIo E} b : streaming (rassert b : reader E unit).
Proof. apply streaming_lift. Qed.
Lemma no_panic_rassert {E} b : b = true -> no_panic (rassert b : reader E unit).
Proof. intros ->. by intros s p. Qed.

Section array_laws.
Context {T : Type}.

Lemma streaming_versioned_array `{StreamingVersioned T} version :
  streaming (read_versioned_array (T:=T) version).
Proof.
  unfold read_versioned_array. apply streaming_bind; [by apply streaming_rd; apply _|]. intros len.
  cbv zeta. case_match; [apply streaming_ret|]. case_match; [apply streaming_err|].
  apply streaming_usize. intros Hz. apply streaming_bind; [|intros ?; apply streaming_ret].
  apply streaming_read_many, read_versioned_streaming.
Qed.

Lemma streaming_compact_versioned_array `{StreamingVersioned T} version :
  streaming (read_compact_versioned_array (T:=T) version).
Proof.
  unfold read_compact_versioned_array. apply streaming_bind; [by apply streaming_rd; apply _|].
  intros len. cbv zeta. case_match; [apply streaming_ret|].
  apply streaming_usize. intros Hz. apply streaming_bind; [|intros ?; apply streaming_ret].
  apply streaming_read_many, read_versioned_streaming.
Qed.

Lemma no_panic_versioned_array `{ReadVersionedType T} version :
  no_panic (read_versioned (A:=T) version) -> no_panic (read_versioned_array (T:=T) version).
Proof.
  intros Hn. unfold read_versioned_array. apply no_panic_bind; [by apply no_panic_rd; apply _|].
  intros len. cbv zeta. case_match; [apply no_panic_ret|]. case_match; [apply no_panic_err|].
  apply no_panic_usize. intros Hz. apply no_panic_bind; [|intros ?; apply no_panic_ret].
  by apply no_panic_read_many.
Qed.

Lemma no_panic_compact_versioned_array `{ReadVersionedType T} version :
  no_panic (read_versioned (A:=T) version) -> no_panic (read_compact_versioned_array (T:=T) version).
Proof.
  intros Hn. unfold read_compact_versioned_array.
  apply no_panic_bind; [by apply no_panic_rd; apply _|]. intros len. cbv zeta.
  case_match; [apply no_panic_ret|].
  apply no_panic_usize. intros Hz. apply no_panic_bind; [|intros ?; apply no_panic_ret].
  by apply no_panic_read_many.
Qed.

Context `{ReadVersionedType T, WriteVersionedType T}.

(** Arrays of messages: every element comes back normalised. *)
Lemma versioned_many (ok : T -> Prop) norm version l bs s :
  versioned_round_trip ok norm -> Forall ok l ->
  write_many (write_versioned version) l = Ok bs ->
  read_many (length l) (read_versioned version) (bs +> s) = Ok (map (norm version) l, s).
Proof.
  intros Hrt Hok. revert bs. induction Hok as [|x l Hx Hl IH]; intros bs Hw; simpl in *.
  - apply wnil_ok in Hw as ->. by rewrite src_app_nil.
  - apply wseq_ok in Hw as (b1 & b2 & Hw1 & Hw2 & ->). rewrite src_app_app.
    erewrite rbind_run by (by apply Hrt). erewrite rbind_run by (by apply IH). done.
Qed.

Lemma versioned_array_round_trip (ok : T -> Prop) norm version o bs s :
  versioned_round_trip ok norm -> from_option (Forall ok) True o ->
  write_versioned_array version o = Ok bs ->
  read_versioned_array version (bs +> s) = Ok (option_map (map (norm version)) o, s).
Proof.
  intros Hrt Hok Hw. unfold read_versioned_array. destruct o as [l|]; simpl in *.
  - apply obind_ok in Hw as (len & Hlen & Hw). invert_ok.
    apply wseq_ok in Hw as (b1 & b2 & Hw1 & Hw2 & ->). rewrite src_app_app.
    erewrite run_rd by (first [eassumption|done]). cbv zeta. cbn [int32].
    pose proof (zlen_nonneg l).
    destruct (Z.eqb_spec (zlen l) (-1)); [lia|]. destruct (Z.ltb_spec (zlen l) (-1)); [lia|].
    rewrite (run_ok_or _ _ (zlen l)) by (by apply (usize_of_signed 32)). rewrite to_nat_zlen.
    by erewrite rbind_run by (by eapply versioned_many).
  - by erewrite run_rd by (first [eassumption|done]).
Qed.

Lemma compact_versioned_array_round_trip (ok : T -> Prop) norm version o bs s :
  versioned_round_trip ok norm -> from_option (Forall ok) True o ->
  write_compact_versioned_array version o = Ok bs ->
  read_compact_versioned_array version (bs +> s) = Ok (option_map (map (norm version)) o, s).
Proof.
  intros Hrt Hok Hw. unfold read_compact_versioned_array. destruct o as [l|]; simpl in *.
  - apply obind_ok in Hw as (len & Hlen & Hw). invert_ok.
    apply wseq_ok in Hw as (b1 & b2 & Hw1 & Hw2 & ->). rewrite src_app_app.
    erewrite run_rd by (first [eassumption|done]). cbv zeta. cbn [uvarint].
    pose proof (zlen_nonneg l). destruct (Z.eqb_spec (zlen l + 1) 0); [lia|].
    replace (zlen l + 1 - 1) with (zlen l) by lia.
    rewrite (run_ok_or _ _ (zlen l)) by (apply usize_try_from_ok; unfold in_unsigned in *; lia).
    rewrite to_nat_zlen. by erewrite rbind_run by (by eapply versioned_many).
  - by erewrite run_rd by (first [eassumption|done]).
Qed.

Lemma run_vec (ok : T -> Prop) norm version l bs s :
  versioned_round_trip ok norm -> Forall ok l -> write_versioned_array version (Some l) = Ok bs ->
  read_vec version (bs +> s) = Ok (map (norm version) l, s).
Proof.
  intros Hrt Hok Hw. unfold read_vec.
  by erewrite rbind_run by (by eapply (versioned_array_round_trip ok norm version (Some l))).
Qed.

Lemma run_vec_compact (ok : T -> Prop) norm version l bs s :
  versioned_round_trip ok norm -> Forall ok l ->
  write_compact_versioned_array version (Some l) = Ok bs ->
  read_compact_vec version (bs +> s) = Ok (map (norm version) l, s).
Proof.
  intros Hrt Hok Hw. unfold read_compact_vec.
  by erewrite rbind_run by (by eapply (compact_versioned_array_round_trip ok norm version (Some l))).
Qed.
End array_laws.

(** ** Automation *)
#[export] Hint Extern 0 (streaming (rd _)) => apply streaming_rd; apply _ : streaming.
#[export] Hint Extern 0 (no_panic (rd _)) => apply no_panic_rd; apply _ : streaming.
#[export] Hint Extern 0 (streaming (read_versioned _)) => apply read_versioned_streaming : streaming.
#[export] Hint Extern 0 (streaming (read_versioned_array _)) =>
  apply streaming_versioned_array; apply _ : streaming.
#[export] Hint Extern 0 (streaming (read_compact_versioned_array _)) =>
  apply streaming_compact_versioned_array; apply _ : streaming.
#[export] Hint Resolve streaming_rassert : streaming.

(** Side conditions on versions. *)
Ltac solve_version :=
  repeat rewrite ?andb_true_iff, ?Z.leb_le, ?Z.eqb_eq; lia.

Ltac head_of t := match t with ?f _ => head_of f | _ => t end.

(** From [read_versioned] to the instance, to the definition, to its body. *)
Ltac unfold_reader :=
  unfold read_versioned;
  do 2 match goal with
       | |- streaming (?f ?v) => let h := head_of f in unfold h
       | |- no_panic (?f ?v) => let h := head_of f in unfold h
       end.

Ltac solve_range :=
  repeat match goal with H : (_ <=? _) = true |- _ => apply Z.leb_le in H end; lia.

Ltac versioned_streaming :=
  intros version; unfold_reader; unfold read_vec, read_compact_vec, read_name;
  repeat first
    [ solve [auto with streaming]
    | apply streaming_read_when
    | apply streaming_bind; [|intros ?]
    | case_match ].

Ltac versioned_no_panic :=
  intros version Hversion; unfold_reader; unfold read_vec, read_compact_vec, read_name;
  repeat first
    [ solve [auto with streaming]
    | apply no_panic_rassert; solve_version
    | apply no_panic_versioned_array; apply read_versioned_no_panic; solve_range
    | apply no_panic_compact_versioned_array; apply read_versioned_no_panic; solve_range
    | apply no_panic_read_when; intros ?
    | apply no_panic_bind; [|intros ?]
    | case_match ].

(** Takes a successful [write_versioned] apart. *)
Ltac invert_wr :=
  repeat first
    [ progress invert_ok
    | match goal with
      | H : wseq _ _ = Ok _ |- _ => apply wseq_ok in H as (? & ? & ? & ? & ->)
      | H : wnil = Ok _ |- _ => apply wnil_ok in H as ->
      end ].
