(* ===== verification/Header.v ===== *)
(** * Request and response headers (src/protocol/messages/header.rs) *)

From Stdlib Require Import ZArith Lia.
From stdpp Require Import base list numbers.
From S2P Require Import Prelude Bytes Wire VecBuilder Varint Primitives PrimitiveLaws ApiKey.
From S2P Require Import Versioned.

Local Open Scope Z_scope.
Local Open Scope rust_scope.

Record RequestHeader : Type := mkRequestHeader {
  request_api_key : ApiKeys.ApiKey;
  request_api_version : ApiVersion;
  request_correlation_id : Int32;
  request_client_id : option NullableString;
  request_tagged_fields : option TaggedFields;
}.

Record ResponseHeader : Type := mkResponseHeader {
  response_correlation_id : Int32;
  response_tagged_fields : option TaggedFields;
}.

Definition RequestHeader_read_versioned (version : ApiVersion) : reader ReadVersionedError RequestHeader :=
  let v := vnum version in
  let? _ := rassert (v <=? 2) in
  let? key := rd Int16 in
  let? ver := rd Int16 in
  let? correlation_id := rd Int32 in
  let? client_id := read_when (1 <=? v) (rd NullableString) in
  let? tagged_fields := read_when (2 <=? v) (rd TaggedFields) in
  rret (mkRequestHeader (ApiKey_from_Int16 key) (mkApiVersion ver) correlation_id client_id
          tagged_fields).

Definition RequestHeader_write_versioned (version : ApiVersion) (x : RequestHeader) :
    writer WriteVersionedError :=
  let v := vnum version in
  let! _ := oassert (v <=? 2) in
  wr (Int16_from_ApiKey (request_api_key x)) ;+
  wr (api_version_0 (request_api_version x)) ;+
  wr (request_correlation_id x) ;+
  write_when (1 <=? v) (wr_or NullableString_default (request_client_id x)) ;+
  write_when (2 <=? v) (wr_or TaggedFields_default (request_tagged_fields x)).

Definition ResponseHeader_read_versioned (version : ApiVersion) : reader ReadVersionedError ResponseHeader :=
  let v := vnum version in
  let? _ := rassert (v <=? 1) in
  let? correlation_id := rd Int32 in
  let? tagged_fields := read_when (1 <=? v) (rd TaggedFields) in
  rret (mkResponseHeader correlation_id tagged_fields).

Definition ResponseHeader_write_versioned (version : ApiVersion) (x : ResponseHeader) :
    writer WriteVersionedError :=
  let v := vnum version in
  let! _ := oassert (v <=? 1) in
  wr (response_correlation_id x) ;+
  write_when (1 <=? v) (wr_or TaggedFields_default (response_tagged_fields x)).

#[export] Instance RequestHeader_ReadVersioned : ReadVersionedType RequestHeader :=
  RequestHeader_read_versioned.
#[export] Instance RequestHeader_WriteVersioned : WriteVersionedType RequestHeader :=
  RequestHeader_write_versioned.
#[export] Instance ResponseHeader_ReadVersioned : ReadVersionedType ResponseHeader :=
  ResponseHeader_read_versioned.
#[export] Instance ResponseHeader_WriteVersioned : WriteVersionedType ResponseHeader :=
  ResponseHeader_write_versioned.

(** ** Laws *)

#[export] Instance RequestHeader_WellFormed : WellFormed RequestHeader := fun x =>
  api_key_wf (request_api_key x) /\ wf (api_version_0 (request_api_version x)) /\
  wf (request_correlation_id x) /\ from_option wf True (request_client_id x) /\
  from_option wf True (request_tagged_fields x).
#[export] Instance ResponseHeader_WellFormed : WellFormed ResponseHeader := fun x =>
  wf (response_correlation_id x) /\ from_option wf True (response_tagged_fields x).

Definition RequestHeader_norm (version : ApiVersion) (x : RequestHeader) : RequestHeader :=
  mkRequestHeader (request_api_key x) (request_api_version x) (request_correlation_id x)
    (norm_when (1 <=? vnum version) NullableString_default (request_client_id x))
    (norm_when (2 <=? vnum version) TaggedFields_default (request_tagged_fields x)).
Definition ResponseHeader_norm (version : ApiVersion) (x : ResponseHeader) : ResponseHeader :=
  mkResponseHeader (response_correlation_id x)
    (norm_when (1 <=? vnum version) TaggedFields_default (response_tagged_fields x)).

Lemma RequestHeader_round_trip : versioned_round_trip wf RequestHeader_norm.
Proof.
  intros version x bs s (Hk & Hv & Hc & Hi & Ht) Hw.
  unfold write_versioned, RequestHeader_WriteVersioned, RequestHeader_write_versioned in Hw.
  unfold read_versioned, RequestHeader_ReadVersioned, RequestHeader_read_versioned.
  cbv zeta in Hw |- *. destruct (vnum version <=? 2) eqn:Hle; [|done]. simpl in Hw.
  invert_wr. rewrite !src_app_app. erewrite rbind_run by done.
  erewrite run_rd by (first [eassumption|by apply Int16_from_ApiKey_range]).
  do 2 erewrite run_rd by (first [eassumption|done]).
  do 2 erewrite run_wr_or by (first [eassumption|auto with rust]).
  rewrite ApiKey_of_Int16_of_ApiKey by done. by destruct x as [? [] ? ? ?].
Qed.

Lemma ResponseHeader_round_trip : versioned_round_trip wf ResponseHeader_norm.
Proof.
  intros version x bs s (Hc & Ht) Hw.
  unfold write_versioned, ResponseHeader_WriteVersioned, ResponseHeader_write_versioned in Hw.
  unfold read_versioned, ResponseHeader_ReadVersioned, ResponseHeader_read_versioned.
  cbv zeta in Hw |- *. destruct (vnum version <=? 1) eqn:Hle; [|done]. simpl in Hw.
  invert_wr. rewrite !src_app_app. erewrite rbind_run by done.
  erewrite run_rd by (first [eassumption|done]).
  by erewrite run_wr_or by (first [eassumption|auto with rust]).
Qed.

#[export] Instance RequestHeader_Streaming : StreamingVersioned RequestHeader.
Proof. versioned_streaming. Qed.
#[export] Instance ResponseHeader_Streaming : StreamingVersioned ResponseHeader.
Proof. versioned_streaming. Qed.
#[export] Instance ResponseHeader_NoPanic : NoPanicVersioned ResponseHeader 0 1.
Proof. versioned_no_panic. Qed.
