(* ===== verification/ApiVersionsMsg.v ===== *)
(** * ApiVersions request and response (src/protocol/messages/api_versions.rs) *)

From Stdlib Require Import ZArith Lia.
From stdpp Require Import base list numbers.
From S2P Require Import Prelude Bytes Wire VecBuilder Varint Primitives PrimitiveLaws ApiKey.
From S2P Require Import ErrorCode Versioned.

Local Open Scope Z_scope.
Local Open Scope rust_scope.

Record ApiVersionsRequest : Type := mkApiVersionsRequest {
  client_software_name : option CompactString;
  client_software_version : option CompactString;
  avreq_tagged_fields : option TaggedFields;
}.

Record ApiVersionsResponseApiKey : Type := mkApiVersionsResponseApiKey {
  api_key : ApiKeys.ApiKey;
  min_version : ApiVersion;
  max_version : ApiVersion;
  avkey_tagged_fields : option TaggedFields;
}.

Record ApiVersionsResponse : Type := mkApiVersionsResponse {
  avresp_error_code : option Errors.Error;
  api_keys : list ApiVersionsResponseApiKey;
  avresp_throttle_time_ms : option Int32;
  avresp_tagged_fields : option TaggedFields;
}.

Definition ApiVersionsRequest_read_versioned (version : ApiVersion) :
    reader ReadVersionedError ApiVersionsRequest :=
  let v := vnum version in
  let? _ := rassert (v <=? 3) in
  let? name := read_when (3 <=? v) (rd CompactString) in
  let? sversion := read_when (3 <=? v) (rd CompactString) in
  let? tagged_fields := read_when (3 <=? v) (rd TaggedFields) in
  rret (mkApiVersionsRequest name sversion tagged_fields).

Definition ApiVersionsRequest_write_versioned (version : ApiVersion) (x : ApiVersionsRequest) :
    writer WriteVersionedError :=
  let v := vnum version in
  let! _ := oassert (v <=? 3) in
  write_when (3 <=? v)
    (wr_or CompactString_default (client_software_name x) ;+
     wr_or CompactString_default (client_software_version x) ;+
     wr_or TaggedFields_default (avreq_tagged_fields x)).

Definition ApiVersionsResponseApiKey_read_versioned (version : ApiVersion) :
    reader ReadVersionedError ApiVersionsResponseApiKey :=
  let v := vnum version in
  let? _ := rassert (v <=? 3) in
  let? key := rd Int16 in
  let? min_version := rd Int16 in
  let? max_version := rd Int16 in
  let? tagged_fields := read_when (3 <=? v) (rd TaggedFields) in
  rret (mkApiVersionsResponseApiKey (ApiKey_from_Int16 key) (mkApiVersion min_version)
          (mkApiVersion max_version) tagged_fields).

Definition ApiVersionsResponseApiKey_write_versioned (version : ApiVersion)
    (x : ApiVersionsResponseApiKey) : writer WriteVersionedError :=
  let v := vnum version in
  let! _ := oassert (v <=? 3) in
  wr (Int16_from_ApiKey (api_key x)) ;+
  wr (api_version_0 (min_version x)) ;+
  wr (api_version_0 (max_version x)) ;+
  write_when (3 <=? v) (wr_or TaggedFields_default (avkey_tagged_fields x)).

#[export] Instance ApiVersionsRequest_ReadVersioned : ReadVersionedType ApiVersionsRequest :=
  ApiVersionsRequest_read_versioned.
#[export] Instance ApiVersionsRequest_WriteVersioned : WriteVersionedType ApiVersionsRequest :=
  ApiVersionsRequest_write_versioned.
#[export] Instance ApiVersionsResponseApiKey_ReadVersioned :
  ReadVersionedType ApiVersionsResponseApiKey := ApiVersionsResponseApiKey_read_versioned.
#[export] Instance ApiVersionsResponseApiKey_WriteVersioned :
  WriteVersionedType ApiVersionsResponseApiKey := ApiVersionsResponseApiKey_write_versioned.

Definition ApiVersionsResponse_read_versioned (version : ApiVersion) :
    reader ReadVersionedError ApiVersionsResponse :=
  let v := vnum version in
  let? _ := rassert (v <=? 3) in
  let? error_code := rd Int16 in
  let? api_keys := if 3 <=? v then read_compact_vec version else read_vec version in
  let? throttle_time_ms := read_when (1 <=? v) (rd Int32) in
  let? tagged_fields := read_when (3 <=? v) (rd TaggedFields) in
  rret (mkApiVersionsResponse (Error_new (int16 error_code)) api_keys throttle_time_ms tagged_fields).

Definition ApiVersionsResponse_write_versioned (version : ApiVersion) (x : ApiVersionsResponse) :
    writer WriteVersionedError :=
  let v := vnum version in
  let! _ := oassert (v <=? 3) in
  wr (Int16_from_Error (avresp_error_code x)) ;+
  (if 3 <=? v then write_compact_versioned_array version (Some (api_keys x))
   else write_versioned_array version (Some (api_keys x))) ;+
  write_when (1 <=? v) (wr_or (mkInt32 0) (avresp_throttle_time_ms x)) ;+
  write_when (3 <=? v) (wr_or TaggedFields_default (avresp_tagged_fields x)).

#[export] Instance ApiVersionsResponse_ReadVersioned : ReadVersionedType ApiVersionsResponse :=
  ApiVersionsResponse_read_versioned.
#[export] Instance ApiVersionsResponse_WriteVersioned : WriteVersionedType ApiVersionsResponse :=
  ApiVersionsResponse_write_versioned.

#[export] Instance ApiVersionsRequest_RequestBody :
    RequestBody ApiVersionsRequest ApiVersionsResponse := {
  API_KEY := ApiKeys.ApiVersions;
  API_VERSION_RANGE := mkApiVersionRange (V 0) (V 3);
  FIRST_TAGGED_FIELD_IN_REQUEST_VERSION := V 3;
  FIRST_TAGGED_FIELD_IN_RESPONSE_VERSION := V 32767;
}.

(** ** Laws *)
#[export] Instance ApiVersionsRequest_WellFormed : WellFormed ApiVersionsRequest := fun x =>
  from_option wf True (client_software_name x) /\ from_option wf True (client_software_version x) /\
  from_option wf True (avreq_tagged_fields x).
#[export] Instance ApiVersionsResponseApiKey_WellFormed : WellFormed ApiVersionsResponseApiKey :=
  fun x => api_key_wf (api_key x) /\ wf (api_version_0 (min_version x)) /\
    wf (api_version_0 (max_version x)) /\ from_option wf True (avkey_tagged_fields x).
#[export] Instance ApiVersionsResponse_WellFormed : WellFormed ApiVersionsResponse := fun x =>
  error_wf (avresp_error_code x) /\ Forall wf (api_keys x) /\
  from_option wf True (avresp_throttle_time_ms x) /\ from_option wf True (avresp_tagged_fields x).

Definition ApiVersionsRequest_norm (version : ApiVersion) (x : ApiVersionsRequest) :=
  let has := 3 <=? vnum version in
  mkApiVersionsRequest (norm_when has CompactString_default (client_software_name x))
    (norm_when has CompactString_default (client_software_version x))
    (norm_when has TaggedFields_default (avreq_tagged_fields x)).
Definition ApiVersionsResponseApiKey_norm (version : ApiVersion) (x : ApiVersionsResponseApiKey) :=
  mkApiVersionsResponseApiKey (api_key x) (min_version x) (max_version x)
    (norm_when (3 <=? vnum version) TaggedFields_default (avkey_tagged_fields x)).
Definition ApiVersionsResponse_norm (version : ApiVersion) (x : ApiVersionsResponse) :=
  mkApiVersionsResponse (avresp_error_code x)
    (map (ApiVersionsResponseApiKey_norm version) (api_keys x))
    (norm_when (1 <=? vnum version) (mkInt32 0) (avresp_throttle_time_ms x))
    (norm_when (3 <=? vnum version) TaggedFields_default (avresp_tagged_fields x)).

Lemma ApiVersionsRequest_round_trip : versioned_round_trip wf ApiVersionsRequest_norm.
Proof.
  intros version x bs s (Hn & Hv & Ht) Hw.
  unfold write_versioned, ApiVersionsRequest_WriteVersioned, ApiVersionsRequest_write_versioned in Hw.
  unfold read_versioned, ApiVersionsRequest_ReadVersioned, ApiVersionsRequest_read_versioned.
  unfold ApiVersionsRequest_norm. cbv zeta in Hw |- *.
  destruct (vnum version <=? 3) eqn:Hle; [|done]. simpl in Hw. erewrite rbind_run by done.
  destruct (3 <=? vnum version); simpl in Hw.
  - invert_wr. rewrite !src_app_app.
    do 2 erewrite (run_wr_or true CompactString_default)
      by (first [eassumption|auto with rust]).
    by erewrite (run_wr_or true TaggedFields_default) by (first [eassumption|auto with rust]).
  - apply wnil_ok in Hw as ->. by rewrite src_app_nil.
Qed.

Lemma ApiVersionsResponseApiKey_round_trip :
  versioned_round_trip wf ApiVersionsResponseApiKey_norm.
Proof.
  intros version x bs s (Hk & Hv & Hc & Ht) Hw.
  unfold write_versioned, ApiVersionsResponseApiKey_WriteVersioned,
    ApiVersionsResponseApiKey_write_versioned in Hw.
  unfold read_versioned, ApiVersionsResponseApiKey_ReadVersioned,
    ApiVersionsResponseApiKey_read_versioned.
  cbv zeta in Hw |- *. destruct (vnum version <=? 3) eqn:Hle; [|done]. simpl in Hw.
  invert_wr. rewrite !src_app_app. erewrite rbind_run by done.
  erewrite run_rd by (first [eassumption|by apply Int16_from_ApiKey_range]).
  do 2 erewrite run_rd by (first [eassumption|done]).
  erewrite run_wr_or by (first [eassumption|auto with rust]).
  rewrite ApiKey_of_Int16_of_ApiKey by done. by destruct x as [? [] [] ?].
Qed.

Lemma ApiVersionsResponse_round_trip : versioned_round_trip wf ApiVersionsResponse_norm.
Proof.
  intros version x bs s (He & Hk & Htt & Ht) Hw.
  unfold write_versioned, ApiVersionsResponse_WriteVersioned, ApiVersionsResponse_write_versioned in Hw.
  unfold read_versioned, ApiVersionsResponse_ReadVersioned, ApiVersionsResponse_read_versioned.
  cbv zeta in Hw |- *. destruct (vnum version <=? 3) eqn:Hle; [|done]. simpl in Hw.
  apply wseq_ok in Hw as (b1 & bs' & Hw1 & Hw & ->).
  apply wseq_ok in Hw as (b2 & bs'' & Hw2 & Hw & ->). invert_wr.
  rewrite !src_app_app. erewrite rbind_run by done.
  erewrite run_rd by (first [eassumption|by apply Int16_from_Error_range]).
  erewrite rbind_run.
  2: { destruct (3 <=? vnum version).
       - eapply run_vec_compact; [exact ApiVersionsResponseApiKey_round_trip|exact Hk|exact Hw2].
       - eapply run_vec; [exact ApiVersionsResponseApiKey_round_trip|exact Hk|exact Hw2]. }
  erewrite (run_wr_or _ (mkInt32 0)) by (first [eassumption|done]).
  erewrite run_wr_or by (first [eassumption|auto with rust]).
  by rewrite Error_new_of_Int16 by done.
Qed.

#[export] Instance ApiVersionsResponseApiKey_Streaming : StreamingVersioned ApiVersionsResponseApiKey.
Proof. versioned_streaming. Qed.
#[export] Instance ApiVersionsResponse_Streaming : StreamingVersioned ApiVersionsResponse.
Proof. versioned_streaming. Qed.
#[export] Instance ApiVersionsResponseApiKey_NoPanic : NoPanicVersioned ApiVersionsResponseApiKey 0 3.
Proof. versioned_no_panic. Qed.
#[export] Instance ApiVersionsResponse_NoPanic : NoPanicVersioned ApiVersionsResponse 0 3.
Proof. versioned_no_panic. Qed.
