(* ===== verification/DataMessages.v ===== *)
(** * Messages that move records (src/protocol/messages/produce.rs, fetch.rs,
      list_offsets.rs, delete_records.rs)

    The requests are only written and the responses only read by the client. *)

From Stdlib Require Import ZArith Lia.
From stdpp Require Import base list numbers.
From S2P Require Import Prelude Bytes Wire VecBuilder Varint Primitives PrimitiveLaws Record.
From S2P Require Import Codec RecordBatch ApiKey ErrorCode Versioned.

Local Open Scope Z_scope.
Local Open Scope rust_scope.

(** ** Produce *)
Record ProduceRequestPartitionData : Type := mkProduceRequestPartitionData {
  prp_index : Int32;
  prp_records : Records;
}.
Record ProduceRequestTopicData : Type := mkProduceRequestTopicData {
  prt_name : String_;
  prt_partition_data : list ProduceRequestPartitionData;
}.
Record ProduceRequest : Type := mkProduceRequest {
  transactional_id : NullableString;
  acks : Int16;
  produce_timeout_ms : Int32;
  topic_data : list ProduceRequestTopicData;
}.
Record ProduceResponsePartitionResponse : Type := mkProduceResponsePartitionResponse {
  prr_index : Int32;
  prr_error : option Errors.Error;
  prr_base_offset : Int64;
  log_append_time_ms : option Int64;
  log_start_offset : option Int64;
}.
Record ProduceResponseResponse : Type := mkProduceResponseResponse {
  prr_name : String_;
  partition_responses : list ProduceResponsePartitionResponse;
}.
Record ProduceResponse : Type := mkProduceResponse {
  produce_responses : list ProduceResponseResponse;
  produce_throttle_time_ms : option Int32;
}.

Section produce.
Context `{VarIntCrate, Codecs} {prof : Profile}.

Definition ProduceRequestPartitionData_write_versioned (version : ApiVersion)
    (x : ProduceRequestPartitionData) : writer WriteVersionedError :=
  let v := vnum version in
  let! _ := oassert (v <=? 7) in
  wr (prp_index x) ;+ wr (prp_records x).
#[export] Instance ProduceRequestPartitionData_WriteVersioned :
  WriteVersionedType ProduceRequestPartitionData := ProduceRequestPartitionData_write_versioned.

Definition ProduceRequestTopicData_write_versioned (version : ApiVersion)
    (x : ProduceRequestTopicData) : writer WriteVersionedError :=
  let v := vnum version in
  let! _ := oassert (v <=? 7) in
  wr (prt_name x) ;+ write_versioned_array version (Some (prt_partition_data x)).
#[export] Instance ProduceRequestTopicData_WriteVersioned :
  WriteVersionedType ProduceRequestTopicData := ProduceRequestTopicData_write_versioned.

Definition ProduceRequest_write_versioned (version : ApiVersion) (x : ProduceRequest) :
    writer WriteVersionedError :=
  let v := vnum version in
  let! _ := oassert (v <=? 7) in
  write_when (3 <=? v) (wr (transactional_id x)) ;+
  wr (acks x) ;+
  wr (produce_timeout_ms x) ;+
  write_versioned_array version (Some (topic_data x)).
#[export] Instance ProduceRequest_WriteVersioned :
  WriteVersionedType ProduceRequest := ProduceRequest_write_versioned.
End produce.

Definition ProduceResponsePartitionResponse_read_versioned (version : ApiVersion) :
    reader ReadVersionedError ProduceResponsePartitionResponse :=
  let v := vnum version in
  let? _ := rassert (v <=? 7) in
  let? index := rd Int32 in
  let? error := rd Int16 in
  let? base_offset := rd Int64 in
  let? log_append_time_ms := read_when (2 <=? v) (rd Int64) in
  let? log_start_offset := read_when (5 <=? v) (rd Int64) in
  rret (mkProduceResponsePartitionResponse index (Error_new (int16 error)) base_offset
          log_append_time_ms log_start_offset).
#[export] Instance ProduceResponsePartitionResponse_ReadVersioned :
  ReadVersionedType ProduceResponsePartitionResponse := ProduceResponsePartitionResponse_read_versioned.

Definition ProduceResponseResponse_read_versioned (version : ApiVersion) :
    reader ReadVersionedError ProduceResponseResponse :=
  let v := vnum version in
  let? _ := rassert (v <=? 7) in
  let? name := rd String_ in
  let? partition_responses := read_vec version in
  rret (mkProduceResponseResponse name partition_responses).
#[export] Instance ProduceResponseResponse_ReadVersioned :
  ReadVersionedType ProduceResponseResponse := ProduceResponseResponse_read_versioned.

Definition ProduceResponse_read_versioned (version : ApiVersion) :
    reader ReadVersionedError ProduceResponse :=
  let v := vnum version in
  let? _ := rassert (v <=? 7) in
  let? responses := read_vec version in
  let? throttle_time_ms := read_when (1 <=? v) (rd Int32) in
  rret (mkProduceResponse responses throttle_time_ms).
#[export] Instance ProduceResponse_ReadVersioned :
  ReadVersionedType ProduceResponse := ProduceResponse_read_versioned.

#[export] Instance ProduceRequest_RequestBody : RequestBody ProduceRequest ProduceResponse := {
  API_KEY := ApiKeys.Produce;
  API_VERSION_RANGE := mkApiVersionRange (V 3) (V 7);
  FIRST_TAGGED_FIELD_IN_REQUEST_VERSION := V 9;
  FIRST_TAGGED_FIELD_IN_RESPONSE_VERSION := V 9;
}.

(** ** Fetch *)
Record FetchRequestPartition : Type := mkFetchRequestPartition {
  frp_partition : Int32;
  fetch_offset : Int64;
  partition_max_bytes : Int32;
}.
Record FetchRequestTopic : Type := mkFetchRequestTopic {
  frt_topic : String_;
  frt_partitions : list FetchRequestPartition;
}.
Record FetchRequest : Type := mkFetchRequest {
  fetch_replica_id : Int32;
  max_wait_ms : Int32;
  min_bytes : Int32;
  max_bytes : option Int32;
  fetch_isolation_level : option IsolationLevel;
  fetch_topics : list FetchRequestTopic;
}.
Record FetchResponseAbortedTransaction : Type := mkFetchResponseAbortedTransaction {
  aborted_producer_id : Int64;
  first_offset : Int64;
}.
Record FetchResponsePartition : Type := mkFetchResponsePartition {
  frs_partition_index : Int32;
  frs_error_code : option Errors.Error;
  high_watermark : Int64;
  last_stable_offset : option Int64;
  aborted_transactions : list FetchResponseAbortedTransaction;
  frs_records : Records;
}.
Record FetchResponseTopic : Type := mkFetchResponseTopic {
  frs_topic : String_;
  frs_partitions : list FetchResponsePartition;
}.
Record FetchResponse : Type := mkFetchResponse {
  fetch_throttle_time_ms : option Int32;
  fetch_responses : list FetchResponseTopic;
}.

Definition FetchRequestPartition_write_versioned (version : ApiVersion) (x : FetchRequestPartition) :
    writer WriteVersionedError :=
  let v := vnum version in
  let! _ := oassert (v <=? 4) in
  wr (frp_partition x) ;+ wr (fetch_offset x) ;+ wr (partition_max_bytes x).
#[export] Instance FetchRequestPartition_WriteVersioned :
  WriteVersionedType FetchRequestPartition := FetchRequestPartition_write_versioned.

Definition FetchRequestTopic_write_versioned (version : ApiVersion) (x : FetchRequestTopic) :
    writer WriteVersionedError :=
  let v := vnum version in
  let! _ := oassert (v <=? 4) in
  wr (frt_topic x) ;+ write_versioned_array version (Some (frt_partitions x)).
#[export] Instance FetchRequestTopic_WriteVersioned :
  WriteVersionedType FetchRequestTopic := FetchRequestTopic_write_versioned.

Definition FetchRequest_write_versioned (version : ApiVersion) (x : FetchRequest) :
    writer WriteVersionedError :=
  let v := vnum version in
  let! _ := oassert (v <=? 4) in
  wr (fetch_replica_id x) ;+
  wr (max_wait_ms x) ;+
  wr (min_bytes x) ;+
  write_when (3 <=? v) (wr_or (mkInt32 2147483647) (max_bytes x)) ;+
  write_when (4 <=? v)
    (wr (Int8_from_IsolationLevel (default IsolationLevel_default (fetch_isolation_level x)))) ;+
  write_versioned_array version (Some (fetch_topics x)).
#[export] Instance FetchRequest_WriteVersioned :
  WriteVersionedType FetchRequest := FetchRequest_write_versioned.

Definition FetchResponseAbortedTransaction_read_versioned (version : ApiVersion) :
    reader ReadVersionedError FetchResponseAbortedTransaction :=
  let v := vnum version in
  let? _ := rassert ((4 <=? v) && (v <=? 4)) in
  let? producer_id := rd Int64 in
  let? first_offset := rd Int64 in
  rret (mkFetchResponseAbortedTransaction producer_id first_offset).
#[export] Instance FetchResponseAbortedTransaction_ReadVersioned :
  ReadVersionedType FetchResponseAbortedTransaction := FetchResponseAbortedTransaction_read_versioned.

Section fetch.
Context `{VarIntCrate, Codecs} {prof : Profile}.

Definition FetchResponsePartition_read_versioned (version : ApiVersion) :
    reader ReadVersionedError FetchResponsePartition :=
  let v := vnum version in
  let? _ := rassert (v <=? 4) in
  let? partition_index := rd Int32 in
  let? error_code := rd Int16 in
  let? high_watermark := rd Int64 in
  let? last_stable_offset := read_when (4 <=? v) (rd Int64) in
  let? aborted := read_when (4 <=? v) (read_versioned_array version) in
  let? records := rd Records in
  rret (mkFetchResponsePartition partition_index (Error_new (int16 error_code)) high_watermark
          last_stable_offset (default [] (mjoin aborted)) records).
#[export] Instance FetchResponsePartition_ReadVersioned :
  ReadVersionedType FetchResponsePartition := FetchResponsePartition_read_versioned.

Definition FetchResponseTopic_read_versioned (version : ApiVersion) :
    reader ReadVersionedError FetchResponseTopic :=
  let v := vnum version in
  let? _ := rassert (v <=? 4) in
  let? topic := rd String_ in
  let? partitions := read_vec version in
  rret (mkFetchResponseTopic topic partitions).
#[export] Instance FetchResponseTopic_ReadVersioned :
  ReadVersionedType FetchResponseTopic := FetchResponseTopic_read_versioned.

Definition FetchResponse_read_versioned (version : ApiVersion) :
    reader ReadVersionedError FetchResponse :=
  let v := vnum version in
  let? _ := rassert (v <=? 4) in
  let? throttle_time_ms := read_when (1 <=? v) (rd Int32) in
  let? responses := read_vec version in
  rret (mkFetchResponse throttle_time_ms responses).
#[export] Instance FetchResponse_ReadVersioned :
  ReadVersionedType FetchResponse := FetchResponse_read_versioned.
End fetch.

#[export] Instance FetchRequest_RequestBody : RequestBody FetchRequest FetchResponse := {
  API_KEY := ApiKeys.Fetch;
  API_VERSION_RANGE := mkApiVersionRange (V 4) (V 4);
  FIRST_TAGGED_FIELD_IN_REQUEST_VERSION := V 12;
  FIRST_TAGGED_FIELD_IN_RESPONSE_VERSION := V 12;
}.

(** ** ListOffsets *)
Record ListOffsetsRequestPartition : Type := mkListOffsetsRequestPartition {
  lop_partition_index : Int32;
  lop_timestamp : Int64;
  max_num_offsets : option Int32;
}.
Record ListOffsetsRequestTopic : Type := mkListOffsetsRequestTopic {
  lot_name : String_;
  lot_partitions : list ListOffsetsRequestPartition;
}.
Record ListOffsetsRequest : Type := mkListOffsetsRequest {
  lo_replica_id : Int32;
  lo_isolation_level : option IsolationLevel;
  lo_topics : list ListOffsetsRequestTopic;
}.
Record ListOffsetsResponsePartition : Type := mkListOffsetsResponsePartition {
  los_partition_index : Int32;
  los_error_code : option Errors.Error;
  old_style_offsets : option (Array Int64);
  los_timestamp : option Int64;
  los_offset : option Int64;
}.
Record ListOffsetsResponseTopic : Type := mkListOffsetsResponseTopic {
  los_name : String_;
  los_partitions : list ListOffsetsResponsePartition;
}.
Record ListOffsetsResponse : Type := mkListOffsetsResponse {
  lo_throttle_time_ms : option Int32;
  los_topics : list ListOffsetsResponseTopic;
}.

Definition ListOffsetsRequestPartition_write_versioned (version : ApiVersion)
    (x : ListOffsetsRequestPartition) : writer WriteVersionedError :=
  let v := vnum version in
  let! _ := oassert (v <=? 3) in
  wr (lop_partition_index x) ;+
  wr (lop_timestamp x) ;+
  write_when (v <? 1) (wr_or (mkInt32 1) (max_num_offsets x)).
#[export] Instance ListOffsetsRequestPartition_WriteVersioned :
  WriteVersionedType ListOffsetsRequestPartition := ListOffsetsRequestPartition_write_versioned.

Definition ListOffsetsRequestTopic_write_versioned (version : ApiVersion)
    (x : ListOffsetsRequestTopic) : writer WriteVersionedError :=
  let v := vnum version in
  let! _ := oassert (v <=? 3) in
  wr (lot_name x) ;+ write_versioned_array version (Some (lot_partitions x)).
#[export] Instance ListOffsetsRequestTopic_WriteVersioned :
  WriteVersionedType ListOffsetsRequestTopic := ListOffsetsRequestTopic_write_versioned.

Definition ListOffsetsRequest_write_versioned (version : ApiVersion) (x : ListOffsetsRequest) :
    writer WriteVersionedError :=
  let v := vnum version in
  let! _ := oassert (v <=? 3) in
  wr (lo_replica_id x) ;+
  write_when (2 <=? v)
    (wr (Int8_from_IsolationLevel (default IsolationLevel_default (lo_isolation_level x)))) ;+
  write_versioned_array version (Some (lo_topics x)).
#[export] Instance ListOffsetsRequest_WriteVersioned :
  WriteVersionedType ListOffsetsRequest := ListOffsetsRequest_write_versioned.

Definition ListOffsetsResponsePartition_read_versioned (version : ApiVersion) :
    reader ReadVersionedError ListOffsetsResponsePartition :=
  let v := vnum version in
  let? _ := rassert (v <=? 3) in
  let? partition_index := rd Int32 in
  let? error_code := rd Int16 in
  let? old_style_offsets := read_when (v <? 1) (rd (Array Int64)) in
  let? timestamp := read_when (1 <=? v) (rd Int64) in
  let? offset := read_when (1 <=? v) (rd Int64) in
  rret (mkListOffsetsResponsePartition partition_index (Error_new (int16 error_code))
          old_style_offsets timestamp offset).
#[export] Instance ListOffsetsResponsePartition_ReadVersioned :
  ReadVersionedType ListOffsetsResponsePartition := ListOffsetsResponsePartition_read_versioned.

Definition ListOffsetsResponseTopic_read_versioned (version : ApiVersion) :
    reader ReadVersionedError ListOffsetsResponseTopic :=
  let v := vnum version in
  let? _ := rassert (v <=? 3) in
  let? name := rd String_ in
  let? partitions := read_vec version in
  rret (mkListOffsetsResponseTopic name partitions).
#[export] Instance ListOffsetsResponseTopic_ReadVersioned :
  ReadVersionedType ListOffsetsResponseTopic := ListOffsetsResponseTopic_read_versioned.

Definition ListOffsetsResponse_read_versioned (version : ApiVersion) :
    reader ReadVersionedError ListOffsetsResponse :=
  let v := vnum version in
  let? _ := rassert (v <=? 3) in
  let? throttle_time_ms := read_when (2 <=? v) (rd Int32) in
  let? topics := read_vec version in
  rret (mkListOffsetsResponse throttle_time_ms topics).
#[export] Instance ListOffsetsResponse_ReadVersioned :
  ReadVersionedType ListOffsetsResponse := ListOffsetsResponse_read_versioned.

#[export] Instance ListOffsetsRequest_RequestBody :
    RequestBody ListOffsetsRequest ListOffsetsResponse := {
  API_KEY := ApiKeys.ListOffsets;
  API_VERSION_RANGE := mkApiVersionRange (V 0) (V 3);
  FIRST_TAGGED_FIELD_IN_REQUEST_VERSION := V 6;
  FIRST_TAGGED_FIELD_IN_RESPONSE_VERSION := V 6;
}.

(** ** DeleteRecords *)
Record DeleteRequestPartition : Type := mkDeleteRequestPartition {
  drp_partition_index : Int32;
  drp_offset : Int64;
  drp_tagged_fields : option TaggedFields;
}.
Record DeleteRequestTopic : Type := mkDeleteRequestTopic {
  drt_name : String_;
  drt_partitions : list DeleteRequestPartition;
  drt_tagged_fields : option TaggedFields;
}.
Record DeleteRecordsRequest : Type := mkDeleteRecordsRequest {
  dr_topics : list DeleteRequestTopic;
  dr_timeout_ms : Int32;
  dr_tagged_fields : option TaggedFields;
}.
Record DeleteResponsePartition : Type := mkDeleteResponsePartition {
  dsp_partition_index : Int32;
  low_watermark : Int64;
  dsp_error : option Errors.Error;
  dsp_tagged_fields : option TaggedFields;
}.
Record DeleteResponseTopic : Type := mkDeleteResponseTopic {
  dst_name : String_;
  dst_partitions : list DeleteResponsePartition;
  dst_tagged_fields : option TaggedFields;
}.
Record DeleteRecordsResponse : Type := mkDeleteRecordsResponse {
  ds_throttle_time_ms : Int32;
  ds_topics : list DeleteResponseTopic;
  ds_tagged_fields : option TaggedFields;
}.

Definition DeleteRequestPartition_write_versioned (version : ApiVersion)
    (x : DeleteRequestPartition) : writer WriteVersionedError :=
  let v := vnum version in
  let! _ := oassert (v <=? 2) in
  wr (drp_partition_index x) ;+ wr (drp_offset x) ;+
  write_when (2 <=? v) (wr_or TaggedFields_default (drp_tagged_fields x)).
#[export] Instance DeleteRequestPartition_WriteVersioned :
  WriteVersionedType DeleteRequestPartition := DeleteRequestPartition_write_versioned.

Definition DeleteRequestTopic_write_versioned (version : ApiVersion) (x : DeleteRequestTopic) :
    writer WriteVersionedError :=
  let v := vnum version in
  let! _ := oassert (v <=? 2) in
  (if 2 <=? v then omap_err WVWriteError (CompactStringRef_write (string_ (drt_name x)))
   else wr (drt_name x)) ;+
  (if 2 <=? v then write_compact_versioned_array version (Some (drt_partitions x))
   else write_versioned_array version (Some (drt_partitions x))) ;+
  write_when (2 <=? v) (wr_or TaggedFields_default (drt_tagged_fields x)).
#[export] Instance DeleteRequestTopic_WriteVersioned :
  WriteVersionedType DeleteRequestTopic := DeleteRequestTopic_write_versioned.

Definition DeleteRecordsRequest_write_versioned (version : ApiVersion) (x : DeleteRecordsRequest) :
    writer WriteVersionedError :=
  let v := vnum version in
  let! _ := oassert (v <=? 2) in
  (if 2 <=? v then write_compact_versioned_array version (Some (dr_topics x))
   else write_versioned_array version (Some (dr_topics x))) ;+
  wr (dr_timeout_ms x) ;+
  write_when (2 <=? v) (wr_or TaggedFields_default (dr_tagged_fields x)).
#[export] Instance DeleteRecordsRequest_WriteVersioned :
  WriteVersionedType DeleteRecordsRequest := DeleteRecordsRequest_write_versioned.

Definition DeleteResponsePartition_read_versioned (version : ApiVersion) :
    reader ReadVersionedError DeleteResponsePartition :=
  let v := vnum version in
  let? _ := rassert (v <=? 2) in
  let? partition_index := rd Int32 in
  let? low_watermark := rd Int64 in
  let? error := rd Int16 in
  let? tagged_fields := read_when (2 <=? v) (rd TaggedFields) in
  rret (mkDeleteResponsePartition partition_index low_watermark (Error_new (int16 error)) tagged_fields).
#[export] Instance DeleteResponsePartition_ReadVersioned :
  ReadVersionedType DeleteResponsePartition := DeleteResponsePartition_read_versioned.

Definition DeleteResponseTopic_read_versioned (version : ApiVersion) :
    reader ReadVersionedError DeleteResponseTopic :=
  let v := vnum version in
  let? _ := rassert (v <=? 2) in
  let? name := read_name (2 <=? v) in
  let? partitions := if 2 <=? v then read_compact_vec version else read_vec version in
  let? tagged_fields := read_when (2 <=? v) (rd TaggedFields) in
  rret (mkDeleteResponseTopic name partitions tagged_fields).
#[export] Instance DeleteResponseTopic_ReadVersioned :
  ReadVersionedType DeleteResponseTopic := DeleteResponseTopic_read_versioned.

Definition DeleteRecordsResponse_read_versioned (version : ApiVersion) :
    reader ReadVersionedError DeleteRecordsResponse :=
  let v := vnum version in
  let? _ := rassert (v <=? 2) in
  let? throttle_time_ms := rd Int32 in
  let? topics := if 2 <=? v then read_compact_vec version else read_vec version in
  let? tagged_fields := read_when (2 <=? v) (rd TaggedFields) in
  rret (mkDeleteRecordsResponse throttle_time_ms topics tagged_fields).
#[export] Instance DeleteRecordsResponse_ReadVersioned :
  ReadVersionedType DeleteRecordsResponse := DeleteRecordsResponse_read_versioned.

#[export] Instance DeleteRecordsRequest_RequestBody :
    RequestBody DeleteRecordsRequest DeleteRecordsResponse := {
  API_KEY := ApiKeys.DeleteRecords;
  API_VERSION_RANGE := mkApiVersionRange (V 0) (V 2);
  FIRST_TAGGED_FIELD_IN_REQUEST_VERSION := V 2;
  FIRST_TAGGED_FIELD_IN_RESPONSE_VERSION := V 2;
}.

(** ** Laws of the responses

    At the supported versions no response can make its reader panic, and a
    response cut short is an end-of-file error. *)
Section laws.
Context {VC : VarIntCrate} {VO : VarIntCrateOk} {CC : Codecs} {CO : CodecsOk} {prof : Profile}.

#[export] Instance ProduceResponsePartitionResponse_Streaming : StreamingVersioned ProduceResponsePartitionResponse.
Proof. versioned_streaming. Qed.
#[export] Instance ProduceResponsePartitionResponse_NoPanic : NoPanicVersioned ProduceResponsePartitionResponse 0 7.
Proof. versioned_no_panic. Qed.
#[export] Instance ProduceResponseResponse_Streaming : StreamingVersioned ProduceResponseResponse.
Proof. versioned_streaming. Qed.
#[export] Instance ProduceResponseResponse_NoPanic : NoPanicVersioned ProduceResponseResponse 0 7.
Proof. versioned_no_panic. Qed.
#[export] Instance ProduceResponse_Streaming : StreamingVersioned ProduceResponse.
Proof. versioned_streaming. Qed.
#[export] Instance ProduceResponse_NoPanic : NoPanicVersioned ProduceResponse 0 7.
Proof. versioned_no_panic. Qed.
#[export] Instance FetchResponseAbortedTransaction_Streaming : StreamingVersioned FetchResponseAbortedTransaction.
Proof. versioned_streaming. Qed.
#[export] Instance FetchResponseAbortedTransaction_NoPanic : NoPanicVersioned FetchResponseAbortedTransaction 4 4.
Proof. versioned_no_panic. Qed.
#[export] Instance FetchResponsePartition_Streaming : StreamingVersioned FetchResponsePartition.
Proof. versioned_streaming. Qed.
#[export] Instance FetchResponsePartition_NoPanic : NoPanicVersioned FetchResponsePartition 4 4.
Proof. versioned_no_panic. Qed.
#[export] Instance FetchResponseTopic_Streaming : StreamingVersioned FetchResponseTopic.
Proof. versioned_streaming. Qed.
#[export] Instance FetchResponseTopic_NoPanic : NoPanicVersioned FetchResponseTopic 4 4.
Proof. versioned_no_panic. Qed.
#[export] Instance FetchResponse_Streaming : StreamingVersioned FetchResponse.
Proof. versioned_streaming. Qed.
#[export] Instance FetchResponse_NoPanic : NoPanicVersioned FetchResponse 4 4.
Proof. versioned_no_panic. Qed.
#[export] Instance ListOffsetsResponsePartition_Streaming : StreamingVersioned ListOffsetsResponsePartition.
Proof. versioned_streaming. Qed.
#[export] Instance ListOffsetsResponsePartition_NoPanic : NoPanicVersioned ListOffsetsResponsePartition 0 3.
Proof. versioned_no_panic. Qed.
#[export] Instance ListOffsetsResponseTopic_Streaming : StreamingVersioned ListOffsetsResponseTopic.
Proof. versioned_streaming. Qed.
#[export] Instance ListOffsetsResponseTopic_NoPanic : NoPanicVersioned ListOffsetsResponseTopic 0 3.
Proof. versioned_no_panic. Qed.
#[export] Instance ListOffsetsResponse_Streaming : StreamingVersioned ListOffsetsResponse.
Proof. versioned_streaming. Qed.
#[export] Instance ListOffsetsResponse_NoPanic : NoPanicVersioned ListOffsetsResponse 0 3.
Proof. versioned_no_panic. Qed.
#[export] Instance DeleteResponsePartition_Streaming : StreamingVersioned DeleteResponsePartition.
Proof. versioned_streaming. Qed.
#[export] Instance DeleteResponsePartition_NoPanic : NoPanicVersioned DeleteResponsePartition 0 2.
Proof. versioned_no_panic. Qed.
#[export] Instance DeleteResponseTopic_Streaming : StreamingVersioned DeleteResponseTopic.
Proof. versioned_streaming. Qed.
#[export] Instance DeleteResponseTopic_NoPanic : NoPanicVersioned DeleteResponseTopic 0 2.
Proof. versioned_no_panic. Qed.
#[export] Instance DeleteRecordsResponse_Streaming : StreamingVersioned DeleteRecordsResponse.
Proof. versioned_streaming. Qed.
#[export] Instance DeleteRecordsResponse_NoPanic : NoPanicVersioned DeleteRecordsResponse 0 2.
Proof. versioned_no_panic. Qed.
End laws.
