(* ===== verification/TopicMessages.v ===== *)
(** * Messages about topics (src/protocol/messages/metadata.rs, create_topics.rs,
      delete_topics.rs) *)

From Stdlib Require Import ZArith Lia.
From stdpp Require Import base list numbers strings.
From S2P Require Import Prelude Bytes Wire VecBuilder Varint Primitives PrimitiveLaws ApiKey.
From S2P Require Import ErrorCode Versioned.

Local Open Scope Z_scope.
Local Open Scope rust_scope.

(** [o.is_some()] *)
Definition is_some {A} (o : option A) : bool := match o with Some _ => true | None => false end.

(** ** Metadata *)
Record MetadataRequestTopic : Type := mkMetadataRequestTopic { mrt_name : String_ }.
Record MetadataRequest : Type := mkMetadataRequest {
  mreq_topics : option (list MetadataRequestTopic);
  allow_auto_topic_creation : option Boolean;
}.
Record MetadataResponseBroker : Type := mkMetadataResponseBroker {
  node_id : Int32;
  host : String_;
  port : Int32;
  rack : option NullableString;
}.
Record MetadataResponsePartition : Type := mkMetadataResponsePartition {
  mp_error : option Errors.Error;
  mp_partition_index : Int32;
  leader_id : Int32;
  replica_nodes : Array Int32;
  isr_nodes : Array Int32;
}.
Record MetadataResponseTopic : Type := mkMetadataResponseTopic {
  mt_error : option Errors.Error;
  mt_name : String_;
  is_internal : option Boolean;
  mt_partitions : list MetadataResponsePartition;
}.
Record MetadataResponse : Type := mkMetadataResponse {
  mresp_throttle_time_ms : option Int32;
  brokers : list MetadataResponseBroker;
  cluster_id : option NullableString;
  controller_id : option Int32;
  mresp_topics : list MetadataResponseTopic;
}.

Definition MetadataRequestTopic_write_versioned (version : ApiVersion) (x : MetadataRequestTopic) :
    writer WriteVersionedError :=
  let! _ := oassert (vnum version <=? 4) in
  wr (mrt_name x).
#[export] Instance MetadataRequestTopic_WriteVersioned :
  WriteVersionedType MetadataRequestTopic := MetadataRequestTopic_write_versioned.

Definition MetadataRequest_write_versioned (version : ApiVersion) (x : MetadataRequest) :
    writer WriteVersionedError :=
  let v := vnum version in
  let! _ := oassert (v <=? 4) in
  if (v <? 4) && is_some (allow_auto_topic_creation x)
  then Err (FieldNotAvailable "allow_auto_topic_creation" version)
  else
    write_versioned_array version (mreq_topics x) ;+
    write_when (4 <=? v) (wr_or (mkBoolean true) (allow_auto_topic_creation x)).
#[export] Instance MetadataRequest_WriteVersioned :
  WriteVersionedType MetadataRequest := MetadataRequest_write_versioned.

Definition MetadataResponseBroker_read_versioned (version : ApiVersion) :
    reader ReadVersionedError MetadataResponseBroker :=
  let v := vnum version in
  let? _ := rassert (v <=? 4) in
  let? node_id := rd Int32 in
  let? host := rd String_ in
  let? port := rd Int32 in
  let? rack := read_when (1 <=? v) (rd NullableString) in
  rret (mkMetadataResponseBroker node_id host port rack).
#[export] Instance MetadataResponseBroker_ReadVersioned :
  ReadVersionedType MetadataResponseBroker := MetadataResponseBroker_read_versioned.

Definition MetadataResponsePartition_read_versioned (version : ApiVersion) :
    reader ReadVersionedError MetadataResponsePartition :=
  let v := vnum version in
  let? _ := rassert (v <=? 4) in
  let? error := rd Int16 in
  let? partition_index := rd Int32 in
  let? leader_id := rd Int32 in
  let? replica_nodes := rd (Array Int32) in
  let? isr_nodes := rd (Array Int32) in
  rret (mkMetadataResponsePartition (Error_new (int16 error)) partition_index leader_id
          replica_nodes isr_nodes).
#[export] Instance MetadataResponsePartition_ReadVersioned :
  ReadVersionedType MetadataResponsePartition := MetadataResponsePartition_read_versioned.

Definition MetadataResponseTopic_read_versioned (version : ApiVersion) :
    reader ReadVersionedError MetadataResponseTopic :=
  let v := vnum version in
  let? _ := rassert (v <=? 4) in
  let? error := rd Int16 in
  let? name := rd String_ in
  let? is_internal := read_when (1 <=? v) (rd Boolean) in
  let? partitions := read_vec version in
  rret (mkMetadataResponseTopic (Error_new (int16 error)) name is_internal partitions).
#[export] Instance MetadataResponseTopic_ReadVersioned :
  ReadVersionedType MetadataResponseTopic := MetadataResponseTopic_read_versioned.

Definition MetadataResponse_read_versioned (version : ApiVersion) :
    reader ReadVersionedError MetadataResponse :=
  let v := vnum version in
  let? _ := rassert (v <=? 4) in
  let? throttle_time_ms := read_when (3 <=? v) (rd Int32) in
  let? brokers := read_vec version in
  let? cluster_id := read_when (2 <=? v) (rd NullableString) in
  let? controller_id := read_when (1 <=? v) (rd Int32) in
  let? topics := read_vec version in
  rret (mkMetadataResponse throttle_time_ms brokers cluster_id controller_id topics).
#[export] Instance MetadataResponse_ReadVersioned :
  ReadVersionedType MetadataResponse := MetadataResponse_read_versioned.

#[export] Instance MetadataRequest_RequestBody : RequestBody MetadataRequest MetadataResponse := {
  API_KEY := ApiKeys.Metadata;
  API_VERSION_RANGE := mkApiVersionRange (V 0) (V 4);
  FIRST_TAGGED_FIELD_IN_REQUEST_VERSION := V 9;
  FIRST_TAGGED_FIELD_IN_RESPONSE_VERSION := V 9;
}.

(** ** CreateTopics *)
Record CreateTopicAssignment : Type := mkCreateTopicAssignment {
  cta_partition_index : Int32;
  broker_ids : Array Int32;
  cta_tagged_fields : option TaggedFields;
}.
Record CreateTopicConfig : Type := mkCreateTopicConfig {
  ctc_name : String_;
  ctc_value : NullableString;
  ctc_tagged_fields : option TaggedFields;
}.
Record CreateTopicRequest : Type := mkCreateTopicRequest {
  ctr_name : String_;
  ctr_num_partitions : Int32;
  ctr_replication_factor : Int16;
  assignments : list CreateTopicAssignment;
  ctr_configs : list CreateTopicConfig;
  ctr_tagged_fields : option TaggedFields;
}.
Record CreateTopicsRequest : Type := mkCreateTopicsRequest {
  ct_topics : list CreateTopicRequest;
  ct_timeout_ms : Int32;
  validate_only : option Boolean;
  ct_tagged_fields : option TaggedFields;
}.
Record CreateTopicResponseConfig : Type := mkCreateTopicResponseConfig {
  crc_name : CompactString;
  crc_value : CompactNullableString;
  read_only : Boolean;
  config_source : Int8;
  is_sensitive : Boolean;
  crc_tagged_fields : TaggedFields;
}.
Record CreateTopicResponse : Type := mkCreateTopicResponse {
  cts_name : String_;
  cts_error : option Errors.Error;
  cts_error_message : option NullableString;
  cts_num_partitions : option Int32;
  cts_replication_factor : option Int16;
  cts_configs : list CreateTopicResponseConfig;
  cts_tagged_fields : option TaggedFields;
}.
Record CreateTopicsResponse : Type := mkCreateTopicsResponse {
  ctresp_throttle_time_ms : option Int32;
  ctresp_topics : list CreateTopicResponse;
  ctresp_tagged_fields : option TaggedFields;
}.

Definition CreateTopicAssignment_write_versioned (version : ApiVersion) (x : CreateTopicAssignment) :
    writer WriteVersionedError :=
  let v := vnum version in
  let! _ := oassert (v <=? 5) in
  wr (cta_partition_index x) ;+
  (if 5 <=? v then omap_err WVWriteError (CompactArrayRef_write write (array_0 (broker_ids x)))
   else wr (broker_ids x)) ;+
  write_when (5 <=? v) (wr_or TaggedFields_default (cta_tagged_fields x)).
#[export] Instance CreateTopicAssignment_WriteVersioned :
  WriteVersionedType CreateTopicAssignment := CreateTopicAssignment_write_versioned.

Definition CreateTopicConfig_write_versioned (version : ApiVersion) (x : CreateTopicConfig) :
    writer WriteVersionedError :=
  let v := vnum version in
  let! _ := oassert (v <=? 5) in
  (if 5 <=? v then omap_err WVWriteError (CompactStringRef_write (string_ (ctc_name x)))
   else wr (ctc_name x)) ;+
  (if 5 <=? v
   then omap_err WVWriteError (CompactNullableStringRef_write (nullable_string (ctc_value x)))
   else wr (ctc_value x)) ;+
  write_when (5 <=? v) (wr_or TaggedFields_default (ctc_tagged_fields x)).
#[export] Instance CreateTopicConfig_WriteVersioned :
  WriteVersionedType CreateTopicConfig := CreateTopicConfig_write_versioned.

Definition CreateTopicRequest_write_versioned (version : ApiVersion) (x : CreateTopicRequest) :
    writer WriteVersionedError :=
  let v := vnum version in
  let! _ := oassert (v <=? 5) in
  (if 5 <=? v then omap_err WVWriteError (CompactStringRef_write (string_ (ctr_name x)))
   else wr (ctr_name x)) ;+
  wr (ctr_num_partitions x) ;+
  wr (ctr_replication_factor x) ;+
  (if 5 <=? v then write_compact_versioned_array version (Some (assignments x))
   else write_versioned_array version (Some (assignments x))) ;+
  (if 5 <=? v then write_compact_versioned_array version (Some (ctr_configs x))
   else write_versioned_array version (Some (ctr_configs x))) ;+
  write_when (5 <=? v) (wr_or TaggedFields_default (ctr_tagged_fields x)).
#[export] Instance CreateTopicRequest_WriteVersioned :
  WriteVersionedType CreateTopicRequest := CreateTopicRequest_write_versioned.

Definition CreateTopicsRequest_write_versioned (version : ApiVersion) (x : CreateTopicsRequest) :
    writer WriteVersionedError :=
  let v := vnum version in
  let! _ := oassert (v <=? 5) in
  if is_some (validate_only x) && (v <? 1)
  then Err (FieldNotAvailable "validate_only" version)
  else
    (if 5 <=? v then write_compact_versioned_array version (Some (ct_topics x))
     else write_versioned_array version (Some (ct_topics x))) ;+
    wr (ct_timeout_ms x) ;+
    write_when (1 <=? v) (wr_or (mkBoolean false) (validate_only x)) ;+
    write_when (5 <=? v) (wr_or TaggedFields_default (ct_tagged_fields x)).
#[export] Instance CreateTopicsRequest_WriteVersioned :
  WriteVersionedType CreateTopicsRequest := CreateTopicsRequest_write_versioned.

Definition CreateTopicResponseConfig_read_versioned (version : ApiVersion) :
    reader ReadVersionedError CreateTopicResponseConfig :=
  let v := vnum version in
  let? _ := rassert (v =? 5) in
  let? name := rd CompactString in
  let? value := rd CompactNullableString in
  let? read_only := rd Boolean in
  let? config_source := rd Int8 in
  let? is_sensitive := rd Boolean in
  let? tagged_fields := rd TaggedFields in
  rret (mkCreateTopicResponseConfig name value read_only config_source is_sensitive tagged_fields).
#[export] Instance CreateTopicResponseConfig_ReadVersioned :
  ReadVersionedType CreateTopicResponseConfig := CreateTopicResponseConfig_read_versioned.

(** The error message: compact from version 5 on. *)
Definition read_error_message (compact : bool) : reader ReadVersionedError NullableString :=
  if compact
  then let? s := rd CompactNullableString in rret (mkNullableString (compact_nullable_string s))
  else rd NullableString.

Definition CreateTopicResponse_read_versioned (version : ApiVersion) :
    reader ReadVersionedError CreateTopicResponse :=
  let v := vnum version in
  let? _ := rassert (v <=? 5) in
  let? name := read_name (5 <=? v) in
  let? error := rd Int16 in
  let? error_message := read_when (1 <=? v) (read_error_message (5 <=? v)) in
  let? num_partitions := read_when (5 <=? v) (rd Int32) in
  let? replication_factor := read_when (5 <=? v) (rd Int16) in
  let? configs := read_when (5 <=? v) (read_compact_versioned_array version) in
  let? tagged_fields := read_when (5 <=? v) (rd TaggedFields) in
  rret (mkCreateTopicResponse name (Error_new (int16 error)) error_message num_partitions
          replication_factor (default [] (mjoin configs)) tagged_fields).
#[export] Instance CreateTopicResponse_ReadVersioned :
  ReadVersionedType CreateTopicResponse := CreateTopicResponse_read_versioned.

Definition CreateTopicsResponse_read_versioned (version : ApiVersion) :
    reader ReadVersionedError CreateTopicsResponse :=
  let v := vnum version in
  let? _ := rassert (v <=? 5) in
  let? throttle_time_ms := read_when (2 <=? v) (rd Int32) in
  let? topics := if 5 <=? v then read_compact_vec version else read_vec version in
  let? tagged_fields := read_when (5 <=? v) (rd TaggedFields) in
  rret (mkCreateTopicsResponse throttle_time_ms topics tagged_fields).
#[export] Instance CreateTopicsResponse_ReadVersioned :
  ReadVersionedType CreateTopicsResponse := CreateTopicsResponse_read_versioned.

#[export] Instance CreateTopicsRequest_RequestBody :
    RequestBody CreateTopicsRequest CreateTopicsResponse := {
  API_KEY := ApiKeys.CreateTopics;
  API_VERSION_RANGE := mkApiVersionRange (V 0) (V 5);
  FIRST_TAGGED_FIELD_IN_REQUEST_VERSION := V 5;
  FIRST_TAGGED_FIELD_IN_RESPONSE_VERSION := V 5;
}.

(** ** DeleteTopics *)
Record DeleteTopicsRequest : Type := mkDeleteTopicsRequest {
  topic_names : Array String_;
  dt_timeout_ms : Int32;
  dt_tagged_fields : option TaggedFields;
}.
Record DeleteTopicsResponseTopic : Type := mkDeleteTopicsResponseTopic {
  dtt_name : String_;
  dtt_error : option Errors.Error;
  dtt_error_message : option CompactNullableString;
  dtt_tagged_fields : option TaggedFields;
}.
Record DeleteTopicsResponse : Type := mkDeleteTopicsResponse {
  dtresp_throttle_time_ms : option Int32;
  dt_responses : list DeleteTopicsResponseTopic;
  dtresp_tagged_fields : option TaggedFields;
}.

Definition DeleteTopicsRequest_write_versioned (version : ApiVersion) (x : DeleteTopicsRequest) :
    writer WriteVersionedError :=
  let v := vnum version in
  let! _ := oassert (v <=? 5) in
  (if 4 <=? v
   then omap_err WVWriteError
          (match array_0 (topic_names x) with
           | Some names => CompactArrayRef_write CompactStringRef_write (Some (map string_ names))
           | None => CompactArrayRef_write CompactStringRef_write None
           end)
   else wr (topic_names x)) ;+
  wr (dt_timeout_ms x) ;+
  write_when (4 <=? v) (wr_or TaggedFields_default (dt_tagged_fields x)).
#[export] Instance DeleteTopicsRequest_WriteVersioned :
  WriteVersionedType DeleteTopicsRequest := DeleteTopicsRequest_write_versioned.

Definition DeleteTopicsResponseTopic_read_versioned (version : ApiVersion) :
    reader ReadVersionedError DeleteTopicsResponseTopic :=
  let v := vnum version in
  let? _ := rassert (v <=? 5) in
  let? name := read_name (4 <=? v) in
  let? error := rd Int16 in
  let? error_message := read_when (5 <=? v) (rd CompactNullableString) in
  let? tagged_fields := read_when (4 <=? v) (rd TaggedFields) in
  rret (mkDeleteTopicsResponseTopic name (Error_new (int16 error)) error_message tagged_fields).
#[export] Instance DeleteTopicsResponseTopic_ReadVersioned :
  ReadVersionedType DeleteTopicsResponseTopic := DeleteTopicsResponseTopic_read_versioned.

Definition DeleteTopicsResponse_read_versioned (version : ApiVersion) :
    reader ReadVersionedError DeleteTopicsResponse :=
  let v := vnum version in
  let? _ := rassert (v <=? 5) in
  let? throttle_time_ms := read_when (1 <=? v) (rd Int32) in
  let? responses := if 4 <=? v then read_compact_vec version else read_vec version in
  let? tagged_fields := read_when (4 <=? v) (rd TaggedFields) in
  rret (mkDeleteTopicsResponse throttle_time_ms responses tagged_fields).
#[export] Instance DeleteTopicsResponse_ReadVersioned :
  ReadVersionedType DeleteTopicsResponse := DeleteTopicsResponse_read_versioned.

#[export] Instance DeleteTopicsRequest_RequestBody :
    RequestBody DeleteTopicsRequest DeleteTopicsResponse := {
  API_KEY := ApiKeys.DeleteTopics;
  API_VERSION_RANGE := mkApiVersionRange (V 0) (V 5);
  FIRST_TAGGED_FIELD_IN_REQUEST_VERSION := V 4;
  FIRST_TAGGED_FIELD_IN_RESPONSE_VERSION := V 4;
}.

(** ** Laws of the responses *)
Lemma streaming_error_message c : streaming (read_error_message c).
Proof.
  unfold read_error_message. destruct c; [|auto with streaming].
  apply streaming_bind; auto with streaming.
Qed.
Lemma no_panic_error_message c : no_panic (read_error_message c).
Proof.
  unfold read_error_message. destruct c; [|auto with streaming].
  apply no_panic_bind; auto with streaming.
Qed.
#[export] Hint Resolve streaming_error_message no_panic_error_message : streaming.

#[export] Instance MetadataResponseBroker_Streaming : StreamingVersioned MetadataResponseBroker.
Proof. versioned_streaming. Qed.
#[export] Instance MetadataResponseBroker_NoPanic : NoPanicVersioned MetadataResponseBroker 0 4.
Proof. versioned_no_panic. Qed.
#[export] Instance MetadataResponsePartition_Streaming : StreamingVersioned MetadataResponsePartition.
Proof. versioned_streaming. Qed.
#[export] Instance MetadataResponsePartition_NoPanic : NoPanicVersioned MetadataResponsePartition 0 4.
Proof. versioned_no_panic. Qed.
#[export] Instance MetadataResponseTopic_Streaming : StreamingVersioned MetadataResponseTopic.
Proof. versioned_streaming. Qed.
#[export] Instance MetadataResponseTopic_NoPanic : NoPanicVersioned MetadataResponseTopic 0 4.
Proof. versioned_no_panic. Qed.
#[export] Instance MetadataResponse_Streaming : StreamingVersioned MetadataResponse.
Proof. versioned_streaming. Qed.
#[export] Instance MetadataResponse_NoPanic : NoPanicVersioned MetadataResponse 0 4.
Proof. versioned_no_panic. Qed.
#[export] Instance CreateTopicResponseConfig_Streaming : StreamingVersioned CreateTopicResponseConfig.
Proof. versioned_streaming. Qed.
#[export] Instance CreateTopicResponseConfig_NoPanic : NoPanicVersioned CreateTopicResponseConfig 5 5.
Proof. versioned_no_panic. Qed.
#[export] Instance CreateTopicResponse_Streaming : StreamingVersioned CreateTopicResponse.
Proof. versioned_streaming. Qed.
#[export] Instance CreateTopicResponse_NoPanic : NoPanicVersioned CreateTopicResponse 0 5.
Proof. versioned_no_panic. Qed.
#[export] Instance CreateTopicsResponse_Streaming : StreamingVersioned CreateTopicsResponse.
Proof. versioned_streaming. Qed.
#[export] Instance CreateTopicsResponse_NoPanic : NoPanicVersioned CreateTopicsResponse 0 5.
Proof. versioned_no_panic. Qed.
#[export] Instance DeleteTopicsResponseTopic_Streaming : StreamingVersioned DeleteTopicsResponseTopic.
Proof. versioned_streaming. Qed.
#[export] Instance DeleteTopicsResponseTopic_NoPanic : NoPanicVersioned DeleteTopicsResponseTopic 0 5.
Proof. versioned_no_panic. Qed.
#[export] Instance DeleteTopicsResponse_Streaming : StreamingVersioned DeleteTopicsResponse.
Proof. versioned_streaming. Qed.
#[export] Instance DeleteTopicsResponse_NoPanic : NoPanicVersioned DeleteTopicsResponse 0 5.
Proof. versioned_no_panic. Qed.
