(* ===== verification/SaslMessages.v ===== *)
(** * SASL messages (src/protocol/messages/sasl_msg.rs) *)

From Stdlib Require Import ZArith Lia.
From stdpp Require Import base list numbers.
From S2P Require Import Prelude Bytes Wire VecBuilder Varint Primitives PrimitiveLaws ApiKey.
From S2P Require Import ErrorCode Versioned.

Local Open Scope Z_scope.
Local Open Scope rust_scope.

Record SaslHandshakeRequest : Type := mkSaslHandshakeRequest { mechanism : String_ }.
Record SaslHandshakeResponse : Type := mkSaslHandshakeResponse {
  handshake_error_code : option Errors.Error;
  mechanisms : Array String_;
}.
Record SaslAuthenticateRequest : Type := mkSaslAuthenticateRequest {
  auth_bytes : Bytes;
  sar_tagged_fields : option TaggedFields;
}.
Record SaslAuthenticateResponse : Type := mkSaslAuthenticateResponse {
  sas_error_code : option Errors.Error;
  sas_error_message : NullableString;
  sas_auth_bytes : Bytes;
  session_lifetime_ms : option Int64;
  sas_tagged_fields : option TaggedFields;
}.

(** [SaslHandshakeRequest::new] and [SaslAuthenticateRequest::new]. *)
Definition SaslHandshakeRequest_new (mechanism : rstring) : SaslHandshakeRequest :=
  mkSaslHandshakeRequest (mkString_ mechanism).
Definition SaslAuthenticateRequest_new (auth_bytes : list byte) : SaslAuthenticateRequest :=
  mkSaslAuthenticateRequest (mkBytes auth_bytes) (Some TaggedFields_default).

Definition SaslHandshakeRequest_read_versioned (version : ApiVersion) :
    reader ReadVersionedError SaslHandshakeRequest :=
  let v := vnum version in
  let? _ := rassert (v =? 1) in
  let? mechanism := rd String_ in
  rret (mkSaslHandshakeRequest mechanism).
#[export] Instance SaslHandshakeRequest_ReadVersioned :
  ReadVersionedType SaslHandshakeRequest := SaslHandshakeRequest_read_versioned.

Definition SaslHandshakeRequest_write_versioned (version : ApiVersion) (x : SaslHandshakeRequest) :
    writer WriteVersionedError :=
  let v := vnum version in
  let! _ := oassert (v =? 1) in
  wr (mechanism x).
#[export] Instance SaslHandshakeRequest_WriteVersioned :
  WriteVersionedType SaslHandshakeRequest := SaslHandshakeRequest_write_versioned.

Definition SaslHandshakeResponse_read_versioned (version : ApiVersion) :
    reader ReadVersionedError SaslHandshakeResponse :=
  let v := vnum version in
  let? _ := rassert (v =? 1) in
  let? error_code := rd Int16 in
  let? mechanisms := rd (Array String_) in
  rret (mkSaslHandshakeResponse (Error_new (int16 error_code)) mechanisms).
#[export] Instance SaslHandshakeResponse_ReadVersioned :
  ReadVersionedType SaslHandshakeResponse := SaslHandshakeResponse_read_versioned.

(** The two responses "write" nothing. *)
Definition SaslHandshakeResponse_write_versioned (version : ApiVersion) (x : SaslHandshakeResponse) :
    writer WriteVersionedError := wnil.
#[export] Instance SaslHandshakeResponse_WriteVersioned :
  WriteVersionedType SaslHandshakeResponse := SaslHandshakeResponse_write_versioned.
Definition SaslAuthenticateResponse_write_versioned (version : ApiVersion)
    (x : SaslAuthenticateResponse) : writer WriteVersionedError := wnil.
#[export] Instance SaslAuthenticateResponse_WriteVersioned :
  WriteVersionedType SaslAuthenticateResponse := SaslAuthenticateResponse_write_versioned.

Definition SaslAuthenticateRequest_write_versioned (version : ApiVersion)
    (x : SaslAuthenticateRequest) : writer WriteVersionedError :=
  let v := vnum version in
  let! _ := oassert (v <=? 2) in
  if (v =? 0) || (v =? 1) then wr (auth_bytes x)
  else
    omap_err WVWriteError (CompactBytesRef_write (bytes_0 (auth_bytes x))) ;+
    wr_or TaggedFields_default (sar_tagged_fields x).
#[export] Instance SaslAuthenticateRequest_WriteVersioned :
  WriteVersionedType SaslAuthenticateRequest := SaslAuthenticateRequest_write_versioned.

Section readers.
Context {prof : Profile}.

Definition SaslAuthenticateRequest_read_versioned (version : ApiVersion) :
    reader ReadVersionedError SaslAuthenticateRequest :=
  let v := vnum version in
  let? _ := rassert (v <=? 2) in
  if (v =? 0) || (v =? 1) then
    let? bs := rd Bytes in rret (SaslAuthenticateRequest_new (bytes_0 bs))
  else
    let? bs := rd CompactBytes in
    let? tagged_fields := rd TaggedFields in
    rret (mkSaslAuthenticateRequest (mkBytes (compact_bytes bs)) (Some tagged_fields)).
#[export] Instance SaslAuthenticateRequest_ReadVersioned :
  ReadVersionedType SaslAuthenticateRequest := SaslAuthenticateRequest_read_versioned.

Definition SaslAuthenticateResponse_read_versioned (version : ApiVersion) :
    reader ReadVersionedError SaslAuthenticateResponse :=
  let v := vnum version in
  let? _ := rassert (v <=? 2) in
  if v =? 0 then
    let? error_code := rd Int16 in
    let? error_message := rd NullableString in
    let? auth_bytes := rd Bytes in
    rret (mkSaslAuthenticateResponse (Error_new (int16 error_code)) error_message auth_bytes None None)
  else if v =? 1 then
    let? error_code := rd Int16 in
    let? error_message := rd NullableString in
    let? auth_bytes := rd Bytes in
    let? session_lifetime_ms := rd Int64 in
    rret (mkSaslAuthenticateResponse (Error_new (int16 error_code)) error_message auth_bytes
            (Some session_lifetime_ms) None)
  else
    let? error_code := rd Int16 in
    let? error_message := rd CompactNullableString in
    let? auth_bytes := rd CompactBytes in
    let? session_lifetime_ms := rd Int64 in
    let? tagged_fields := rd TaggedFields in
    rret (mkSaslAuthenticateResponse (Error_new (int16 error_code))
            (mkNullableString (compact_nullable_string error_message))
            (mkBytes (compact_bytes auth_bytes)) (Some session_lifetime_ms) (Some tagged_fields)).
#[export] Instance SaslAuthenticateResponse_ReadVersioned :
  ReadVersionedType SaslAuthenticateResponse := SaslAuthenticateResponse_read_versioned.
End readers.

#[export] Instance SaslHandshakeRequest_RequestBody :
    RequestBody SaslHandshakeRequest SaslHandshakeResponse := {
  API_KEY := ApiKeys.SaslHandshake;
  API_VERSION_RANGE := mkApiVersionRange (V 1) (V 1);
  FIRST_TAGGED_FIELD_IN_REQUEST_VERSION := V 3;
  FIRST_TAGGED_FIELD_IN_RESPONSE_VERSION := V 3;
}.
#[export] Instance SaslAuthenticateRequest_RequestBody :
    RequestBody SaslAuthenticateRequest SaslAuthenticateResponse := {
  API_KEY := ApiKeys.SaslAuthenticate;
  API_VERSION_RANGE := mkApiVersionRange (V 0) (V 2);
  FIRST_TAGGED_FIELD_IN_REQUEST_VERSION := V 2;
  FIRST_TAGGED_FIELD_IN_RESPONSE_VERSION := V 2;
}.

(** ** Laws *)
#[export] Instance SaslHandshakeRequest_WellFormed : WellFormed SaslHandshakeRequest :=
  fun x => wf (mechanism x).
#[export] Instance SaslAuthenticateRequest_WellFormed : WellFormed SaslAuthenticateRequest :=
  fun x => from_option wf True (sar_tagged_fields x).

Definition SaslAuthenticateRequest_norm (version : ApiVersion) (x : SaslAuthenticateRequest) :=
  let v := vnum version in
  mkSaslAuthenticateRequest (auth_bytes x)
    (Some (if (v =? 0) || (v =? 1) then TaggedFields_default
           else default TaggedFields_default (sar_tagged_fields x))).

Lemma SaslHandshakeRequest_round_trip :
  versioned_round_trip wf (fun _ (x : SaslHandshakeRequest) => x).
Proof.
  intros version [m] bs s Hm Hw.
  unfold write_versioned, SaslHandshakeRequest_WriteVersioned, SaslHandshakeRequest_write_versioned in Hw.
  unfold read_versioned, SaslHandshakeRequest_ReadVersioned, SaslHandshakeRequest_read_versioned.
  cbv zeta in Hw |- *. destruct (vnum version =? 1) eqn:Hle; [|done]. simpl in Hw.
  erewrite rbind_run by done. by erewrite run_rd by (first [eassumption|done]).
Qed.

Section laws.
Context {prof : Profile}.

Lemma SaslAuthenticateRequest_round_trip : versioned_round_trip wf SaslAuthenticateRequest_norm.
Proof.
  intros version [[a] t] bs s Ht Hw.
  unfold write_versioned, SaslAuthenticateRequest_WriteVersioned,
    SaslAuthenticateRequest_write_versioned in Hw.
  unfold read_versioned, SaslAuthenticateRequest_ReadVersioned,
    SaslAuthenticateRequest_read_versioned.
  unfold SaslAuthenticateRequest_norm. cbv zeta in Hw |- *.
  destruct (vnum version <=? 2) eqn:Hle; [|done]. simpl in Hw. erewrite rbind_run by done.
  destruct ((vnum version =? 0) || (vnum version =? 1)); simpl in Hw.
  - by erewrite run_rd by (first [eassumption|done]).
  - apply wseq_ok in Hw as (b1 & b2 & Hw1 & Hw2 & ->). rewrite src_app_app.
    change (wr (mkCompactBytes a) = Ok b1) in Hw1. unfold wr_or in Hw2.
    erewrite run_rd by (first [eassumption|done]).
    erewrite run_rd; [|eassumption|by destruct t; [exact Ht|apply TaggedFields_default_wf]].
    done.
Qed.

#[export] Instance SaslHandshakeResponse_Streaming : StreamingVersioned SaslHandshakeResponse.
Proof. versioned_streaming. Qed.
#[export] Instance SaslHandshakeResponse_NoPanic : NoPanicVersioned SaslHandshakeResponse 1 1.
Proof. versioned_no_panic. Qed.
#[export] Instance SaslAuthenticateResponse_Streaming : StreamingVersioned SaslAuthenticateResponse.
Proof. versioned_streaming. Qed.

(** Before version 2 the response has no compact bytes, and cannot panic. *)
#[export] Instance SaslAuthenticateResponse_NoPanic : NoPanicVersioned SaslAuthenticateResponse 0 1.
Proof.
  intros version Hversion. unfold_reader. cbv zeta.
  apply no_panic_bind; [apply no_panic_rassert; solve_version|]. intros _.
  destruct (Z.eqb_spec (vnum version) 0).
  - repeat (apply no_panic_bind; [auto with streaming|intros ?]). auto with streaming.
  - destruct (Z.eqb_spec (vnum version) 1); [|lia].
    repeat (apply no_panic_bind; [auto with streaming|intros ?]). auto with streaming.
Qed.
End laws.
