(* ===== verification/MessageProps.v ===== *)
(** * Properties of the messages (src/protocol/messages, api_key.rs, error.rs) *)

From Stdlib Require Import ZArith Lia.
From stdpp Require Import base list numbers strings.
From S2P Require Import Prelude Bytes Wire VecBuilder Varint Primitives PrimitiveLaws Record.
From S2P Require Import Codec RecordBatch RefCrates ApiKey ErrorCode Versioned Header ApiVersionsMsg.
From S2P Require Import DataMessages TopicMessages SaslMessages.

Local Open Scope Z_scope.
Local Open Scope rust_scope.

#[local] Existing Instance debug_profile.

(** ** Writers that only fail for reasons of their own data *)
Definition fields_available (w : writer WriteVersionedError) : Prop :=
  forall f v, w <> Err (FieldNotAvailable f v).

Lemma available_wr {A} `{WriteType A} (x : A) : fields_available (wr x).
Proof. intros f v. unfold wr. by destruct (write x). Qed.

Lemma available_seq a b : fields_available a -> fields_available b -> fields_available (a ;+ b).
Proof.
  intros Ha Hb f v. unfold wseq. specialize (Ha f v). specialize (Hb f v).
  destruct a; simpl; [|congruence|done]. destruct b; simpl; [done|congruence|done].
Qed.

Lemma available_many {A} (w : A -> writer WriteVersionedError) l :
  (forall x, fields_available (w x)) -> fields_available (write_many w l).
Proof. intros Hw. induction l as [|x l IH]; [by intros f v|]. by apply available_seq. Qed.

Lemma available_array {A} `{WriteVersionedType A} version o :
  (forall x : A, fields_available (write_versioned version x)) ->
  fields_available (write_versioned_array version o).
Proof.
  intros Hw. destruct o as [l|]; [|apply available_wr]. intros f v. simpl.
  destruct (signed_try_from 32 (zlen l)); simpl; [|done].
  by apply available_seq; [apply available_wr|apply available_many].
Qed.

Lemma metadata_topics_available version m b o :
  fields_available (write_versioned_array (T:=MetadataRequestTopic) version m ;+
                    write_when b (wr_or (mkBoolean true) o)).
Proof.
  apply available_seq.
  - apply available_array. intros x f v. unfold write_versioned, MetadataRequestTopic_WriteVersioned,
      MetadataRequestTopic_write_versioned. destruct (vnum version <=? 4); [|done]. apply available_wr.
  - destruct b; [apply available_wr|by intros f v].
Qed.

(** ** Codes *)

(** Converting a code of the wire to an [ApiKey] and back is the
    identity for every code, and so is the other direction for every key
    [ApiKey::from] can produce; likewise for the error codes, where 0 is the
    absence of an error. *)
Theorem code_conversions :
  (forall code, Int16_from_ApiKey (ApiKey_from_Int16 code) = code) /\
  (forall code, in_signed 16 (int16 code) ->
     ApiKey_from_Int16 (Int16_from_ApiKey (ApiKey_from_Int16 code)) = ApiKey_from_Int16 code) /\
  (forall code, Int16_from_Error (Error_new code) = mkInt16 code) /\
  (forall code, Error_new code = None <-> code = 0).
Proof.
  split; [apply Int16_of_ApiKey_of_Int16|]. split.
  { intros code _. by rewrite Int16_of_ApiKey_of_Int16. }
  split; [apply Int16_of_Error_new|]. intros code. split; [|by intros ->].
  intros H. pose proof (Int16_of_Error_new code) as Hc. rewrite H in Hc. simpl in Hc. congruence.
Qed.

(** ** Round trips *)

(** The messages that the crate can both write and read come back as they
    were, up to the fields the version does not have ([..._norm]): request and
    response headers, ApiVersions requests and responses, and the two SASL
    requests. *)
Theorem versioned_messages_round_trip {prof : Profile} :
  versioned_round_trip wf RequestHeader_norm /\
  versioned_round_trip wf ResponseHeader_norm /\
  versioned_round_trip wf ApiVersionsRequest_norm /\
  versioned_round_trip wf ApiVersionsResponse_norm /\
  versioned_round_trip wf (fun _ (x : SaslHandshakeRequest) => x) /\
  versioned_round_trip wf SaslAuthenticateRequest_norm.
Proof.
  split; [exact RequestHeader_round_trip|]. split; [exact ResponseHeader_round_trip|].
  split; [exact ApiVersionsRequest_round_trip|]. split; [exact ApiVersionsResponse_round_trip|].
  split; [exact SaslHandshakeRequest_round_trip|exact SaslAuthenticateRequest_round_trip].
Qed.

(** ** Responses *)

(** No response of a broker makes the client panic at the versions it
    negotiates: for each request type the reader of its response is total at
    every version of the request's range ([SaslAuthenticateResponse] at its
    versions without compact bytes). *)
Theorem responses_never_panic `{VarIntCrateOk, CodecsOk} {prof : Profile} version :
  (in_range (mkApiVersionRange (V 0) (V 1)) version -> no_panic (read_versioned (A:=ResponseHeader) version)) /\
  (in_range (API_VERSION_RANGE (Req:=ApiVersionsRequest)) version ->
     no_panic (read_versioned (A:=ApiVersionsResponse) version)) /\
  (in_range (API_VERSION_RANGE (Req:=ProduceRequest)) version ->
     no_panic (read_versioned (A:=ProduceResponse) version)) /\
  (in_range (API_VERSION_RANGE (Req:=FetchRequest)) version ->
     no_panic (read_versioned (A:=FetchResponse) version)) /\
  (in_range (API_VERSION_RANGE (Req:=ListOffsetsRequest)) version ->
     no_panic (read_versioned (A:=ListOffsetsResponse) version)) /\
  (in_range (API_VERSION_RANGE (Req:=DeleteRecordsRequest)) version ->
     no_panic (read_versioned (A:=DeleteRecordsResponse) version)) /\
  (in_range (API_VERSION_RANGE (Req:=MetadataRequest)) version ->
     no_panic (read_versioned (A:=MetadataResponse) version)) /\
  (in_range (API_VERSION_RANGE (Req:=CreateTopicsRequest)) version ->
     no_panic (read_versioned (A:=CreateTopicsResponse) version)) /\
  (in_range (API_VERSION_RANGE (Req:=DeleteTopicsRequest)) version ->
     no_panic (read_versioned (A:=DeleteTopicsResponse) version)) /\
  (in_range (API_VERSION_RANGE (Req:=SaslHandshakeRequest)) version ->
     no_panic (read_versioned (A:=SaslHandshakeResponse) version)) /\
  (in_range (mkApiVersionRange (V 0) (V 1)) version ->
     no_panic (read_versioned (A:=SaslAuthenticateResponse) version)).
Proof.
  unfold in_range. simpl range_min. simpl range_max. unfold V. simpl vnum.
  repeat match goal with |- _ /\ _ => split end; intros Hv; apply read_versioned_no_panic;
    unfold vnum in Hv |- *; simpl in Hv; lia.
Qed.

Lemma responses_never_panic_witness :
  no_panic (read_versioned (A:=FetchResponse) (V 4)).
Proof.
  apply (responses_never_panic (prof:=debug_profile) (V 4)). vm_compute. split; congruence.
Defined.

(** At version 2 a SASL authentication response with a zero length field
    in front of the authentication bytes panics the client when it is built
    with overflow checks. *)
Theorem sasl_response_zero_length_panics rest :
  read_versioned (A:=SaslAuthenticateResponse)
    (ReadVersionedType:=SaslAuthenticateResponse_ReadVersioned (prof:=debug_profile)) (V 2)
    (cursor (map byte_of_Z [0; 0; 0; 0] ++ rest)) = Panic ArithOverflow.
Proof.
  unfold read_versioned, SaslAuthenticateResponse_ReadVersioned, SaslAuthenticateResponse_read_versioned.
  simpl map. change (cursor ([byte_of_Z 0; byte_of_Z 0; byte_of_Z 0; byte_of_Z 0] ++ rest)) with
    ([byte_of_Z 0; byte_of_Z 0] +> [byte_of_Z 0] +> [byte_of_Z 0] +> cursor rest).
  cbv zeta. erewrite rbind_run by done.
  change (vnum (V 2) =? 0) with false. change (vnum (V 2) =? 1) with false. cbv iota.
  rewrite (run_rd (mkInt16 0)) by done.
  rewrite (run_rd (mkCompactNullableString None)) by done.
  unfold rbind, rd, rmap_err, read, CompactBytes_ReadType, CompactBytes_read.
  unfold rbind. rewrite (read_write (mkUnsignedVarint 0) [byte_of_Z 0]) by done. done.
Qed.

(** ** Requests *)

(** A request that sets a field the negotiated version does not have is
    refused with [FieldNotAvailable] and nothing is written, for exactly the
    two fields for which silence would change the meaning of the request;
    without the field the version is not a reason to fail. *)
Theorem unavailable_fields_refused version :
  (forall m b, vnum version < 4 ->
     write_versioned version (mkMetadataRequest m (Some b))
     = Err (FieldNotAvailable "allow_auto_topic_creation" version)) /\
  (forall t ms b tf, vnum version < 1 ->
     write_versioned version (mkCreateTopicsRequest t ms (Some b) tf)
     = Err (FieldNotAvailable "validate_only" version)) /\
  (forall x f v, write_versioned version (x : MetadataRequest) = Err (FieldNotAvailable f v) ->
     is_some (allow_auto_topic_creation x) = true /\ vnum version < 4).
Proof.
  split; [|split].
  - intros m b Hv. unfold write_versioned, MetadataRequest_WriteVersioned, MetadataRequest_write_versioned.
    destruct (Z.leb_spec (vnum version) 4), (Z.ltb_spec (vnum version) 4); try lia. done.
  - intros t ms b tf Hv.
    unfold write_versioned, CreateTopicsRequest_WriteVersioned, CreateTopicsRequest_write_versioned.
    destruct (Z.leb_spec (vnum version) 5), (Z.ltb_spec (vnum version) 1); try lia. done.
  - intros [m o] f v. unfold write_versioned, MetadataRequest_WriteVersioned,
      MetadataRequest_write_versioned. cbv zeta.
    destruct (Z.leb_spec (vnum version) 4); [|done]. simpl.
    destruct (Z.ltb_spec (vnum version) 4); simpl.
    + destruct o; simpl; [done|]. intros Hw. by apply metadata_topics_available in Hw.
    + intros Hw. by apply metadata_topics_available in Hw.
Qed.
