(* ===== verification/Schema.v ===== *)
(** * Message schemas

    The wire format of the Kafka protocol as data: a message is a list of named
    fields, each with the versions that have it, whether it may be null there,
    and its type; strings, byte arrays and arrays have fixed-width lengths in
    the classic versions of a message and varint lengths in its "flexible"
    ones, where every structure also ends in a section of tagged fields.

    [enc] and [dec] are the two interpretations of a schema: what a peer that
    follows the protocol puts on the wire for a value, and what it makes of
    bytes it receives.  Neither is taken from the client's code, which is
    compared with them in [MessageSchemas]. *)

From Stdlib Require Import ZArith Lia.
From stdpp Require Import base list numbers strings option.
From S2P Require Import Prelude Bytes Wire Varint RecordBatch.

Local Open Scope Z_scope.

(** ** Schemas *)
Record availability : Type := mkAvailability {
  since : Z;
  until : option Z;
  nullable_since : option Z;
  never_compact : bool;
}.

Definition from_version (n : Z) : availability := mkAvailability n None None false.
Definition always : availability := from_version 0.
Definition versions (lo hi : Z) : availability := mkAvailability lo (Some hi) None false.
(** In every version that has the field from [n] on it may be null. *)
Definition nullable (n : Z) (a : availability) : availability :=
  mkAvailability (since a) (until a) (Some n) (never_compact a).
Definition uncompacted (a : availability) : availability :=
  mkAvailability (since a) (until a) (nullable_since a) true.

Inductive ty : Type :=
| TBool
| TInt (bytes : nat)
| TString
| TBytes
| TRecords
| TArray (t : ty)
| TStruct (fs : fields)
with fields : Type :=
| FNil
| FCons (name : string) (a : availability) (t : ty) (fs : fields).

Scheme ty_mut := Induction for ty Sort Prop
with fields_mut := Induction for fields Sort Prop.
Combined Scheme schema_ind from ty_mut, fields_mut.

Declare Scope schema_scope.
Delimit Scope schema_scope with schema.
Notation "n '@' a ':::' t ';;' fs" := (FCons n a t fs)
  (at level 60, a at next level, t at next level, fs at level 60, right associativity) : schema_scope.

(** A message: its fields and the first flexible version. *)
Record message : Type := mkMessage { flexible_since : Z; body : fields }.

(** ** Values

    One value for each field of the schema, whether the version has it or
    not; [VAbsent] is what remains of a field the version does not have. *)
#[warnings="-register-all"]
Inductive val : Type :=
| VAbsent
| VNull
| VBool (b : bool)
| VInt (z : Z)
| VString (s : list byte)
| VBytes (bs : list byte)
| VRecords (batches : list RecordBatch)
| VArray (l : list val)
| VStruct (xs : list val) (tags : list (Z * list byte)).

(** One encoding after the other. *)
Definition oapp (a b : option (list byte)) : option (list byte) := x ← a; y ← b; Some (x ++ y).
Arguments oapp : simpl never.
Infix "+o+" := oapp (at level 55, right associativity) : schema_scope.
Local Open Scope schema_scope.

(** ** Little-endian groups of seven bits *)
Fixpoint leb128 (fuel : nat) (n : Z) : list byte :=
  match fuel with
  | O => []
  | S fuel => if n <? 128 then [byte_of_Z n] else byte_of_Z (n mod 128 + 128) :: leb128 fuel (n / 128)
  end.

Fixpoint unleb128 (fuel : nat) (bs : list byte) : option (Z * list byte) :=
  match fuel, bs with
  | S fuel, b :: bs =>
      if byte_to_Z b <? 128 then Some (byte_to_Z b, bs)
      else '(n, bs) ← unleb128 fuel bs; Some (byte_to_Z b - 128 + 128 * n, bs)
  | _, _ => None
  end.

(** Ten groups hold any 64-bit number. *)
Definition enc_uvarint (n : Z) : option (list byte) :=
  if (0 <=? n) && (n <? 2 ^ 64) then Some (leb128 10 n) else None.
Definition dec_uvarint : list byte -> option (Z * list byte) := unleb128 10.
Arguments enc_uvarint : simpl never.
Arguments dec_uvarint : simpl never.

Definition enc_int (w : nat) (z : Z) : option (list byte) :=
  if in_signed_b (8 * Z.of_nat w) z then Some (be_bytes w z) else None.
Definition dec_int (w : nat) (bs : list byte) : option (Z * list byte) :=
  if decide (w <= length bs)%nat then Some (from_be_bytes_signed (take w bs), drop w bs) else None.

(** ** Lengths: [None] is null *)
Definition enc_len (compact : bool) (w : nat) (n : option Z) : option (list byte) :=
  match n with
  | Some n => if compact then enc_uvarint (n + 1) else enc_int w n
  | None => if compact then enc_uvarint 0 else enc_int w (-1)
  end.

Definition dec_len (compact : bool) (w : nat) (bs : list byte) : option (option Z * list byte) :=
  if compact then
    '(n, bs) ← dec_uvarint bs;
    Some (if n =? 0 then None else Some (n - 1), bs)
  else
    '(n, bs) ← dec_int w bs;
    if n <? -1 then None else Some (if n =? -1 then None else Some n, bs).

(** A length and then that many bytes. *)
Definition enc_block (compact : bool) (w : nat) (bs : list byte) : option (list byte) :=
  enc_len compact w (Some (zlen bs)) +o+ Some bs.

Definition dec_bytes (n : Z) (bs : list byte) : option (list byte * list byte) :=
  if zlen bs <? n then None else Some (take (Z.to_nat n) bs, drop (Z.to_nat n) bs).

Definition dec_block (compact : bool) (w : nat) (bs : list byte) :
    option (option (list byte) * list byte) :=
  '(n, bs) ← dec_len compact w bs;
  match n with
  | None => Some (None, bs)
  | Some n => '(d, bs) ← dec_bytes n bs; Some (Some d, bs)
  end.

Fixpoint enc_many {A} (e : A -> option (list byte)) (l : list A) : option (list byte) :=
  match l with
  | [] => Some []
  | x :: l => e x +o+ enc_many e l
  end.

Fixpoint dec_many {A} (d : list byte -> option (A * list byte)) (n : nat) (bs : list byte) :
    option (list A * list byte) :=
  match n with
  | O => Some ([], bs)
  | S n => '(x, bs) ← d bs; '(l, bs) ← dec_many d n bs; Some (x :: l, bs)
  end.

(** ** Tagged fields: a count, then a tag and a block of bytes each *)
Definition enc_tag (f : Z * list byte) : option (list byte) :=
  enc_uvarint (fst f) +o+ enc_uvarint (zlen (snd f)) +o+ Some (snd f).
Definition enc_tags (tags : list (Z * list byte)) : option (list byte) :=
  enc_uvarint (zlen tags) +o+ enc_many enc_tag tags.

Definition dec_tag (bs : list byte) : option ((Z * list byte) * list byte) :=
  '(t, bs) ← dec_uvarint bs; '(n, bs) ← dec_uvarint bs; '(d, bs) ← dec_bytes n bs; Some ((t, d), bs).
Definition dec_tags (bs : list byte) : option (list (Z * list byte) * list byte) :=
  '(n, bs) ← dec_uvarint bs; dec_many dec_tag (Z.to_nat n) bs.

Definition has (a : availability) (v : Z) : bool :=
  (since a <=? v) && from_option (Z.leb v) true (until a).
Definition may_be_null (a : availability) (v : Z) : bool :=
  from_option (fun n => n <=? v) false (nullable_since a).
Definition compacts (a : availability) (flex : bool) : bool := flex && negb (never_compact a).

(** ** Encoding and decoding at a version

    What a block of records holds is decided by [batches]. *)
Section codec.
Context (batches : list byte -> option (list RecordBatch)) (v : Z).

Fixpoint enc (t : ty) (flex nul : bool) (x : val) {struct t} : option (list byte) :=
  match t, x with
  | TBool, VBool b => Some [byte_of_Z (if b then 1 else 0)]
  | TInt w, VInt z => enc_int w z
  | TString, VString s => if utf8_valid s then enc_block flex 2 s else None
  | TString, VNull => if nul then enc_len flex 2 None else None
  | TBytes, VBytes bs => enc_block flex 4 bs
  | TBytes, VNull => if nul then enc_len flex 4 None else None
  | TRecords, VBytes bs => _ ← batches bs; enc_block flex 4 bs
  | TRecords, VNull => if nul then enc_len flex 4 None else None
  | TArray t, VArray l =>
      enc_len flex 4 (Some (zlen l)) +o+ enc_many (enc t flex false) l
  | TArray t, VNull => if nul then enc_len flex 4 None else None
  | TStruct fs, VStruct xs tags =>
      enc_fields fs flex xs +o+ (if flex then enc_tags tags else Some [])
  | _, _ => None
  end
with enc_fields (fs : fields) (flex : bool) (xs : list val) {struct fs} : option (list byte) :=
  match fs, xs with
  | FNil, [] => Some []
  | FCons _ a t fs, x :: xs =>
      (if has a v then enc t (compacts a flex) (may_be_null a v) x else Some []) +o+
      enc_fields fs flex xs
  | _, _ => None
  end.

(** [null] or, when the field may not be null, nothing. *)
Definition dec_null (nul : bool) (bs : list byte) : option (val * list byte) :=
  if nul then Some (VNull, bs) else None.

Fixpoint dec (t : ty) (flex nul : bool) (bs : list byte) {struct t} : option (val * list byte) :=
  match t with
  | TBool =>
      match bs with b :: bs => Some (VBool (negb (byte_to_Z b =? 0)), bs) | [] => None end
  | TInt w => '(z, bs) ← dec_int w bs; Some (VInt z, bs)
  | TString =>
      '(o, bs) ← dec_block flex 2 bs;
      match o with
      | Some s => if utf8_valid s then Some (VString s, bs) else None
      | None => dec_null nul bs
      end
  | TBytes =>
      '(o, bs) ← dec_block flex 4 bs;
      match o with Some d => Some (VBytes d, bs) | None => dec_null nul bs end
  | TRecords =>
      '(o, bs) ← dec_block flex 4 bs;
      match o with
      | Some d => _ ← batches d; Some (VBytes d, bs)
      | None => dec_null nul bs
      end
  | TArray t =>
      '(o, bs) ← dec_len flex 4 bs;
      match o with
      | Some n => '(l, bs) ← dec_many (dec t flex false) (Z.to_nat n) bs; Some (VArray l, bs)
      | None => dec_null nul bs
      end
  | TStruct fs =>
      '(xs, bs) ← dec_fields fs flex bs;
      '(tags, bs) ← (if flex then dec_tags bs else Some ([], bs));
      Some (VStruct xs tags, bs)
  end
with dec_fields (fs : fields) (flex : bool) (bs : list byte) {struct fs} :
    option (list val * list byte) :=
  match fs with
  | FNil => Some ([], bs)
  | FCons _ a t fs =>
      '(x, bs) ← (if has a v then dec t (compacts a flex) (may_be_null a v) bs else Some (VAbsent, bs));
      '(xs, bs) ← dec_fields fs flex bs;
      Some (x :: xs, bs)
  end.

(** What of a value survives the version: [VAbsent] for the fields it does not
    have, no tags when it is not flexible.  [lenient] is the view of a client
    that makes no difference between a null array and an empty one, and that
    unpacks records. *)
Fixpoint view (lenient : bool) (t : ty) (flex : bool) (x : val) {struct t} : val :=
  match t, x with
  | TRecords, VBytes bs =>
      if lenient then from_option VRecords x (batches bs) else x
  | TRecords, VNull => if lenient then VRecords [] else VNull
  | TArray t, VArray l => VArray (map (view lenient t flex) l)
  | TArray t, VNull => if lenient then VArray [] else VNull
  | TStruct fs, VStruct xs tags => VStruct (view_fields lenient fs flex xs) (if flex then tags else [])
  | _, _ => x
  end
with view_fields (lenient : bool) (fs : fields) (flex : bool) (xs : list val) {struct fs} : list val :=
  match fs, xs with
  | FCons _ a t fs, x :: xs =>
      (if has a v then view lenient t (compacts a flex) x else VAbsent) :: view_fields lenient fs flex xs
  | _, _ => []
  end.

(** Messages. *)
Definition flexible (m : message) : bool := flexible_since m <=? v.
Definition enc_message (m : message) : val -> option (list byte) := enc (TStruct (body m)) (flexible m) false.
Definition dec_message (m : message) : list byte -> option (val * list byte) :=
  dec (TStruct (body m)) (flexible m) false.
Definition view_message (lenient : bool) (m : message) : val -> val :=
  view lenient (TStruct (body m)) (flexible m).
End codec.

(** ** Concatenation *)
Lemma oapp_some a b bs : oapp a b = Some bs <-> exists x y, a = Some x /\ b = Some y /\ bs = x ++ y.
Proof.
  unfold oapp. rewrite bind_Some. setoid_rewrite bind_Some. split.
  - intros (x & -> & y & -> & [= <-]). eauto.
  - intros (x & y & -> & -> & ->). eauto.
Qed.

Lemma oapp_nil_l a : oapp (Some []) a = a.
Proof. by destruct a. Qed.
Lemma oapp_nil_r a : oapp a (Some []) = a.
Proof. destruct a; [|done]. unfold oapp. simpl. by rewrite app_nil_r. Qed.
Lemma oapp_assoc a b c : oapp (oapp a b) c = oapp a (oapp b c).
Proof. destruct a, b, c; try done. unfold oapp. simpl. by rewrite app_assoc. Qed.

(** ** The two interpretations agree *)
Ltac split_some :=
  repeat match goal with
  | H : oapp _ _ = Some _ |- _ => apply oapp_some in H as (? & ? & ? & ? & ->)
  | H : (_ ≫= _) = Some _ |- _ => apply bind_Some in H as (? & ? & ?)
  | H : Some _ = Some _ |- _ => injection H as <-
  end.

Lemma unleb128_leb128 fuel : forall n rest,
  (0 < fuel)%nat -> 0 <= n < 128 ^ Z.of_nat fuel -> unleb128 fuel (leb128 fuel n ++ rest) = Some (n, rest).
Proof.
  induction fuel as [|fuel IH]; intros n rest Hf Hn; [lia|].
  rewrite Nat2Z.inj_succ, Z.pow_succ_r in Hn by lia. cbn [leb128].
  destruct (Z.ltb_spec n 128); simpl.
  - rewrite byte_of_Z_small by lia. by destruct (Z.ltb_spec n 128); [|lia].
  - assert (0 <= n mod 128 < 128) by (apply Z.mod_pos_bound; lia). rewrite byte_of_Z_small by lia.
    destruct (Z.ltb_spec (n mod 128 + 128) 128); [lia|].
    assert (1 <= n / 128) by (apply Z.div_le_lower_bound; lia).
    assert (n / 128 < 128 ^ Z.of_nat fuel) by (apply Z.div_lt_upper_bound; lia).
    rewrite IH by (destruct fuel; simpl in *; lia). simpl.
    f_equal. f_equal. pose proof (Z.div_mod n 128 ltac:(lia)). lia.
Qed.

Lemma dec_enc_uvarint n bs rest : enc_uvarint n = Some bs -> dec_uvarint (bs ++ rest) = Some (n, rest).
Proof.
  unfold enc_uvarint. destruct (Z.leb_spec 0 n), (Z.ltb_spec n (2 ^ 64)); cbn [andb]; try done.
  intros H'. assert (bs = leb128 10 n) as -> by congruence. apply unleb128_leb128; [lia|]. split; [done|].
  eapply Z.lt_le_trans; [done|]. by vm_compute.
Qed.

Lemma enc_int_some w z bs :
  enc_int w z = Some bs <-> in_signed (8 * Z.of_nat w) z /\ bs = be_bytes w z.
Proof.
  unfold enc_int. pose proof (in_signed_b_true (8 * Z.of_nat w) z) as Hb.
  destruct (in_signed_b _ z); naive_solver.
Qed.

Lemma dec_enc_int w z bs rest : enc_int w z = Some bs -> dec_int w (bs ++ rest) = Some (z, rest).
Proof.
  intros [Hz ->]%enc_int_some. unfold dec_int.
  rewrite decide_True by (rewrite length_app, length_be_bytes; lia).
  rewrite take_app_length', drop_app_length' by (by rewrite length_be_bytes).
  destruct w as [|w]; [unfold in_signed in Hz; simpl in Hz; lia|].
  do 2 f_equal. apply (from_to_be_bytes_signed (S w) z); [lia|done].
Qed.

Lemma dec_enc_len compact w n bs rest :
  from_option (Z.le 0) True n -> enc_len compact w n = Some bs ->
  dec_len compact w (bs ++ rest) = Some (n, rest).
Proof.
  intros Hn. unfold enc_len, dec_len. destruct compact, n as [n|]; simpl in Hn; intros H.
  - rewrite (dec_enc_uvarint _ _ _ H). simpl. destruct (Z.eqb_spec (n + 1) 0); [lia|].
    do 3 f_equal. lia.
  - by rewrite (dec_enc_uvarint _ _ _ H).
  - rewrite (dec_enc_int _ _ _ _ H). simpl. destruct (Z.ltb_spec n (-1)); [lia|].
    by destruct (Z.eqb_spec n (-1)); [lia|].
  - by rewrite (dec_enc_int _ _ _ _ H).
Qed.

Lemma dec_bytes_app bs rest : dec_bytes (zlen bs) (bs ++ rest) = Some (bs, rest).
Proof.
  unfold dec_bytes. rewrite zlen_app, to_nat_zlen, take_app_length, drop_app_length.
  pose proof (zlen_nonneg rest). by destruct (Z.ltb_spec (zlen bs + zlen rest) (zlen bs)); [lia|].
Qed.

Lemma dec_enc_block compact w d bs rest :
  enc_block compact w d = Some bs -> dec_block compact w (bs ++ rest) = Some (Some d, rest).
Proof.
  unfold enc_block, dec_block. intros H. split_some. rewrite <-app_assoc.
  rewrite (dec_enc_len compact w (Some (zlen d))) by (first [done|apply zlen_nonneg]). simpl.
  by rewrite dec_bytes_app.
Qed.

Lemma dec_enc_many {A} (e : A -> option (list byte)) d (f : A -> A) l :
  (forall x bs rest, x ∈ l -> e x = Some bs -> d (bs ++ rest) = Some (f x, rest)) ->
  forall bs rest, enc_many e l = Some bs -> dec_many d (length l) (bs ++ rest) = Some (map f l, rest).
Proof.
  induction l as [|x l IH]; intros Hd bs rest H; simpl in *; split_some; [done|].
  rewrite <-app_assoc. erewrite (Hd x) by (first [eassumption|constructor]). simpl.
  erewrite IH; [done| |done]. intros y b r Hy. apply Hd. by constructor.
Qed.

Lemma dec_enc_tags tags bs rest : enc_tags tags = Some bs -> dec_tags (bs ++ rest) = Some (tags, rest).
Proof.
  unfold enc_tags, dec_tags. intros H. split_some. rewrite <-app_assoc.
  erewrite dec_enc_uvarint by done. simpl. rewrite to_nat_zlen.
  erewrite (dec_enc_many _ _ id); [by rewrite map_id| |done].
  intros [t d] b r _ Ht. unfold enc_tag in Ht. simpl in Ht. split_some. unfold dec_tag.
  rewrite <-!app_assoc. erewrite dec_enc_uvarint by done. simpl.
  erewrite dec_enc_uvarint by done. simpl. by rewrite dec_bytes_app.
Qed.

Section agree.
Context (batches : list byte -> option (list RecordBatch)) (v : Z).

Lemma dec_enc_null (nul : bool) compact w bs rest :
  (if nul then enc_len compact w None else None) = Some bs ->
  nul = true /\ dec_len compact w (bs ++ rest) = Some (None, rest).
Proof. destruct nul; [|done]. intros H. split; [done|]. by apply dec_enc_len. Qed.

Lemma dec_enc_null_block (nul : bool) compact w bs rest :
  (if nul then enc_len compact w None else None) = Some bs ->
  nul = true /\ dec_block compact w (bs ++ rest) = Some (None, rest).
Proof.
  intros [-> H]%(dec_enc_null _ _ _ _ rest). split; [done|]. unfold dec_block. by rewrite H.
Qed.

(** What the protocol encodes it decodes to the same value, up to what the
    version does not have, and leaves what follows. *)
Lemma dec_enc_mut :
  (forall t flex nul x bs rest, enc batches v t flex nul x = Some bs ->
     dec batches v t flex nul (bs ++ rest) = Some (view batches v false t flex x, rest)) /\
  (forall fs flex xs bs rest, enc_fields batches v fs flex xs = Some bs ->
     dec_fields batches v fs flex (bs ++ rest) = Some (view_fields batches v false fs flex xs, rest)).
Proof.
  apply schema_ind.
  - intros flex nul x bs rest H. destruct x as [| |b| | | | | |]; try done. simpl in H. split_some. by destruct b.
  - intros w flex nul x bs rest H. destruct x; try done. simpl in *.
    by rewrite (dec_enc_int _ _ _ _ H).
  - intros flex nul x bs rest H. destruct x; try done; simpl in *.
    + apply (dec_enc_null_block _ _ _ _ rest) in H as [-> ->]. done.
    + destruct (utf8_valid s) eqn:Hs; [|done]. rewrite (dec_enc_block _ _ _ _ rest H). simpl. by rewrite Hs.
  - intros flex nul x bs rest H. destruct x; try done; simpl in *.
    + apply (dec_enc_null_block _ _ _ _ rest) in H as [-> ->]. done.
    + by rewrite (dec_enc_block _ _ _ _ rest H).
  - intros flex nul x bs rest H. destruct x; try done; simpl in *.
    + apply (dec_enc_null_block _ _ _ _ rest) in H as [-> ->]. done.
    + split_some. erewrite dec_enc_block by done. simpl. by rewrite H.
  - intros t IH flex nul x bs rest H. destruct x; try done; simpl in *.
    + apply (dec_enc_null _ _ _ _ rest) in H as [-> ->]. done.
    + split_some. rewrite <-app_assoc.
      rewrite (dec_enc_len _ _ (Some (zlen l))) by (first [done|apply zlen_nonneg]). simpl. rewrite to_nat_zlen.
      by erewrite dec_enc_many by (first [done|intros; by apply IH]).
  - intros fs IH flex nul x bs rest H. destruct x; try done; simpl in *. split_some.
    rewrite <-app_assoc. erewrite IH by done. simpl.
    destruct flex; [by erewrite dec_enc_tags by done|by split_some].
  - intros flex xs bs rest H. destruct xs; try done. simpl in *. by split_some.
  - intros name a t IHt fs IHfs flex xs bs rest H. destruct xs as [|x xs]; try done. simpl in *. split_some.
    rewrite <-app_assoc. destruct (has a v); simpl.
    + erewrite IHt by done. simpl. by erewrite IHfs by done.
    + split_some. simpl. by erewrite IHfs by done.
Qed.

Lemma dec_enc_message m x bs rest :
  enc_message batches v m x = Some bs ->
  dec_message batches v m (bs ++ rest) = Some (view_message batches v false m x, rest).
Proof. apply dec_enc_mut. Qed.
End agree.
