(* ===== verification/SchemaLaws.v ===== *)
(** * Primitive types and the protocol's encodings

    What the readers and writers of src/protocol/primitives.rs and the array
    functions of src/protocol/messages/mod.rs have to do with the encodings of
    [Schema]: a writer [emits] an encoding when it succeeds exactly where the
    encoding exists and then writes it; a reader [reads] a type when it accepts
    every encoding of it and returns the value.  Both relations are
    compositional, and the tactics at the end of the file carry them through
    the messages field by field. *)

From Stdlib Require Import ZArith Lia.
From stdpp Require Import base list numbers strings option.
From S2P Require Import Prelude Bytes Wire VecBuilder Varint Primitives PrimitiveLaws Record.
From S2P Require Import Codec RecordBatch ApiKey ErrorCode Versioned Schema.

Local Open Scope Z_scope.
Local Open Scope rust_scope.
Local Open Scope schema_scope.

(** ** Writers *)
Definition emits {E} (w : writer E) (o : option (list byte)) : Prop :=
  forall bs, w = Ok bs <-> o = Some bs.

Lemma emits_all {E} bs : emits (write_all bs : writer E) (Some bs).
Proof. intros cs. rewrite write_all_ok. naive_solver. Qed.
Lemma emits_nil {E} : emits (wnil : writer E) (Some []).
Proof. intros cs. rewrite wnil_ok. naive_solver. Qed.

Lemma emits_app {E} (a b : writer E) x y : emits a x -> emits b y -> emits (a ;+ b) (x +o+ y).
Proof. intros Ha Hb bs. rewrite wseq_ok, oapp_some. by setoid_rewrite (Ha _); setoid_rewrite (Hb _). Qed.

Lemma emits_map_err {E F} (f : E -> F) w o : emits w o -> emits (omap_err f w) o.
Proof. intros Hw bs. etransitivity; [apply omap_err_ok|apply Hw]. Qed.

Lemma emits_wr {A} `{WriteType A} (x : A) o : emits (write x) o -> emits (wr x) o.
Proof. apply emits_map_err. Qed.

(** A length that is checked before it is written. *)
Lemma emits_guard {E A} (e : E) (g : option A) (k : A -> writer E) o :
  (forall a, g = Some a -> emits (k a) o) -> (g = None -> o = None) ->
  emits (obind (ok_or e g) k) o.
Proof.
  intros Hk Hn. destruct g as [a|]; simpl; [by apply Hk|]. rewrite Hn by done. by intros bs.
Qed.

Lemma emits_many {E A} (w : A -> writer E) e l :
  Forall (fun x => emits (w x) (e x)) l -> emits (write_many w l) (enc_many e l).
Proof. induction 1; simpl; [apply emits_nil|by apply emits_app]. Qed.

Lemma enc_many_map {A B} (e : B -> option (list byte)) (f : A -> B) l :
  enc_many e (map f l) = enc_many (fun x => e (f x)) l.
Proof. induction l as [|x l IH]; simpl; [done|]. by rewrite IH. Qed.

(** ** Integers and lengths *)
Lemma leb128_write fuel : forall n, 0 <= n < 128 ^ Z.of_nat fuel -> (0 < fuel)%nat ->
  uvarint_write_loop fuel n = Ok (leb128 fuel n).
Proof.
  induction fuel as [|fuel IH]; intros n Hn Hf; [lia|].
  rewrite Nat2Z.inj_succ, Z.pow_succ_r in Hn by lia.
  rewrite uvarint_write_step by lia. cbn [leb128]. destruct (Z.ltb_spec n 128); [done|].
  assert (1 <= n / 128) by (apply Z.div_le_lower_bound; lia).
  assert (n / 128 < 128 ^ Z.of_nat fuel) by (apply Z.div_lt_upper_bound; lia).
  rewrite IH by (destruct fuel; simpl in *; lia). done.
Qed.

Lemma enc_uvarint_range n : in_unsigned 64 n -> enc_uvarint n = Some (leb128 10 n).
Proof.
  unfold in_unsigned, enc_uvarint. intros [? ?].
  destruct (Z.leb_spec 0 n), (Z.ltb_spec n (2 ^ 64)); [done|lia..].
Qed.
Lemma enc_uvarint_none n : unsigned_try_from 64 n = None -> enc_uvarint n = None.
Proof. unfold unsigned_try_from, in_unsigned_b, enc_uvarint. by destruct (_ && _). Qed.

Lemma emits_uvarint n : in_unsigned 64 n -> emits (write (mkUnsignedVarint n)) (enc_uvarint n).
Proof.
  intros Hn bs. rewrite (enc_uvarint_range n Hn). unfold write, UnsignedVarint_WriteType, UnsignedVarint_write.
  cbn [uvarint]. rewrite leb128_write; [split; intros; congruence| |lia].
  unfold in_unsigned in Hn. split; [lia|]. eapply Z.lt_le_trans; [apply Hn|by vm_compute].
Qed.

Lemma emits_be {E} w z : in_signed (8 * Z.of_nat w) z -> emits (write_all (to_be_bytes w z) : writer E) (enc_int w z).
Proof. intros Hz bs. rewrite write_all_ok, enc_int_some. naive_solver. Qed.

Lemma emits_int8 x : in_signed 8 (int8 x) -> emits (write x) (enc_int 1 (int8 x)).
Proof. apply (emits_be 1). Qed.
Lemma emits_int16 x : in_signed 16 (int16 x) -> emits (write x) (enc_int 2 (int16 x)).
Proof. apply (emits_be 2). Qed.
Lemma emits_int32 x : in_signed 32 (int32 x) -> emits (write x) (enc_int 4 (int32 x)).
Proof. apply (emits_be 4). Qed.
Lemma emits_int64 x : in_signed 64 (int64 x) -> emits (write x) (enc_int 8 (int64 x)).
Proof. apply (emits_be 8). Qed.

Lemma enc_int_none w z : signed_try_from (8 * Z.of_nat w) z = None -> enc_int w z = None.
Proof. unfold signed_try_from, enc_int. by destruct (in_signed_b _ z). Qed.

(** ** Lengths in front of data *)
Lemma emits_len16 {E} (e : E) n k o :
  (in_signed 16 n -> emits (k n) (enc_int 2 n +o+ o)) ->
  emits (obind (ok_or e (signed_try_from 16 n)) k) (enc_len false 2 (Some n) +o+ o).
Proof.
  intros Hk. apply emits_guard; [by intros a [-> Ha]%signed_try_from_some; apply Hk|].
  intros Hn. simpl. by rewrite (enc_int_none 2 _ Hn).
Qed.
Lemma emits_len32 {E} (e : E) n k o :
  (in_signed 32 n -> emits (k n) (enc_int 4 n +o+ o)) ->
  emits (obind (ok_or e (signed_try_from 32 n)) k) (enc_len false 4 (Some n) +o+ o).
Proof.
  intros Hk. apply emits_guard; [by intros a [-> Ha]%signed_try_from_some; apply Hk|].
  intros Hn. simpl. by rewrite (enc_int_none 4 _ Hn).
Qed.
Lemma emits_uvarint_len {E} (e : E) n k o :
  (in_unsigned 64 n -> emits (k n) (enc_uvarint n +o+ o)) ->
  emits (obind (ok_or e (unsigned_try_from 64 n)) k) (enc_uvarint n +o+ o).
Proof.
  intros Hk. apply emits_guard; [by intros a [-> Ha]%unsigned_try_from_some; apply Hk|].
  intros Hn. by rewrite (enc_uvarint_none _ Hn).
Qed.

(** ** Values and types *)
Section relations.
Context {VC : VarIntCrate} {CC : Codecs} {prof : Profile}.

(** The batches in a block of records. *)
Definition record_batches (bs : list byte) : option (list RecordBatch) :=
  match records_loop (length bs) bs [] with Ok l => Some l | _ => None end.

Section at_type.
Context (v : Z) (t : ty) (flex nul : bool).
Abbreviation enc_t := (enc record_batches v t flex nul).
Abbreviation view_t b := (view record_batches v b t flex).

(** [w] writes the values [f a] of type [t], for the [a] that satisfy the
    invariant [ok] of their Rust type. *)
Definition writes_as {A} (w : A -> writer WriteVersionedError) (ok : A -> Prop) (f : A -> val) : Prop :=
  forall a, ok a -> emits (w a) (enc_t (f a)).

(** [r] reads every value of type [t]; the result stands for the value. *)
Definition reads_as {A} (r : reader ReadVersionedError A) (f : A -> val) : Prop :=
  forall x bs s, enc_t x = Some bs ->
  exists a, r (bs +> s) = Ok (a, s) /\ view_t false (f a) = view_t true x.

(** Every value of type [t] is the value of something in Rust. *)
Definition covers {A} (ok : A -> Prop) (f : A -> val) : Prop :=
  forall x bs, enc_t x = Some bs -> exists a, ok a /\ x = f a.

Lemma reads_of_writes `{RoundTrip A} (f : A -> val) :
  writes_as wr wf f -> covers wf f -> (forall a, view_t false (f a) = view_t true (f a)) ->
  reads_as (rd A) f.
Proof.
  intros Hw Hc Hv x bs s Hx. destruct (Hc _ _ Hx) as (a & Ha & ->). exists a. split; [|apply Hv].
  apply rmap_err_ok, read_write; [done|]. apply (Hw _ Ha) in Hx.
  by apply omap_err_ok in Hx.
Qed.
End at_type.

(** *** Integers and booleans *)
Definition Boolean_val (x : Boolean) : val := VBool (boolean x).
Definition Int8_val (x : Int8) : val := VInt (int8 x).
Definition Int16_val (x : Int16) : val := VInt (int16 x).
Definition Int32_val (x : Int32) : val := VInt (int32 x).
Definition Int64_val (x : Int64) : val := VInt (int64 x).

Lemma Boolean_writes v flex nul : writes_as v TBool flex nul wr wf Boolean_val.
Proof. intros [b] _. apply emits_wr. destruct b; apply emits_all. Qed.
Lemma Int8_writes v flex nul : writes_as v (TInt 1) flex nul wr wf Int8_val.
Proof. intros x Hx. by apply emits_wr, emits_int8. Qed.
Lemma Int16_writes v flex nul : writes_as v (TInt 2) flex nul wr wf Int16_val.
Proof. intros x Hx. by apply emits_wr, emits_int16. Qed.
Lemma Int32_writes v flex nul : writes_as v (TInt 4) flex nul wr wf Int32_val.
Proof. intros x Hx. by apply emits_wr, emits_int32. Qed.
Lemma Int64_writes v flex nul : writes_as v (TInt 8) flex nul wr wf Int64_val.
Proof. intros x Hx. by apply emits_wr, emits_int64. Qed.

Lemma int_covers v w flex nul {A} (mk : Z -> A) (ok : A -> Prop) (f : A -> val) :
  (forall z, f (mk z) = VInt z) -> (forall z, in_signed (8 * Z.of_nat w) z -> ok (mk z)) ->
  covers v (TInt w) flex nul ok f.
Proof.
  intros Hf Hok x bs Hx. destruct x as [| | |z| | | | |]; try discriminate Hx. cbn in Hx.
  apply enc_int_some in Hx as [Hz _]. exists (mk z). by split; [apply Hok|].
Qed.

Lemma Boolean_reads v flex nul : reads_as v TBool flex nul (rd Boolean) Boolean_val.
Proof.
  apply (reads_of_writes _ _ _ _ (A:=Boolean)); [apply Boolean_writes| |done].
  intros x bs Hx. destruct x as [| |b| | | | | |]; try discriminate Hx. by exists (mkBoolean b).
Qed.
Lemma Int8_reads v flex nul : reads_as v (TInt 1) flex nul (rd Int8) Int8_val.
Proof. apply (reads_of_writes _ _ _ _ (A:=Int8)); [apply Int8_writes|by apply (int_covers v 1 _ _ mkInt8)|done]. Qed.
Lemma Int16_reads v flex nul : reads_as v (TInt 2) flex nul (rd Int16) Int16_val.
Proof. apply (reads_of_writes _ _ _ _ (A:=Int16)); [apply Int16_writes|by apply (int_covers v 2 _ _ mkInt16)|done]. Qed.
Lemma Int32_reads v flex nul : reads_as v (TInt 4) flex nul (rd Int32) Int32_val.
Proof. apply (reads_of_writes _ _ _ _ (A:=Int32)); [apply Int32_writes|by apply (int_covers v 4 _ _ mkInt32)|done]. Qed.
Lemma Int64_reads v flex nul : reads_as v (TInt 8) flex nul (rd Int64) Int64_val.
Proof. apply (reads_of_writes _ _ _ _ (A:=Int64)); [apply Int64_writes|by apply (int_covers v 8 _ _ mkInt64)|done]. Qed.

(** *** Strings *)
Definition string_val (s : rstring) : val := VString s.
Definition nullable_val (o : option rstring) : val := from_option VString VNull o.

Lemma enc_string v flex nul s :
  rstring_wf s -> enc record_batches v TString flex nul (VString s) = enc_block flex 2 s.
Proof. unfold rstring_wf. cbn. by intros ->. Qed.

Lemma emits_string16 {E} (e : E) w s :
  (in_signed 16 (zlen s) -> emits (w (zlen s)) (enc_int 2 (zlen s) +o+ Some s)) ->
  emits (obind (ok_or e (signed_try_from 16 (zlen s))) w) (enc_block false 2 s).
Proof. intros Hw. by apply emits_len16. Qed.

Lemma String_writes v nul : writes_as v TString false nul wr wf (fun x => string_val (string_ x)).
Proof.
  intros [s] Hs. unfold string_val. rewrite enc_string by exact Hs. apply emits_wr, emits_string16. intros Hl.
  apply emits_app; [by apply (emits_int16 (mkInt16 _))|apply emits_all].
Qed.

Lemma NullableString_writes v :
  writes_as v TString false true wr wf (fun x => nullable_val (nullable_string x)).
Proof.
  intros [[s|]] Hs; apply emits_wr; simpl nullable_string.
  - cbn [nullable_val from_option]. rewrite enc_string by exact Hs. apply emits_string16. intros Hl.
    apply emits_app; [by apply (emits_int16 (mkInt16 _))|apply emits_all].
  - by apply (emits_int16 (mkInt16 (-1))).
Qed.

Lemma CompactStringRef_emits {E} (f : WriteError -> E) k s :
  emits (omap_err f (CompactStringRef_write s)) (enc_block true k s).
Proof.
  apply emits_map_err, emits_uvarint_len. intros Hl.
  apply emits_app; [by apply emits_uvarint|apply emits_all].
Qed.

Lemma CompactStringRef_writes v nul :
  writes_as v TString true nul (fun s => omap_err WVWriteError (CompactStringRef_write s)) rstring_wf string_val.
Proof. intros s Hs. unfold string_val. rewrite enc_string by exact Hs. apply CompactStringRef_emits. Qed.

Lemma CompactNullableStringRef_writes v :
  writes_as v TString true true (fun s => omap_err WVWriteError (CompactNullableStringRef_write s))
    (from_option rstring_wf True) nullable_val.
Proof.
  intros [s|] Hs; cbn [nullable_val from_option].
  - rewrite enc_string by exact Hs. apply CompactStringRef_emits.
  - by apply emits_map_err, (emits_uvarint 0).
Qed.

Lemma CompactString_writes v nul : writes_as v TString true nul wr wf (fun x => string_val (compact_string x)).
Proof. intros [s] Hs. by apply (CompactStringRef_writes v nul s). Qed.
Lemma CompactNullableString_writes v :
  writes_as v TString true true wr wf (fun x => nullable_val (compact_nullable_string x)).
Proof. intros [s] Hs. by apply (CompactNullableStringRef_writes v s). Qed.

Lemma string_covers v flex {A} (mk : rstring -> A) (ok : A -> Prop) (f : A -> val) :
  (forall s, f (mk s) = VString s) -> (forall s, rstring_wf s -> ok (mk s)) ->
  covers v TString flex false ok f.
Proof.
  intros Hf Hok x bs Hx. destruct x as [| | | |s| | | |]; try discriminate Hx. cbn in Hx.
  destruct (utf8_valid s) eqn:Hs; [|done]. exists (mk s). by split; [apply Hok|].
Qed.
Lemma nullable_covers v flex nul {A} (mk : option rstring -> A) (ok : A -> Prop) (f : A -> val) :
  (forall s, f (mk s) = nullable_val s) -> (forall s, from_option rstring_wf True s -> ok (mk s)) ->
  covers v TString flex nul ok f.
Proof.
  intros Hf Hok x bs Hx. destruct x as [| | | |s| | | |]; try discriminate Hx; cbn in Hx.
  - exists (mk None). by split; [apply Hok|].
  - destruct (utf8_valid s) eqn:Hs; [|done]. exists (mk (Some s)). by split; [apply Hok|].
Qed.

Lemma String_reads v : reads_as v TString false false (rd String_) (fun x => string_val (string_ x)).
Proof. apply (reads_of_writes _ _ _ _ (A:=String_)); [apply String_writes|by apply (string_covers v _ mkString_)|done]. Qed.
Lemma CompactString_reads v :
  reads_as v TString true false (rd CompactString) (fun x => string_val (compact_string x)).
Proof. apply (reads_of_writes _ _ _ _ (A:=CompactString)); [apply CompactString_writes|by apply (string_covers v _ mkCompactString)|done]. Qed.
Lemma NullableString_reads v :
  reads_as v TString false true (rd NullableString) (fun x => nullable_val (nullable_string x)).
Proof. apply (reads_of_writes _ _ _ _ (A:=NullableString)); [apply NullableString_writes|by apply (nullable_covers v _ _ mkNullableString)|done]. Qed.
Lemma CompactNullableString_reads v :
  reads_as v TString true true (rd CompactNullableString) (fun x => nullable_val (compact_nullable_string x)).
Proof.
  apply (reads_of_writes _ _ _ _ (A:=CompactNullableString)); [apply CompactNullableString_writes| |done].
  by apply (nullable_covers v _ _ mkCompactNullableString).
Qed.

(** A type that may be null has the values of the type that may not. *)
Lemma enc_nullable v t flex x bs :
  enc record_batches v t flex false x = Some bs -> enc record_batches v t flex true x = Some bs.
Proof. by destruct t, x. Qed.
Lemma reads_nullable {A} v t flex (r : reader ReadVersionedError A) f :
  reads_as v t flex true r f -> reads_as v t flex false r f.
Proof. intros Hr x bs s Hx. apply (Hr x bs), enc_nullable, Hx. Qed.

(** *** Bytes *)
Definition bytes_val (bs : list byte) : val := VBytes bs.

Lemma emits_bytes32 {E} (e : E) w d :
  (in_signed 32 (zlen d) -> emits (w (zlen d)) (enc_int 4 (zlen d) +o+ Some d)) ->
  emits (obind (ok_or e (signed_try_from 32 (zlen d))) w) (enc_block false 4 d).
Proof. intros Hw. by apply emits_len32. Qed.

Lemma Bytes_writes v nul : writes_as v TBytes false nul wr wf (fun x => bytes_val (bytes_0 x)).
Proof.
  intros [d] _. apply emits_wr, (emits_bytes32 _ _ d). intros Hl.
  apply emits_app; [by apply (emits_int32 (mkInt32 _))|apply emits_all].
Qed.
Lemma CompactBytesRef_writes v nul :
  writes_as v TBytes true nul (fun d => omap_err WVWriteError (CompactBytesRef_write d)) (fun _ => True) bytes_val.
Proof. intros d _. apply (CompactStringRef_emits _ 4). Qed.
Lemma CompactBytes_writes v nul : writes_as v TBytes true nul wr wf (fun x => bytes_val (compact_bytes x)).
Proof. intros [d] _. by apply (CompactBytesRef_writes v nul d). Qed.

Lemma bytes_covers v flex {A} (mk : list byte -> A) (ok : A -> Prop) (f : A -> val) :
  (forall d, f (mk d) = VBytes d) -> (forall d, ok (mk d)) -> covers v TBytes flex false ok f.
Proof.
  intros Hf Hok x bs Hx. destruct x as [| | | | |d| | |]; try discriminate Hx. by exists (mk d).
Qed.
Lemma Bytes_reads v : reads_as v TBytes false false (rd Bytes) (fun x => bytes_val (bytes_0 x)).
Proof. apply (reads_of_writes _ _ _ _ (A:=Bytes)); [apply Bytes_writes|by apply (bytes_covers v _ mkBytes)|done]. Qed.
Lemma CompactBytes_reads v :
  reads_as v TBytes true false (rd CompactBytes) (fun x => bytes_val (compact_bytes x)).
Proof.
  apply (reads_of_writes _ _ _ _ (A:=CompactBytes)); [apply CompactBytes_writes| |done].
  by apply (bytes_covers v _ mkCompactBytes).
Qed.

(** *** Tagged fields *)
Definition tags_of (x : TaggedFields) : list (Z * list byte) :=
  map (fun f => (uvarint (fst f), snd f)) (tagged_fields_0 x).

(** The tags of an optional section. *)
Definition tags_or (o : option TaggedFields) : list (Z * list byte) :=
  tags_of (default TaggedFields_default o).

Lemma TaggedFields_emits x : wf x -> emits (wr x) (enc_tags (tags_of x)).
Proof.
  destruct x as [l]. unfold wf, TaggedFields_WellFormed. simpl. intros Hl. apply emits_wr.
  unfold enc_tags, tags_of. cbn [tagged_fields_0].
  replace (zlen (map (fun f => (uvarint (fst f), snd f)) l)) with (zlen l) by (unfold zlen; by rewrite length_map).
  apply emits_uvarint_len. intros Hn. apply emits_app; [by apply emits_uvarint|].
  rewrite enc_many_map. apply emits_many. eapply Forall_impl; [|exact Hl].
  intros [[t] d] Ht. unfold enc_tag. simpl. apply emits_app; [by apply emits_uvarint|].
  apply emits_uvarint_len. intros Hd. apply emits_app; [by apply emits_uvarint|apply emits_all].
Qed.

Lemma enc_tags_covered tags bs :
  enc_many enc_tag tags = Some bs ->
  exists l, Forall (fun f => wf (fst f)) l /\ map (fun f => (uvarint (fst f), snd f)) l = tags.
Proof.
  revert bs. induction tags as [|[t d] tags IH]; intros bs H; simpl in H; [by exists []|]. split_some.
  edestruct IH as (l & Hl & <-); [done|]. exists ((mkUnsignedVarint t, d) :: l). split; [|done].
  constructor; [|done]. unfold enc_tag in *. split_some. simpl in *.
  unfold wf, UnsignedVarint_WellFormed, in_unsigned, enc_uvarint in *. simpl.
  destruct (Z.leb_spec 0 t), (Z.ltb_spec t (2 ^ 64)); done.
Qed.

Lemma TaggedFields_reads tags bs s :
  enc_tags tags = Some bs ->
  exists a, rd TaggedFields (bs +> s) = Ok (a, s) /\ tags_of a = tags.
Proof.
  intros H. pose proof H as H'. unfold enc_tags in H'. split_some.
  edestruct enc_tags_covered as (l & Hl & Heq); [done|]. exists (mkTaggedFields l). split; [|done].
  apply rmap_err_ok, read_write; [done|].
  assert (wf (mkTaggedFields l)) as Hwf by done. apply TaggedFields_emits in Hwf.
  unfold tags_of in Hwf. cbn [tagged_fields_0] in Hwf. rewrite Heq in Hwf.
  apply Hwf in H. by apply omap_err_ok in H.
Qed.

(** *** Arrays of primitive types *)
Definition array_val {A} (f : A -> val) (o : option (list A)) : val :=
  from_option (fun l => VArray (map f l)) VNull o.

Section arrays.
Context {A : Type} (v : Z) (t : ty) (ok : A -> Prop) (f : A -> val).

Lemma ArrayRef_emits (w : A -> writer WriteError) nul (l : option (list A)) :
  (forall a, ok a -> emits (w a) (enc record_batches v t false false (f a))) ->
  from_option (Forall ok) (nul = true) l ->
  emits (omap_err WVWriteError (ArrayRef_write w l)) (enc record_batches v (TArray t) false nul (array_val f l)).
Proof.
  intros Hw Hl. apply emits_map_err. destruct l as [l|]; simpl in *.
  - replace (zlen (map f l)) with (zlen l) by (unfold zlen; by rewrite length_map).
    apply emits_len32. intros Hn. apply emits_app; [by apply (emits_int32 (mkInt32 _))|].
    rewrite enc_many_map. apply emits_many. by eapply Forall_impl.
  - subst nul. by apply (emits_int32 (mkInt32 (-1))).
Qed.

Lemma CompactArrayRef_emits (w : A -> writer WriteError) nul (l : option (list A)) :
  (forall a, ok a -> emits (w a) (enc record_batches v t true false (f a))) ->
  from_option (Forall ok) (nul = true) l ->
  emits (omap_err WVWriteError (CompactArrayRef_write w l))
        (enc record_batches v (TArray t) true nul (array_val f l)).
Proof.
  intros Hw Hl. apply emits_map_err. destruct l as [l|]; simpl in *.
  - replace (zlen (map f l)) with (zlen l) by (unfold zlen; by rewrite length_map).
    apply emits_uvarint_len. intros Hn. apply emits_app; [by apply emits_uvarint|].
    rewrite enc_many_map. apply emits_many. by eapply Forall_impl.
  - subst nul. by apply (emits_uvarint 0).
Qed.

Lemma many_covers flex l bs :
  covers v t flex false ok f -> enc_many (enc record_batches v t flex false) l = Some bs ->
  exists xs, Forall ok xs /\ l = map f xs.
Proof.
  intros Hc. revert bs. induction l as [|x l IH]; intros bs H; simpl in H; [by exists []|]. split_some.
  edestruct IH as (xs & Hxs & ->); [done|]. edestruct Hc as (a & Ha & ->); [done|].
  exists (a :: xs). split; [by constructor|done].
Qed.


End arrays.

Lemma emits_wr_inv {A} `{WriteType A} (x : A) o : emits (wr x) o -> emits (write x) o.
Proof. intros Hw bs. etransitivity; [symmetry; apply (omap_err_ok WVWriteError)|apply Hw]. Qed.

Section primitive_arrays.
Context `{RoundTrip A} (v : Z) (t : ty) (f : A -> val).
Hypothesis Hw : writes_as v t false false wr wf f.

Lemma Array_writes nul :
  writes_as v (TArray t) false nul wr (fun x => from_option (Forall wf) (nul = true) (array_0 x))
    (fun x => array_val f (array_0 x)).
Proof.
  intros [l] Hl. apply (ArrayRef_emits v t wf f write); [|done]. intros a Ha. by apply emits_wr_inv, Hw.
Qed.

Lemma Array_reads :
  covers v t false false wf f ->
  (forall b a, view record_batches v b t false (f a) = f a) ->
  reads_as v (TArray t) false false (rd (Array A)) (fun x => array_val f (array_0 x)).
Proof.
  intros Hc Hv x bs s Hx. destruct x as [| | | | | | |l|]; try discriminate Hx.
  assert (exists xs, Forall wf xs /\ l = map f xs) as (xs & Hxs & ->).
  { cbn in Hx. split_some. by eapply (many_covers v t wf f false). }
  exists (mkArray (Some xs)). split.
  - apply rmap_err_ok, read_write; [exact Hxs|].
    assert (emits (wr (mkArray (Some xs))) _) as He by (by apply (Array_writes false)).
    apply He in Hx. by apply omap_err_ok in Hx.
  - cbn. f_equal. rewrite !map_map. apply map_ext. intros a. by rewrite !Hv.
Qed.
End primitive_arrays.

(** The two element types the client writes in compact arrays. *)
Lemma CompactInt32s_emits v nul (l : option (list Int32)) :
  from_option (Forall wf) (nul = true) l ->
  emits (omap_err WVWriteError (CompactArrayRef_write write l))
        (enc record_batches v (TArray (TInt 4)) true nul (array_val Int32_val l)).
Proof. apply CompactArrayRef_emits. intros a Ha. by apply emits_wr_inv, Int32_writes. Qed.
Lemma CompactStrings_emits v nul (l : option (list rstring)) :
  from_option (Forall rstring_wf) (nul = true) l ->
  emits (omap_err WVWriteError (CompactArrayRef_write CompactStringRef_write l))
        (enc record_batches v (TArray TString) true nul (array_val string_val l)).
Proof.
  apply CompactArrayRef_emits. intros a Ha bs.
  etransitivity; [symmetry; apply (omap_err_ok WVWriteError)|by apply CompactStringRef_writes].
Qed.

(** *** Arrays of structures *)
Section versioned_arrays.
Context {T : Type} (version : ApiVersion) (t : ty) (ok : T -> Prop) (f : T -> val).
Let v := vnum version.

Lemma versioned_array_writes `{WriteVersionedType T} nul :
  writes_as v t false false (write_versioned version) ok f ->
  writes_as v (TArray t) false nul (write_versioned_array version)
    (from_option (Forall ok) (nul = true)) (array_val f).
Proof.
  intros Hw [l|] Hl; simpl in *.
  - replace (zlen (map f l)) with (zlen l) by (unfold zlen; by rewrite length_map).
    apply emits_len32. intros Hn. apply emits_app; [by apply emits_wr, (emits_int32 (mkInt32 _))|].
    rewrite enc_many_map. apply emits_many. by eapply Forall_impl.
  - subst nul. by apply emits_wr, (emits_int32 (mkInt32 (-1))).
Qed.

Lemma compact_versioned_array_writes `{WriteVersionedType T} nul :
  writes_as v t true false (write_versioned version) ok f ->
  writes_as v (TArray t) true nul (write_compact_versioned_array version)
    (from_option (Forall ok) (nul = true)) (array_val f).
Proof.
  intros Hw [l|] Hl; simpl in *.
  - replace (zlen (map f l)) with (zlen l) by (unfold zlen; by rewrite length_map).
    apply emits_uvarint_len. intros Hn. apply emits_app; [by apply emits_wr, emits_uvarint|].
    rewrite enc_many_map. apply emits_many. by eapply Forall_impl.
  - subst nul. by apply emits_wr, (emits_uvarint 0).
Qed.

Lemma many_reads flex (r : reader ReadVersionedError T) l bs s :
  reads_as v t flex false r f -> enc_many (enc record_batches v t flex false) l = Some bs ->
  exists xs, read_many (length l) r (bs +> s) = Ok (xs, s) /\
    map (view record_batches v false t flex) (map f xs) = map (view record_batches v true t flex) l.
Proof.
  intros Hr. revert bs. induction l as [|x l IH]; intros bs H; simpl in H; split_some.
  - exists []. split; [|done]. by rewrite src_app_nil.
  - edestruct IH as (xs & Hxs & Hv); [done|]. edestruct Hr as (a & Ha & Hva); [done|].
    exists (a :: xs). split; [|simpl; by rewrite Hva, Hv]. rewrite src_app_app. simpl.
    rewrite (rbind_run _ _ _ _ _ Ha). by rewrite (rbind_run _ _ _ _ _ Hxs).
Qed.

(** The value of an array that was read: a null one is an empty one. *)
Lemma versioned_array_reads `{ReadVersionedType T} nul :
  reads_as v t false false (read_versioned version) f ->
  reads_as v (TArray t) false nul (read_versioned_array version) (fun o => VArray (map f (default [] o))).
Proof.
  intros Hr x bs s Hx. destruct x as [| | | | | | |l|]; try discriminate Hx; cbn in Hx.
  - destruct nul; [|done]. exists None. split; [|done]. unfold read_versioned_array.
    destruct (Int32_reads 0 false false (VInt (-1)) bs s Hx) as ([z] & Ha & [= ->]).
    by rewrite (rbind_run _ _ _ _ _ Ha).
  - split_some. edestruct (many_reads false) as (xs & Hxs & Hv); [done..|].
    exists (Some xs). split; [|cbn; by f_equal]. rewrite src_app_app. unfold read_versioned_array.
    edestruct (Int32_reads 0 false false (VInt (zlen l))) as ([z] & Ha & [= ->]); [done|].
    rewrite (rbind_run _ _ _ _ _ Ha). cbn [int32]. pose proof (zlen_nonneg l).
    destruct (Z.eqb_spec (zlen l) (-1)), (Z.ltb_spec (zlen l) (-1)); try lia.
    rewrite (run_ok_or _ _ (zlen l)).
    2: { apply (usize_of_signed 32); [done|lia|]. by eapply enc_int_some in H0 as [? _]. }
    rewrite to_nat_zlen. by rewrite (rbind_run _ _ _ _ _ Hxs).
Qed.

Lemma uvarint_reads n bs s :
  enc_uvarint n = Some bs -> rd UnsignedVarint (bs +> s) = Ok (mkUnsignedVarint n, s) /\ in_unsigned 64 n.
Proof.
  intros Hn. assert (in_unsigned 64 n) as Hr.
  { unfold enc_uvarint in Hn. unfold in_unsigned.
    destruct (Z.leb_spec 0 n), (Z.ltb_spec n (2 ^ 64)); done. }
  split; [|done]. apply rmap_err_ok, read_write; [exact Hr|]. by apply (emits_uvarint n Hr).
Qed.

Lemma compact_versioned_array_reads `{ReadVersionedType T} nul :
  reads_as v t true false (read_versioned version) f ->
  reads_as v (TArray t) true nul (read_compact_versioned_array version)
    (fun o => VArray (map f (default [] o))).
Proof.
  intros Hr x bs s Hx. destruct x as [| | | | | | |l|]; try discriminate Hx; cbn in Hx.
  - destruct nul; [|done]. exists None. split; [|done]. unfold read_compact_versioned_array.
    destruct (uvarint_reads 0 bs s Hx) as [Ha _]. by rewrite (rbind_run _ _ _ _ _ Ha).
  - split_some. edestruct (many_reads true) as (xs & Hxs & Hv); [done..|].
    exists (Some xs). split; [|cbn; by f_equal]. rewrite src_app_app.
    unfold read_compact_versioned_array. edestruct (uvarint_reads (zlen l + 1)) as [Ha Hn]; [done|].
    rewrite (rbind_run _ _ _ _ _ Ha). cbn [uvarint]. pose proof (zlen_nonneg l).
    destruct (Z.eqb_spec (zlen l + 1) 0); [lia|]. replace (zlen l + 1 - 1) with (zlen l) by lia.
    rewrite (run_ok_or _ _ (zlen l)) by (apply usize_try_from_ok; unfold in_unsigned in Hn; lia).
    rewrite to_nat_zlen. by rewrite (rbind_run _ _ _ _ _ Hxs).
Qed.

(** [unwrap_or_default]. *)
Lemma read_vec_reads `{ReadVersionedType T} nul :
  reads_as v t false false (read_versioned version) f ->
  reads_as v (TArray t) false nul (read_vec version) (fun l => VArray (map f l)).
Proof.
  intros Hr x bs s Hx. destruct (versioned_array_reads nul Hr x bs s Hx) as (o & Ho & Hv).
  exists (default [] o). split; [|done]. unfold read_vec. by rewrite (rbind_run _ _ _ _ _ Ho).
Qed.
Lemma read_compact_vec_reads `{ReadVersionedType T} nul :
  reads_as v t true false (read_versioned version) f ->
  reads_as v (TArray t) true nul (read_compact_vec version) (fun l => VArray (map f l)).
Proof.
  intros Hr x bs s Hx. destruct (compact_versioned_array_reads nul Hr x bs s Hx) as (o & Ho & Hv).
  exists (default [] o). split; [|done]. unfold read_compact_vec. by rewrite (rbind_run _ _ _ _ _ Ho).
Qed.
End versioned_arrays.

(** *** Names and messages that are compact from some version on *)
Lemma reads_map {A B} v t flex nul (r : reader ReadVersionedError A) f (g : A -> B) h :
  reads_as v t flex nul r f -> (forall a, h (g a) = f a) ->
  reads_as v t flex nul (let? a := r in rret (g a)) h.
Proof.
  intros Hr Hg x bs s Hx. destruct (Hr x bs s Hx) as (a & Ha & Hv). exists (g a). rewrite Hg.
  split; [|done]. by rewrite (rbind_run _ _ _ _ _ Ha).
Qed.

Lemma read_name_reads v compact :
  reads_as v TString compact false (read_name compact) (fun x => string_val (string_ x)).
Proof.
  destruct compact; [|apply String_reads]. eapply reads_map; [apply CompactString_reads|done].
Qed.

(** *** Records *)
Definition records_val (x : Records) : val := VRecords (records_0 x).
(** The value that is written; records that cannot be encoded have none. *)
Definition records_block (x : Records) : val :=
  match write_many write (records_0 x) with Ok bs => VBytes bs | _ => VAbsent end.

Lemma Records_reads v nul : reads_as v TRecords false nul (rd Records) records_val.
Proof.
  intros x bs s Hx.
  assert (exists o l, emits (wr (mkNullableBytes o)) (Some bs) /\
    records_loop (length (default [] o)) (default [] o) [] = Ok l /\
    view record_batches v true TRecords false x = VRecords l) as (o & l & Hw & Hl & Hv).
  { destruct x as [| | | | |d| | |]; try discriminate Hx; cbn in Hx.
    - destruct nul; [|done]. exists None, []. split; [|done]. rewrite <-Hx. by apply emits_wr, (emits_int32 (mkInt32 _)).
    - split_some. exists (Some d), x. unfold record_batches in H. destruct (records_loop _ d []) eqn:Hd; try done.
      injection H as ->. split; [|split; [done|]].
      + rewrite <-H0. by apply (Bytes_writes v false (mkBytes d)).
      + cbn. unfold record_batches. by rewrite Hd. }
  exists (mkRecords l). split; [|by rewrite Hv]. unfold rd, read, Records_ReadType, Records_read.
  apply rmap_err_ok. destruct (Hw bs) as [_ Hw']. specialize (Hw' eq_refl). apply omap_err_ok in Hw'.
  erewrite run_read by (first [exact Hw'|done]). cbn [nullable_bytes]. cbv zeta.
  rewrite Hl. done.
Qed.
End relations.

Section records.
Context {VC : VarIntCrate} {VO : VarIntCrateOk} {CC : Codecs} {CO : CodecsOk} {prof : Profile}.

Lemma Records_writes v nul : writes_as v TRecords false nul wr wf records_block.
Proof.
  intros [l] Hl. unfold records_block. cbn [records_0]. apply emits_wr.
  unfold write at 1, Records_WriteType, Records_write. cbn [records_0].
  destruct (write_many write l) as [d|e|p] eqn:Hd; cbn [obind]; [|by intros bs..].
  destruct (records_loop_app l d [] (length d) [] Hl Hd) as (g & _ & Heq); [by rewrite app_nil_r|].
  rewrite app_nil_r in Heq. cbn. unfold record_batches. rewrite Heq.
  replace (records_loop g [] ([] ++ l)) with (Ok ([] ++ l) : outcome ReadError _) by (by destruct g).
  apply emits_wr_inv. by apply (Bytes_writes v nul (mkBytes d)).
Qed.
End records.

(** ** Structures, one version at a time *)
Lemma enc_struct batches v fs flex nul xs tags :
  enc batches v (TStruct fs) flex nul (VStruct xs tags) =
  enc_fields batches v fs flex xs +o+ (if flex then enc_tags tags else Some []).
Proof. done. Qed.
Lemma enc_fields_cons batches v n a t fs flex x xs :
  enc_fields batches v (FCons n a t fs) flex (x :: xs) =
  (if has a v then enc batches v t (compacts a flex) (may_be_null a v) x else Some []) +o+
  enc_fields batches v fs flex xs.
Proof. done. Qed.
Lemma enc_fields_nil batches v flex : enc_fields batches v FNil flex [] = Some [].
Proof. done. Qed.

Lemma wseq_nil_l {E} (w : writer E) : wnil ;+ w = w.
Proof. by destruct w. Qed.
Lemma wseq_nil_r {E} (w : writer E) : w ;+ wnil = w.
Proof. destruct w; try done. unfold wseq, wnil. simpl. by rewrite app_nil_r. Qed.
Lemma wseq_assoc {E} (a b c : writer E) : (a ;+ b) ;+ c = a ;+ (b ;+ c).
Proof. destruct a, b, c; try done. unfold wseq. simpl. by rewrite app_assoc. Qed.

Create HintDb schema.
#[export] Hint Extern 1 (_ <= vnum _ <= _) => (vm_compute; split; discriminate) : schema.

(** From a range of versions to each of them. *)
Ltac each_version version H :=
  let n := fresh "n" in
  destruct version as [[n]]; unfold vnum in *; cbn [api_version_0 int16] in *;
  repeat match type of H with
  | ?lo <= n <= ?hi =>
      let lo' := eval vm_compute in (lo + 1) in
      destruct (Z.eq_dec n lo) as [->|];
      [clear H|first [exfalso; lia|let H' := fresh in assert (H' : lo' <= n <= hi) by lia; clear H; rename H' into H]]
  end;
  repeat match goal with |- context [mkApiVersion (mkInt16 ?k)] => fold (V k) end.

(** Decides what depends on the version. *)
Ltac at_version :=
  repeat match goal with
  | |- context [has ?a ?k] => let b := eval vm_compute in (has a k) in change (has a k) with b
  | |- context [may_be_null ?a ?k] =>
      let b := eval vm_compute in (may_be_null a k) in change (may_be_null a k) with b
  | |- context [compacts ?a ?b] => let c := eval vm_compute in (compacts a b) in change (compacts a b) with c
  | |- context [?a <=? ?b] => let c := eval vm_compute in (a <=? b) in change (a <=? b) with c
  | |- context [?a <? ?b] => let c := eval vm_compute in (a <? b) in change (a <? b) with c
  | |- context [?a =? ?b] => let c := eval vm_compute in (a =? b) in change (a =? b) with c
  end;
  rewrite ?andb_false_r; cbn [andb orb negb write_when oassert obind].

Ltac emit_leaf :=
  match goal with
  | |- emits wnil (Some []) => apply emits_nil
  | |- emits (@wr Boolean _ ?x) _ => apply (Boolean_writes _ _ _ x)
  | |- emits (@wr Int8 _ ?x) _ => apply (Int8_writes _ _ _ x)
  | |- emits (@wr Int16 _ ?x) _ => apply (Int16_writes _ _ _ x)
  | |- emits (@wr Int32 _ ?x) _ => apply (Int32_writes _ _ _ x)
  | |- emits (@wr Int64 _ ?x) _ => apply (Int64_writes _ _ _ x)
  | |- emits (@wr String_ _ ?x) _ => apply (String_writes _ _ x)
  | |- emits (@wr NullableString _ ?x) _ => apply (NullableString_writes _ x)
  | |- emits (@wr CompactString _ ?x) _ => apply (CompactString_writes _ _ x)
  | |- emits (@wr Bytes _ ?x) _ => apply (Bytes_writes _ _ x)
  | |- emits (@wr Records _ ?x) _ => apply (Records_writes _ _ x)
  | |- emits (@wr TaggedFields _ ?x) _ => apply (TaggedFields_emits x)
  | |- emits (omap_err _ (CompactStringRef_write ?x)) _ => apply (CompactStringRef_writes _ _ x)
  | |- emits (omap_err _ (CompactNullableStringRef_write ?x)) _ => apply (CompactNullableStringRef_writes _ x)
  | |- emits (omap_err _ (CompactBytesRef_write ?x)) _ => apply (CompactBytesRef_writes _ _ x)
  | |- emits (@wr (Array Int32) _ ?x) _ => apply (Array_writes _ _ _ (Int32_writes _ _ _) _ x)
  | |- emits (@wr (Array String_) _ ?x) _ => apply (Array_writes _ _ _ (String_writes _ _) _ x)
  | |- emits (omap_err _ (CompactArrayRef_write write ?l)) _ => apply (CompactInt32s_emits _ _ l)
  | |- emits (omap_err _ (CompactArrayRef_write CompactStringRef_write ?l)) _ =>
      apply (CompactStrings_emits _ _ l)
  | |- emits (write_versioned_array ?ver ?l) _ =>
      eapply (versioned_array_writes ver _ _ _ _) with (a := l); [solve [eauto with schema]|]
  | |- emits (write_compact_versioned_array ?ver ?l) _ =>
      eapply (compact_versioned_array_writes ver _ _ _ _) with (a := l); [solve [eauto with schema]|]
  end.

(** The writer of a structure against its schema. *)
Ltac emit_struct :=
  rewrite enc_struct, !enc_fields_cons, enc_fields_nil; unfold wr_or; at_version;
  rewrite ?wseq_nil_l, ?wseq_nil_r, ?wseq_assoc, ?oapp_nil_l, ?oapp_nil_r, ?oapp_assoc,
    ?oapp_nil_l, ?oapp_nil_r;
  repeat apply emits_app; first [emit_leaf|idtac].

Lemma wf_default `{WellFormed A} (d : A) o : wf d -> from_option wf True o -> wf (default d o).
Proof. by destruct o. Qed.

Lemma Int8_from_IsolationLevel_wf l : wf (Int8_from_IsolationLevel l).
Proof. by destruct l. Qed.

Lemma from_option_present {A} (P : A -> Prop) (Q : Prop) o : from_option P False o -> from_option P Q o.
Proof. by destruct o. Qed.

Ltac solve_wf :=
  try first
    [ assumption
    | apply wf_default; [first [assumption|apply TaggedFields_default_wf|apply NullableString_default_wf|apply CompactString_default_wf|done]|assumption]
    | apply from_option_present; assumption
    | apply Int8_from_IsolationLevel_wf
    | apply Int16_from_ApiKey_range; assumption
    | done ].

Ltac split_wf Hx := hnf in Hx; repeat match goal with H : _ /\ _ |- _ => destruct H end.

(** From [write_versioned] to the body of the writer, and from the names of a
    value and of a schema to what they stand for. *)
Ltac unfold_writer :=
  unfold write_versioned;
  do 2 match goal with |- emits (?f ?v ?x) _ => let h := head_of f in unfold h end;
  match goal with
  | |- emits _ (enc _ _ (TStruct ?fs) _ _ (?f ?x)) =>
      let h := head_of f in unfold h; unfold fs
  end.

(** A writer follows its schema at each version of a range. *)
Ltac writer_follows :=
  let version := fresh "version" in let Hv := fresh "Hv" in let x := fresh "x" in let Hx := fresh "Hx" in
  intros version Hv; each_version version Hv; intros x Hx; split_wf Hx;
  unfold_writer; emit_struct; solve_wf.

(** ** Readers of structures *)
Definition error_val (e : option Errors.Error) : val := Int16_val (Int16_from_Error e).
Lemma error_val_new code : error_val (Error_new (int16 code)) = Int16_val code.
Proof. unfold error_val. by rewrite Int16_of_Error_new. Qed.

Lemma enc_struct_inv batches v fs flex nul x bs :
  enc batches v (TStruct fs) flex nul x = Some bs ->
  exists xs tags b1 b2, x = VStruct xs tags /\ enc_fields batches v fs flex xs = Some b1 /\
    (if flex then enc_tags tags else Some []) = Some b2 /\ bs = b1 ++ b2.
Proof.
  destruct x as [| | | | | | | |xs tags]; try done. rewrite enc_struct. intros H. split_some. eauto 10.
Qed.
Lemma enc_fields_cons_inv batches v n a t fs flex xs bs :
  enc_fields batches v (FCons n a t fs) flex xs = Some bs ->
  exists x xs' b1 b2, xs = x :: xs' /\
    (if has a v then enc batches v t (compacts a flex) (may_be_null a v) x else Some []) = Some b1 /\
    enc_fields batches v fs flex xs' = Some b2 /\ bs = b1 ++ b2.
Proof.
  destruct xs as [|x xs]; [done|]. rewrite enc_fields_cons. intros H. split_some. eauto 10.
Qed.
Lemma enc_fields_nil_inv batches v flex xs bs :
  enc_fields batches v FNil flex xs = Some bs -> xs = [] /\ bs = [].
Proof. destruct xs; [|done]. rewrite enc_fields_nil. by intros [= <-]. Qed.

(** One field of a structure. *)
Lemma reads_step {VC : VarIntCrate} {CC : Codecs} {prof : Profile} {A B} v t flex nul
    (r : reader ReadVersionedError A) f (k : A -> reader ReadVersionedError B) x b s s' (Q : B -> Prop) :
  enc record_batches v t flex nul x = Some b -> reads_as v t flex nul r f ->
  (forall a, view record_batches v false t flex (f a) = view record_batches v true t flex x ->
     exists z, k a s = Ok (z, s') /\ Q z) ->
  exists z, rbind r k (b +> s) = Ok (z, s') /\ Q z.
Proof.
  intros Hx Hr Hk. destruct (Hr x b s Hx) as (a & Ha & Hv). rewrite (rbind_run _ _ _ _ _ Ha).
  by apply Hk.
Qed.
Lemma reads_tags_step {B} (k : TaggedFields -> reader ReadVersionedError B) tags b s s' (Q : B -> Prop) :
  enc_tags tags = Some b ->
  (forall a, tags_of a = tags -> exists z, k a s = Ok (z, s') /\ Q z) ->
  exists z, rbind (rd TaggedFields) k (b +> s) = Ok (z, s') /\ Q z.
Proof.
  intros Hx Hk. destruct (TaggedFields_reads tags b s Hx) as (a & Ha & Ht).
  rewrite (rbind_run _ _ _ _ _ Ha). by apply Hk.
Qed.

Lemma view_struct batches v b fs flex xs tags :
  view batches v b (TStruct fs) flex (VStruct xs tags) =
  VStruct (view_fields batches v b fs flex xs) (if flex then tags else []).
Proof. done. Qed.
Lemma view_fields_cons batches v b n a t fs flex x xs :
  view_fields batches v b (FCons n a t fs) flex (x :: xs) =
  (if has a v then view batches v b t (compacts a flex) x else VAbsent) :: view_fields batches v b fs flex xs.
Proof. done. Qed.
Lemma view_fields_nil batches v b flex xs : view_fields batches v b FNil flex xs = [].
Proof. done. Qed.

Ltac at_version_in H :=
  repeat match type of H with
  | context [has ?a ?k] => let b := eval vm_compute in (has a k) in change (has a k) with b in H
  | context [may_be_null ?a ?k] =>
      let b := eval vm_compute in (may_be_null a k) in change (may_be_null a k) with b in H
  | context [compacts ?a ?b] =>
      let c := eval vm_compute in (compacts a b) in change (compacts a b) with c in H
  | context [?a <=? ?b] => let c := eval vm_compute in (a <=? b) in change (a <=? b) with c in H
  end; cbv iota in H.

(** The fields in an encoded structure. *)
Ltac invert_struct H :=
  let xs := fresh "xs" in let tags := fresh "tags" in let Hf := fresh "Hf" in let Ht := fresh "Ht" in
  apply enc_struct_inv in H as (xs & tags & ? & ? & -> & Hf & Ht & ->);
  at_version_in Ht;
  repeat match type of Hf with
  | enc_fields _ _ (FCons _ _ _ _) _ _ = _ =>
      let Hx := fresh "Hx" in
      apply enc_fields_cons_inv in Hf as (? & ? & ? & ? & -> & Hx & Hf & ->); at_version_in Hx;
      match type of Hx with Some [] = Some _ => injection Hx as <- | _ => idtac end
  end;
  apply enc_fields_nil_inv in Hf as [-> ->];
  match type of Ht with Some [] = Some _ => injection Ht as <- | _ => idtac end.

Ltac read_leaf :=
  first
  [ apply Boolean_reads | apply Int8_reads | apply Int16_reads | apply Int32_reads | apply Int64_reads
  | apply String_reads | apply NullableString_reads | apply CompactString_reads
  | apply CompactNullableString_reads | apply Bytes_reads | apply CompactBytes_reads
  | apply Records_reads | apply read_name_reads
  | apply (Array_reads _ _ _ (Int32_writes _ _ _)); [by apply (int_covers _ 4 _ _ mkInt32)|done]
  | apply (Array_reads _ _ _ (Int64_writes _ _ _)); [by apply (int_covers _ 8 _ _ mkInt64)|done]
  | apply (Array_reads _ _ _ (String_writes _ _)); [by apply (string_covers _ _ mkString_)|done]
  | eapply (versioned_array_reads (V _)); solve [eauto with schema]
  | eapply (compact_versioned_array_reads (V _)); solve [eauto with schema]
  | eapply (read_vec_reads (V _)); solve [eauto with schema]
  | eapply (read_compact_vec_reads (V _)); solve [eauto with schema]
  | solve [eauto with schema] ].

Ltac read_steps :=
  rewrite ?run_read_when; cbv iota;
  match goal with
  | |- exists z, rbind (rassert true) _ _ = _ /\ _ => erewrite rbind_run by apply rassert_true; read_steps
  | |- exists z, rbind (rd TaggedFields) _ (?b +> _) = _ /\ _ =>
      eapply reads_tags_step; [eassumption|intros ? ?; read_steps]
  | |- exists z, rbind _ _ (?b +> _) = _ /\ _ =>
      eapply reads_step; [eassumption|read_leaf|intros ? ?; read_steps]
  | |- exists z, rret _ _ = _ /\ _ => eexists; split; [reflexivity|]
  end.

Ltac unfold_struct_reader :=
  unfold read_versioned;
  do 2 match goal with |- exists a, ?f ?v _ = _ /\ _ => let h := head_of f in unfold h end.

(** A reader follows its schema at each version of a range. *)
Ltac reader_follows :=
  let version := fresh "version" in let Hv := fresh "Hv" in let Hx := fresh "Hx" in
  intros version Hv; each_version version Hv; intros ? ? ? Hx;
  match type of Hx with enc _ _ (TStruct ?fs) _ _ _ = _ => unfold fs in Hx |- * end;
  at_version_in Hx; invert_struct Hx;
  unfold_struct_reader; at_version; rewrite ?src_app_app, ?src_app_nil;
  read_steps;
  match goal with |- view _ _ _ _ _ (?f _) = _ => let h := head_of f in unfold h end;
  rewrite !view_struct, !view_fields_cons, !view_fields_nil; at_version;
  repeat match goal with H : _ = view _ _ true _ _ _ |- _ => rewrite <-H; clear H end;
  cbn; rewrite ?error_val_new, ?Int16_of_ApiKey_of_Int16; unfold tags_or; cbn; repeat match goal with H : tags_of _ = _ |- _ => rewrite H; clear H end;
  try reflexivity.
