(* ===== verification/RoundtripTests.v ===== *)
(** * The round-trip property tests

    The macros [test_roundtrip!] (src/protocol/test_utils.rs) and
    [test_roundtrip_versioned!] (src/protocol/messages/test_utils.rs) as
    predicates on the generated value, and the tests made with them.  The
    repository samples values; here the tests pass for all of them.  That needs
    one more fact about the writers: they do not panic. *)

From Stdlib Require Import ZArith Lia.
From stdpp Require Import base list numbers.
From S2P Require Import Prelude Bytes Wire VecBuilder Varint Primitives PrimitiveLaws Record Codec RecordBatch RefCrates.
From S2P Require Import ApiKey ErrorCode Versioned Header ApiVersionsMsg Schema SchemaLaws.

Local Open Scope Z_scope.
Local Open Scope rust_scope.

(** ** The macros *)

(** [buf.position()] after a read that leaves [rest] of [buf]. *)
Definition position (buf : list byte) (rest : src) : Z := zlen buf - zlen (src_data rest).

(** [test_roundtrip!(T, name)] on a value. *)
Definition test_roundtrip {A} `{ReadType A, WriteType A} (orig : A) : Prop :=
  match write orig with
  | Err _ => True
  | Panic _ => False
  | Ok buf =>
      let l := zlen buf in
      match read (A:=A) (cursor buf) with
      | Ok (restored, rest) => orig = restored /\ position buf rest = l
      | _ => False
      end
  end.

(** [test_roundtrip_versioned!(T, min, max, name)]: the loop body. *)
Definition test_roundtrip_at {A} `{ReadVersionedType A, WriteVersionedType A} (v : ApiVersion) (orig : A) : Prop :=
  match write_versioned v orig with
  | Err _ => True
  | Panic _ => False
  | Ok buf =>
      match read_versioned (A:=A) v (cursor buf) with
      | Ok (restored_1, _) =>
          match write_versioned v restored_1 with
          | Ok buf =>
              let l := zlen buf in
              match read_versioned (A:=A) v (cursor buf) with
              | Ok (restored_2, rest) => restored_1 = restored_2 /\ position buf rest = l
              | _ => False
              end
          | _ => False
          end
      | _ => False
      end
  end.

Definition test_roundtrip_versioned {A} `{ReadVersionedType A, WriteVersionedType A} (min max : ApiVersion)
    (orig : A) : Prop :=
  forall v, vnum min <= v <= vnum max -> test_roundtrip_at (V v) orig.

(** ** Writers that do not panic *)
Definition quiet {E} (w : writer E) : Prop := forall p, w <> Panic p.

Class QuietWrite (A : Type) `{WriteType A, WellFormed A} : Prop :=
  write_quiet : forall x : A, wf x -> quiet (write x).

Create HintDb quiet discriminated.

Lemma quiet_all {E} bs : quiet (write_all bs : writer E).
Proof. by intros p. Qed.
Lemma quiet_nil {E} : quiet (wnil : writer E).
Proof. by intros p. Qed.
Lemma quiet_seq {E} (a b : writer E) : quiet a -> quiet b -> quiet (a ;+ b).
Proof. intros Ha Hb p. specialize (Ha p). specialize (Hb p). unfold wseq. destruct a, b; simpl; congruence. Qed.
Lemma quiet_bind {E A} (m : outcome E A) (k : A -> writer E) :
  (forall p, m <> Panic p) -> (forall a, m = Ok a -> quiet (k a)) -> quiet (obind m k).
Proof. intros Hm Hk p. specialize (Hm p). destruct m as [a|e|q]; simpl; [by apply Hk|done|congruence]. Qed.
Lemma quiet_ok_or {E A} (e : E) (g : option A) (k : A -> writer E) :
  (forall a, g = Some a -> quiet (k a)) -> quiet (obind (ok_or e g) k).
Proof. intros Hk. apply quiet_bind; [by destruct g|]. intros a Ha%ok_or_ok. by apply Hk. Qed.
Lemma quiet_map_err {E F} (f : E -> F) (w : writer E) : quiet w -> quiet (omap_err f w).
Proof. intros Hw p. specialize (Hw p). destruct w; simpl; congruence. Qed.
Lemma quiet_many {E A} (w : A -> writer E) l : Forall (fun x => quiet (w x)) l -> quiet (write_many w l).
Proof. induction 1; simpl; [apply quiet_nil|by apply quiet_seq]. Qed.
Lemma quiet_write `{QuietWrite A} (x : A) : wf x -> quiet (write x).
Proof. apply write_quiet. Qed.
Lemma quiet_writes `{QuietWrite A} (l : list A) : Forall wf l -> quiet (write_many write l).
Proof. intros Hl. apply quiet_many. eapply list.Forall_impl; [exact Hl|]. apply write_quiet. Qed.

#[export] Hint Resolve quiet_all quiet_nil quiet_seq quiet_ok_or quiet_map_err quiet_writes : quiet.

(** A checked conversion gives a number in range. *)
Lemma quiet_uvarint n : in_unsigned 64 n -> quiet (write (mkUnsignedVarint n)).
Proof.
  intros Hn p Hw. destruct (emits_uvarint n Hn (leb128 10 n)) as [_ H].
  rewrite enc_uvarint_range in H by done. rewrite H in Hw by done. done.
Qed.
Lemma unsigned_some n m : unsigned_try_from 64 n = Some m -> in_unsigned 64 m.
Proof. intros [-> Hr]%unsigned_try_from_some. done. Qed.

Ltac quiet_tac :=
  repeat match goal with
  | |- quiet (obind (ok_or _ _) _) => apply quiet_ok_or; intros
  | |- quiet (_ ;+ _) => apply quiet_seq
  | |- quiet (write (mkUnsignedVarint _)) => apply quiet_uvarint
  | |- quiet _ => first [by intros ?p|solve [auto with quiet]]
  | |- in_unsigned 64 _ => first [by eapply unsigned_some|by unfold in_unsigned]
  end.

#[export] Instance Boolean_Quiet : QuietWrite Boolean.
Proof. by intros [[]] _ p. Qed.
#[export] Instance Int8_Quiet : QuietWrite Int8.
Proof. by intros x _ p. Qed.
#[export] Instance Int16_Quiet : QuietWrite Int16.
Proof. by intros x _ p. Qed.
#[export] Instance Int32_Quiet : QuietWrite Int32.
Proof. by intros x _ p. Qed.
#[export] Instance Int64_Quiet : QuietWrite Int64.
Proof. by intros x _ p. Qed.
#[export] Instance UnsignedVarint_Quiet : QuietWrite UnsignedVarint.
Proof. intros [n] Hn. by apply quiet_uvarint. Qed.
#[export] Instance NullableString_Quiet : QuietWrite NullableString.
Proof. intros [[s|]] _; unfold write, NullableString_WriteType, NullableString_write; cbn; quiet_tac. Qed.
#[export] Instance String_Quiet : QuietWrite String_.
Proof. intros [s] _; unfold write, String_WriteType, String_write; cbn; quiet_tac. Qed.
#[export] Instance CompactString_Quiet : QuietWrite CompactString.
Proof.
  intros [s] _; unfold write, CompactString_WriteType, CompactString_write, CompactStringRef_write; cbn; quiet_tac.
Qed.
#[export] Instance CompactNullableString_Quiet : QuietWrite CompactNullableString.
Proof.
  intros [[s|]] _; unfold write, CompactNullableString_WriteType, CompactNullableString_write,
    CompactNullableStringRef_write; cbn; quiet_tac.
Qed.
#[export] Instance Bytes_Quiet : QuietWrite Bytes.
Proof. intros [s] _; unfold write, Bytes_WriteType, Bytes_write; cbn; quiet_tac. Qed.
#[export] Instance CompactBytes_Quiet : QuietWrite CompactBytes.
Proof.
  intros [s] _; unfold write, CompactBytes_WriteType, CompactBytes_write, CompactBytesRef_write; cbn; quiet_tac.
Qed.
#[export] Instance NullableBytes_Quiet : QuietWrite NullableBytes.
Proof. intros [[s|]] _; unfold write, NullableBytes_WriteType, NullableBytes_write; cbn; quiet_tac. Qed.
#[export] Instance TaggedFields_Quiet : QuietWrite TaggedFields.
Proof.
  intros [l] Hl. unfold write, TaggedFields_WriteType, TaggedFields_write; cbn. apply quiet_ok_or. intros n Hn.
  apply quiet_seq; [quiet_tac|]. apply quiet_many. eapply list.Forall_impl; [exact Hl|].
  intros [[tag] data] Ht. unfold tagged_field_write. apply quiet_seq; [by apply quiet_uvarint|]. quiet_tac.
Qed.
#[export] Instance Array_Quiet `{QuietWrite T} : QuietWrite (Array T).
Proof.
  intros [[l|]] Hl; [|by intros p]. change (write (mkArray (Some l))) with (ArrayRef_write write (Some l)).
  unfold ArrayRef_write. quiet_tac. by apply quiet_writes.
Qed.
#[export] Instance CompactArray_Quiet `{QuietWrite T} : QuietWrite (CompactArray T).
Proof.
  intros [[l|]] Hl; [|by intros p].
  change (write (mkCompactArray (Some l))) with (CompactArrayRef_write write (Some l)).
  unfold CompactArrayRef_write. quiet_tac. by apply quiet_writes.
Qed.

Section records.
Context {VC : VarIntCrate} {CC : Codecs}.

#[export] Instance Varint_Quiet : QuietWrite Varint.
Proof. by intros x _ p. Qed.
#[export] Instance Varlong_Quiet : QuietWrite Varlong.
Proof. by intros x _ p. Qed.
Lemma quiet_varint_len n : quiet (write_varint_len n).
Proof. unfold write_varint_len. quiet_tac. Qed.
#[local] Hint Resolve quiet_varint_len : quiet.
#[export] Instance RecordHeader_Quiet : QuietWrite RecordHeader.
Proof. intros h _. unfold write, RecordHeader_WriteType, RecordHeader_write. quiet_tac. Qed.
#[export] Instance ControlBatchRecord_Quiet : QuietWrite ControlBatchRecord.
Proof. by intros [] _ p. Qed.
Lemma quiet_opt_bytes o : quiet (write_opt_bytes o).
Proof. destruct o; unfold write_opt_bytes; quiet_tac. Qed.
#[local] Hint Resolve quiet_opt_bytes : quiet.
Lemma quiet_record_fields r : wf r -> quiet (record_fields_write r).
Proof.
  intros (Ht & Ho & Hh). unfold record_fields_write.
  repeat (apply quiet_seq; [first [by intros p|auto with quiet]|]). by apply quiet_writes.
Qed.
#[export] Instance Record_Quiet : QuietWrite Record_.
Proof.
  intros r Hr. unfold write, Record_WriteType, Record_write. apply quiet_bind; [by apply quiet_record_fields|].
  intros data _. auto with quiet.
Qed.

Lemma quiet_records r : wf r -> quiet (write_records r).
Proof. destruct r as [c|l]; intros Hr; [by apply ControlBatchRecord_Quiet|by apply quiet_writes]. Qed.
Lemma quiet_encode c r : wf r -> quiet (encode_records c r).
Proof.
  intros Hr%quiet_records. destruct c; unfold encode_records; [done|..]; (case_match; [|by intros p]);
    apply quiet_bind; try done; intros plain _ p; apply of_sum_no_panic.
Qed.
Lemma quiet_body b : wf b -> quiet (RecordBatchBody_write b).
Proof.
  intros (_ & _ & _ & _ & _ & _ & Hr). unfold RecordBatchBody_write.
  repeat (apply quiet_seq; [first [by intros p|quiet_tac]|]). by apply quiet_encode.
Qed.
#[export] Instance RecordBatch_Quiet : QuietWrite RecordBatch.
Proof.
  intros b (_ & _ & Hb). unfold write, RecordBatch_WriteType, RecordBatch_write.
  apply quiet_bind; [by apply quiet_body|]. intros data _.
  repeat (apply quiet_seq; [first [by intros p|quiet_tac]|]). apply quiet_all.
Qed.
#[export] Instance Records_Quiet : QuietWrite Records.
Proof.
  intros [l] Hl. unfold write, Records_WriteType, Records_write.
  apply quiet_bind; [by apply quiet_writes|]. intros buf _. by apply NullableBytes_Quiet.
Qed.
End records.

(** ** The tests pass for every value *)
Lemma position_end buf : position buf (cursor []) = zlen buf.
Proof. unfold position. rewrite (zlen_nil : zlen (src_data (cursor [])) = 0). lia. Qed.

Lemma roundtrip_passes `{RoundTrip A} `{!QuietWrite A} (x : A) : wf x -> test_roundtrip x.
Proof.
  intros Hx. unfold test_roundtrip. pose proof (write_quiet x Hx) as Hq.
  destruct (write x) as [buf|e|p] eqn:Hw; [|done|by destruct (Hq p)].
  pose proof (read_write x buf (cursor []) Hx Hw) as Hr. rewrite src_app_cursor in Hr. rewrite Hr.
  split; [done|apply position_end].
Qed.

(** What is restored is written to the same bytes. *)
Lemma versioned_passes {A} `{ReadVersionedType A, WriteVersionedType A} (ok : A -> Prop) norm v x :
  versioned_round_trip ok norm -> ok x -> quiet (write_versioned v x) ->
  write_versioned v (norm v x) = write_versioned v x -> test_roundtrip_at v x.
Proof.
  intros Hrt Hx Hq Hn. unfold test_roundtrip_at.
  destruct (write_versioned v x) as [buf|e|p] eqn:Hw; [|done|by destruct (Hq p)].
  pose proof (Hrt v x buf (cursor []) Hx Hw) as Hr. rewrite src_app_cursor in Hr. rewrite Hr, Hn, Hr.
  split; [done|apply position_end].
Qed.

Lemma quiet_wr `{QuietWrite A} (x : A) : wf x -> quiet (wr x).
Proof. intros Hx. by apply quiet_map_err, write_quiet. Qed.

Lemma quiet_when b (w : writer WriteVersionedError) : quiet w -> quiet (write_when b w).
Proof. by destruct b. Qed.

Lemma quiet_wr_or `{QuietWrite A} (d : A) o : wf d -> from_option wf True o -> quiet (wr_or d o).
Proof. intros. apply quiet_wr. by destruct o. Qed.

Lemma write_when_norm {A} `{WriteType A} b (d : A) o :
  write_when b (wr_or d (norm_when b d o)) = write_when b (wr_or d o).
Proof. by destruct b. Qed.

Lemma quiet_oassert (b : bool) (k : unit -> writer WriteVersionedError) :
  b = true -> quiet (k tt) -> quiet (obind (oassert b) k).
Proof. by intros ->. Qed.

Lemma RequestHeader_passes orig v : wf orig -> 0 <= v <= 2 -> test_roundtrip_at (V v) (orig : RequestHeader).
Proof.
  intros Hx Hv. apply (versioned_passes wf RequestHeader_norm); [apply RequestHeader_round_trip|done| |].
  - destruct Hx as (Hk & _ & _ & Hc & Ht). apply quiet_oassert; [apply Z.leb_le; cbn; lia|].
    repeat (apply quiet_seq; [first [by intros p|by apply quiet_when, quiet_wr_or]|]).
    by apply quiet_when, quiet_wr_or; [apply TaggedFields_default_wf|].
  - unfold write_versioned, RequestHeader_WriteVersioned, RequestHeader_write_versioned. cbn.
    by rewrite !write_when_norm.
Qed.

Lemma ResponseHeader_passes orig v : wf orig -> 0 <= v <= 1 -> test_roundtrip_at (V v) (orig : ResponseHeader).
Proof.
  intros Hx Hv. apply (versioned_passes wf ResponseHeader_norm); [apply ResponseHeader_round_trip|done| |].
  - destruct Hx as (_ & Ht). apply quiet_oassert; [apply Z.leb_le; cbn; lia|].
    apply quiet_seq; [by intros p|]. by apply quiet_when, quiet_wr_or; [apply TaggedFields_default_wf|].
  - unfold write_versioned, ResponseHeader_WriteVersioned, ResponseHeader_write_versioned. cbn.
    by rewrite !write_when_norm.
Qed.

Lemma ApiVersionsRequest_passes orig v :
  wf orig -> 0 <= v <= 3 -> test_roundtrip_at (V v) (orig : ApiVersionsRequest).
Proof.
  intros Hx Hv. apply (versioned_passes wf ApiVersionsRequest_norm); [apply ApiVersionsRequest_round_trip|done| |].
  - destruct Hx as (Hn & Hs & Ht). apply quiet_oassert; [apply Z.leb_le; cbn; lia|]. apply quiet_when.
    repeat (apply quiet_seq; [by apply quiet_wr_or|]). by apply quiet_wr_or; [apply TaggedFields_default_wf|].
  - unfold write_versioned, ApiVersionsRequest_WriteVersioned, ApiVersionsRequest_write_versioned.
    unfold ApiVersionsRequest_norm. by destruct (3 <=? vnum (V v)).
Qed.

Lemma ApiVersionsResponseApiKey_same v (x : ApiVersionsResponseApiKey) :
  write_versioned v (ApiVersionsResponseApiKey_norm v x) = write_versioned v x.
Proof.
  unfold write_versioned, ApiVersionsResponseApiKey_WriteVersioned, ApiVersionsResponseApiKey_write_versioned.
  cbn. by rewrite !write_when_norm.
Qed.

Lemma ApiVersionsResponseApiKey_quiet v (x : ApiVersionsResponseApiKey) :
  wf x -> vnum v <= 3 -> quiet (write_versioned v x).
Proof.
  intros (_ & _ & _ & Ht) Hv. apply quiet_oassert; [by apply Z.leb_le|].
  repeat (apply quiet_seq; [by intros p|]). by apply quiet_when, quiet_wr_or; [apply TaggedFields_default_wf|].
Qed.

Lemma write_many_norm {A} `{WriteVersionedType A} v (f : A -> A) l :
  (forall x, write_versioned v (f x) = write_versioned v x) ->
  write_many (write_versioned v) (map f l) = write_many (write_versioned v) l.
Proof. intros Hf. induction l as [|x l IH]; simpl; [done|]. by rewrite Hf, IH. Qed.

Lemma ApiVersionsResponse_passes orig v :
  wf orig -> 0 <= v <= 3 -> test_roundtrip_at (V v) (orig : ApiVersionsResponse).
Proof.
  intros Hx Hv. apply (versioned_passes wf ApiVersionsResponse_norm); [apply ApiVersionsResponse_round_trip|done| |].
  - destruct Hx as (_ & Hk & Hth & Ht). apply quiet_oassert; [apply Z.leb_le; cbn; lia|].
    assert (quiet (write_many (write_versioned (V v)) (api_keys orig))) as Hm.
    { apply quiet_many. eapply list.Forall_impl; [exact Hk|]. intros x Hx.
      apply ApiVersionsResponseApiKey_quiet; [done|]. by destruct Hv. }
    apply quiet_seq; [by intros p|]. apply quiet_seq.
    { case_match; apply quiet_ok_or; intros n Hn; (apply quiet_seq; [|done]).
      - apply quiet_wr. by eapply unsigned_some.
      - by intros p. }
    apply quiet_seq; [by apply quiet_when, quiet_wr_or|].
    by apply quiet_when, quiet_wr_or; [apply TaggedFields_default_wf|].
  - unfold write_versioned, ApiVersionsResponse_WriteVersioned, ApiVersionsResponse_write_versioned.
    unfold ApiVersionsResponse_norm, write_compact_versioned_array, write_versioned_array.
    cbn [avresp_error_code api_keys avresp_throttle_time_ms avresp_tagged_fields].
    rewrite !write_when_norm, !write_many_norm by apply ApiVersionsResponseApiKey_same.
    unfold zlen. by rewrite !length_map.
Qed.

(** ** src/protocol/api_key.rs *)
Definition test_roundrip_int16 : Prop :=
  forall code : Int16, wf code ->
  let api_key := ApiKey_from_Int16 code in
  let code2 := Int16_from_ApiKey api_key in
  code = code2.

(** An arbitrary key: its code is one of 16 bits. *)
Definition arbitrary_key (key : ApiKeys.ApiKey) : Prop :=
  match key with
  | ApiKeys.Unknown x => wf x
  | _ => True
  end.

Definition test_roundrip_api_key : Prop :=
  forall key : ApiKeys.ApiKey, arbitrary_key key ->
  let key := match key with
             | ApiKeys.Unknown x => ApiKey_from_Int16 x
             | _ => key
             end in
  let code := Int16_from_ApiKey key in
  let key2 := ApiKey_from_Int16 code in
  key = key2.

Lemma api_key_tests_pass : test_roundrip_int16 /\ test_roundrip_api_key.
Proof.
  split.
  - intros code _. symmetry. apply Int16_of_ApiKey_of_Int16.
  - intros key Hkey. symmetry. apply ApiKey_of_Int16_of_ApiKey.
    destruct key; try done. by apply ApiKey_from_Int16_wf.
Qed.

(** ** Keys of an arbitrary value

    [Unknown] can hold a code that has a name; it is written like that name, and
    read back as it. *)
Definition named_key (key : ApiKeys.ApiKey) : ApiKeys.ApiKey := ApiKey_from_Int16 (Int16_from_ApiKey key).

Lemma named_key_wf key : arbitrary_key key -> api_key_wf (named_key key).
Proof. intros Hk. apply ApiKey_from_Int16_wf. destruct key; try done; unfold in_signed; simpl; lia. Qed.

Lemma named_key_code key : Int16_from_ApiKey (named_key key) = Int16_from_ApiKey key.
Proof. apply Int16_of_ApiKey_of_Int16. Qed.

Lemma test_roundtrip_same {A} `{ReadVersionedType A, WriteVersionedType A} v (x y : A) :
  write_versioned v x = write_versioned v y -> test_roundtrip_at v y -> test_roundtrip_at v x.
Proof. unfold test_roundtrip_at. by intros ->. Qed.

Definition RequestHeader_named (x : RequestHeader) : RequestHeader :=
  mkRequestHeader (named_key (request_api_key x)) (request_api_version x) (request_correlation_id x)
    (request_client_id x) (request_tagged_fields x).
Definition ApiVersionsResponseApiKey_named (x : ApiVersionsResponseApiKey) : ApiVersionsResponseApiKey :=
  mkApiVersionsResponseApiKey (named_key (api_key x)) (min_version x) (max_version x) (avkey_tagged_fields x).
Definition ApiVersionsResponse_named (x : ApiVersionsResponse) : ApiVersionsResponse :=
  mkApiVersionsResponse (avresp_error_code x) (map ApiVersionsResponseApiKey_named (api_keys x))
    (avresp_throttle_time_ms x) (avresp_tagged_fields x).

(** The generated values: any key, and the other fields within their types; the
    error code of a response is made with [ApiError::new]. *)
Definition arbitrary_request_header (x : RequestHeader) : Prop :=
  arbitrary_key (request_api_key x) /\ wf (api_version_0 (request_api_version x)) /\
  wf (request_correlation_id x) /\ from_option wf True (request_client_id x) /\
  from_option wf True (request_tagged_fields x).
Definition arbitrary_api_versions_key (x : ApiVersionsResponseApiKey) : Prop :=
  arbitrary_key (api_key x) /\ wf (api_version_0 (min_version x)) /\
  wf (api_version_0 (max_version x)) /\ from_option wf True (avkey_tagged_fields x).
Definition arbitrary_api_versions_response (x : ApiVersionsResponse) : Prop :=
  (exists code, wf code /\ avresp_error_code x = Error_new (int16 code)) /\
  Forall arbitrary_api_versions_key (api_keys x) /\
  from_option wf True (avresp_throttle_time_ms x) /\ from_option wf True (avresp_tagged_fields x).

Lemma arbitrary_header_passes orig v :
  arbitrary_request_header orig -> 0 <= v <= 2 -> test_roundtrip_at (V v) (orig : RequestHeader).
Proof.
  intros (Hk & Hrest) Hv. apply (test_roundtrip_same _ _ (RequestHeader_named orig)).
  - unfold write_versioned, RequestHeader_WriteVersioned, RequestHeader_write_versioned. cbn. by rewrite named_key_code.
  - apply RequestHeader_passes; [|done]. split; [by apply named_key_wf|done].
Qed.

Lemma arbitrary_response_passes orig v :
  arbitrary_api_versions_response orig -> 0 <= v <= 3 -> test_roundtrip_at (V v) (orig : ApiVersionsResponse).
Proof.
  intros ((code & Hcode & He) & Hk & Hrest) Hv. apply (test_roundtrip_same _ _ (ApiVersionsResponse_named orig)).
  - unfold write_versioned, ApiVersionsResponse_WriteVersioned, ApiVersionsResponse_write_versioned.
    unfold ApiVersionsResponse_named, write_compact_versioned_array, write_versioned_array.
    cbn [avresp_error_code api_keys avresp_throttle_time_ms avresp_tagged_fields].
    rewrite write_many_norm; [unfold zlen; by rewrite length_map|]. intros x.
    unfold write_versioned, ApiVersionsResponseApiKey_WriteVersioned, ApiVersionsResponseApiKey_write_versioned.
    cbn. by rewrite named_key_code.
  - apply ApiVersionsResponse_passes; [|done]. split; [|split; [|done]].
    + cbn. rewrite He. by apply Error_new_wf.
    + cbn. apply Forall_map. eapply list.Forall_impl; [exact Hk|]. intros x (Hx & Hy). split; [by apply named_key_wf|done].
Qed.

(** ** The tests *)
Section tests.
Context {VC : VarIntCrate} {VO : VarIntCrateOk} {CC : Codecs} {CO : CodecsOk} {prof : Profile}.

(** [RecordBatchBody] is read to the end of its input. *)
Local Instance RecordBatchBody_ReadType : ReadType RecordBatchBody := RecordBatchBody_read.
Local Instance RecordBatchBody_WriteType : WriteType RecordBatchBody := RecordBatchBody_write.

Definition test_bool_roundtrip : Prop := forall orig : Boolean, wf orig -> test_roundtrip orig.
Definition test_int8_roundtrip : Prop := forall orig : Int8, wf orig -> test_roundtrip orig.
Definition test_int16_roundtrip : Prop := forall orig : Int16, wf orig -> test_roundtrip orig.
Definition test_int32_roundtrip : Prop := forall orig : Int32, wf orig -> test_roundtrip orig.
Definition test_int64_roundtrip : Prop := forall orig : Int64, wf orig -> test_roundtrip orig.
Definition test_varint_roundtrip : Prop := forall orig : Varint, wf orig -> test_roundtrip orig.
Definition test_varlong_roundtrip : Prop := forall orig : Varlong, wf orig -> test_roundtrip orig.
Definition test_unsigned_varint_roundtrip : Prop := forall orig : UnsignedVarint, wf orig -> test_roundtrip orig.
Definition test_string_roundtrip : Prop := forall orig : String_, wf orig -> test_roundtrip orig.
Definition test_nullable_string_roundtrip : Prop := forall orig : NullableString, wf orig -> test_roundtrip orig.
Definition test_compact_string_roundtrip : Prop := forall orig : CompactString, wf orig -> test_roundtrip orig.
Definition test_compact_nullable_string_roundtrip : Prop := forall orig : CompactNullableString, wf orig -> test_roundtrip orig.
Definition test_bytes_roundtrip : Prop := forall orig : Bytes, wf orig -> test_roundtrip orig.
Definition test_compact_bytes_roundtrip : Prop := forall orig : CompactBytes, wf orig -> test_roundtrip orig.
Definition test_nullable_bytes_roundtrip : Prop := forall orig : NullableBytes, wf orig -> test_roundtrip orig.
Definition test_tagged_fields_roundtrip : Prop := forall orig : TaggedFields, wf orig -> test_roundtrip orig.
Definition test_array_roundtrip : Prop := forall orig : Array Int32, wf orig -> test_roundtrip orig.
Definition test_compact_array_roundtrip : Prop := forall orig : CompactArray Int32, wf orig -> test_roundtrip orig.
Definition test_records_roundtrip : Prop := forall orig : Records, wf orig -> test_roundtrip orig.
Definition test_record_header_roundtrip : Prop := forall orig : RecordHeader, wf orig -> test_roundtrip orig.
Definition test_record_roundtrip : Prop := forall orig : Record_, wf orig -> test_roundtrip orig.
Definition test_control_batch_record_roundtrip : Prop := forall orig : ControlBatchRecord, wf orig -> test_roundtrip orig.
Definition test_record_batch_body_roundtrip : Prop := forall orig : RecordBatchBody, wf orig -> test_roundtrip orig.
Definition test_record_batch_roundtrip : Prop := forall orig : RecordBatch, wf orig -> test_roundtrip orig.

Definition test_roundtrip_api_versions_request : Prop :=
  forall orig : ApiVersionsRequest, wf orig ->
  let range := API_VERSION_RANGE (Req:=ApiVersionsRequest) (Resp:=ApiVersionsResponse) in
  test_roundtrip_versioned (range_min range) (range_max range) orig.
Definition test_roundtrip_api_versions_response : Prop :=
  forall orig : ApiVersionsResponse, arbitrary_api_versions_response orig ->
  let range := API_VERSION_RANGE (Req:=ApiVersionsRequest) (Resp:=ApiVersionsResponse) in
  test_roundtrip_versioned (range_min range) (range_max range) orig.
Definition test_roundtrip_request_header : Prop :=
  forall orig : RequestHeader, arbitrary_request_header orig -> test_roundtrip_versioned (V 0) (V 2) orig.
Definition test_roundtrip_response_header : Prop :=
  forall orig : ResponseHeader, wf orig -> test_roundtrip_versioned (V 0) (V 1) orig.

Lemma body_passes : test_record_batch_body_roundtrip.
Proof.
  intros b Hb. unfold test_roundtrip, write, RecordBatchBody_WriteType. pose proof (quiet_body b Hb) as Hq.
  destruct (RecordBatchBody_write b) as [buf|e|p] eqn:Hw; [|done|by destruct (Hq p)].
  unfold read, RecordBatchBody_ReadType. rewrite (body_round_trip b buf Hb Hw).
  split; [done|apply position_end].
Qed.

(** C12: the property tests made with [test_roundtrip!] and
    [test_roundtrip_versioned!], and the two of api_key.rs, pass for every value
    that they can generate, not only for the sampled ones: a value of a primitive
    type, a record, a record batch or a list of batches that can be written is
    read back as it was, up to the last byte; a header or an ApiVersions message
    with any API key, [Unknown] of a code that has a name included, is restored,
    at every version, to a value that is written to bytes which are read as that
    value; no writer panics; and API keys and their codes correspond. *)
Theorem roundtrip_tests_pass :
  (test_bool_roundtrip /\ test_int8_roundtrip /\ test_int16_roundtrip /\ test_int32_roundtrip /\
   test_int64_roundtrip /\ test_varint_roundtrip /\ test_varlong_roundtrip /\ test_unsigned_varint_roundtrip) /\
  (test_string_roundtrip /\ test_nullable_string_roundtrip /\ test_compact_string_roundtrip /\
   test_compact_nullable_string_roundtrip /\ test_bytes_roundtrip /\ test_compact_bytes_roundtrip /\
   test_nullable_bytes_roundtrip /\ test_tagged_fields_roundtrip) /\
  (test_array_roundtrip /\ test_compact_array_roundtrip /\ test_records_roundtrip /\ test_record_header_roundtrip
   /\ test_record_roundtrip /\ test_control_batch_record_roundtrip /\ test_record_batch_body_roundtrip /\
   test_record_batch_roundtrip) /\
  (test_roundtrip_api_versions_request /\ test_roundtrip_api_versions_response /\
   test_roundtrip_request_header /\ test_roundtrip_response_header) /\
  (test_roundrip_int16 /\ test_roundrip_api_key).
Proof.
  split; [|split; [|split; [|split; [|exact api_key_tests_pass]]]].
  - repeat (split; [exact roundtrip_passes|]). exact roundtrip_passes.
  - repeat (split; [exact roundtrip_passes|]). exact roundtrip_passes.
  - repeat (split; [first [exact body_passes|exact roundtrip_passes]|]). exact roundtrip_passes.
  - split; [|split; [|split]]; intros orig Hx; cbv zeta; intros v Hv.
    + by apply ApiVersionsRequest_passes.
    + by apply arbitrary_response_passes.
    + by apply arbitrary_header_passes.
    + by apply ResponseHeader_passes.
Qed.
End tests.

#[local] Existing Instance debug_profile.

Definition sample_batch : RecordBatch :=
  mkRecordBatch 7 0 1 1000 1001 (-1) (-1) (-1)
    (RecordList [mkRecord 0 0 None (Some [byte_of_Z 1]) []; mkRecord 1 1 (Some []) None []]) Gzip false CreateTime.

Lemma roundtrip_batch_wf : wf sample_batch.
Proof.
  split; [by vm_compute|]. split; [by vm_compute|]. do 6 (split; [by vm_compute|]).
  repeat (constructor; [split; [by vm_compute|split; [by vm_compute|constructor]]|]). constructor.
Qed.

(** A key that is [Unknown], although its code 3 is that of Metadata. *)
Definition unnamed_header : RequestHeader :=
  mkRequestHeader (ApiKeys.Unknown (mkInt16 3)) (V 0) (mkInt32 5) None None.

Lemma roundtrip_tests_pass_witness : test_roundtrip sample_batch /\ test_roundtrip_at (V 1) unnamed_header.
Proof.
  destruct roundtrip_tests_pass as (_ & _ & (_ & _ & _ & _ & _ & _ & _ & Hb) & (_ & _ & Hh & _) & _). split.
  - exact (Hb sample_batch roundtrip_batch_wf).
  - apply (Hh unnamed_header); [|cbn; lia]. split; [by vm_compute|]. split; [by vm_compute|]. split; [by vm_compute|done].
Defined.
