(* ===== verification/RequestSchemas.v ===== *)
(** * Requests and the protocol (src/protocol/messages)

    The request schemas of the Kafka protocol at the versions the client
    supports, the value each request of the client stands for, and the proofs
    that the client writes what the schemas say. *)

From Stdlib Require Import ZArith Lia.
From stdpp Require Import base list numbers strings option.
From S2P Require Import Prelude Bytes Wire VecBuilder Varint Primitives PrimitiveLaws Record.
From S2P Require Import Codec RecordBatch ApiKey ErrorCode Versioned Header ApiVersionsMsg.
From S2P Require Import DataMessages TopicMessages SaslMessages Schema SchemaLaws.

Local Open Scope Z_scope.
Local Open Scope rust_scope.
Local Open Scope schema_scope.

(** [wf] of a request: the invariants of the types of its fields; and the
    arrays for which the protocol has no null are present. *)

(** ** Produce *)
Definition produce_partition_fields : fields :=
  "index" @ always ::: TInt 4 ;;
  "records" @ nullable 0 always ::: TRecords ;; FNil.

#[export] Instance ProduceRequestPartitionData_WellFormed : WellFormed ProduceRequestPartitionData := fun x =>
  wf (prp_index x) /\ wf (prp_records x).
Definition ProduceRequestPartitionData_val {VC : VarIntCrate} {CC : Codecs} {prof : Profile} (x : ProduceRequestPartitionData) : val :=
  VStruct
    [Int32_val (prp_index x); records_block (prp_records x)] [].

Definition produce_topic_fields : fields :=
  "name" @ always ::: TString ;;
  "partition_data" @ always ::: TArray (TStruct produce_partition_fields) ;; FNil.

#[export] Instance ProduceRequestTopicData_WellFormed : WellFormed ProduceRequestTopicData := fun x =>
  wf (prt_name x) /\ Forall wf (prt_partition_data x).
Definition ProduceRequestTopicData_val {VC : VarIntCrate} {CC : Codecs} {prof : Profile} (x : ProduceRequestTopicData) : val :=
  VStruct
    [string_val (string_ (prt_name x));
     array_val ProduceRequestPartitionData_val (Some (prt_partition_data x))] [].

Definition produce_request_fields : fields :=
  "transactional_id" @ nullable 3 (from_version 3) ::: TString ;;
  "acks" @ always ::: TInt 2 ;;
  "timeout_ms" @ always ::: TInt 4 ;;
  "topic_data" @ always ::: TArray (TStruct produce_topic_fields) ;; FNil.

#[export] Instance ProduceRequest_WellFormed : WellFormed ProduceRequest := fun x =>
  wf (transactional_id x) /\ wf (acks x) /\ wf (produce_timeout_ms x) /\ Forall wf (topic_data x).
Definition ProduceRequest_val {VC : VarIntCrate} {CC : Codecs} {prof : Profile} (x : ProduceRequest) : val :=
  VStruct
    [nullable_val (nullable_string (transactional_id x)); Int16_val (acks x);
     Int32_val (produce_timeout_ms x); array_val ProduceRequestTopicData_val (Some (topic_data x))] [].

(** ** Fetch *)
Definition fetch_partition_fields : fields :=
  "partition" @ always ::: TInt 4 ;;
  "fetch_offset" @ always ::: TInt 8 ;;
  "partition_max_bytes" @ always ::: TInt 4 ;; FNil.

#[export] Instance FetchRequestPartition_WellFormed : WellFormed FetchRequestPartition := fun x =>
  wf (frp_partition x) /\ wf (fetch_offset x) /\ wf (partition_max_bytes x).
Definition FetchRequestPartition_val (x : FetchRequestPartition) : val :=
  VStruct
    [Int32_val (frp_partition x); Int64_val (fetch_offset x); Int32_val (partition_max_bytes x)] [].

Definition fetch_topic_fields : fields :=
  "topic" @ always ::: TString ;;
  "partitions" @ always ::: TArray (TStruct fetch_partition_fields) ;; FNil.

#[export] Instance FetchRequestTopic_WellFormed : WellFormed FetchRequestTopic := fun x =>
  wf (frt_topic x) /\ Forall wf (frt_partitions x).
Definition FetchRequestTopic_val (x : FetchRequestTopic) : val :=
  VStruct
    [string_val (string_ (frt_topic x)); array_val FetchRequestPartition_val (Some (frt_partitions x))] [].

Definition fetch_request_fields : fields :=
  "replica_id" @ always ::: TInt 4 ;;
  "max_wait_ms" @ always ::: TInt 4 ;;
  "min_bytes" @ always ::: TInt 4 ;;
  "max_bytes" @ from_version 3 ::: TInt 4 ;;
  "isolation_level" @ from_version 4 ::: TInt 1 ;;
  "topics" @ always ::: TArray (TStruct fetch_topic_fields) ;; FNil.

#[export] Instance FetchRequest_WellFormed : WellFormed FetchRequest := fun x =>
  wf (fetch_replica_id x) /\ wf (max_wait_ms x) /\ wf (min_bytes x) /\ from_option wf True (max_bytes x) /\
  Forall wf (fetch_topics x).
Definition FetchRequest_val (x : FetchRequest) : val :=
  VStruct
    [Int32_val (fetch_replica_id x); Int32_val (max_wait_ms x); Int32_val (min_bytes x);
     Int32_val (default (mkInt32 2147483647) (max_bytes x));
     Int8_val (Int8_from_IsolationLevel (default IsolationLevel_default (fetch_isolation_level x)));
     array_val FetchRequestTopic_val (Some (fetch_topics x))] [].

(** ** ListOffsets *)
Definition list_offsets_partition_fields : fields :=
  "partition_index" @ always ::: TInt 4 ;;
  "timestamp" @ always ::: TInt 8 ;;
  "max_num_offsets" @ versions 0 0 ::: TInt 4 ;; FNil.

#[export] Instance ListOffsetsRequestPartition_WellFormed : WellFormed ListOffsetsRequestPartition := fun x =>
  wf (lop_partition_index x) /\ wf (lop_timestamp x) /\ from_option wf True (max_num_offsets x).
Definition ListOffsetsRequestPartition_val (x : ListOffsetsRequestPartition) : val :=
  VStruct
    [Int32_val (lop_partition_index x); Int64_val (lop_timestamp x);
     Int32_val (default (mkInt32 1) (max_num_offsets x))] [].

Definition list_offsets_topic_fields : fields :=
  "name" @ always ::: TString ;;
  "partitions" @ always ::: TArray (TStruct list_offsets_partition_fields) ;; FNil.

#[export] Instance ListOffsetsRequestTopic_WellFormed : WellFormed ListOffsetsRequestTopic := fun x =>
  wf (lot_name x) /\ Forall wf (lot_partitions x).
Definition ListOffsetsRequestTopic_val (x : ListOffsetsRequestTopic) : val :=
  VStruct
    [string_val (string_ (lot_name x)); array_val ListOffsetsRequestPartition_val (Some (lot_partitions x))] [].

Definition list_offsets_request_fields : fields :=
  "replica_id" @ always ::: TInt 4 ;;
  "isolation_level" @ from_version 2 ::: TInt 1 ;;
  "topics" @ always ::: TArray (TStruct list_offsets_topic_fields) ;; FNil.

#[export] Instance ListOffsetsRequest_WellFormed : WellFormed ListOffsetsRequest := fun x =>
  wf (lo_replica_id x) /\ Forall wf (lo_topics x).
Definition ListOffsetsRequest_val (x : ListOffsetsRequest) : val :=
  VStruct
    [Int32_val (lo_replica_id x);
     Int8_val (Int8_from_IsolationLevel (default IsolationLevel_default (lo_isolation_level x)));
     array_val ListOffsetsRequestTopic_val (Some (lo_topics x))] [].

(** ** DeleteRecords *)
Definition delete_records_partition_fields : fields :=
  "partition_index" @ always ::: TInt 4 ;;
  "offset" @ always ::: TInt 8 ;; FNil.

#[export] Instance DeleteRequestPartition_WellFormed : WellFormed DeleteRequestPartition := fun x =>
  wf (drp_partition_index x) /\ wf (drp_offset x) /\ from_option wf True (drp_tagged_fields x).
Definition DeleteRequestPartition_val (x : DeleteRequestPartition) : val :=
  VStruct
    [Int32_val (drp_partition_index x); Int64_val (drp_offset x)] (tags_or (drp_tagged_fields x)).

Definition delete_records_topic_fields : fields :=
  "name" @ always ::: TString ;;
  "partitions" @ always ::: TArray (TStruct delete_records_partition_fields) ;; FNil.

#[export] Instance DeleteRequestTopic_WellFormed : WellFormed DeleteRequestTopic := fun x =>
  wf (drt_name x) /\ Forall wf (drt_partitions x) /\ from_option wf True (drt_tagged_fields x).
Definition DeleteRequestTopic_val (x : DeleteRequestTopic) : val :=
  VStruct
    [string_val (string_ (drt_name x)); array_val DeleteRequestPartition_val (Some (drt_partitions x))]
     (tags_or (drt_tagged_fields x)).

Definition delete_records_request_fields : fields :=
  "topics" @ always ::: TArray (TStruct delete_records_topic_fields) ;;
  "timeout_ms" @ always ::: TInt 4 ;; FNil.

#[export] Instance DeleteRecordsRequest_WellFormed : WellFormed DeleteRecordsRequest := fun x =>
  Forall wf (dr_topics x) /\ wf (dr_timeout_ms x) /\ from_option wf True (dr_tagged_fields x).
Definition DeleteRecordsRequest_val (x : DeleteRecordsRequest) : val :=
  VStruct
    [array_val DeleteRequestTopic_val (Some (dr_topics x)); Int32_val (dr_timeout_ms x)]
     (tags_or (dr_tagged_fields x)).

(** ** CreateTopics *)
Definition create_topics_assignment_fields : fields :=
  "partition_index" @ always ::: TInt 4 ;;
  "broker_ids" @ always ::: TArray (TInt 4) ;; FNil.

#[export] Instance CreateTopicAssignment_WellFormed : WellFormed CreateTopicAssignment := fun x =>
  wf (cta_partition_index x) /\ from_option (Forall wf) False (array_0 (broker_ids x)) /\
  from_option wf True (cta_tagged_fields x).
Definition CreateTopicAssignment_val (x : CreateTopicAssignment) : val :=
  VStruct
    [Int32_val (cta_partition_index x); array_val Int32_val (array_0 (broker_ids x))]
     (tags_or (cta_tagged_fields x)).

Definition create_topics_config_fields : fields :=
  "name" @ always ::: TString ;;
  "value" @ nullable 0 always ::: TString ;; FNil.

#[export] Instance CreateTopicConfig_WellFormed : WellFormed CreateTopicConfig := fun x =>
  wf (ctc_name x) /\ wf (ctc_value x) /\ from_option wf True (ctc_tagged_fields x).
Definition CreateTopicConfig_val (x : CreateTopicConfig) : val :=
  VStruct
    [string_val (string_ (ctc_name x)); nullable_val (nullable_string (ctc_value x))]
     (tags_or (ctc_tagged_fields x)).

Definition create_topics_topic_fields : fields :=
  "name" @ always ::: TString ;;
  "num_partitions" @ always ::: TInt 4 ;;
  "replication_factor" @ always ::: TInt 2 ;;
  "assignments" @ always ::: TArray (TStruct create_topics_assignment_fields) ;;
  "configs" @ always ::: TArray (TStruct create_topics_config_fields) ;; FNil.

#[export] Instance CreateTopicRequest_WellFormed : WellFormed CreateTopicRequest := fun x =>
  wf (ctr_name x) /\ wf (ctr_num_partitions x) /\ wf (ctr_replication_factor x) /\
  Forall wf (assignments x) /\ Forall wf (ctr_configs x) /\ from_option wf True (ctr_tagged_fields x).
Definition CreateTopicRequest_val (x : CreateTopicRequest) : val :=
  VStruct
    [string_val (string_ (ctr_name x)); Int32_val (ctr_num_partitions x);
     Int16_val (ctr_replication_factor x); array_val CreateTopicAssignment_val (Some (assignments x));
     array_val CreateTopicConfig_val (Some (ctr_configs x))]
     (tags_or (ctr_tagged_fields x)).

Definition create_topics_request_fields : fields :=
  "topics" @ always ::: TArray (TStruct create_topics_topic_fields) ;;
  "timeout_ms" @ always ::: TInt 4 ;;
  "validate_only" @ from_version 1 ::: TBool ;; FNil.

#[export] Instance CreateTopicsRequest_WellFormed : WellFormed CreateTopicsRequest := fun x =>
  Forall wf (ct_topics x) /\ wf (ct_timeout_ms x) /\ from_option wf True (ct_tagged_fields x).
Definition CreateTopicsRequest_val (x : CreateTopicsRequest) : val :=
  VStruct
    [array_val CreateTopicRequest_val (Some (ct_topics x)); Int32_val (ct_timeout_ms x);
     Boolean_val (default (mkBoolean false) (validate_only x))]
     (tags_or (ct_tagged_fields x)).

(** ** DeleteTopics *)
Definition delete_topics_request_fields : fields :=
  "topic_names" @ always ::: TArray TString ;;
  "timeout_ms" @ always ::: TInt 4 ;; FNil.

#[export] Instance DeleteTopicsRequest_WellFormed : WellFormed DeleteTopicsRequest := fun x =>
  from_option (Forall wf) False (array_0 (topic_names x)) /\ wf (dt_timeout_ms x) /\
  from_option wf True (dt_tagged_fields x).
Definition DeleteTopicsRequest_val (x : DeleteTopicsRequest) : val :=
  VStruct
    [array_val (fun s => string_val (string_ s)) (array_0 (topic_names x)); Int32_val (dt_timeout_ms x)]
     (tags_or (dt_tagged_fields x)).

(** ** Metadata *)
Definition metadata_request_topic_fields : fields :=
  "name" @ always ::: TString ;; FNil.

#[export] Instance MetadataRequestTopic_WellFormed : WellFormed MetadataRequestTopic := fun x =>
  wf (mrt_name x).
Definition MetadataRequestTopic_val (x : MetadataRequestTopic) : val :=
  VStruct
    [string_val (string_ (mrt_name x))] [].

Definition metadata_request_fields : fields :=
  "topics" @ nullable 1 always ::: TArray (TStruct metadata_request_topic_fields) ;;
  "allow_auto_topic_creation" @ from_version 4 ::: TBool ;; FNil.

#[export] Instance MetadataRequest_WellFormed : WellFormed MetadataRequest := fun x =>
  from_option (Forall wf) True (mreq_topics x).
Definition MetadataRequest_val (x : MetadataRequest) : val :=
  VStruct
    [array_val MetadataRequestTopic_val (mreq_topics x);
     Boolean_val (default (mkBoolean true) (allow_auto_topic_creation x))] [].

(** ** ApiVersions *)
Definition api_versions_request_fields : fields :=
  "client_software_name" @ from_version 3 ::: TString ;;
  "client_software_version" @ from_version 3 ::: TString ;; FNil.

Definition ApiVersionsRequest_val (x : ApiVersionsRequest) : val :=
  VStruct
    [string_val (compact_string (default CompactString_default (client_software_name x)));
     string_val (compact_string (default CompactString_default (client_software_version x)))]
     (tags_or (avreq_tagged_fields x)).

(** ** SASL *)
Definition sasl_handshake_request_fields : fields :=
  "mechanism" @ always ::: TString ;; FNil.

Definition SaslHandshakeRequest_val (x : SaslHandshakeRequest) : val :=
  VStruct
    [string_val (string_ (mechanism x))] [].

Definition sasl_authenticate_request_fields : fields :=
  "auth_bytes" @ always ::: TBytes ;; FNil.

Definition SaslAuthenticateRequest_val (x : SaslAuthenticateRequest) : val :=
  VStruct
    [bytes_val (bytes_0 (auth_bytes x))] (tags_or (sar_tagged_fields x)).

(** ** Header *)
Definition request_header_fields : fields :=
  "request_api_key" @ always ::: TInt 2 ;;
  "request_api_version" @ always ::: TInt 2 ;;
  "correlation_id" @ always ::: TInt 4 ;;
  "client_id" @ uncompacted (nullable 1 (from_version 1)) ::: TString ;; FNil.

Definition RequestHeader_val (x : RequestHeader) : val :=
  VStruct
    [Int16_val (Int16_from_ApiKey (request_api_key x)); Int16_val (api_version_0 (request_api_version x));
     Int32_val (request_correlation_id x);
     nullable_val (nullable_string (default NullableString_default (request_client_id x)))]
     (tags_or (request_tagged_fields x)).

(** ** The writers follow the schemas *)
Section writers.
Context {VC : VarIntCrate} {VO : VarIntCrateOk} {CC : Codecs} {CO : CodecsOk} {prof : Profile}.

Lemma ProduceRequestPartitionData_writes : forall version, 3 <= vnum version <= 7 ->
  writes_as (vnum version) (TStruct produce_partition_fields) (9 <=? vnum version) false
    (write_versioned version) wf ProduceRequestPartitionData_val.
Proof. writer_follows. Qed.
#[local] Hint Resolve ProduceRequestPartitionData_writes : schema.

Lemma ProduceRequestTopicData_writes : forall version, 3 <= vnum version <= 7 ->
  writes_as (vnum version) (TStruct produce_topic_fields) (9 <=? vnum version) false
    (write_versioned version) wf ProduceRequestTopicData_val.
Proof. writer_follows. Qed.
#[local] Hint Resolve ProduceRequestTopicData_writes : schema.

Lemma ProduceRequest_writes : forall version, 3 <= vnum version <= 7 ->
  writes_as (vnum version) (TStruct produce_request_fields) (9 <=? vnum version) false
    (write_versioned version) wf ProduceRequest_val.
Proof. writer_follows. Qed.
#[local] Hint Resolve ProduceRequest_writes : schema.

Lemma FetchRequestPartition_writes : forall version, 4 <= vnum version <= 4 ->
  writes_as (vnum version) (TStruct fetch_partition_fields) (12 <=? vnum version) false
    (write_versioned version) wf FetchRequestPartition_val.
Proof. writer_follows. Qed.
#[local] Hint Resolve FetchRequestPartition_writes : schema.

Lemma FetchRequestTopic_writes : forall version, 4 <= vnum version <= 4 ->
  writes_as (vnum version) (TStruct fetch_topic_fields) (12 <=? vnum version) false
    (write_versioned version) wf FetchRequestTopic_val.
Proof. writer_follows. Qed.
#[local] Hint Resolve FetchRequestTopic_writes : schema.

Lemma FetchRequest_writes : forall version, 4 <= vnum version <= 4 ->
  writes_as (vnum version) (TStruct fetch_request_fields) (12 <=? vnum version) false
    (write_versioned version) wf FetchRequest_val.
Proof. writer_follows. Qed.
#[local] Hint Resolve FetchRequest_writes : schema.

Lemma ListOffsetsRequestPartition_writes : forall version, 0 <= vnum version <= 3 ->
  writes_as (vnum version) (TStruct list_offsets_partition_fields) (6 <=? vnum version) false
    (write_versioned version) wf ListOffsetsRequestPartition_val.
Proof. writer_follows. Qed.
#[local] Hint Resolve ListOffsetsRequestPartition_writes : schema.

Lemma ListOffsetsRequestTopic_writes : forall version, 0 <= vnum version <= 3 ->
  writes_as (vnum version) (TStruct list_offsets_topic_fields) (6 <=? vnum version) false
    (write_versioned version) wf ListOffsetsRequestTopic_val.
Proof. writer_follows. Qed.
#[local] Hint Resolve ListOffsetsRequestTopic_writes : schema.

Lemma ListOffsetsRequest_writes : forall version, 0 <= vnum version <= 3 ->
  writes_as (vnum version) (TStruct list_offsets_request_fields) (6 <=? vnum version) false
    (write_versioned version) wf ListOffsetsRequest_val.
Proof. writer_follows. Qed.
#[local] Hint Resolve ListOffsetsRequest_writes : schema.

Lemma DeleteRequestPartition_writes : forall version, 0 <= vnum version <= 2 ->
  writes_as (vnum version) (TStruct delete_records_partition_fields) (2 <=? vnum version) false
    (write_versioned version) wf DeleteRequestPartition_val.
Proof. writer_follows. Qed.
#[local] Hint Resolve DeleteRequestPartition_writes : schema.

Lemma DeleteRequestTopic_writes : forall version, 0 <= vnum version <= 2 ->
  writes_as (vnum version) (TStruct delete_records_topic_fields) (2 <=? vnum version) false
    (write_versioned version) wf DeleteRequestTopic_val.
Proof. writer_follows. Qed.
#[local] Hint Resolve DeleteRequestTopic_writes : schema.

Lemma DeleteRecordsRequest_writes : forall version, 0 <= vnum version <= 2 ->
  writes_as (vnum version) (TStruct delete_records_request_fields) (2 <=? vnum version) false
    (write_versioned version) wf DeleteRecordsRequest_val.
Proof. writer_follows. Qed.
#[local] Hint Resolve DeleteRecordsRequest_writes : schema.

Lemma CreateTopicAssignment_writes : forall version, 0 <= vnum version <= 5 ->
  writes_as (vnum version) (TStruct create_topics_assignment_fields) (5 <=? vnum version) false
    (write_versioned version) wf CreateTopicAssignment_val.
Proof. writer_follows. Qed.
#[local] Hint Resolve CreateTopicAssignment_writes : schema.

Lemma CreateTopicConfig_writes : forall version, 0 <= vnum version <= 5 ->
  writes_as (vnum version) (TStruct create_topics_config_fields) (5 <=? vnum version) false
    (write_versioned version) wf CreateTopicConfig_val.
Proof. writer_follows. Qed.
#[local] Hint Resolve CreateTopicConfig_writes : schema.

Lemma CreateTopicRequest_writes : forall version, 0 <= vnum version <= 5 ->
  writes_as (vnum version) (TStruct create_topics_topic_fields) (5 <=? vnum version) false
    (write_versioned version) wf CreateTopicRequest_val.
Proof. writer_follows. Qed.
#[local] Hint Resolve CreateTopicRequest_writes : schema.

(** A request that sets a field the version does not have is refused. *)
Lemma CreateTopicsRequest_writes : forall version, 0 <= vnum version <= 5 ->
  writes_as (vnum version) (TStruct create_topics_request_fields) (5 <=? vnum version) false
    (write_versioned version)
    (fun x => wf x /\ (vnum version < 1 -> validate_only x = None)) CreateTopicsRequest_val.
Proof.
  intros version Hv. each_version version Hv. all: intros [ts ms o tags] [(Hts & Hms & Htags) Ho].
  all: cbn [validate_only ct_topics ct_timeout_ms ct_tagged_fields] in *.
  all: unfold_writer; cbn [validate_only ct_topics ct_timeout_ms ct_tagged_fields].
  1: rewrite Ho by done.
  all: emit_struct; solve_wf.
Qed.
#[local] Hint Resolve CreateTopicsRequest_writes : schema.

Lemma DeleteTopicsRequest_writes : forall version, 0 <= vnum version <= 5 ->
  writes_as (vnum version) (TStruct delete_topics_request_fields) (4 <=? vnum version) false
    (write_versioned version) wf DeleteTopicsRequest_val.
Proof.
  intros version Hv. each_version version Hv. all: intros [[[names|]] ms tags] (Hn & Hm & Ht); try done.
  all: unfold_writer; cbn [array_0 topic_names dt_timeout_ms dt_tagged_fields].
  5-6: replace (array_val (fun s => string_val (string_ s)) (Some names))
    with (array_val string_val (Some (map string_ names))) by (simpl; by rewrite map_map).
  all: emit_struct; solve_wf. all: by apply Forall_map.
Qed.
#[local] Hint Resolve DeleteTopicsRequest_writes : schema.

Lemma MetadataRequestTopic_writes : forall version, 0 <= vnum version <= 4 ->
  writes_as (vnum version) (TStruct metadata_request_topic_fields) (9 <=? vnum version) false
    (write_versioned version) wf MetadataRequestTopic_val.
Proof. writer_follows. Qed.
#[local] Hint Resolve MetadataRequestTopic_writes : schema.

Lemma MetadataRequest_writes : forall version, 0 <= vnum version <= 4 ->
  writes_as (vnum version) (TStruct metadata_request_fields) (9 <=? vnum version) false
    (write_versioned version)
    (fun x => wf x /\ (vnum version < 4 -> allow_auto_topic_creation x = None) /\
       (vnum version < 1 -> mreq_topics x <> None)) MetadataRequest_val.
Proof.
  intros version Hv. each_version version Hv. all: intros [ts o] (Hts & Ho & Hn).
  all: cbn [mreq_topics allow_auto_topic_creation] in *.
  all: unfold_writer; cbn [mreq_topics allow_auto_topic_creation].
  1-4: rewrite Ho by done.
  all: emit_struct; solve_wf.
  all: destruct ts; [exact Hts|first [done|by destruct Hn]].
Qed.
#[local] Hint Resolve MetadataRequest_writes : schema.

Lemma ApiVersionsRequest_writes : forall version, 0 <= vnum version <= 3 ->
  writes_as (vnum version) (TStruct api_versions_request_fields) (3 <=? vnum version) false
    (write_versioned version) wf ApiVersionsRequest_val.
Proof. writer_follows. Qed.
#[local] Hint Resolve ApiVersionsRequest_writes : schema.

Lemma SaslHandshakeRequest_writes : forall version, 1 <= vnum version <= 1 ->
  writes_as (vnum version) (TStruct sasl_handshake_request_fields) (32767 <=? vnum version) false
    (write_versioned version) wf SaslHandshakeRequest_val.
Proof. writer_follows. Qed.
#[local] Hint Resolve SaslHandshakeRequest_writes : schema.

Lemma SaslAuthenticateRequest_writes : forall version, 0 <= vnum version <= 2 ->
  writes_as (vnum version) (TStruct sasl_authenticate_request_fields) (2 <=? vnum version) false
    (write_versioned version) wf SaslAuthenticateRequest_val.
Proof. writer_follows. Qed.
#[local] Hint Resolve SaslAuthenticateRequest_writes : schema.

Lemma RequestHeader_writes : forall version, 0 <= vnum version <= 2 ->
  writes_as (vnum version) (TStruct request_header_fields) (2 <=? vnum version) false
    (write_versioned version) wf RequestHeader_val.
Proof. writer_follows. Qed.
#[local] Hint Resolve RequestHeader_writes : schema.

End writers.
