(* ===== verification/ResponseSchemas.v ===== *)
(** * Responses and the protocol (src/protocol/messages)

    The response schemas of the Kafka protocol at the versions the client
    supports, the value each response of the client stands for, and the proofs
    that the client understands every response that follows the schemas. *)

From Stdlib Require Import ZArith Lia.
From stdpp Require Import base list numbers strings option.
From S2P Require Import Prelude Bytes Wire VecBuilder Varint Primitives PrimitiveLaws Record.
From S2P Require Import Codec RecordBatch ApiKey ErrorCode Versioned Header ApiVersionsMsg.
From S2P Require Import DataMessages TopicMessages SaslMessages Schema SchemaLaws.

Local Open Scope Z_scope.
Local Open Scope rust_scope.
Local Open Scope schema_scope.

(** An optional field: what the version does not have is absent. *)
Definition opt_val {A} (f : A -> val) (o : option A) : val := from_option f VAbsent o.
Definition vec_val {A} (f : A -> val) (l : list A) : val := VArray (map f l).
Definition String_val (x : String_) : val := string_val (string_ x).
Definition NullableString_val (x : NullableString) : val := nullable_val (nullable_string x).

(** ** Produce *)
Definition produce_response_partition_fields : fields :=
  "index" @ always ::: TInt 4 ;;
  "error_code" @ always ::: TInt 2 ;;
  "base_offset" @ always ::: TInt 8 ;;
  "log_append_time_ms" @ from_version 2 ::: TInt 8 ;;
  "log_start_offset" @ from_version 5 ::: TInt 8 ;; FNil.
Definition ProduceResponsePartitionResponse_val (x : ProduceResponsePartitionResponse) : val :=
  VStruct
    [Int32_val (prr_index x); error_val (prr_error x); Int64_val (prr_base_offset x);
     opt_val Int64_val (log_append_time_ms x); opt_val Int64_val (log_start_offset x)] [].

Definition produce_response_topic_fields : fields :=
  "name" @ always ::: TString ;;
  "partition_responses" @ always ::: TArray (TStruct produce_response_partition_fields) ;; FNil.
Definition ProduceResponseResponse_val (x : ProduceResponseResponse) : val :=
  VStruct
    [String_val (prr_name x); vec_val ProduceResponsePartitionResponse_val (partition_responses x)] [].

Definition produce_response_fields : fields :=
  "responses" @ always ::: TArray (TStruct produce_response_topic_fields) ;;
  "throttle_time_ms" @ from_version 1 ::: TInt 4 ;; FNil.
Definition ProduceResponse_val (x : ProduceResponse) : val :=
  VStruct
    [vec_val ProduceResponseResponse_val (produce_responses x); opt_val Int32_val (produce_throttle_time_ms x)] [].

(** ** Fetch *)
Definition fetch_response_aborted_fields : fields :=
  "producer_id" @ always ::: TInt 8 ;;
  "first_offset" @ always ::: TInt 8 ;; FNil.
Definition FetchResponseAbortedTransaction_val (x : FetchResponseAbortedTransaction) : val :=
  VStruct
    [Int64_val (aborted_producer_id x); Int64_val (first_offset x)] [].

Definition fetch_response_partition_fields : fields :=
  "partition_index" @ always ::: TInt 4 ;;
  "error_code" @ always ::: TInt 2 ;;
  "high_watermark" @ always ::: TInt 8 ;;
  "last_stable_offset" @ from_version 4 ::: TInt 8 ;;
  "aborted_transactions" @ nullable 4 (from_version 4) ::: TArray (TStruct fetch_response_aborted_fields) ;;
  "records" @ nullable 0 always ::: TRecords ;; FNil.
Definition FetchResponsePartition_val (x : FetchResponsePartition) : val :=
  VStruct
    [Int32_val (frs_partition_index x); error_val (frs_error_code x); Int64_val (high_watermark x);
     opt_val Int64_val (last_stable_offset x);
     vec_val FetchResponseAbortedTransaction_val (aborted_transactions x); records_val (frs_records x)] [].

Definition fetch_response_topic_fields : fields :=
  "topic" @ always ::: TString ;;
  "partitions" @ always ::: TArray (TStruct fetch_response_partition_fields) ;; FNil.
Definition FetchResponseTopic_val (x : FetchResponseTopic) : val :=
  VStruct
    [String_val (frs_topic x); vec_val FetchResponsePartition_val (frs_partitions x)] [].

Definition fetch_response_fields : fields :=
  "throttle_time_ms" @ from_version 1 ::: TInt 4 ;;
  "responses" @ always ::: TArray (TStruct fetch_response_topic_fields) ;; FNil.
Definition FetchResponse_val (x : FetchResponse) : val :=
  VStruct
    [opt_val Int32_val (fetch_throttle_time_ms x); vec_val FetchResponseTopic_val (fetch_responses x)] [].

(** ** ListOffsets *)
Definition list_offsets_response_partition_fields : fields :=
  "partition_index" @ always ::: TInt 4 ;;
  "error_code" @ always ::: TInt 2 ;;
  "old_style_offsets" @ versions 0 0 ::: TArray (TInt 8) ;;
  "timestamp" @ from_version 1 ::: TInt 8 ;;
  "offset" @ from_version 1 ::: TInt 8 ;; FNil.
Definition ListOffsetsResponsePartition_val (x : ListOffsetsResponsePartition) : val :=
  VStruct
    [Int32_val (los_partition_index x); error_val (los_error_code x);
     opt_val (fun l => array_val Int64_val (array_0 l)) (old_style_offsets x);
     opt_val Int64_val (los_timestamp x); opt_val Int64_val (los_offset x)] [].

Definition list_offsets_response_topic_fields : fields :=
  "name" @ always ::: TString ;;
  "partitions" @ always ::: TArray (TStruct list_offsets_response_partition_fields) ;; FNil.
Definition ListOffsetsResponseTopic_val (x : ListOffsetsResponseTopic) : val :=
  VStruct
    [String_val (los_name x); vec_val ListOffsetsResponsePartition_val (los_partitions x)] [].

Definition list_offsets_response_fields : fields :=
  "throttle_time_ms" @ from_version 2 ::: TInt 4 ;;
  "topics" @ always ::: TArray (TStruct list_offsets_response_topic_fields) ;; FNil.
Definition ListOffsetsResponse_val (x : ListOffsetsResponse) : val :=
  VStruct
    [opt_val Int32_val (lo_throttle_time_ms x); vec_val ListOffsetsResponseTopic_val (los_topics x)] [].

(** ** DeleteRecords *)
Definition delete_records_response_partition_fields : fields :=
  "partition_index" @ always ::: TInt 4 ;;
  "low_watermark" @ always ::: TInt 8 ;;
  "error_code" @ always ::: TInt 2 ;; FNil.
Definition DeleteResponsePartition_val (x : DeleteResponsePartition) : val :=
  VStruct
    [Int32_val (dsp_partition_index x); Int64_val (low_watermark x); error_val (dsp_error x)]
     (tags_or (dsp_tagged_fields x)).

Definition delete_records_response_topic_fields : fields :=
  "name" @ always ::: TString ;;
  "partitions" @ always ::: TArray (TStruct delete_records_response_partition_fields) ;; FNil.
Definition DeleteResponseTopic_val (x : DeleteResponseTopic) : val :=
  VStruct
    [String_val (dst_name x); vec_val DeleteResponsePartition_val (dst_partitions x)]
     (tags_or (dst_tagged_fields x)).

Definition delete_records_response_fields : fields :=
  "throttle_time_ms" @ always ::: TInt 4 ;;
  "topics" @ always ::: TArray (TStruct delete_records_response_topic_fields) ;; FNil.
Definition DeleteRecordsResponse_val (x : DeleteRecordsResponse) : val :=
  VStruct
    [Int32_val (ds_throttle_time_ms x); vec_val DeleteResponseTopic_val (ds_topics x)]
     (tags_or (ds_tagged_fields x)).

(** ** Metadata *)
Definition metadata_response_broker_fields : fields :=
  "node_id" @ always ::: TInt 4 ;;
  "host" @ always ::: TString ;;
  "port" @ always ::: TInt 4 ;;
  "rack" @ nullable 1 (from_version 1) ::: TString ;; FNil.
Definition MetadataResponseBroker_val (x : MetadataResponseBroker) : val :=
  VStruct
    [Int32_val (node_id x); String_val (host x); Int32_val (port x); opt_val NullableString_val (rack x)] [].

Definition metadata_response_partition_fields : fields :=
  "error_code" @ always ::: TInt 2 ;;
  "partition_index" @ always ::: TInt 4 ;;
  "leader_id" @ always ::: TInt 4 ;;
  "replica_nodes" @ always ::: TArray (TInt 4) ;;
  "isr_nodes" @ always ::: TArray (TInt 4) ;; FNil.
Definition MetadataResponsePartition_val (x : MetadataResponsePartition) : val :=
  VStruct
    [error_val (mp_error x); Int32_val (mp_partition_index x); Int32_val (leader_id x);
     array_val Int32_val (array_0 (replica_nodes x)); array_val Int32_val (array_0 (isr_nodes x))] [].

Definition metadata_response_topic_fields : fields :=
  "error_code" @ always ::: TInt 2 ;;
  "name" @ always ::: TString ;;
  "is_internal" @ from_version 1 ::: TBool ;;
  "partitions" @ always ::: TArray (TStruct metadata_response_partition_fields) ;; FNil.
Definition MetadataResponseTopic_val (x : MetadataResponseTopic) : val :=
  VStruct
    [error_val (mt_error x); String_val (mt_name x); opt_val Boolean_val (is_internal x);
     vec_val MetadataResponsePartition_val (mt_partitions x)] [].

Definition metadata_response_fields : fields :=
  "throttle_time_ms" @ from_version 3 ::: TInt 4 ;;
  "brokers" @ always ::: TArray (TStruct metadata_response_broker_fields) ;;
  "cluster_id" @ nullable 2 (from_version 2) ::: TString ;;
  "controller_id" @ from_version 1 ::: TInt 4 ;;
  "topics" @ always ::: TArray (TStruct metadata_response_topic_fields) ;; FNil.
Definition MetadataResponse_val (x : MetadataResponse) : val :=
  VStruct
    [opt_val Int32_val (mresp_throttle_time_ms x); vec_val MetadataResponseBroker_val (brokers x);
     opt_val NullableString_val (cluster_id x); opt_val Int32_val (controller_id x);
     vec_val MetadataResponseTopic_val (mresp_topics x)] [].

(** ** CreateTopics *)
Definition create_topics_response_config_fields : fields :=
  "name" @ always ::: TString ;;
  "value" @ nullable 5 always ::: TString ;;
  "read_only" @ always ::: TBool ;;
  "config_source" @ always ::: TInt 1 ;;
  "is_sensitive" @ always ::: TBool ;; FNil.
Definition CreateTopicResponseConfig_val (x : CreateTopicResponseConfig) : val :=
  VStruct
    [string_val (compact_string (crc_name x)); nullable_val (compact_nullable_string (crc_value x));
     Boolean_val (read_only x); Int8_val (config_source x); Boolean_val (is_sensitive x)]
     (tags_of (crc_tagged_fields x)).

Definition create_topics_response_topic_fields : fields :=
  "name" @ always ::: TString ;;
  "error_code" @ always ::: TInt 2 ;;
  "error_message" @ nullable 0 (from_version 1) ::: TString ;;
  "num_partitions" @ from_version 5 ::: TInt 4 ;;
  "replication_factor" @ from_version 5 ::: TInt 2 ;;
  "configs" @ nullable 5 (from_version 5) ::: TArray (TStruct create_topics_response_config_fields) ;; FNil.
Definition CreateTopicResponse_val (x : CreateTopicResponse) : val :=
  VStruct
    [String_val (cts_name x); error_val (cts_error x); opt_val NullableString_val (cts_error_message x);
     opt_val Int32_val (cts_num_partitions x); opt_val Int16_val (cts_replication_factor x);
     vec_val CreateTopicResponseConfig_val (cts_configs x)]
     (tags_or (cts_tagged_fields x)).

Definition create_topics_response_fields : fields :=
  "throttle_time_ms" @ from_version 2 ::: TInt 4 ;;
  "topics" @ always ::: TArray (TStruct create_topics_response_topic_fields) ;; FNil.
Definition CreateTopicsResponse_val (x : CreateTopicsResponse) : val :=
  VStruct
    [opt_val Int32_val (ctresp_throttle_time_ms x); vec_val CreateTopicResponse_val (ctresp_topics x)]
     (tags_or (ctresp_tagged_fields x)).

(** ** DeleteTopics *)
Definition delete_topics_response_topic_fields : fields :=
  "name" @ always ::: TString ;;
  "error_code" @ always ::: TInt 2 ;;
  "error_message" @ nullable 5 (from_version 5) ::: TString ;; FNil.
Definition DeleteTopicsResponseTopic_val (x : DeleteTopicsResponseTopic) : val :=
  VStruct
    [String_val (dtt_name x); error_val (dtt_error x);
     opt_val (fun s => nullable_val (compact_nullable_string s)) (dtt_error_message x)]
     (tags_or (dtt_tagged_fields x)).

Definition delete_topics_response_fields : fields :=
  "throttle_time_ms" @ from_version 1 ::: TInt 4 ;;
  "responses" @ always ::: TArray (TStruct delete_topics_response_topic_fields) ;; FNil.
Definition DeleteTopicsResponse_val (x : DeleteTopicsResponse) : val :=
  VStruct
    [opt_val Int32_val (dtresp_throttle_time_ms x); vec_val DeleteTopicsResponseTopic_val (dt_responses x)]
     (tags_or (dtresp_tagged_fields x)).

(** ** ApiVersions *)
Definition api_versions_response_key_fields : fields :=
  "api_key" @ always ::: TInt 2 ;;
  "min_version" @ always ::: TInt 2 ;;
  "max_version" @ always ::: TInt 2 ;; FNil.
Definition ApiVersionsResponseApiKey_val (x : ApiVersionsResponseApiKey) : val :=
  VStruct
    [Int16_val (Int16_from_ApiKey (api_key x)); Int16_val (api_version_0 (min_version x));
     Int16_val (api_version_0 (max_version x))]
     (tags_or (avkey_tagged_fields x)).

Definition api_versions_response_fields : fields :=
  "error_code" @ always ::: TInt 2 ;;
  "api_keys" @ always ::: TArray (TStruct api_versions_response_key_fields) ;;
  "throttle_time_ms" @ from_version 1 ::: TInt 4 ;; FNil.
Definition ApiVersionsResponse_val (x : ApiVersionsResponse) : val :=
  VStruct
    [error_val (avresp_error_code x); vec_val ApiVersionsResponseApiKey_val (api_keys x);
     opt_val Int32_val (avresp_throttle_time_ms x)]
     (tags_or (avresp_tagged_fields x)).

(** ** SASL *)
Definition sasl_handshake_response_fields : fields :=
  "error_code" @ always ::: TInt 2 ;;
  "mechanisms" @ always ::: TArray TString ;; FNil.
Definition SaslHandshakeResponse_val (x : SaslHandshakeResponse) : val :=
  VStruct
    [error_val (handshake_error_code x); array_val String_val (array_0 (mechanisms x))] [].

Definition sasl_authenticate_response_fields : fields :=
  "error_code" @ always ::: TInt 2 ;;
  "error_message" @ nullable 0 always ::: TString ;;
  "auth_bytes" @ always ::: TBytes ;;
  "session_lifetime_ms" @ from_version 1 ::: TInt 8 ;; FNil.
Definition SaslAuthenticateResponse_val (x : SaslAuthenticateResponse) : val :=
  VStruct
    [error_val (sas_error_code x); NullableString_val (sas_error_message x);
     bytes_val (bytes_0 (sas_auth_bytes x)); opt_val Int64_val (session_lifetime_ms x)]
     (tags_or (sas_tagged_fields x)).

(** ** Header *)
Definition response_header_fields : fields :=
  "correlation_id" @ always ::: TInt 4 ;; FNil.
Definition ResponseHeader_val (x : ResponseHeader) : val :=
  VStruct
    [Int32_val (response_correlation_id x)] (tags_or (response_tagged_fields x)).

(** ** The readers follow the schemas *)
Section readers.
Context {VC : VarIntCrate} {CC : Codecs} {prof : Profile}.

Lemma read_error_message_reads v compact :
  reads_as v TString compact true (read_error_message compact) NullableString_val.
Proof.
  destruct compact; [|apply NullableString_reads].
  eapply reads_map; [apply CompactNullableString_reads|done].
Qed.
#[local] Hint Resolve read_error_message_reads : schema.

Lemma ProduceResponsePartitionResponse_reads : forall version, 3 <= vnum version <= 7 ->
  reads_as (vnum version) (TStruct produce_response_partition_fields) (9 <=? vnum version) false
    (read_versioned version) ProduceResponsePartitionResponse_val.
Proof. reader_follows. Qed.
#[local] Hint Resolve ProduceResponsePartitionResponse_reads : schema.

Lemma ProduceResponseResponse_reads : forall version, 3 <= vnum version <= 7 ->
  reads_as (vnum version) (TStruct produce_response_topic_fields) (9 <=? vnum version) false
    (read_versioned version) ProduceResponseResponse_val.
Proof. reader_follows. Qed.
#[local] Hint Resolve ProduceResponseResponse_reads : schema.

Lemma ProduceResponse_reads : forall version, 3 <= vnum version <= 7 ->
  reads_as (vnum version) (TStruct produce_response_fields) (9 <=? vnum version) false
    (read_versioned version) ProduceResponse_val.
Proof. reader_follows. Qed.
#[local] Hint Resolve ProduceResponse_reads : schema.

Lemma FetchResponseAbortedTransaction_reads : forall version, 4 <= vnum version <= 4 ->
  reads_as (vnum version) (TStruct fetch_response_aborted_fields) (12 <=? vnum version) false
    (read_versioned version) FetchResponseAbortedTransaction_val.
Proof. reader_follows. Qed.
#[local] Hint Resolve FetchResponseAbortedTransaction_reads : schema.

Lemma FetchResponsePartition_reads : forall version, 4 <= vnum version <= 4 ->
  reads_as (vnum version) (TStruct fetch_response_partition_fields) (12 <=? vnum version) false
    (read_versioned version) FetchResponsePartition_val.
Proof. reader_follows. Qed.
#[local] Hint Resolve FetchResponsePartition_reads : schema.

Lemma FetchResponseTopic_reads : forall version, 4 <= vnum version <= 4 ->
  reads_as (vnum version) (TStruct fetch_response_topic_fields) (12 <=? vnum version) false
    (read_versioned version) FetchResponseTopic_val.
Proof. reader_follows. Qed.
#[local] Hint Resolve FetchResponseTopic_reads : schema.

Lemma FetchResponse_reads : forall version, 4 <= vnum version <= 4 ->
  reads_as (vnum version) (TStruct fetch_response_fields) (12 <=? vnum version) false
    (read_versioned version) FetchResponse_val.
Proof. reader_follows. Qed.
#[local] Hint Resolve FetchResponse_reads : schema.

Lemma ListOffsetsResponsePartition_reads : forall version, 0 <= vnum version <= 3 ->
  reads_as (vnum version) (TStruct list_offsets_response_partition_fields) (6 <=? vnum version) false
    (read_versioned version) ListOffsetsResponsePartition_val.
Proof. reader_follows. Qed.
#[local] Hint Resolve ListOffsetsResponsePartition_reads : schema.

Lemma ListOffsetsResponseTopic_reads : forall version, 0 <= vnum version <= 3 ->
  reads_as (vnum version) (TStruct list_offsets_response_topic_fields) (6 <=? vnum version) false
    (read_versioned version) ListOffsetsResponseTopic_val.
Proof. reader_follows. Qed.
#[local] Hint Resolve ListOffsetsResponseTopic_reads : schema.

Lemma ListOffsetsResponse_reads : forall version, 0 <= vnum version <= 3 ->
  reads_as (vnum version) (TStruct list_offsets_response_fields) (6 <=? vnum version) false
    (read_versioned version) ListOffsetsResponse_val.
Proof. reader_follows. Qed.
#[local] Hint Resolve ListOffsetsResponse_reads : schema.

Lemma DeleteResponsePartition_reads : forall version, 0 <= vnum version <= 2 ->
  reads_as (vnum version) (TStruct delete_records_response_partition_fields) (2 <=? vnum version) false
    (read_versioned version) DeleteResponsePartition_val.
Proof. reader_follows. Qed.
#[local] Hint Resolve DeleteResponsePartition_reads : schema.

Lemma DeleteResponseTopic_reads : forall version, 0 <= vnum version <= 2 ->
  reads_as (vnum version) (TStruct delete_records_response_topic_fields) (2 <=? vnum version) false
    (read_versioned version) DeleteResponseTopic_val.
Proof. reader_follows. Qed.
#[local] Hint Resolve DeleteResponseTopic_reads : schema.

Lemma DeleteRecordsResponse_reads : forall version, 0 <= vnum version <= 2 ->
  reads_as (vnum version) (TStruct delete_records_response_fields) (2 <=? vnum version) false
    (read_versioned version) DeleteRecordsResponse_val.
Proof. reader_follows. Qed.
#[local] Hint Resolve DeleteRecordsResponse_reads : schema.

Lemma MetadataResponseBroker_reads : forall version, 0 <= vnum version <= 4 ->
  reads_as (vnum version) (TStruct metadata_response_broker_fields) (9 <=? vnum version) false
    (read_versioned version) MetadataResponseBroker_val.
Proof. reader_follows. Qed.
#[local] Hint Resolve MetadataResponseBroker_reads : schema.

Lemma MetadataResponsePartition_reads : forall version, 0 <= vnum version <= 4 ->
  reads_as (vnum version) (TStruct metadata_response_partition_fields) (9 <=? vnum version) false
    (read_versioned version) MetadataResponsePartition_val.
Proof. reader_follows. Qed.
#[local] Hint Resolve MetadataResponsePartition_reads : schema.

Lemma MetadataResponseTopic_reads : forall version, 0 <= vnum version <= 4 ->
  reads_as (vnum version) (TStruct metadata_response_topic_fields) (9 <=? vnum version) false
    (read_versioned version) MetadataResponseTopic_val.
Proof. reader_follows. Qed.
#[local] Hint Resolve MetadataResponseTopic_reads : schema.

Lemma MetadataResponse_reads : forall version, 0 <= vnum version <= 4 ->
  reads_as (vnum version) (TStruct metadata_response_fields) (9 <=? vnum version) false
    (read_versioned version) MetadataResponse_val.
Proof. reader_follows. Qed.
#[local] Hint Resolve MetadataResponse_reads : schema.

Lemma CreateTopicResponseConfig_reads : forall version, 5 <= vnum version <= 5 ->
  reads_as (vnum version) (TStruct create_topics_response_config_fields) (5 <=? vnum version) false
    (read_versioned version) CreateTopicResponseConfig_val.
Proof. reader_follows. Qed.
#[local] Hint Resolve CreateTopicResponseConfig_reads : schema.

Lemma CreateTopicResponse_reads : forall version, 0 <= vnum version <= 5 ->
  reads_as (vnum version) (TStruct create_topics_response_topic_fields) (5 <=? vnum version) false
    (read_versioned version) CreateTopicResponse_val.
Proof. reader_follows. Qed.
#[local] Hint Resolve CreateTopicResponse_reads : schema.

Lemma CreateTopicsResponse_reads : forall version, 0 <= vnum version <= 5 ->
  reads_as (vnum version) (TStruct create_topics_response_fields) (5 <=? vnum version) false
    (read_versioned version) CreateTopicsResponse_val.
Proof. reader_follows. Qed.
#[local] Hint Resolve CreateTopicsResponse_reads : schema.

Lemma DeleteTopicsResponseTopic_reads : forall version, 0 <= vnum version <= 5 ->
  reads_as (vnum version) (TStruct delete_topics_response_topic_fields) (4 <=? vnum version) false
    (read_versioned version) DeleteTopicsResponseTopic_val.
Proof. reader_follows. Qed.
#[local] Hint Resolve DeleteTopicsResponseTopic_reads : schema.

Lemma DeleteTopicsResponse_reads : forall version, 0 <= vnum version <= 5 ->
  reads_as (vnum version) (TStruct delete_topics_response_fields) (4 <=? vnum version) false
    (read_versioned version) DeleteTopicsResponse_val.
Proof. reader_follows. Qed.
#[local] Hint Resolve DeleteTopicsResponse_reads : schema.

Lemma ApiVersionsResponseApiKey_reads : forall version, 0 <= vnum version <= 3 ->
  reads_as (vnum version) (TStruct api_versions_response_key_fields) (3 <=? vnum version) false
    (read_versioned version) ApiVersionsResponseApiKey_val.
Proof. reader_follows. Qed.
#[local] Hint Resolve ApiVersionsResponseApiKey_reads : schema.

Lemma ApiVersionsResponse_reads : forall version, 0 <= vnum version <= 3 ->
  reads_as (vnum version) (TStruct api_versions_response_fields) (3 <=? vnum version) false
    (read_versioned version) ApiVersionsResponse_val.
Proof. reader_follows. Qed.
#[local] Hint Resolve ApiVersionsResponse_reads : schema.

Lemma SaslHandshakeResponse_reads : forall version, 1 <= vnum version <= 1 ->
  reads_as (vnum version) (TStruct sasl_handshake_response_fields) (32767 <=? vnum version) false
    (read_versioned version) SaslHandshakeResponse_val.
Proof. reader_follows. Qed.
#[local] Hint Resolve SaslHandshakeResponse_reads : schema.

Lemma SaslAuthenticateResponse_reads : forall version, 0 <= vnum version <= 2 ->
  reads_as (vnum version) (TStruct sasl_authenticate_response_fields) (2 <=? vnum version) false
    (read_versioned version) SaslAuthenticateResponse_val.
Proof. reader_follows. Qed.
#[local] Hint Resolve SaslAuthenticateResponse_reads : schema.

Lemma ResponseHeader_reads : forall version, 0 <= vnum version <= 1 ->
  reads_as (vnum version) (TStruct response_header_fields) (1 <=? vnum version) false
    (read_versioned version) ResponseHeader_val.
Proof. reader_follows. Qed.
#[local] Hint Resolve ResponseHeader_reads : schema.

End readers.
