(* ===== verification/MessageSchemas.v ===== *)
(** * The client speaks the protocol

    Every request type against its schema, and every response type against
    its schema.  The schemas are those of the Kafka protocol guide, restricted
    to the fields of the versions the client supports; which version brought a
    field in is also what the comments on the fields in src/protocol/messages
    say. *)

From Stdlib Require Import ZArith Lia.
From stdpp Require Import base list numbers strings option.
From S2P Require Import Prelude Bytes Wire VecBuilder Varint Primitives PrimitiveLaws Record.
From S2P Require Import Codec RecordBatch RefCrates ApiKey ErrorCode Versioned Header ApiVersionsMsg.
From S2P Require Import DataMessages TopicMessages SaslMessages Schema SchemaLaws.
From S2P Require Import RequestSchemas ResponseSchemas.

Local Open Scope Z_scope.
Local Open Scope rust_scope.

(** ** Messages *)
Definition never : Z := 32767.

Definition produce_request : message := mkMessage 9 produce_request_fields.
Definition produce_response : message := mkMessage 9 produce_response_fields.
Definition fetch_request : message := mkMessage 12 fetch_request_fields.
Definition fetch_response : message := mkMessage 12 fetch_response_fields.
Definition list_offsets_request : message := mkMessage 6 list_offsets_request_fields.
Definition list_offsets_response : message := mkMessage 6 list_offsets_response_fields.
Definition delete_records_request : message := mkMessage 2 delete_records_request_fields.
Definition delete_records_response : message := mkMessage 2 delete_records_response_fields.
Definition metadata_request : message := mkMessage 9 metadata_request_fields.
Definition metadata_response : message := mkMessage 9 metadata_response_fields.
Definition create_topics_request : message := mkMessage 5 create_topics_request_fields.
Definition create_topics_response : message := mkMessage 5 create_topics_response_fields.
Definition delete_topics_request : message := mkMessage 4 delete_topics_request_fields.
Definition delete_topics_response : message := mkMessage 4 delete_topics_response_fields.
Definition api_versions_request : message := mkMessage 3 api_versions_request_fields.
Definition api_versions_response : message := mkMessage 3 api_versions_response_fields.
Definition sasl_handshake_request : message := mkMessage never sasl_handshake_request_fields.
Definition sasl_handshake_response : message := mkMessage never sasl_handshake_response_fields.
Definition sasl_authenticate_request : message := mkMessage 2 sasl_authenticate_request_fields.
Definition sasl_authenticate_response : message := mkMessage 2 sasl_authenticate_response_fields.
Definition request_header : message := mkMessage 2 request_header_fields.
Definition response_header : message := mkMessage 1 response_header_fields.

Section protocol.
Context {VC : VarIntCrate} {VO : VarIntCrateOk} {CC : Codecs} {CO : CodecsOk} {prof : Profile}.

(** A writer puts on the wire, at the versions of [range], exactly the encoding
    of the message [f x]: it succeeds when there is one, and a peer that
    decodes by the schema gets the fields the version has, and the rest. *)
Definition speaks {A} `{WriteVersionedType A} (range : ApiVersionRange) (m : message)
    (ok : ApiVersion -> A -> Prop) (f : A -> val) : Prop :=
  forall version x, in_range range version -> ok version x ->
  (forall bs, write_versioned version x = Ok bs <->
     enc_message record_batches (vnum version) m (f x) = Some bs) /\
  (forall bs rest, write_versioned version x = Ok bs ->
     dec_message record_batches (vnum version) m (bs ++ rest) =
     Some (view_message record_batches (vnum version) false m (f x), rest)).

(** A reader accepts every encoding of a message at the versions of [range],
    consumes it exactly, and returns its fields. *)
Definition understands {A} `{ReadVersionedType A} (range : ApiVersionRange) (m : message)
    (f : A -> val) : Prop :=
  forall version x bs s, in_range range version ->
  enc_message record_batches (vnum version) m x = Some bs ->
  exists a, read_versioned version (bs +> s) = Ok (a, s) /\
    view_message record_batches (vnum version) false m (f a) =
    view_message record_batches (vnum version) true m x.

(** A request type conforms when its writer speaks the schema at the versions
    of the request, and the constant that chooses the version of its header
    agrees with the protocol. *)
Definition request_conforms (Req : Type) {Resp : Type} `{WriteVersionedType Req} `{RequestBody Req Resp}
    (m : message) (ok : ApiVersion -> Req -> Prop) (f : Req -> val) : Prop :=
  speaks (API_VERSION_RANGE (Req:=Req)) m ok f /\
  forall version, in_range (API_VERSION_RANGE (Req:=Req)) version ->
    (vnum (FIRST_TAGGED_FIELD_IN_REQUEST_VERSION (Req:=Req)) <=? vnum version) = flexible (vnum version) m.

(** Likewise for responses; [header] is the first version of the message with a
    flexible response header. *)
Definition response_conforms (Req : Type) {Resp : Type} `{ReadVersionedType Resp} `{RequestBody Req Resp}
    (m : message) (header : Z) (f : Resp -> val) : Prop :=
  understands (API_VERSION_RANGE (Req:=Req)) m f /\
  forall version, in_range (API_VERSION_RANGE (Req:=Req)) version ->
    (vnum (FIRST_TAGGED_FIELD_IN_RESPONSE_VERSION (Req:=Req)) <=? vnum version) = (header <=? vnum version).

Lemma speaks_intro {A} `{WriteVersionedType A} range m ok (f : A -> val) :
  (forall version, in_range range version ->
     writes_as (vnum version) (TStruct (body m)) (flexible_since m <=? vnum version) false
       (write_versioned version) (ok version) f) ->
  speaks range m ok f.
Proof.
  intros Hw version x Hr Hx. specialize (Hw version Hr x Hx). split; [exact Hw|].
  intros bs rest Hok. apply dec_enc_message, Hw, Hok.
Qed.

Lemma understands_intro {A} `{ReadVersionedType A} range m (f : A -> val) :
  (forall version, in_range range version ->
     reads_as (vnum version) (TStruct (body m)) (flexible_since m <=? vnum version) false
       (read_versioned version) f) ->
  understands range m f.
Proof. intros Hr version x bs s Hv Hx. by apply (Hr version Hv). Qed.

(** What a request must satisfy: [wf], and the fields its version lacks unset. *)
Definition always_ok {A} `{WellFormed A} (version : ApiVersion) (x : A) : Prop := wf x.
Definition create_topics_ok (version : ApiVersion) (x : CreateTopicsRequest) : Prop :=
  wf x /\ (vnum version < 1 -> validate_only x = None).
Definition metadata_ok (version : ApiVersion) (x : MetadataRequest) : Prop :=
  wf x /\ (vnum version < 4 -> allow_auto_topic_creation x = None) /\
  (vnum version < 1 -> mreq_topics x <> None).

Ltac request_conforms_by lemma :=
  split; [apply speaks_intro; intros version Hv; apply lemma; exact Hv|];
  intros [[n]] Hv; unfold in_range, flexible in *; cbn in Hv |- *; unfold never;
  repeat match goal with |- context [?a <=? ?b] => destruct (Z.leb_spec a b) end; first [done|lia].
Ltac response_conforms_by lemma :=
  split; [apply understands_intro; intros version Hv; apply lemma; exact Hv|];
  intros [[n]] Hv; unfold in_range in *; cbn in Hv |- *; unfold never;
  repeat match goal with |- context [?a <=? ?b] => destruct (Z.leb_spec a b) end; first [done|lia].

(** C3: every well-formed request (of which the arrays that the schema requires
    are not null) is, at every version the client supports, written exactly as
    the protocol's schema encodes it: the write succeeds if and only if the
    request can be encoded, and a broker that decodes the bytes by
    the schema gets the fields that version has (with the defaults the client
    documents) and leaves what follows; the header version also agrees with
    the schema.  Fields that are not in the version must be unset, and at
    version 0 a Metadata request must name its topics. *)
Theorem requests_follow_protocol :
  request_conforms ProduceRequest produce_request always_ok ProduceRequest_val /\
  request_conforms FetchRequest fetch_request always_ok FetchRequest_val /\
  request_conforms ListOffsetsRequest list_offsets_request always_ok ListOffsetsRequest_val /\
  request_conforms DeleteRecordsRequest delete_records_request always_ok DeleteRecordsRequest_val /\
  request_conforms MetadataRequest metadata_request metadata_ok MetadataRequest_val /\
  request_conforms CreateTopicsRequest create_topics_request create_topics_ok CreateTopicsRequest_val /\
  request_conforms DeleteTopicsRequest delete_topics_request always_ok DeleteTopicsRequest_val /\
  request_conforms ApiVersionsRequest api_versions_request always_ok ApiVersionsRequest_val /\
  request_conforms SaslHandshakeRequest sasl_handshake_request always_ok SaslHandshakeRequest_val /\
  request_conforms SaslAuthenticateRequest sasl_authenticate_request always_ok SaslAuthenticateRequest_val /\
  speaks (mkApiVersionRange (V 0) (V 2)) request_header always_ok RequestHeader_val.
Proof.
  split; [request_conforms_by ProduceRequest_writes|].
  split; [request_conforms_by FetchRequest_writes|].
  split; [request_conforms_by ListOffsetsRequest_writes|].
  split; [request_conforms_by DeleteRecordsRequest_writes|].
  split; [request_conforms_by MetadataRequest_writes|].
  split; [request_conforms_by CreateTopicsRequest_writes|].
  split; [request_conforms_by DeleteTopicsRequest_writes|].
  split; [request_conforms_by ApiVersionsRequest_writes|].
  split; [request_conforms_by SaslHandshakeRequest_writes|].
  split; [request_conforms_by SaslAuthenticateRequest_writes|].
  apply speaks_intro. intros version Hv. apply RequestHeader_writes. exact Hv.
Qed.

(** C4: every response that follows the protocol's schema is understood: at
    every version of the request's range the reader accepts it, consumes
    exactly its bytes, and returns the fields it carries, those the version
    does not have as absent; a null array is read as an empty one, and the
    records are the batches the payload holds.  The response header version
    agrees with the protocol, including ApiVersions responses, whose header
    is never flexible. *)
Theorem responses_follow_protocol :
  response_conforms ProduceRequest produce_response 9 ProduceResponse_val /\
  response_conforms FetchRequest fetch_response 12 FetchResponse_val /\
  response_conforms ListOffsetsRequest list_offsets_response 6 ListOffsetsResponse_val /\
  response_conforms DeleteRecordsRequest delete_records_response 2 DeleteRecordsResponse_val /\
  response_conforms MetadataRequest metadata_response 9 MetadataResponse_val /\
  response_conforms CreateTopicsRequest create_topics_response 5 CreateTopicsResponse_val /\
  response_conforms DeleteTopicsRequest delete_topics_response 4 DeleteTopicsResponse_val /\
  response_conforms ApiVersionsRequest api_versions_response never ApiVersionsResponse_val /\
  response_conforms SaslHandshakeRequest sasl_handshake_response never SaslHandshakeResponse_val /\
  response_conforms SaslAuthenticateRequest sasl_authenticate_response 2 SaslAuthenticateResponse_val /\
  understands (mkApiVersionRange (V 0) (V 1)) response_header ResponseHeader_val.
Proof.
  split; [response_conforms_by ProduceResponse_reads|].
  split; [response_conforms_by FetchResponse_reads|].
  split; [response_conforms_by ListOffsetsResponse_reads|].
  split; [response_conforms_by DeleteRecordsResponse_reads|].
  split; [response_conforms_by MetadataResponse_reads|].
  split; [response_conforms_by CreateTopicsResponse_reads|].
  split; [response_conforms_by DeleteTopicsResponse_reads|].
  split; [response_conforms_by ApiVersionsResponse_reads|].
  split; [response_conforms_by SaslHandshakeResponse_reads|].
  split; [response_conforms_by SaslAuthenticateResponse_reads|].
  apply understands_intro. intros version Hv. apply ResponseHeader_reads. exact Hv.
Qed.
End protocol.

#[local] Existing Instance debug_profile.

(** A Metadata request at version 4 for one topic, as a broker decodes it. *)
Lemma requests_follow_protocol_witness :
  dec_message (record_batches (prof:=debug_profile)) 4 metadata_request
    (map byte_of_Z [0; 0; 0; 1; 0; 1; 116; 0]) =
  Some (VStruct [VArray [VStruct [VString [byte_of_Z 116]] []]; VBool false] [], []).
Proof.
  destruct (requests_follow_protocol (prof:=debug_profile)) as (_ & _ & _ & _ & [Hs _] & _).
  destruct (Hs (V 4) (mkMetadataRequest (Some [mkMetadataRequestTopic (mkString_ [byte_of_Z 116])])
                        (Some (mkBoolean false)))) as [_ Hd].
  - split; vm_compute; discriminate.
  - split; [repeat constructor|]. split; intros H; vm_compute in H; discriminate H.
  - specialize (Hd (map byte_of_Z [0; 0; 0; 1; 0; 1; 116; 0]) []). rewrite app_nil_r in Hd.
    apply Hd. vm_compute. reflexivity.
Defined.

(** A Fetch response at version 4 with one partition, no aborted transactions
    and no records. *)
Definition sample_fetch_response : val :=
  VStruct [VInt 0; VArray [VStruct [VString [byte_of_Z 116];
    VArray [VStruct [VInt 0; VInt 0; VInt 7; VInt 7; VNull; VNull] []]] []]] [].

Lemma responses_follow_protocol_witness :
  exists bs a, enc_message (record_batches (prof:=debug_profile)) 4 fetch_response sample_fetch_response = Some bs /\
    read_versioned (V 4) (cursor bs) = Ok (a, cursor []) /\
    view_message (record_batches (prof:=debug_profile)) 4 false fetch_response (FetchResponse_val a) =
    VStruct [VInt 0; VArray [VStruct [VString [byte_of_Z 116];
      VArray [VStruct [VInt 0; VInt 0; VInt 7; VInt 7; VArray []; VRecords []] []]] []]] [].
Proof.
  destruct (responses_follow_protocol (prof:=debug_profile)) as (_ & [Hu _] & _).
  destruct (enc_message (record_batches (prof:=debug_profile)) 4 fetch_response sample_fetch_response)
    as [bs|] eqn:Hbs; [|vm_compute in Hbs; discriminate Hbs].
  destruct (Hu (V 4) sample_fetch_response bs (cursor [])) as (a & Ha & Hv).
  - split; vm_compute; discriminate.
  - exact Hbs.
  - exists bs, a. split; [reflexivity|]. split; [by rewrite src_app_cursor in Ha|]. exact Hv.
Defined.

(** At version 0 the protocol has no null array of topics, yet the request for
    all topics is written with one: a broker that follows the schema cannot
    decode it. *)
Theorem metadata_request_for_all_topics_at_version_0 :
  write_versioned (V 0) (mkMetadataRequest None None) = Ok (map byte_of_Z [255; 255; 255; 255]) /\
  forall rest, dec_message (record_batches (prof:=debug_profile)) 0 metadata_request
    (map byte_of_Z [255; 255; 255; 255] ++ rest) = None.
Proof. split; reflexivity. Qed.
