(* ===== verification/Frame.v ===== *)
(** * Message frames (src/protocol/frame.rs)

    A message on the connection is preceded by its length as an [Int32].  A
    message above the limit is skipped, so that the next one can be read. *)

From Stdlib Require Import ZArith Lia.
From stdpp Require Import base list numbers.
From S2P Require Import Prelude Bytes Wire VecBuilder Varint Primitives PrimitiveLaws.

Local Open Scope Z_scope.
Local Open Scope rust_scope.

(** [frame::ReadError] and [frame::WriteError]. *)
Inductive FrameReadError : Type :=
| FrameReadIO (e : ErrorKind)
| NegativeMessageSize (size : Z)
| MessageTooLarge (limit actual : Z).

Inductive FrameWriteError : Type :=
| FrameWriteIO (e : ErrorKind)
| TooLarge (size : Z).

(** [AsyncReadExt::read_exact]: on failure the bytes there were are gone. *)
Definition async_read_exact (n : Z) (s : src) : outcome ErrorKind (list byte) * src :=
  match read_exact n s with
  | Ok (bs, s') => (Ok bs, s')
  | Err e => (Err e, mkSrc [] (src_tail s))
  | Panic p => (Panic p, s)
  end.

(** The loop that skips a message: [while to_read > 0].  [None]: still running
    after [fuel] iterations. *)
Fixpoint skip_loop (fuel : nat) (max_message_size to_read : Z) (s : src) :
    option (outcome FrameReadError unit * src) :=
  match fuel with
  | O => None
  | S fuel =>
      if 0 <? to_read then
        let step := Z.min max_message_size to_read in
        match async_read_exact step s with
        | (Ok _, s') => skip_loop fuel max_message_size (to_read - step) s'
        | (Err e, s') => Some (Err (FrameReadIO e), s')
        | (Panic p, s') => Some (Panic p, s')
        end
      else Some (Ok tt, s)
  end.

(** [read_message], with the source it leaves; [None]: it has not returned
    after [fuel] iterations of its loop. *)
Definition read_message (fuel : nat) (max_message_size : Z) (s : src) :
    option (outcome FrameReadError (list byte) * src) :=
  match async_read_exact 4 s with
  | (Ok len_buf, s) =>
      match read (A:=Int32) (cursor len_buf) with
      | Ok (len, _) =>
          match usize_try_from (int32 len) with
          | None => Some (Err (NegativeMessageSize (int32 len)), s)
          | Some len =>
              if max_message_size <? len then
                match skip_loop fuel max_message_size len s with
                | Some (Ok _, s) => Some (Err (MessageTooLarge max_message_size len), s)
                | Some (Err e, s) => Some (Err e, s)
                | Some (Panic p, s) => Some (Panic p, s)
                | None => None
                end
              else
                match async_read_exact len s with
                | (Ok buf, s) => Some (Ok buf, s)
                | (Err e, s) => Some (Err (FrameReadIO e), s)
                | (Panic p, s) => Some (Panic p, s)
                end
          end
      | _ => Some (Panic ExpectFailed, s)
      end
  | (Err e, s) => Some (Err (FrameReadIO e), s)
  | (Panic p, s) => Some (Panic p, s)
  end.

(** [write_message], on a writer that accepts every byte. *)
Definition write_message (msg : list byte) : outcome FrameWriteError (list byte) :=
  let! len := ok_or (TooLarge (zlen msg)) (signed_try_from 32 (zlen msg)) in
  match write (mkInt32 len) with
  | Ok len_buf => Ok (len_buf ++ (if (zlen msg =? 0) then [] else msg))
  | _ => Panic ExpectFailed
  end.

(** ** Lemmas *)
Lemma async_read_exact_app bs s n :
  n = zlen bs -> async_read_exact n (bs +> s) = (Ok bs, s).
Proof. intros Hn. unfold async_read_exact. by rewrite read_exact_app. Qed.

(** A frame is the length and the message; the test for an empty message only
    avoids a write. *)
Lemma write_message_ok msg bs :
  write_message msg = Ok bs ->
  exists len_buf, write (mkInt32 (zlen msg)) = Ok len_buf /\ bs = len_buf ++ msg /\
    zlen len_buf = 4 /\ zlen msg < 2 ^ 31.
Proof.
  intros (len & Hlen & Hw)%obind_ok. invert_ok. exists (to_be_bytes 4 (zlen msg)).
  unfold write, Int32_WriteType, Int32_write, write_all in Hw. cbn [int32] in Hw.
  unfold in_signed in *. split; [done|]. split; [|split; [done|lia]].
  injection Hw as <-. f_equal. destruct (Z.eqb_spec (zlen msg) 0) as [Hz|]; [|done].
  by rewrite (zlen_0 msg Hz).
Qed.

(** The result of reading a frame after its length. *)
Lemma read_message_frame fuel limit msg bs s :
  write_message msg = Ok bs ->
  read_message fuel limit (bs +> s) =
    if limit <? zlen msg then
      match skip_loop fuel limit (zlen msg) (msg +> s) with
      | Some (Ok _, s) => Some (Err (MessageTooLarge limit (zlen msg)), s)
      | Some (Err e, s) => Some (Err e, s)
      | Some (Panic p, s) => Some (Panic p, s)
      | None => None
      end
    else Some (Ok msg, s).
Proof.
  intros (len_buf & Hw & -> & Hl & Hmax)%write_message_ok.
  pose proof (zlen_nonneg msg). unfold read_message. rewrite src_app_app.
  rewrite async_read_exact_app by done.
  assert (Hr : read (A:=Int32) (cursor len_buf) = Ok (mkInt32 (zlen msg), cursor [])).
  { rewrite <-src_app_cursor. apply read_write; [|done].
    unfold wf, Int32_WellFormed, in_signed. simpl. lia. }
  rewrite Hr. cbn [int32]. rewrite usize_try_from_ok by lia.
  by rewrite async_read_exact_app by done.
Qed.

(** Skipping leaves the source after the message. *)
Lemma skip_loop_app limit n : forall fuel msg s,
  0 < limit -> zlen msg = n -> n < Z.of_nat fuel -> 
  skip_loop fuel limit n (msg +> s) = Some (Ok tt, s).
Proof.
  intros fuel. revert n. induction fuel as [|fuel IH]; intros n msg s Hlim Hn Hf;
    pose proof (zlen_nonneg msg); [lia|]. cbn [skip_loop].
  destruct (Z.ltb_spec 0 n) as [Hpos|Hz].
  - set (k := Z.min limit n). assert (Hk : 0 < k <= n) by lia.
    rewrite <-(take_drop (Z.to_nat k) msg), src_app_app.
    assert (Hlt : zlen (take (Z.to_nat k) msg) = k).
    { unfold zlen in *. rewrite length_take. lia. }
    rewrite async_read_exact_app by done. apply IH; [done| |lia].
    unfold zlen in *. rewrite length_drop. lia.
  - assert (zlen msg = 0) as ->%zlen_0 by lia. by rewrite src_app_nil.
Qed.

(** With a positive limit the loop always ends, whatever the source does. *)
Lemma skip_loop_total limit n fuel s :
  0 < limit -> 0 <= n < Z.of_nat fuel -> exists r, skip_loop fuel limit n s = Some r.
Proof.
  intros Hlim. revert n s. induction fuel as [|fuel IH]; intros n s Hf; [lia|].
  cbn [skip_loop]. destruct (Z.ltb_spec 0 n) as [Hpos|Hz]; [|by eexists].
  destruct (async_read_exact _ s) as [[bs|e|p] s']; [|by eexists..]. apply IH. lia.
Qed.

(** With the limit 0 it reads nothing and never ends. *)
Lemma skip_loop_diverges n fuel s : 0 < n -> skip_loop fuel 0 n s = None.
Proof.
  intros Hn. induction fuel as [|fuel IH]; [done|]. cbn [skip_loop].
  destruct (Z.ltb_spec 0 n); [|lia]. rewrite Z.min_l by lia.
  pose proof (async_read_exact_app [] s 0 eq_refl) as Hr. rewrite src_app_nil in Hr.
  rewrite Hr, Z.sub_0_r. apply IH.
Qed.

(** Neither the loop nor the read panics. *)
Lemma async_read_exact_no_panic n s p s' : async_read_exact n s <> (Panic p, s').
Proof. unfold async_read_exact, read_exact. by destruct (n <=? zlen (src_data s)). Qed.

Lemma skip_loop_no_panic fuel limit n s p s' : skip_loop fuel limit n s <> Some (Panic p, s').
Proof.
  revert n s. induction fuel as [|fuel IH]; intros n s; [done|]. cbn [skip_loop].
  case_match; [|done]. destruct (async_read_exact _ s) as [[bs|e|q] s1] eqn:Hr; [apply IH|done|].
  by apply async_read_exact_no_panic in Hr.
Qed.

Lemma read_message_no_panic fuel limit s p s' : read_message fuel limit s <> Some (Panic p, s').
Proof.
  unfold read_message. destruct (async_read_exact 4 s) as [[len_buf|e|q] s1] eqn:Hr;
    [|done|by apply async_read_exact_no_panic in Hr].
  assert (exists len, read (A:=Int32) (cursor len_buf) = Ok (len, cursor [])) as [len ->].
  { revert Hr. unfold async_read_exact, read_exact. destruct (Z.leb_spec 4 (zlen (src_data s))); [|done].
    intros [= <- _]. destruct (src_data s) as [|a [|b [|c [|d l]]]]; unfold zlen in *; simpl in *; [lia..|].
    by eexists. }
  destruct (usize_try_from (int32 len)) as [n|]; [|done]. case_match.
  - destruct (skip_loop fuel limit n s1) as [[[u|e|q] s2]|] eqn:Hs; try done.
    by apply skip_loop_no_panic in Hs.
  - destruct (async_read_exact n s1) as [[bs|e|q] s2] eqn:Hr2; try done.
    by apply async_read_exact_no_panic in Hr2.
Qed.

Lemma write_message_no_panic msg p : write_message msg <> Panic p.
Proof. unfold write_message. by destruct (signed_try_from 32 (zlen msg)). Qed.

(** ** Streams of frames *)

(** What a reader with a limit sees of a message. *)
Definition frame_result (limit : Z) (msg : list byte) : outcome FrameReadError (list byte) :=
  if limit <? zlen msg then Err (MessageTooLarge limit (zlen msg)) else Ok msg.

(** Reading [n] messages one after the other, as the reader task does. *)
Fixpoint read_messages (n : nat) (fuel : nat) (limit : Z) (s : src) :
    option (list (outcome FrameReadError (list byte)) * src) :=
  match n with
  | O => Some ([], s)
  | S n =>
      match read_message fuel limit s with
      | None => None
      | Some (r, s) =>
          match read_messages n fuel limit s with
          | None => None
          | Some (rs, s) => Some (r :: rs, s)
          end
      end
  end.

Lemma read_message_resync fuel limit msg bs s :
  0 < limit -> zlen msg < Z.of_nat fuel -> write_message msg = Ok bs ->
  read_message fuel limit (bs +> s) = Some (frame_result limit msg, s).
Proof.
  intros Hlim Hf Hw. rewrite (read_message_frame _ _ _ _ _ Hw). unfold frame_result.
  destruct (limit <? zlen msg); [|done]. by rewrite skip_loop_app.
Qed.

Lemma read_messages_resync fuel limit msgs bs s :
  0 < limit -> Forall (fun m => zlen m < Z.of_nat fuel) msgs ->
  write_many write_message msgs = Ok bs ->
  read_messages (length msgs) fuel limit (bs +> s) = Some (map (frame_result limit) msgs, s).
Proof.
  intros Hlim Hf. revert bs. induction Hf as [|m msgs Hm Hms IH]; intros bs Hw; simpl in *.
  - apply wnil_ok in Hw as ->. by rewrite src_app_nil.
  - apply wseq_ok in Hw as (b1 & b2 & H1 & H2 & ->).
    by rewrite src_app_app, (read_message_resync _ _ _ _ _ Hlim Hm H1), (IH _ H2).
Qed.

(** ** Properties *)

(** A message that was written as a frame and is within the limit is
    read back, and the source is left at the next frame, whatever follows; no
    iteration of the skipping loop is needed. *)
Theorem frame_round_trip msg bs limit s :
  write_message msg = Ok bs -> zlen msg <= limit ->
  read_message 0 limit (bs +> s) = Some (Ok msg, s).
Proof.
  intros Hw Hl. rewrite (read_message_frame _ _ _ _ _ Hw).
  by destruct (Z.ltb_spec limit (zlen msg)); [lia|].
Qed.

Lemma frame_round_trip_witness :
  read_message 0 16 (map byte_of_Z [0; 0; 0; 2; 7; 8] +> cursor [])
    = Some (Ok (map byte_of_Z [7; 8]), cursor []).
Proof. apply (frame_round_trip (map byte_of_Z [7; 8])); [reflexivity|vm_compute; congruence]. Defined.

(** A connection stays usable after messages that are too large. For a
    positive limit, reading a stream of frames gives for each message either
    the message or [MessageTooLarge] with its size, in order, and ends exactly
    after the last frame. *)
Theorem frames_resync msgs bs limit fuel s :
  0 < limit -> Forall (fun m => zlen m < Z.of_nat fuel) msgs ->
  write_many write_message msgs = Ok bs ->
  read_messages (length msgs) fuel limit (bs +> s) = Some (map (frame_result limit) msgs, s).
Proof. apply read_messages_resync. Qed.

Lemma frames_resync_witness :
  exists bs, write_many write_message [map byte_of_Z [1; 2; 3]; map byte_of_Z [4]] = Ok bs /\
    read_messages 2 8 2 (bs +> cursor [])
      = Some ([Err (MessageTooLarge 2 3); Ok (map byte_of_Z [4])], cursor []).
Proof.
  eexists. split; [reflexivity|].
  apply (frames_resync [map byte_of_Z [1; 2; 3]; map byte_of_Z [4]]); [lia| |reflexivity].
  repeat constructor; vm_compute; reflexivity.
Defined.

(** C37: reading a message terminates for every content of the connection
    when the limit is positive: as many iterations as the largest length an
    [Int32] can announce are enough. *)
Theorem read_message_terminates limit s :
  0 < limit -> exists r, read_message (Z.to_nat (2 ^ 31)) limit s = Some r.
Proof.
  intros Hlim. unfold read_message.
  destruct (async_read_exact 4 s) as [[buf|e|p] s1]; [|by eexists..].
  destruct (read (A:=Int32) (cursor buf)) as [[[len] s2]|e|p] eqn:Hr; [|by eexists..].
  apply read_wf in Hr. unfold wf, Int32_WellFormed, in_signed in Hr. cbn [int32] in *.
  destruct (usize_try_from len) as [n|] eqn:Hu; [|by eexists]. invert_ok.
  unfold in_unsigned in *. destruct (limit <? len).
  - destruct (skip_loop_total limit len (Z.to_nat (2 ^ 31)) s1 Hlim) as [[[]] ->];
      [rewrite Z2Nat.id; lia|by eexists..].
  - destruct (async_read_exact len s1) as [[] ]; by eexists.
Qed.

Lemma read_message_terminates_witness :
  0 < 1 /\ exists r, read_message (Z.to_nat (2 ^ 31)) 1 (cursor []) = Some r.
Proof. split; [lia|]. apply (read_message_terminates 1). lia. Defined.

(** With a limit of 0 the skipping loop makes steps of zero bytes: on
    any frame with a non-empty message [read_message] never returns, however
    many iterations are allowed. *)
Theorem read_message_zero_limit_diverges msg bs fuel s :
  write_message msg = Ok bs -> msg <> [] -> read_message fuel 0 (bs +> s) = None.
Proof.
  intros Hw Hne. rewrite (read_message_frame _ _ _ _ _ Hw).
  assert (0 < zlen msg).
  { destruct msg as [|b msg]; [done|]. rewrite zlen_cons. pose proof (zlen_nonneg msg). lia. }
  destruct (Z.ltb_spec 0 (zlen msg)); [|lia]. by rewrite skip_loop_diverges.
Qed.

Lemma read_message_zero_limit_diverges_witness :
  read_message 100 0 (map byte_of_Z [0; 0; 0; 1; 5] +> cursor []) = None.
Proof. apply (read_message_zero_limit_diverges (map byte_of_Z [5])); [reflexivity|done]. Defined.
