(* ===== verification/ProtocolTests.v ===== *)
(** * The tests of the protocol layer, replayed

    The unit tests that the crate keeps beside its readers and writers
    (src/protocol/primitives.rs, record.rs, frame.rs, vec_builder.rs,
    messages/mod.rs), as propositions about the definitions of this
    development.  They tie the model to data from outside: four of the record
    batches were recorded from the C client and from the Java client.  The
    crates are those of [RefCrates] and [RawSnappy]; the fixtures in gzip, lz4
    and zstd, for which there is no decoder here, are in [CompressionFixtures].
    The texts of the error messages are left out; the constructors stand for
    them. *)

From Stdlib Require Import ZArith Lia String Ascii.
From stdpp Require Import base list numbers.
From S2P Require Import Prelude Bytes Wire VecBuilder Varint Primitives PrimitiveLaws Record.
From S2P Require Import Codec RecordBatch RefCrates RawSnappy ApiKey ErrorCode Versioned Frame.

Local Open Scope Z_scope.
Local Open Scope rust_scope.

(** ** The shape of a test *)

Definition hex_digit (c : ascii) : Z :=
  let n := Z.of_nat (nat_of_ascii c) in if n <? 58 then n - 48 else n - 87.

(** The bytes that a string writes in hexadecimal. *)
Fixpoint hex (s : string) : list byte :=
  match s with
  | String a (String b s) => byte_of_Z (16 * hex_digit a + hex_digit b) :: hex s
  | _ => []
  end.

(** The bytes of a string. *)
Definition ascii_bytes (s : string) : list byte :=
  map (fun c => byte_of_Z (Z.of_nat (nat_of_ascii c))) (list_ascii_of_string s).

(** [Result::unwrap] and [Result::unwrap_err] in a test. *)
Definition unwrap {E A} (x : outcome E A) (k : A -> Prop) : Prop :=
  match x with Ok a => k a | _ => False end.
Definition unwrap_err {E A} (x : outcome E A) (k : E -> Prop) : Prop :=
  match x with Err e => k e | _ => False end.

Declare Scope test_scope.
Notation "'get' x ':=' m 'in' k" := (unwrap m (fun x => k))
  (at level 10, x pattern, m at level 100, k at level 200) : test_scope.
Notation "'fail' x ':=' m 'in' k" := (unwrap_err m (fun x => k))
  (at level 10, x name, m at level 100, k at level 200) : test_scope.
Local Open Scope test_scope.

(** A [for] loop of assertions. *)
Definition for_each {A} (l : list A) (P : A -> Prop) : Prop := foldr (fun x q => P x /\ q) True l.

Definition is_io (e : ReadError) : Prop := match e with ReadIO _ => True | _ => False end.

(** A read at the start of a cursor. *)
Definition read_from {A} `{ReadType A} (bs : list byte) : outcome ReadError (A * src) := read (cursor bs).

#[local] Existing Instance debug_profile.

(** ** src/protocol/primitives.rs *)

Definition test_boolean_decode : Prop :=
  (get (x, _) := read_from (A:=Boolean) [byte_of_Z 0] in boolean x = false) /\
  for_each [1; 35; 255] (fun v =>
    get (x, _) := read_from (A:=Boolean) [byte_of_Z v] in boolean x = true).

Definition test_varint_special_values : Prop :=
  for_each [0; -1; 1; -2; 2147483647; -2147483648] (fun v =>
    get data := write (mkVarint v) in
    get (restored, _) := read_from (A:=Varint) data in varint restored = v).

Definition test_varint_read_read_overflow : Prop :=
  fail err := read_from (A:=Varint) (replicate 11 (byte_of_Z 0xff)) in is_io err.

Definition test_varint_read_downcast_overflow : Prop :=
  fail err := read_from (A:=Varint) (replicate 9 (byte_of_Z 0xff) ++ [byte_of_Z 0]) in err = ReadOverflow.

Definition test_varlong_special_values : Prop :=
  for_each [0; -1; 1; -2; 2147483647; -2147483648; - 2 ^ 63; 2 ^ 63 - 1] (fun v =>
    get data := write (mkVarlong v) in
    get (restored, _) := read_from (A:=Varlong) data in varlong restored = v).

Definition test_varlong_read_overflow : Prop :=
  fail err := read_from (A:=Varlong) (replicate 11 (byte_of_Z 0xff)) in is_io err.

Definition test_unsigned_varint_read_overflow : Prop :=
  fail err := read_from (A:=UnsignedVarint) (replicate (64 / 7 + 1) (byte_of_Z 0xff)) in
  err = ReadMalformed VarintOverflow.

Definition test_string_blowup_memory : Prop :=
  get buf := write (mkInt16 (2 ^ 15 - 1)) in
  fail err := read_from (A:=String_) buf in is_io err.

Definition test_nullable_string_read_negative_length : Prop :=
  get buf := write (mkInt16 (-2)) in
  fail err := read_from (A:=NullableString) buf in err = ReadMalformed (NegativeLength (-2)).

Definition test_nullable_string_blowup_memory : Prop :=
  get buf := write (mkInt16 (2 ^ 15 - 1)) in
  fail err := read_from (A:=NullableString) buf in is_io err.

Definition test_compact_string_blowup_memory : Prop :=
  get buf := write (mkUnsignedVarint (2 ^ 64 - 1)) in
  fail err := read_from (A:=CompactString) buf in is_io err.

Definition test_compact_nullable_string_blowup_memory : Prop :=
  get buf := write (mkUnsignedVarint (2 ^ 64 - 1)) in
  fail err := read_from (A:=CompactNullableString) buf in is_io err.

Definition test_nullable_bytes_read_negative_length : Prop :=
  get buf := write (mkInt32 (-2)) in
  fail err := read_from (A:=NullableBytes) buf in err = ReadMalformed (NegativeLength (-2)).

Definition test_nullable_bytes_blowup_memory : Prop :=
  get buf := write (mkInt32 (2 ^ 31 - 1)) in
  fail err := read_from (A:=NullableBytes) buf in is_io err.

Definition test_tagged_fields_blowup_memory : Prop :=
  get fields := write (mkUnsignedVarint (2 ^ 64 - 1)) in
  get tag := write (mkUnsignedVarint (2 ^ 64 - 1)) in
  get data_length := write (mkUnsignedVarint (2 ^ 64 - 1)) in
  fail err := read_from (A:=TaggedFields) (fields ++ tag ++ data_length) in is_io err.

(** [Large]. *)
Inductive Large : Type := .
#[local] Instance Large_ReadType : ReadType Large :=
  let? _ := read (A:=Int32) in rlift (Panic Unreachable).

Definition test_array_blowup_memory : Prop :=
  get buf := write (mkInt32 (2 ^ 31 - 1)) in
  fail err := read_from (A:=Array Large) buf in is_io err.

Definition test_compact_array_blowup_memory : Prop :=
  get buf := write (mkUnsignedVarint (2 ^ 64 - 1)) in
  fail err := read_from (A:=CompactArray Large) buf in is_io err.

Definition record_batch (base_offset : Z) : RecordBatch :=
  mkRecordBatch base_offset 0 0 0 0 0 0 0 (RecordList []) NoCompression false CreateTime.

Definition test_records_partial : Prop :=
  get b1 := write (record_batch 1) in
  get b2 := write (record_batch 2) in
  get buf := write (mkNullableBytes (Some (removelast (b1 ++ b2)))) in
  get (records, _) := read_from (A:=Records) buf in
  records_0 records = [record_batch 1].

(** ** src/protocol/record.rs *)

Definition test_control_batch_record_unknown_version : Prop :=
  get version := write (mkInt16 1) in
  get type := write (mkInt16 0) in
  fail err := read_from (A:=ControlBatchRecord) (version ++ type) in
  err = ReadMalformed (UnknownControlVersion 1).

Definition test_control_batch_record_unknown_type : Prop :=
  get version := write (mkInt16 0) in
  get type := write (mkInt16 2) in
  fail err := read_from (A:=ControlBatchRecord) (version ++ type) in
  err = ReadMalformed (UnknownControlType 2).

(** A record batch of the C client. *)
Definition test_decode_fixture_nocompression : Prop :=
  let data :=
    hex "00000000000000000000004b00000000022724fecd0000000000000000000061" ++
    hex "d59b770000000061d59b77ffffffffffffffffffffffffffff00000001320000" ++
    hex "00001668656c6c6f206b61666b610206666f6f06626172" in
  let expected :=
    mkRecordBatch 0 0 0 1641388919 1641388919 (-1) (-1) (-1)
      (RecordList [mkRecord 0 0 (Some []) (Some (ascii_bytes "hello kafka"))
                     [mkRecordHeader (ascii_bytes "foo") (ascii_bytes "bar")]])
      NoCompression false CreateTime in
  get (actual, _) := read_from (A:=RecordBatch) data in
  actual = expected /\ get data2 := write actual in data = data2.

(** One with a null key, of the C client too. *)
Definition test_decode_fixture_null_key : Prop :=
  let data :=
    hex "00000000000000000000011a00000000026798b9540000000000000000017ebe" ++
    hex "dc91f60000017ebedc91f6ffffffffffffffffffffffffffff00000001ce0300" ++
    hex "000001ce010a650a2f746573745f746f7069635f33373339386638642d393566" ++
    hex "382d343465652d383361342d34643063353932623434366412320a0375706312" ++
    hex "170a047573657210031a0a1208000000000000f03f22010012100a0474696d65" ++
    hex "10041a030a016422010018010418636f6e74656e742d74797065a4016170706c" ++
    hex "69636174696f6e2f782d70726f746f6275663b20736368656d613d22696e666c" ++
    hex "7578646174612e696f782e77726974655f6275666665722e76312e5772697465" ++
    hex "4275666665725061796c6f6164221a696f782d6e616d657370616365126e616d" ++
    hex "657370616365" in
  let value :=
    hex "0a650a2f746573745f746f7069635f33373339386638642d393566382d343465" ++
    hex "652d383361342d34643063353932623434366412320a0375706312170a047573" ++
    hex "657210031a0a1208000000000000f03f22010012100a0474696d6510041a030a" ++
    hex "01642201001801" in
  let content_type :=
    hex "6170706c69636174696f6e2f782d70726f746f6275663b20736368656d613d22" ++
    hex "696e666c7578646174612e696f782e77726974655f6275666665722e76312e57" ++
    hex "726974654275666665725061796c6f616422" in
  let expected :=
    mkRecordBatch 0 0 0 1643879633398 1643879633398 (-1) (-1) (-1)
      (RecordList [mkRecord 0 0 None (Some value)
                     [mkRecordHeader (ascii_bytes "content-type") content_type;
                      mkRecordHeader (ascii_bytes "iox-namespace") (ascii_bytes "namespace")]])
      NoCompression false CreateTime in
  get (actual, _) := read_from (A:=RecordBatch) data in
  actual = expected /\ get data2 := write actual in data = data2.

(** Raw snappy, of the C client. *)
Definition test_decode_fixture_snappy : Prop :=
  let data :=
    hex "0000000000000000000000580000000002ad86f4f40002000000000000017eb6" ++
    hex "450e520000017eb6450e52ffffffffffffffffffffffffffff0000000180011c" ++
    hex "fc01000000c80178fe01008a0100501668656c6c6f206b61666b610206666f6f" ++
    hex "06626172" in
  let expected :=
    mkRecordBatch 0 0 0 1643735486034 1643735486034 (-1) (-1) (-1)
      (RecordList [mkRecord 0 0 (Some (replicate 100 (byte_of_Z 0x78))) (Some (ascii_bytes "hello kafka"))
                     [mkRecordHeader (ascii_bytes "foo") (ascii_bytes "bar")]])
      Snappy false CreateTime in
  get (actual, _) := RecordBatch_read (H0:=raw_codecs) (cursor data) in
  actual = expected /\
  get data2 := RecordBatch_write (H0:=raw_codecs) actual in
  get (actual2, _) := RecordBatch_read (H0:=raw_codecs) (cursor data2) in actual2 = expected.

(** Snappy in the framing of the Java client. *)
Definition test_decode_fixture_snappy_java : Prop :=
  let data :=
    hex "00000000000000000000008c0000000002791e2dce0002000000010000017f07" ++
    hex "257ab10000017f07257ab1ffffffffffffffffffffffffffff0000000282534e" ++
    hex "4150505900000000010000000100000047ff011cfc01000000c80178fe01008a" ++
    hex "0100641668656c6c6f206b61666b610206666f6f06626172fa01000002fe8000" ++
    hex "9680004c14736f6d652076616c75650206666f6f06626172" in
  let record offset_delta value :=
    mkRecord 0 offset_delta (Some (replicate 100 (byte_of_Z 0x78))) (Some (ascii_bytes value))
      [mkRecordHeader (ascii_bytes "foo") (ascii_bytes "bar")] in
  let expected :=
    mkRecordBatch 0 0 1 1645092371121 1645092371121 (-1) (-1) (-1)
      (RecordList [record 0 "hello kafka"%string; record 1 "some value"%string])
      Snappy false CreateTime in
  get (actual, _) := RecordBatch_read (H0:=raw_codecs) (cursor data) in
  actual = expected /\
  get data2 := RecordBatch_write (H0:=raw_codecs) actual in
  get (actual2, _) := RecordBatch_read (H0:=raw_codecs) (cursor data2) in actual2 = expected.

(** Found by the fuzzer. *)
Definition test_decode_java_specific_oom : Prop :=
  let data :=
    hex "0a0a8300d4000022004b08d222fbff00000000000001009b009b0a4000004b00" ++
    hex "00004030005700d382534e4150505900000000010000000100000003010000fc" ++
    hex "0009090909090950505900000000000000000000000000000000004030005700" ++
    hex "008000000000b09b00" in
  fail err := RecordBatchBody_read (H0:=raw_codecs) (cursor data) in
  err = ReadMalformed (JavaSnappyChunk 4227860745 38).

Definition test_carefully_decompress_snappy_empty_input : Prop :=
  fail err := carefully_decompress_snappy (H:=raw_codecs) [] 1 in
  match err with ReadMalformed _ => True | _ => False end.

Definition test_carefully_decompress_snappy_empty_payload : Prop :=
  get compressed := of_sum (raw_compress []) in
  get data := carefully_decompress_snappy (H:=raw_codecs) compressed 1 in data = [].

(** ** src/protocol/frame.rs *)

(** The result of [read_message]; ten iterations of its loop are enough for
    the messages of these tests. *)
Definition message_from (max_message_size : Z) (s : src) : outcome FrameReadError (list byte) :=
  default (Panic Unreachable) (fst <$> read_message 10 max_message_size s).

Definition test_read_negative_size : Prop :=
  get data := write (mkInt32 (-1)) in
  fail err := message_from 100 (cursor data) in err = NegativeMessageSize (-1).

Definition test_read_too_large : Prop :=
  get foooo := write_message (ascii_bytes "foooo") in
  get bar := write_message (ascii_bytes "bar") in
  match read_message 10 3 (cursor (foooo ++ bar)) with
  | Some (Err err, stream) =>
      err = MessageTooLarge 3 5 /\ get data := message_from 3 stream in data = ascii_bytes "bar"
  | _ => False
  end.

Definition test_write_too_large : Prop :=
  forall msg, zlen msg = 2 ^ 31 - 1 + 1 ->
  fail err := write_message msg in err = TooLarge 2147483648.

Definition test_roundtrip_empty_cursor : Prop :=
  get data := write_message [] in
  get actual := message_from 0 (cursor data) in actual = [].

(** ** src/protocol/vec_builder.rs *)

(** [for x in xs { builder.push(x); }] *)
Definition push_all {T} (xs : list T) (b : VecBuilder T) : outcome Empty_set (VecBuilder T) :=
  fold_left (fun b x => let! b := b in push x b) xs (Ok b).

Definition test_build : Prop :=
  get builder := new_with_block_size (E:=Empty_set) (T:=Z) 2 7 5 in
  get builder := push_all [0; 1; 2; 3; 4; 5; 6] builder in
  blocks builder = [[0; 1]; [2; 3]; [4; 5]; [6]] /\ into_vec builder = [0; 1; 2; 3; 4; 5; 6].

Definition test_zst : Prop :=
  get builder := new_with_block_size (E:=Empty_set) (T:=unit) 0 3 1 in
  get builder := push_all [tt; tt; tt] builder in
  blocks builder = [[tt; tt; tt]] /\ into_vec builder = [tt; tt; tt].

Definition test_reader : Prop :=
  let data := ascii_bytes "abc" in
  get builder := new_with_block_size (E:=Empty_set) 1 (zlen data) 2 in
  get (builder, _) := builder_read_exact builder (cursor data) in
  blocks builder = [ascii_bytes "ab"; ascii_bytes "c"] /\ into_vec builder = data.

Definition test_push_reader_interaction : Prop :=
  let data := ascii_bytes "bc" in
  get builder := new_with_block_size (E:=Empty_set) 1 (zlen data + 1) 2 in
  get builder := push_all (ascii_bytes "a") builder in
  get (builder, _) := builder_read_exact builder (cursor data) in
  blocks builder = [ascii_bytes "ab"; ascii_bytes "c"] /\ into_vec builder = ascii_bytes "abc".

(** Without the comparison of addresses. *)
Definition test_single_block_not_copied : Prop :=
  get builder := new_with_block_size (E:=Empty_set) (T:=Z) 2 5 10 in
  get builder := push_all [0; 1; 2; 3; 4] builder in
  blocks builder = [[0; 1; 2; 3; 4]] /\ into_vec builder = [0; 1; 2; 3; 4].

Definition test_panic_block_size_too_small : Prop :=
  new_with_block_size (E:=Empty_set) (T:=Z) 2 0 1 = Panic ExplicitPanic.

Definition test_panic_too_many_elements : Prop :=
  get builder := new_with_block_size (E:=Empty_set) (T:=Z) 1 0 1 in
  push_all [1] builder = Panic AssertFailed.

(** ** src/protocol/messages/mod.rs *)

(** [VersionTest]: written at its own version only. *)
Record VersionTest : Type := mkVersionTest { test_version : ApiVersion }.

#[local] Instance VersionTest_write : WriteVersionedType VersionTest := fun version self =>
  let! _ := oassert (bool_decide (version = test_version self)) in wr (mkInt32 42).
#[local] Instance VersionTest_read : ReadVersionedType VersionTest := fun version =>
  let? x := rd Int32 in let? _ := rassert (int32 x =? 42) in rret (mkVersionTest version).

Definition test_read_write_versioned : Prop :=
  for_each [0; 6]%nat (fun len => for_each [0; 1; 2] (fun i =>
    let input := replicate len (mkVersionTest (V i)) in
    get buffer := write_versioned_array (V i) (Some input) in
    get (output, _) := read_versioned_array (V i) (cursor buffer) in output = Some input)) /\
  get buffer := write_versioned_array (T:=VersionTest) (V 0) None in
  get (output, _) := read_versioned_array (T:=VersionTest) (V 0) (cursor buffer) in output = None.

Definition test_read_versioned_blowup_memory : Prop :=
  get buf := write (mkInt32 (2 ^ 31 - 1)) in
  fail err := read_versioned_array (T:=VersionTest) (V 42) (cursor buf) in
  let '(RVReadError e) := err in is_io e.

Definition test_read_write_compact_versioned : Prop :=
  for_each [0; 6]%nat (fun len => for_each [0; 1; 2] (fun i =>
    let input := replicate len (mkVersionTest (V i)) in
    get buffer := write_compact_versioned_array (V i) (Some input) in
    get (output, _) := read_compact_versioned_array (V i) (cursor buffer) in output = Some input)) /\
  get buffer := write_compact_versioned_array (T:=VersionTest) (V 0) None in
  get (output, _) := read_compact_versioned_array (T:=VersionTest) (V 0) (cursor buffer) in output = None.

Definition test_read_compact_versioned_blowup_memory : Prop :=
  get buf := write (mkUnsignedVarint (2 ^ 64 - 1)) in
  fail err := read_compact_versioned_array (T:=VersionTest) (V 42) (cursor buf) in
  let '(RVReadError e) := err in is_io e.

(** ** The tests pass *)

(** A test is run; an array of up to 2^64 elements that is not there is looked
    at lazily. *)
Ltac passes := vm_compute; repeat first [split|constructor]; reflexivity.
Ltac passes_lazily := lazy; exact I.

(** The record batches that were recorded from other clients (the C client
    without compression, with a null key and with raw snappy; the Java client
    with its own framing of snappy) are read as the values the tests of the
    crate expect, checksum included; the uncompressed ones are written back as
    the same bytes, and the compressed ones can be read again.  The batch body
    that the fuzzer found is refused. *)
Theorem recorded_batches_decode :
  test_decode_fixture_nocompression /\ test_decode_fixture_null_key /\ test_decode_fixture_snappy /\
  test_decode_fixture_snappy_java /\ test_decode_java_specific_oom.
Proof. passes. Qed.

Lemma primitive_tests_pass :
  test_boolean_decode /\ test_varint_special_values /\ test_varint_read_read_overflow /\
  test_varint_read_downcast_overflow /\ test_varlong_special_values /\ test_varlong_read_overflow /\
  test_unsigned_varint_read_overflow /\ test_string_blowup_memory /\
  test_nullable_string_read_negative_length /\ test_nullable_string_blowup_memory /\
  test_compact_string_blowup_memory /\ test_compact_nullable_string_blowup_memory /\
  test_nullable_bytes_read_negative_length /\ test_nullable_bytes_blowup_memory /\
  test_records_partial.
Proof. passes. Qed.

Lemma array_tests_pass :
  test_tagged_fields_blowup_memory /\ test_array_blowup_memory /\ test_compact_array_blowup_memory /\
  test_read_versioned_blowup_memory /\ test_read_compact_versioned_blowup_memory.
Proof. split_and!; passes_lazily. Qed.

Lemma record_tests_pass :
  test_control_batch_record_unknown_version /\ test_control_batch_record_unknown_type /\
  test_carefully_decompress_snappy_empty_input /\ test_carefully_decompress_snappy_empty_payload.
Proof. passes. Qed.

Lemma frame_tests_pass :
  test_read_negative_size /\ test_read_too_large /\ test_write_too_large /\ test_roundtrip_empty_cursor.
Proof.
  split_and!; [passes|passes| |passes].
  intros msg Hlen. unfold write_message. rewrite Hlen. vm_compute. reflexivity.
Qed.

Lemma builder_tests_pass :
  test_build /\ test_zst /\ test_reader /\ test_push_reader_interaction /\ test_single_block_not_copied /\
  test_panic_block_size_too_small /\ test_panic_too_many_elements /\
  test_read_write_versioned /\ test_read_write_compact_versioned.
Proof. passes. Qed.

(** The property-based test of the decompressor, for an encoder that is an
    instance of the format; [compress] of the test unwraps it. *)
Definition test_carefully_decompress_snappy : Prop :=
  forall input : list byte, zlen input < 10000 ->
  get compressed := of_sum (raw_compress input) in
  get input2 := carefully_decompress_snappy (H:=raw_codecs) compressed 1 in
  input = input2.

Lemma snappy_proptest_passes : test_carefully_decompress_snappy.
Proof.
  intros input Hlen. pose proof (zlen_nonneg input).
  destruct (uvarint_bytes_total (E:=ReadError) (zlen input)) as (header & Hw & _).
  { unfold in_unsigned. lia. }
  assert (exists c, raw_compress input = inr c) as [c Hc].
  { unfold raw_compress. rewrite Hw, (proj2 (Z.ltb_lt _ _)) by lia. eauto. }
  rewrite Hc. cbn [of_sum unwrap].
  by rewrite (carefully_decompress_compress (H:=raw_codecs) input c).
Qed.
