(* ===== verification/CompressionFixtures.v ===== *)
(** * Recorded batches whose compression is a crate's (src/protocol/record.rs)

    The gzip, lz4 and zstd batches that the tests of the record layer took from
    another client.  The decompressors are crates, so what the tests show is
    relative to them: a decoder that undoes the format on the recorded payload
    and an encoder that succeeds make the tests pass, with every other byte of
    the batches read by the code of [RecordBatch] and their checksums
    verified.  The codecs at the end meet these conditions. *)

From Stdlib Require Import ZArith Lia String.
From stdpp Require Import base list numbers.
From S2P Require Import Prelude Bytes Wire VecBuilder Varint Primitives PrimitiveLaws Record.
From S2P Require Import Codec RecordBatch RefCrates RawSnappy ProtocolTests.

Local Open Scope Z_scope.
Local Open Scope rust_scope.
Local Open Scope test_scope.

#[local] Existing Instance debug_profile.

(** ** The tests *)

(** What the three batches have in common. *)
Definition fixture_records : ControlBatchOrRecords :=
  RecordList [mkRecord 0 0 (Some (replicate 100 (byte_of_Z 0x78))) (Some (ascii_bytes "hello kafka"))
                [mkRecordHeader (ascii_bytes "foo") (ascii_bytes "bar")]].

Definition fixture_batch (timestamp : Z) (c : RecordBatchCompression) : RecordBatch :=
  mkRecordBatch 0 0 0 timestamp timestamp (-1) (-1) (-1) fixture_records c false CreateTime.

Definition gzip_fixture : list byte :=
  hex "0000000000000000000000640000000002ba4146650001000000000000017e90" ++
  hex "b334670000017e90b33467ffffffffffffffffffffffffffff000000011f8b08" ++
  hex "00000000000003fbc3c8c0c07082b1820e402c233527275f213b312d3b91892d" ++
  hex "2d3f9f2d29b10800e4cdba1f80000000".

Definition lz4_fixture : list byte :=
  hex "00000000000000000000006300000000021ba592350003000000000000017eb1" ++
  hex "1fc7240000017eb11fc724ffffffffffffffffffffffffffff0000000104224d" ++
  hex "18604082230000008ffc01000000c80178010050f0061668656c6c6f206b6166" ++
  hex "6b610206666f6f0662617200000000".

Definition zstd_fixture : list byte :=
  hex "00000000000000000000005d0000000002a16e4e950004000000000000017ebf" ++
  hex "78f3ad0000017ebf78f3adffffffffffffffffffffffffffff0000000128b52f" ++
  hex "fd00581d0100e8fc01000000c801781668656c6c6f206b61666b610206666f6f" ++
  hex "06626172010020055c".

Section tests.
Context `{Codecs}.

Definition test_decode_fixture_gzip : Prop :=
  let expected := fixture_batch 1643105170535 Gzip in
  get (actual, _) := read_from (A:=RecordBatch) gzip_fixture in
  actual = expected /\
  get data2 := write actual in
  get (actual2, _) := read_from (A:=RecordBatch) data2 in actual2 = expected.

Definition test_decode_fixture_lz4 : Prop :=
  let expected := fixture_batch 1643649156900 Lz4 in
  get (actual, _) := read_from (A:=RecordBatch) lz4_fixture in
  actual = expected /\
  get data2 := write actual in
  get (actual2, _) := read_from (A:=RecordBatch) data2 in actual2 = expected.

Definition test_decode_fixture_zstd : Prop :=
  let expected := fixture_batch 1643889882029 Zstd in
  get (actual, _) := read_from (A:=RecordBatch) zstd_fixture in
  actual = expected /\
  get data2 := write actual in
  get (actual2, _) := read_from (A:=RecordBatch) data2 in actual2 = expected.
End tests.

(** ** What they need of the crates *)

(** The compressed part of a batch: the 61 bytes before it are its header. *)
Definition fixture_payload (data : list byte) : list byte := drop 61 data.

(** The record before its compression. *)
Definition fixture_plain : list byte :=
  hex "fc01000000c80178" ++ replicate 99 (byte_of_Z 0x78) ++
  hex "1668656c6c6f206b61666b610206666f6f06626172".

(** An encoder that writes the record in a megabyte. *)
Definition encodes_record (encode : list byte -> ErrorKind + list byte) : Prop :=
  exists c, encode fixture_plain = inr c /\ zlen c < 2 ^ 20.

Class FixtureCodecs `{Codecs} : Prop := {
  fixture_crc : forall bs, crc32c bs = ref_crc32c bs;
  fixture_features : feature_gzip && feature_lz4 && feature_zstd = true;
  fixture_gzip :
    gzip_decoder (cursor (fixture_payload gzip_fixture)) = cursor fixture_plain /\
    gzip_rest (cursor (fixture_payload gzip_fixture)) = cursor [] /\ encodes_record gzip_encode;
  fixture_lz4 :
    lz4_decoder (cursor (fixture_payload lz4_fixture)) = inr (cursor fixture_plain) /\
    lz4_finish (cursor (fixture_payload lz4_fixture)) = inr tt /\
    lz4_rest (cursor (fixture_payload lz4_fixture)) = cursor [] /\ encodes_record lz4_encode;
  fixture_zstd :
    zstd_decoder (cursor (fixture_payload zstd_fixture)) = inr (cursor fixture_plain) /\
    zstd_rest (cursor (fixture_payload zstd_fixture)) = cursor [] /\ encodes_record zstd_encode;
}.

Section passing.
Context {C : Codecs} {CO : CodecsOk} {FC : FixtureCodecs}.

Lemma fixture_plain_reads : read_records false 1 (cursor fixture_plain) = Ok (fixture_records, cursor []).
Proof. vm_compute. reflexivity. Qed.

Lemma fixture_plain_written : write_records fixture_records = Ok fixture_plain.
Proof. vm_compute. reflexivity. Qed.

(** The three payloads decode to the record. *)
Lemma fixture_features_on : feature_gzip = true /\ feature_lz4 = true /\ feature_zstd = true.
Proof. pose proof fixture_features. destruct feature_gzip, feature_lz4, feature_zstd; done. Qed.

Lemma decode_gzip_fixture :
  decode_records Gzip false 1 (cursor (fixture_payload gzip_fixture)) = Ok (fixture_records, cursor []).
Proof.
  unfold decode_records. destruct fixture_features_on as (-> & _ & _), fixture_gzip as (-> & -> & _).
  by rewrite fixture_plain_reads.
Qed.

Lemma decode_lz4_fixture :
  decode_records Lz4 false 1 (cursor (fixture_payload lz4_fixture)) = Ok (fixture_records, cursor []).
Proof.
  unfold decode_records. destruct fixture_features_on as (_ & -> & _), fixture_lz4 as (-> & -> & -> & _).
  cbn [of_sum omap_err obind]. by rewrite fixture_plain_reads.
Qed.

Lemma decode_zstd_fixture :
  decode_records Zstd false 1 (cursor (fixture_payload zstd_fixture)) = Ok (fixture_records, cursor []).
Proof.
  unfold decode_records. destruct fixture_features_on as (_ & _ & ->), fixture_zstd as (-> & -> & _).
  cbn [of_sum omap_err obind]. by rewrite fixture_plain_reads.
Qed.

(** The fields before the payload are computed, whatever decodes it. *)
Ltac fixture_fields Hd :=
  unfold RecordBatchBody_read; revert Hd; generalize (decode_records (H:=ref_varint) (H0:=C));
  intros dec Hd; vm_compute in Hd |- *; rewrite Hd; reflexivity.

Lemma gzip_body_reads :
  RecordBatchBody_read (cursor (drop 21 gzip_fixture))
  = Ok (batch_body (fixture_batch 1643105170535 Gzip), cursor []).
Proof. pose proof decode_gzip_fixture as Hd. fixture_fields Hd. Qed.

Lemma lz4_body_reads :
  RecordBatchBody_read (cursor (drop 21 lz4_fixture))
  = Ok (batch_body (fixture_batch 1643649156900 Lz4), cursor []).
Proof. pose proof decode_lz4_fixture as Hd. fixture_fields Hd. Qed.

Lemma zstd_body_reads :
  RecordBatchBody_read (cursor (drop 21 zstd_fixture))
  = Ok (batch_body (fixture_batch 1643889882029 Zstd), cursor []).
Proof. pose proof decode_zstd_fixture as Hd. fixture_fields Hd. Qed.

(** A batch is a header with the checksum of the rest, and the rest. *)
Definition checked_batch (data : list byte) : Prop :=
  let checked := drop 21 data in
  data = batch_header 0 0 (zlen checked) (ref_crc32c checked) ++ checked.

Lemma read_fixture data timestamp c :
  checked_batch data -> zlen data < 2 ^ 20 ->
  RecordBatchBody_read (cursor (drop 21 data)) = Ok (batch_body (fixture_batch timestamp c), cursor []) ->
  read_from (A:=RecordBatch) data = Ok (fixture_batch timestamp c, cursor []).
Proof.
  intros Hdata Hlen Hbody. unfold read_from. rewrite Hdata, <-src_app_cursor.
  assert (zlen (drop 21 data) <= zlen data) by (unfold zlen; rewrite length_drop; lia).
  rewrite batch_header_read by (first [done|lia|rewrite <-fixture_crc; apply crc32c_u32]).
  unfold batch_from_checked, parse_checked. rewrite fixture_crc, Z.eqb_refl. simpl negb. cbv iota.
  by rewrite Hbody.
Qed.

(** The batch is written when its records are. *)
Lemma write_fixture_body timestamp c bs :
  encode_records c fixture_records = Ok bs ->
  exists data, RecordBatchBody_write (batch_body (fixture_batch timestamp c)) = Ok data /\
    zlen data = 40 + zlen bs.
Proof.
  intros Hbs. unfold RecordBatchBody_write.
  change (body_compression (batch_body (fixture_batch timestamp c))) with c.
  change (body_records (batch_body (fixture_batch timestamp c))) with fixture_records.
  rewrite Hbs. clear Hbs. destruct c; eexists; (split; [reflexivity|]); unfold zlen; rewrite !length_app; unfold to_be_bytes; rewrite ?length_be_bytes; lia.
Qed.

Lemma write_fixture timestamp c bs :
  encode_records c fixture_records = Ok bs -> zlen bs < 2 ^ 20 ->
  exists data, write (fixture_batch timestamp c) = Ok data.
Proof.
  intros Hbs Hlen. destruct (write_fixture_body timestamp c bs Hbs) as (data & Hd & Hz).
  unfold write, RecordBatch_WriteType, RecordBatch_write. rewrite Hd. cbn [obind].
  pose proof (zlen_nonneg bs).
  assert (signed_try_from 32 (zlen data + 4 + 1 + 4) = Some (zlen data + 4 + 1 + 4)) as ->.
  { apply signed_try_from_some. split; [done|]. unfold in_signed. lia. }
  eexists. reflexivity.
Qed.

Lemma fixture_records_wf : wf fixture_records.
Proof.
  apply Forall_cons_2; [|apply Forall_nil_2].
  repeat split; done || (apply Forall_cons_2; [|apply Forall_nil_2]; done).
Qed.

Lemma fixture_wf timestamp c : in_signed 64 timestamp -> wf (fixture_batch timestamp c).
Proof. intros Ht. split; [done|]. split; [done|]. split_and!; [done..|apply fixture_records_wf]. Qed.

(** Such a batch passes its test. *)
Lemma fixture_passes data timestamp c bs :
  read_from (A:=RecordBatch) data = Ok (fixture_batch timestamp c, cursor []) ->
  in_signed 64 timestamp -> encode_records c fixture_records = Ok bs -> zlen bs < 2 ^ 20 ->
  get (actual, _) := read_from (A:=RecordBatch) data in
  actual = fixture_batch timestamp c /\
  get data2 := write actual in
  get (actual2, _) := read_from (A:=RecordBatch) data2 in actual2 = fixture_batch timestamp c.
Proof.
  intros Hr Ht Hbs Hlen. rewrite Hr. split; [done|].
  destruct (write_fixture timestamp c bs Hbs Hlen) as [data2 Hw]. rewrite Hw. simpl.
  pose proof (read_write _ _ (cursor []) (fixture_wf timestamp c Ht) Hw) as Hr2.
  rewrite src_app_cursor in Hr2. unfold read_from. by rewrite Hr2.
Qed.

Lemma gzip_fixture_passes : test_decode_fixture_gzip.
Proof.
  destruct fixture_gzip as (_ & _ & bs & Hbs & Hlen). apply (fixture_passes _ _ _ bs); [|done| |done].
  - apply read_fixture; [by vm_compute|done|apply gzip_body_reads].
  - cbn [encode_records]. destruct fixture_features_on as (-> & _ & _).
    by rewrite fixture_plain_written; simpl; rewrite Hbs.
Qed.

Lemma lz4_fixture_passes : test_decode_fixture_lz4.
Proof.
  destruct fixture_lz4 as (_ & _ & _ & bs & Hbs & Hlen). apply (fixture_passes _ _ _ bs); [|done| |done].
  - apply read_fixture; [by vm_compute|done|apply lz4_body_reads].
  - cbn [encode_records]. destruct fixture_features_on as (_ & -> & _).
    by rewrite fixture_plain_written; simpl; rewrite Hbs.
Qed.

Lemma zstd_fixture_passes : test_decode_fixture_zstd.
Proof.
  destruct fixture_zstd as (_ & _ & bs & Hbs & Hlen). apply (fixture_passes _ _ _ bs); [|done| |done].
  - apply read_fixture; [by vm_compute|done|apply zstd_body_reads].
  - cbn [encode_records]. destruct fixture_features_on as (_ & _ & ->).
    by rewrite fixture_plain_written; simpl; rewrite Hbs.
Qed.
End passing.

(** ** Codecs that meet the conditions *)

(** A decoder that knows one payload; others are stored behind a byte that the
    payload does not start with. *)
Definition known_decoder (payload : list byte) (s : src) : src :=
  if bool_decide (src_data s = payload) then mkSrc fixture_plain (src_tail s)
  else mkSrc (drop 1 (src_data s)) (src_tail s).

Definition stored_encode (plain : list byte) : ErrorKind + list byte := inr (byte_of_Z 0 :: plain).

#[local] Instance known_codecs : Codecs := {|
  crc32c := ref_crc32c;
  feature_gzip := true; feature_lz4 := true; feature_snappy := true; feature_zstd := true;
  gzip_decoder := known_decoder (fixture_payload gzip_fixture);
  gzip_rest := stored_rest; gzip_encode := stored_encode;
  lz4_decoder s := inr (known_decoder (fixture_payload lz4_fixture) s);
  lz4_rest := stored_rest; lz4_finish _ := inr tt; lz4_encode := stored_encode;
  zstd_decoder s := inr (known_decoder (fixture_payload zstd_fixture) s);
  zstd_rest := stored_rest; zstd_encode := stored_encode;
  snap_decompress_len := snap_decompress_len (Codecs:=ref_codecs);
  snap_decompress := snap_decompress (Codecs:=ref_codecs);
  snap_compress := snap_compress (Codecs:=ref_codecs);
|}.

Lemma known_decoder_stored payload plain :
  head payload <> Some (byte_of_Z 0) -> known_decoder payload (cursor (byte_of_Z 0 :: plain)) = cursor plain.
Proof. intros Hp. unfold known_decoder. simpl. case_bool_decide as Heq; [|done]. by subst payload. Qed.

Lemma known_codecs_ok : CodecsOk (H:=known_codecs).
Proof.
  split.
  - apply (crc32c_u32 (H:=ref_codecs)).
  - intros plain c [= <-]. split; [by apply known_decoder_stored|done].
  - intros plain c [= <-]. split; [|done].
    by apply (f_equal inr), known_decoder_stored.
  - intros plain c [= <-]. split; [|done].
    by apply (f_equal inr), known_decoder_stored.
  - apply (snap_ok (H:=ref_codecs)).
  - apply (snap_shortened (H:=ref_codecs)).
  - apply (snap_not_java (H:=ref_codecs)).
  - apply (snap_len_empty (H:=ref_codecs)).
  - apply (snap_len_range (H:=ref_codecs)).
  - apply (snap_no_buffer_too_small (H:=ref_codecs)).
Qed.

Lemma known_codecs_fixture : FixtureCodecs (H:=known_codecs).
Proof.
  assert (encodes_record stored_encode) by (eexists; split; [reflexivity|vm_compute; reflexivity]).
  split; try done; split_and!; done.
Qed.

Example known_fixtures_pass :
  test_decode_fixture_gzip /\ test_decode_fixture_lz4 /\ test_decode_fixture_zstd.
Proof.
  pose proof known_codecs_ok. pose proof known_codecs_fixture.
  split_and!; [apply gzip_fixture_passes|apply lz4_fixture_passes|apply zstd_fixture_passes].
Qed.
