(* ===== verification/Support.v ===== *)
(** * Small helpers (src/validation.rs, src/throttle.rs) *)

From Stdlib Require Import ZArith Lia.
From stdpp Require Import base list numbers.
From S2P Require Import Prelude Bytes Wire VecBuilder Varint Primitives.

Local Open Scope Z_scope.
Local Open Scope rust_scope.

(** [Vec::pop]: the last element and the vector without it. *)
Definition vec_pop {A} (l : list A) : option (A * list A) :=
  match list.last l with
  | Some x => Some (x, removelast l)
  | None => None
  end.

(** [ExactlyOne::exactly_one]: the error is the number of elements. *)
Definition exactly_one {A} (self : list A) : outcome Z A :=
  match vec_pop self with
  | None => Err 0
  | Some (v, self) => if (zlen self =? 0) then Ok v else Err (zlen self + 1)
  end.

(** [std::task::Poll]. *)
Inductive Poll (A : Type) : Type :=
| Pending
| Ready (a : A).
Arguments Pending {A}.
Arguments Ready {A} a.

(** [ErrorOrThrottle]; a [Duration] is its number of milliseconds. *)
Inductive ErrorOrThrottle (E : Type) : Type :=
| EtError (e : E)
| Throttle (millis : Z).
Arguments EtError {E} e.
Arguments Throttle {E} millis.

(** [maybe_throttle]. *)
Definition maybe_throttle {E} (throttle_time_ms : option Int32) : outcome (ErrorOrThrottle E) unit :=
  let throttle_time_ms := default 0 (option_map int32 throttle_time_ms) in
  match unsigned_try_from 64 throttle_time_ms with
  | None => Ok tt
  | Some t => if t =? 0 then Ok tt else Err (Throttle t)
  end.

(** ** Lemmas *)
Lemma vec_pop_snoc {A} (l : list A) x : vec_pop (l ++ [x]) = Some (x, l).
Proof. unfold vec_pop. by rewrite last_snoc, removelast_last. Qed.

(** ** Properties *)

(** [exactly_one] returns the element of a vector of length one, and
    otherwise the number of elements as the error; it never panics. *)
Theorem exactly_one_spec {A} (l : list A) :
  exactly_one l = match l with [x] => Ok x | _ => Err (zlen l) end.
Proof.
  unfold exactly_one. destruct l as [|x l _] using rev_ind; [done|]. rewrite vec_pop_snoc.
  destruct l as [|y l]; [done|]. rewrite zlen_cons. pose proof (zlen_nonneg l).
  destruct (Z.eqb_spec (1 + zlen l) 0); [lia|]. simpl.
  destruct (l ++ [x]) eqn:E; [by destruct l|]. rewrite <-E, zlen_cons, zlen_app. f_equal.
  change (zlen [x]) with 1. lia.
Qed.

Lemma maybe_throttle_not_error {E} t (e : E) : maybe_throttle t <> Err (EtError e).
Proof. unfold maybe_throttle. repeat case_match; done. Qed.

Lemma maybe_throttle_no_panic {E} t p : maybe_throttle (E:=E) t <> Panic p.
Proof. unfold maybe_throttle. repeat case_match; done. Qed.

(** A response makes the client wait exactly when it carries a positive
    throttle time, and then for that many milliseconds; an absent, zero or
    negative time is no throttle. *)
Theorem maybe_throttle_spec E (t : option Int32) :
  from_option wf True t ->
  maybe_throttle (E:=E) t =
    match t with
    | Some t => if 0 <? int32 t then Err (Throttle (int32 t)) else Ok tt
    | None => Ok tt
    end.
Proof.
  intros Ht. unfold maybe_throttle. destruct t as [[t]|]; [|done]. simpl in *.
  unfold wf, Int32_WellFormed, in_signed in Ht. simpl in Ht.
  unfold unsigned_try_from, in_unsigned_b.
  destruct (Z.leb_spec 0 t), (Z.ltb_spec t (2 ^ 64)), (Z.ltb_spec 0 t); simpl; try lia; try done.
  - destruct (Z.eqb_spec t 0); [lia|done].
  - destruct (Z.eqb_spec t 0); [done|lia].
Qed.

Lemma maybe_throttle_spec_witness :
  maybe_throttle (E:=unit) (Some (mkInt32 250)) = Err (Throttle 250).
Proof.
  apply (maybe_throttle_spec unit (Some (mkInt32 250))). vm_compute. split; congruence.
Defined.
