(* ===== verification/MetadataCache.v ===== *)
(** * The metadata cache (src/client/metadata_cache.rs)

    A look-aside cache of one [MetadataResponse] behind a mutex, with a
    generation that counts the updates.  [get] takes the lock twice: once to
    copy the entry and once, through [invalidate], to drop a stale entry; other
    calls can run between the two, which is what the generation guards
    against.  The generation is a [usize]; the update that would take it beyond
    its range panics or wraps around, as the profile has it. *)

From Stdlib Require Import ZArith Lia.
From stdpp Require Import base list numbers.
From S2P Require Import Prelude Bytes Wire VecBuilder Varint Primitives PrimitiveLaws ApiKey.
From S2P Require Import ErrorCode Versioned TopicMessages.

Local Open Scope Z_scope.

Record MetadataCache : Type := mkMetadataCache {
  cache_entry : option MetadataResponse;
  cache_gen : Z;
}.

(** [MetadataCache::default]. *)
Definition MetadataCache_default : MetadataCache := mkMetadataCache None 0.

(** [m.topics.retain(|t| want.contains(&t.name.0))]. *)
Definition retain_topics (want : list rstring) (m : MetadataResponse) : MetadataResponse :=
  mkMetadataResponse (mresp_throttle_time_ms m) (brokers m) (cluster_id m) (controller_id m)
    (filter (fun t => string_ (mt_name t) ∈ want) (mresp_topics m)).

(** [MetadataCache::invalidate]. *)
Definition cache_invalidate (gen : Z) (c : MetadataCache) : MetadataCache :=
  if negb (cache_gen c =? gen) then c else mkMetadataCache None (cache_gen c).

(** [MetadataCache::update].  The entry is stored before the generation is
    bumped, and stays when that panics. *)
Definition cache_update {prof : Profile} {E} (m : MetadataResponse) (c : MetadataCache) :
    outcome E unit * MetadataCache :=
  match arith_unsigned (E:=E) usize_bits (cache_gen c + 1) with
  | Ok gen => (Ok tt, mkMetadataCache (Some m) gen)
  | Err e => (Err e, mkMetadataCache (Some m) (cache_gen c))
  | Panic p => (Panic p, mkMetadataCache (Some m) (cache_gen c))
  end.

(** The first critical section of [get], and what it decides: a hit, or a
    generation to invalidate in the second one. *)
Inductive lookup_result : Type :=
| Miss
| Hit (m : MetadataResponse) (gen : Z)
| StaleTopics (gen : Z).

Definition cache_lookup (topics : option (list rstring)) (c : MetadataCache) : lookup_result :=
  match cache_entry c with
  | None => Miss
  | Some m =>
      let gen := cache_gen c in
      match topics with
      | None => Hit m gen
      | Some want =>
          let m := retain_topics want m in
          if negb (zlen (mresp_topics m) =? zlen want) then StaleTopics gen else Hit m gen
      end
  end.

(** [MetadataCache::get] without interference. *)
Definition cache_get (topics : option (list rstring)) (c : MetadataCache) :
    option (MetadataResponse * Z) * MetadataCache :=
  match cache_lookup topics c with
  | Miss => (None, c)
  | Hit m gen => (Some (m, gen), c)
  | StaleTopics gen => (None, cache_invalidate gen c)
  end.

(** ** Calls of other threads *)
Inductive cache_op : Type :=
| OpUpdate (m : MetadataResponse)
| OpInvalidate (gen : Z).

Section runs.
Context {prof : Profile}.

Definition cache_step (op : cache_op) (c : MetadataCache) : MetadataCache :=
  match op with
  | OpUpdate m => snd (cache_update (E:=Empty_set) m c)
  | OpInvalidate gen => cache_invalidate gen c
  end.

Definition cache_run (ops : list cache_op) (c : MetadataCache) : MetadataCache :=
  fold_left (fun c op => cache_step op c) ops c.
End runs.

Definition is_update (op : cache_op) : bool :=
  match op with OpUpdate _ => true | OpInvalidate _ => false end.

(** ** Lemmas *)
Definition topic_names_of (m : MetadataResponse) : list rstring :=
  map (fun t => string_ (mt_name t)) (mresp_topics m).

(** Below the end of its range the generation counts the updates. *)
Lemma update_in_range {prof : Profile} {E} m c :
  in_unsigned usize_bits (cache_gen c + 1) ->
  cache_update (E:=E) m c = (Ok tt, mkMetadataCache (Some m) (cache_gen c + 1)).
Proof. intros Hr. unfold cache_update, arith_unsigned. by rewrite (proj2 (in_unsigned_b_true _ _) Hr). Qed.

Lemma cache_run_gen {prof : Profile} ops c :
  0 <= cache_gen c -> cache_gen c + zlen ops < 2 ^ usize_bits ->
  cache_gen (cache_run ops c) = cache_gen c + zlen (filter (fun op => is_update op = true) ops).
Proof.
  revert c. induction ops as [|op ops IH]; intros c H0 Hb; simpl; [unfold zlen; simpl; lia|].
  rewrite zlen_cons in Hb. pose proof (zlen_nonneg ops). rewrite filter_cons. destruct op as [m|g]; simpl.
  - rewrite update_in_range by (unfold in_unsigned; lia). simpl.
    rewrite IH, zlen_cons by (simpl; lia). simpl. lia.
  - assert (cache_gen (cache_invalidate g c) = cache_gen c) as Hg
      by (unfold cache_invalidate; by destruct (negb _)).
    rewrite IH by lia. lia.
Qed.

Lemma filter_names (want : list rstring) l :
  map (fun t => string_ (mt_name t)) (filter (fun t => string_ (mt_name t) ∈ want) l)
  = filter (fun n => n ∈ want) (map (fun t => string_ (mt_name t)) l).
Proof.
  induction l as [|t l IH]; [done|]. simpl map at 2. rewrite !filter_cons.
  destruct (decide (string_ (mt_name t) ∈ want)); simpl; by rewrite IH.
Qed.

(** Counting is the same as inclusion when neither side has duplicates. *)
Lemma filter_length_incl {A} `{EqDecision A} (want l : list A) :
  NoDup want -> NoDup l ->
  length (filter (fun x => x ∈ want) l) = length want <-> want ⊆ l.
Proof.
  intros Hw Hl. set (f := filter (fun x => x ∈ want) l).
  assert (Hf : NoDup f) by by apply list.NoDup_filter.
  assert (Hsub : f ⊆+ want).
  { apply NoDup_submseteq; [done|]. intros x [? _]%list_elem_of_filter. done. }
  split.
  - intros Hlen x Hx. apply submseteq_length_Permutation in Hsub; [|lia].
    rewrite <-Hsub in Hx. by apply list_elem_of_filter in Hx as [_ ?].
  - intros Hincl. apply Permutation_length, NoDup_Permutation; [done..|].
    intros x. unfold f. rewrite list_elem_of_filter. split; [by intros []|].
    intros Hx. split; [done|]. by apply Hincl.
Qed.

Lemma retain_topics_count want m :
  NoDup want -> NoDup (topic_names_of m) ->
  (zlen (mresp_topics (retain_topics want m)) =? zlen want) = true <-> want ⊆ topic_names_of m.
Proof.
  intros Hw Hm. rewrite <-(filter_length_incl want (topic_names_of m)) by done.
  unfold topic_names_of. rewrite <-filter_names, length_map, Z.eqb_eq. unfold zlen. simpl. lia.
Qed.

Lemma no_update_gen {prof : Profile} ops c :
  existsb is_update ops = false -> cache_gen (cache_run ops c) = cache_gen c.
Proof.
  revert c. induction ops as [|[m|g] ops IH]; intros c Hu; simpl in *; [done|done|].
  rewrite IH by done. unfold cache_invalidate. by destruct (negb _).
Qed.

Lemma update_gen {prof : Profile} ops c :
  0 <= cache_gen c -> cache_gen c + zlen ops < 2 ^ usize_bits ->
  existsb is_update ops = true -> cache_gen c < cache_gen (cache_run ops c).
Proof.
  intros H0 Hb (op & Hin & Hop)%existsb_exists. rewrite cache_run_gen by done.
  assert (op ∈ filter (fun op => is_update op = true) ops) as Hf.
  { apply list_elem_of_filter. split; [done|]. by apply list_elem_of_In. }
  destruct (filter _ ops) as [|x l]; [by apply elem_of_nil in Hf|].
  rewrite zlen_cons. pose proof (zlen_nonneg l). lia.
Qed.

Lemma invalidate_after {prof : Profile} ops c :
  0 <= cache_gen c -> cache_gen c + zlen ops < 2 ^ usize_bits ->
  cache_invalidate (cache_gen c) (cache_run ops c) =
    if existsb is_update ops then cache_run ops c else mkMetadataCache None (cache_gen c).
Proof.
  intros H0 Hb. unfold cache_invalidate. destruct (existsb is_update ops) eqn:E.
  - pose proof (update_gen ops c H0 Hb E).
    destruct (Z.eqb_spec (cache_gen (cache_run ops c)) (cache_gen c)); [lia|done].
  - by rewrite no_update_gen, Z.eqb_refl.
Qed.

(** What [get] returns or goes on to invalidate is the generation it saw. *)
Lemma lookup_gen topics c gen :
  (exists m, cache_lookup topics c = Hit m gen) \/ cache_lookup topics c = StaleTopics gen -> gen = cache_gen c.
Proof.
  unfold cache_lookup. destruct (cache_entry c) as [m|]; [|by intros [[? ?]|?]].
  destruct topics as [want|]; [destruct (negb _)|]; intros [[? [=]]|[=]]; congruence.
Qed.

Lemma get_hit topics c m gen c1 : cache_get topics c = (Some (m, gen), c1) -> gen = cache_gen c /\ c1 = c.
Proof.
  unfold cache_get. destruct (cache_lookup topics c) as [|m' g|g] eqn:Hl; [done| |done].
  intros [= <- <- <-]. split; [|done]. eapply lookup_gen. eauto.
Qed.

(** ** Properties *)

(** On a cached response whose topic names are distinct, [get] for
    distinct names is a hit exactly when every requested name is cached; a hit
    returns the entry restricted to the requested topics with the current
    generation and leaves the cache alone, and a miss empties it. *)
Theorem cache_get_spec want m gen :
  NoDup want -> NoDup (topic_names_of m) ->
  let c := mkMetadataCache (Some m) gen in
  (want ⊆ topic_names_of m ->
     cache_get (Some want) c = (Some (retain_topics want m, gen), c)) /\
  (~ want ⊆ topic_names_of m -> cache_get (Some want) c = (None, mkMetadataCache None gen)).
Proof.
  intros Hw Hm c. pose proof (retain_topics_count want m Hw Hm) as Hc.
  unfold cache_get, cache_lookup, c. simpl.
  destruct (zlen (filter (fun t => string_ (mt_name t) ∈ want) (mresp_topics m)) =? zlen want) eqn:E;
    simpl in Hc; rewrite E in Hc; simpl.
  - split; [done|]. intros Hn. by destruct Hn; apply Hc.
  - split; [intros Hi; by apply Hc in Hi|]. intros _. unfold cache_invalidate. simpl.
    by rewrite Z.eqb_refl.
Qed.

Definition sample_topic (n : Z) : MetadataResponseTopic :=
  mkMetadataResponseTopic None (mkString_ [byte_of_Z n]) None [].
Definition sample_metadata : MetadataResponse :=
  mkMetadataResponse None [] None None [sample_topic 65; sample_topic 66].

Lemma cache_get_spec_witness :
  cache_get (Some [[byte_of_Z 65]]) (mkMetadataCache (Some sample_metadata) 3)
  = (Some (retain_topics [[byte_of_Z 65]] sample_metadata, 3),
     mkMetadataCache (Some sample_metadata) 3).
Proof.
  apply (cache_get_spec [[byte_of_Z 65]] sample_metadata 3).
  - apply (bool_decide_unpack _). vm_compute. exact I.
  - apply (bool_decide_unpack _). vm_compute. exact I.
  - intros x. rewrite list_elem_of_singleton. intros ->. vm_compute. left.
Defined.

(** C38: an invalidation never drops an entry newer than the one its caller
    saw.  Whatever other threads do between a [get] that returned an entry and
    the invalidation with the generation that came with it, or between the two
    critical sections of a [get] that found its topics missing, the entry is
    dropped when there was no update in between and the cache is left untouched
    when there was one, as long as the generation does not reach the end of its
    64 bits. *)
Theorem invalidate_only_own_generation {prof : Profile} topics c ops :
  0 <= cache_gen c -> cache_gen c + zlen ops < 2 ^ 64 ->
  (forall m gen c1, cache_get topics c = (Some (m, gen), c1) ->
     c1 = c /\ cache_invalidate gen (cache_run ops c1) =
       if existsb is_update ops then cache_run ops c1 else mkMetadataCache None gen) /\
  (forall gen, cache_lookup topics c = StaleTopics gen ->
     cache_invalidate gen (cache_run ops c) =
       if existsb is_update ops then cache_run ops c else mkMetadataCache None gen).
Proof.
  intros H0 Hb. split.
  - intros m gen c1 [-> ->]%get_hit. split; [done|]. by apply invalidate_after.
  - intros gen Hl. rewrite (lookup_gen topics c gen) by eauto. by apply invalidate_after.
Qed.

Lemma invalidate_only_own_generation_witness :
  let c := mkMetadataCache (Some sample_metadata) 3 in
  let ops := [OpInvalidate 2; OpUpdate sample_metadata] in
  cache_invalidate 3 (cache_run (prof:=debug_profile) ops c) = mkMetadataCache (Some sample_metadata) 4.
Proof.
  intros c ops.
  assert (Hget : cache_get None c = (Some (sample_metadata, 3), c)) by reflexivity.
  exact (proj2 (proj1 (invalidate_only_own_generation (prof:=debug_profile) None c ops
    ltac:(done) ltac:(done)) sample_metadata 3 c Hget)).
Defined.

(** A request that names a cached topic twice is treated like one for an
    unknown topic: [get] misses and empties the cache although every requested
    topic is cached. *)
Theorem cache_get_duplicate_names m gen n :
  n ∈ topic_names_of m -> NoDup (topic_names_of m) ->
  cache_get (Some [n; n]) (mkMetadataCache (Some m) gen) = (None, mkMetadataCache None gen).
Proof.
  intros Hn Hm. unfold cache_get, cache_lookup. simpl.
  assert (Hl : zlen (filter (fun t => string_ (mt_name t) ∈ [n; n]) (mresp_topics m)) <= 1).
  { unfold zlen. rewrite <-(length_map (fun t => string_ (mt_name t))), filter_names.
    assert (NoDup (filter (fun x => x ∈ [n; n]) (topic_names_of m))) as Hnd by by apply list.NoDup_filter.
    assert (filter (fun x => x ∈ [n; n]) (topic_names_of m) ⊆+ [n]) as Hs%submseteq_length.
    { apply NoDup_submseteq; [done|]. intros x [Hx _]%list_elem_of_filter.
      rewrite !elem_of_cons in Hx. rewrite elem_of_cons. tauto. }
    unfold topic_names_of in Hs. simpl in Hs. lia. }
  change (zlen [n; n]) with 2.
  destruct (Z.eqb_spec (zlen (filter (fun t => string_ (mt_name t) ∈ [n; n]) (mresp_topics m))) 2); [lia|].
  simpl. unfold cache_invalidate. simpl. by rewrite Z.eqb_refl.
Qed.

Lemma cache_get_duplicate_names_witness :
  cache_get (Some [[byte_of_Z 65]; [byte_of_Z 65]]) (mkMetadataCache (Some sample_metadata) 3)
  = (None, mkMetadataCache None 3).
Proof.
  apply (cache_get_duplicate_names sample_metadata 3 [byte_of_Z 65]).
  - vm_compute. left.
  - apply (bool_decide_unpack _). vm_compute. exact I.
Defined.
