(* ===== verification/Messenger.v ===== *)
(** * The messenger: requests on one connection (src/messenger.rs)

    [match_versions], the preparation of a request and the interpretation of
    its response, the version negotiation, and the shared state between the
    callers and the reader task ([MessengerState]).  The interleavings of
    callers, cancellations and the reader are in [MessengerSystem]. *)

From Stdlib Require Import ZArith Lia.
From stdpp Require Import base list numbers gmap.
From S2P Require Import Prelude Bytes Wire VecBuilder Varint Primitives PrimitiveLaws ApiKey.
From S2P Require Import ErrorCode Versioned Header ApiVersionsMsg Frame Support.

Local Open Scope Z_scope.
Local Open Scope rust_scope.

(** ** Errors *)
Inductive RequestError : Type :=
| NoVersionMatch (api_key : ApiKeys.ApiKey)
| ReqWriteError (e : WriteVersionedError)
| WriteMessageError (e : FrameWriteError)
| ReqReadError (e : ReadError)
| ReqReadVersionedError (e : ReadVersionedError)
| ReqIO (e : ErrorKind)
| TooMuchData (message_size read : Z) (api_key : ApiKeys.ApiKey) (api_version : ApiVersion)
| ReadFramedMessageError (e : FrameReadError)
| Poisoned (e : RequestError).

Inductive SyncVersionsError : Type :=
| NoWorkingVersion
| SyncRequestError (e : RequestError)
| FlippedVersionRange (api_key : ApiKeys.ApiKey) (min max : ApiVersion).

(** ** Version ranges *)

(** [HashMap<ApiKey, ApiVersionRange>] as an association list, newest first. *)
Definition version_map : Type := list (ApiKeys.ApiKey * ApiVersionRange).

Fixpoint version_get (m : version_map) (k : ApiKeys.ApiKey) : option ApiVersionRange :=
  match m with
  | [] => None
  | (k', r) :: m => if decide (k' = k) then Some r else version_get m k
  end.

(** The order of [ApiVersion] is that of the number. *)
Definition version_le (a b : ApiVersion) : bool := vnum a <=? vnum b.
Definition version_min (a b : ApiVersion) : ApiVersion := if version_le a b then a else b.

(** [match_versions]. *)
Definition match_versions (range_a range_b : ApiVersionRange) : option ApiVersion :=
  if version_le (range_min range_a) (range_max range_b) &&
     version_le (range_min range_b) (range_max range_a)
  then Some (version_min (range_max range_a) (range_max range_b))
  else None.

(** ** Requests and responses *)
Record Prepared : Type := mkPrepared {
  body_api_version : ApiVersion;
  use_tagged_fields_in_response : bool;
  prepared_buf : list byte;
}.

(** [request_with_version_ranges] up to the point where the request is
    registered: version selection, header and body. *)
Definition prepare_request {Req Resp} `{RequestBody Req Resp, WriteVersionedType Req}
    (version_ranges : version_map) (client_id : rstring) (correlation_id : Z) (msg : Req) :
    outcome RequestError Prepared :=
  let key := API_KEY (Req:=Req) (Resp:=Resp) in
  let! version :=
    ok_or (NoVersionMatch key)
      (version_get version_ranges key ≫= fun range_server =>
       match_versions range_server (API_VERSION_RANGE (Req:=Req) (Resp:=Resp))) in
  let tagged_req := version_le (FIRST_TAGGED_FIELD_IN_REQUEST_VERSION (Req:=Req) (Resp:=Resp)) version in
  let tagged_resp := version_le (FIRST_TAGGED_FIELD_IN_RESPONSE_VERSION (Req:=Req) (Resp:=Resp)) version in
  let header := mkRequestHeader key version (mkInt32 correlation_id)
                  (Some (mkNullableString (Some client_id))) (Some TaggedFields_default) in
  let header_version := if tagged_req then V 2 else V 1 in
  let! hbuf := match write_versioned header_version header with
               | Ok bs => Ok bs
               | Err _ => Panic ExpectFailed
               | Panic p => Panic p
               end in
  let! body := omap_err ReqWriteError (write_versioned version msg) in
  Ok (mkPrepared version tagged_resp (hbuf ++ body)).

(** [Response]: the header, and the cursor after it in a message of the given
    size. *)
Record Response : Type := mkResponse {
  resp_header : ResponseHeader;
  resp_data : src;
  resp_message_size : Z;
}.

(** [request_with_version_ranges] from the response on. *)
Definition finish_response {Resp} `{ReadVersionedType Resp} (key : ApiKeys.ApiKey)
    (version : ApiVersion) (response : Response) : outcome RequestError Resp :=
  let! (body, rest) := omap_err ReqReadVersionedError (read_versioned version (resp_data response)) in
  let message_bytes := resp_message_size response in
  let read_bytes := message_bytes - zlen (src_data rest) in
  if negb (read_bytes =? message_bytes)
  then Err (TooMuchData message_bytes read_bytes key version)
  else Ok body.

(** ** The state shared with the reader task *)

(** A channel is named by the call that waits on it. *)
Record ActiveRequest : Type := mkActiveRequest {
  channel : nat;
  use_tagged_fields : bool;
}.

Inductive MessengerState : Type :=
| RequestMap (map : gmap Z ActiveRequest)
| Poison (e : RequestError).

(** What is sent on which channel. *)
Definition delivery : Type := nat * outcome RequestError Response.

(** [MessengerState::poison]: the new state, the error in force, and what the
    active requests are told. *)
Definition poison (err : RequestError) (st : MessengerState) :
    MessengerState * RequestError * list delivery :=
  match st with
  | RequestMap map =>
      (Poison err, err,
       List.map (fun '(_, a) => (channel a, Err (Poisoned err))) (map_to_list map))
  | Poison e => (Poison e, e, [])
  end.

(** Registration of a request, and its removal when it is cancelled before it
    was sent ([CleanupRequestStateOnCancel::drop]). *)
Definition register (correlation_id : Z) (a : ActiveRequest) (st : MessengerState) :
    outcome RequestError MessengerState :=
  match st with
  | RequestMap map => Ok (RequestMap (<[correlation_id := a]> map))
  | Poison e => Err (Poisoned e)
  end.

Definition cleanup (correlation_id : Z) (st : MessengerState) : MessengerState :=
  match st with
  | RequestMap map => RequestMap (delete correlation_id map)
  | Poison e => Poison e
  end.

(** One iteration of the reader task on the result of [read_message]: the new
    state, what is sent, and whether the task goes on. *)
Definition reader_step (r : outcome FrameReadError (list byte)) (st : MessengerState) :
    outcome unit (MessengerState * list delivery * bool) :=
  match r with
  | Ok msg =>
      match read_versioned (A:=ResponseHeader) (V 0) (cursor msg) with
      | Err _ => Ok (st, [], true)
      | Panic p => Panic p
      | Ok (header, cur) =>
          let id := int32 (response_correlation_id header) in
          match st with
          | Poison _ => Ok (st, [], false)
          | RequestMap map =>
              match map !! id with
              | None => Ok (st, [], true)
              | Some a =>
                  let st := RequestMap (delete id map) in
                  if use_tagged_fields a then
                    match read (A:=TaggedFields) cur with
                    | Ok (fields, cur) =>
                        Ok (st, [(channel a,
                              Ok (mkResponse (mkResponseHeader (response_correlation_id header)
                                                (Some fields)) cur (zlen msg)))], true)
                    | Err e => Ok (st, [(channel a, Err (ReqReadError e))], true)
                    | Panic p => Panic p
                    end
                  else Ok (st, [(channel a, Ok (mkResponse header cur (zlen msg)))], true)
              end
          end
      end
  | Err e => let '(st, _, ds) := poison (ReadFramedMessageError e) st in Ok (st, ds, false)
  | Panic p => Panic p
  end.

(** ** Version negotiation *)

(** [for x in api_keys]: the first flipped range. *)
Fixpoint first_flipped (l : list ApiVersionsResponseApiKey) : option ApiVersionsResponseApiKey :=
  match l with
  | [] => None
  | x :: l => if vnum (max_version x) <? vnum (min_version x) then Some x else first_flipped l
  end.

(** [response.api_keys.into_iter().map(...).collect()]: later entries replace
    earlier ones. *)
Fixpoint collect_ranges (l : list ApiVersionsResponseApiKey) (acc : version_map) :
    outcome SyncVersionsError version_map :=
  match l with
  | [] => Ok acc
  | x :: l =>
      let! r := ApiVersionRange_new (min_version x) (max_version x) in
      collect_ranges l ((api_key x, r) :: acc)
  end.

(** [sync_versions] as a function of the results of its requests, in order;
    [None]: it is waiting for a result that has not come.  [upper_bounds] are
    the versions still to try.  A throttled request is repeated. *)
Fixpoint sync_versions_loop (upper_bounds : list Z)
    (replies : list (outcome RequestError ApiVersionsResponse)) :
    option (outcome SyncVersionsError version_map) :=
  match upper_bounds with
  | [] => Some (Err NoWorkingVersion)
  | _ :: rest =>
      match replies with
      | [] => None
      | reply :: replies =>
          match reply with
          | Ok response =>
              match maybe_throttle (E:=SyncVersionsError) (avresp_throttle_time_ms response) with
              | Err (Throttle _) => sync_versions_loop upper_bounds replies
              | _ =>
                  match avresp_error_code response with
                  | Some _ => sync_versions_loop rest replies
                  | None =>
                      match first_flipped (api_keys response) with
                      | Some x => Some (Err (FlippedVersionRange (api_key x) (min_version x) (max_version x)))
                      | None => Some (collect_ranges (api_keys response) [])
                      end
                  end
              end
          | Err (NoVersionMatch _) => Some (Panic Unreachable)
          | Err (ReqReadVersionedError _) | Err (ReqReadError _) | Err (TooMuchData _ _ _ _) =>
              sync_versions_loop rest replies
          | Err e => Some (Err (SyncRequestError e))
          | Panic p => Some (Panic p)
          end
      end
  end.

(** [(min..=max).rev()] for [ApiVersionsRequest::API_VERSION_RANGE]. *)
Definition sync_upper_bounds : list Z := [3; 2; 1; 0].

Definition sync_versions (replies : list (outcome RequestError ApiVersionsResponse)) :
    option (outcome SyncVersionsError version_map) :=
  sync_versions_loop sync_upper_bounds replies.

(** The ranges under which a negotiation request is sent. *)
Definition sync_ranges (upper_bound : Z) : version_map :=
  [(ApiKeys.ApiVersions, mkApiVersionRange (V 0) (V upper_bound))].

(** ** Lemmas *)
Lemma version_min_vnum a b : vnum (version_min a b) = Z.min (vnum a) (vnum b).
Proof. unfold version_min, version_le. destruct (Z.leb_spec (vnum a) (vnum b)); lia. Qed.

Lemma match_versions_some a b v :
  match_versions a b = Some v ->
  vnum (range_min a) <= vnum (range_max b) /\ vnum (range_min b) <= vnum (range_max a) /\
  vnum v = Z.min (vnum (range_max a)) (vnum (range_max b)).
Proof.
  unfold match_versions, version_le at 1 2.
  destruct (Z.leb_spec (vnum (range_min a)) (vnum (range_max b)));
    destruct (Z.leb_spec (vnum (range_min b)) (vnum (range_max a))); try done.
  intros [= <-]. by rewrite version_min_vnum.
Qed.

Lemma match_versions_none a b :
  match_versions a b = None ->
  vnum (range_max b) < vnum (range_min a) \/ vnum (range_max a) < vnum (range_min b).
Proof.
  unfold match_versions, version_le.
  destruct (Z.leb_spec (vnum (range_min a)) (vnum (range_max b)));
    destruct (Z.leb_spec (vnum (range_min b)) (vnum (range_max a))); try done; lia.
Qed.

Lemma int32_write_ok x : exists bs, wr (mkInt32 x) = Ok bs.
Proof. by eexists. Qed.

(** Writing a string succeeds exactly when its length fits an [i16]. *)
Lemma nullable_string_write s :
  write (mkNullableString (Some s)) =
    if zlen s <? 2 ^ 15 then Ok (to_be_bytes 2 (zlen s) ++ s) else Err (WriteMalformed TryFromInt).
Proof.
  unfold write, NullableString_WriteType, NullableString_write. simpl.
  pose proof (zlen_nonneg s). unfold signed_try_from, in_signed_b.
  destruct (Z.ltb_spec (zlen s) (2 ^ (16 - 1))), (Z.ltb_spec (zlen s) (2 ^ 15)),
    (Z.leb_spec (- 2 ^ (16 - 1)) (zlen s)); simpl in *; try lia; done.
Qed.

Lemma collect_ranges_ok l acc :
  first_flipped l = None ->
  Forall (fun '(_, r) => vnum (range_min r) <= vnum (range_max r)) acc ->
  exists m, collect_ranges l acc = Ok m /\
    Forall (fun '(_, r) => vnum (range_min r) <= vnum (range_max r)) m.
Proof.
  revert acc. induction l as [|x l IH]; intros acc Hf Hacc; simpl in *; [by eexists|].
  destruct (Z.ltb_spec (vnum (max_version x)) (vnum (min_version x))); [done|].
  unfold ApiVersionRange_new.
  destruct (Z.leb_spec (vnum (min_version x)) (vnum (max_version x))); [|lia]. simpl.
  apply IH; [done|]. by constructor.
Qed.

(** Neither a panic nor the error that negotiation rules out. *)
Definition good_reply (r : outcome RequestError ApiVersionsResponse) : Prop :=
  match r with Ok _ => True | Err (NoVersionMatch _) => False | Err _ => True | Panic _ => False end.

(** The replies that are not throttled each use up one version to try. *)
Definition unthrottled (r : outcome RequestError ApiVersionsResponse) : bool :=
  match r with
  | Ok response =>
      match maybe_throttle (E:=SyncVersionsError) (avresp_throttle_time_ms response) with
      | Err (Throttle _) => false
      | _ => true
      end
  | _ => true
  end.

Definition sync_result_ok (r : outcome SyncVersionsError version_map) : Prop :=
  match r with
  | Ok m => Forall (fun '(_, r) => vnum (range_min r) <= vnum (range_max r)) m
  | Err _ => True
  | Panic _ => False
  end.

Lemma sync_loop_ok ubs replies r :
  Forall good_reply replies -> sync_versions_loop ubs replies = Some r -> sync_result_ok r.
Proof.
  revert ubs. induction replies as [|reply replies IH]; intros ubs Hg; destruct ubs as [|ub ubs];
    simpl; try done; try (by intros [= <-]).
  inversion Hg as [|? ? Hr Hrs]; subst.
  destruct reply as [resp|e|p]; [| |done].
  - case_match; [|case_match; [|by eauto]|]; (case_match; [by eauto|]);
      (case_match; intros [= <-]; [done|]);
      destruct (collect_ranges_ok (api_keys resp) []) as (m & -> & Hm); done.
  - destruct e; try done; try (by intros [= <-]); by eauto.
Qed.

Lemma sync_loop_terminates ubs replies :
  (length ubs <= length (filter (fun r => unthrottled r = true) replies))%nat ->
  exists r, sync_versions_loop ubs replies = Some r.
Proof.
  revert ubs. induction replies as [|reply replies IH]; intros ubs Hl;
    destruct ubs as [|ub ubs]; simpl in *; try (by eexists); [lia|].
  rewrite filter_cons in Hl. destruct reply as [resp|e|p]; simpl in Hl; [| |by eexists].
  - destruct (maybe_throttle _) as [|[]|]; simpl in Hl;
      try (by apply (IH (ub :: ubs)));
      (case_match; [apply IH; lia|]); case_match; by eexists.
  - destruct e; try (by eexists); apply IH; lia.
Qed.

Lemma reader_step_no_panic r st p :
  (forall q, r <> Panic q) -> reader_step r st <> Panic p.
Proof.
  intros Hr. unfold reader_step. destruct r as [msg|e|q].
  - pose proof (read_versioned_no_panic (A:=ResponseHeader) (V 0)) as Hnp.
    specialize (Hnp ltac:(vm_compute; split; congruence) (cursor msg)).
    destruct (read_versioned (V 0) (cursor msg)) as [[h cur]|e|q]; [|done|by destruct (Hnp q)].
    destruct st as [m|e]; [|done]. destruct (m !! _) as [a|]; [|done].
    destruct (use_tagged_fields a); [|done].
    pose proof (read_no_panic (A:=TaggedFields) cur) as Ht.
    destruct (read cur) as [[f c]|e|q]; [done|done|by destruct (Ht q)].
  - by destruct (poison _ st) as [[]].
  - by destruct (Hr q).
Qed.

(** ** Properties *)

(** [match_versions] of two non-empty ranges is the greatest version both
    sides support, and there is none exactly when the ranges are disjoint. *)
Theorem match_versions_greatest a b :
  vnum (range_min a) <= vnum (range_max a) -> vnum (range_min b) <= vnum (range_max b) ->
  match match_versions a b with
  | Some v => in_range a v /\ in_range b v /\
      forall w, in_range a w -> in_range b w -> vnum w <= vnum v
  | None => forall w, in_range a w -> in_range b w -> False
  end.
Proof.
  intros Ha Hb. unfold in_range. destruct (match_versions a b) as [v|] eqn:E.
  - apply match_versions_some in E. repeat split; lia.
  - apply match_versions_none in E. intros w. lia.
Qed.

Lemma match_versions_greatest_witness :
  exists v, match_versions (mkApiVersionRange (V 1) (V 9)) (mkApiVersionRange (V 3) (V 7)) = Some v /\
    in_range (mkApiVersionRange (V 3) (V 7)) v.
Proof.
  exists (V 7). split; [reflexivity|].
  pose proof (match_versions_greatest (mkApiVersionRange (V 1) (V 9)) (mkApiVersionRange (V 3) (V 7))
    ltac:(vm_compute; congruence) ltac:(vm_compute; congruence)) as H.
  exact (proj1 (proj2 H)).
Defined.

(** A prepared request is the header followed by the body.  The version is
    one the broker and the client support; the broker, reading the header at
    the version the client chose for it, finds the key, that version, the
    correlation ID and the client ID, and is left exactly at the body. *)
Theorem prepared_request_readable {Req Resp} `{RequestBody Req Resp, WriteVersionedType Req}
    ranges client_id id (msg : Req) p s :
  api_key_wf (API_KEY (Req:=Req) (Resp:=Resp)) -> rstring_wf client_id -> in_signed 32 id ->
  prepare_request (Resp:=Resp) ranges client_id id msg = Ok p ->
  wf (api_version_0 (body_api_version p)) ->
  exists range body header_version,
    version_get ranges (API_KEY (Req:=Req) (Resp:=Resp)) = Some range /\
    match_versions range (API_VERSION_RANGE (Req:=Req) (Resp:=Resp)) = Some (body_api_version p) /\
    write_versioned (body_api_version p) msg = Ok body /\
    vnum header_version =
      (if vnum (FIRST_TAGGED_FIELD_IN_REQUEST_VERSION (Req:=Req) (Resp:=Resp)) <=? vnum (body_api_version p)
       then 2 else 1) /\
    read_versioned header_version (prepared_buf p +> s) =
      Ok (mkRequestHeader (API_KEY (Req:=Req) (Resp:=Resp)) (body_api_version p) (mkInt32 id)
            (Some (mkNullableString (Some client_id)))
            (if vnum header_version =? 2 then Some TaggedFields_default else None),
          body +> s).
Proof.
  intros Hk Hc Hid Hp Hv. unfold prepare_request in Hp.
  apply obind_ok in Hp as (version & Hver & Hp). apply ok_or_ok in Hver.
  apply bind_Some in Hver as (range & Hget & Hmatch).
  apply obind_ok in Hp as (hbuf & Hh & Hp). apply obind_ok in Hp as (body & Hb & [= <-]).
  apply omap_err_ok in Hb. simpl in *. exists range, body.
  unfold version_le in *.
  destruct (vnum (FIRST_TAGGED_FIELD_IN_REQUEST_VERSION) <=? vnum version) eqn:Ht.
  all: destruct (write_versioned _ (mkRequestHeader _ _ _ _ _)) as [hb| |] eqn:Hw in Hh; try done;
    injection Hh as <-.
  all: apply (RequestHeader_round_trip _ _ _ (body +> s)) in Hw;
    [|split; [done|]; split; [done|]; split; [done|]; split; [done|apply TaggedFields_default_wf]].
  - exists (V 2). rewrite src_app_app, Hw. done.
  - exists (V 1). rewrite src_app_app, Hw. done.
Qed.

Lemma prepared_request_readable_witness :
  exists p, prepare_request (Resp:=ApiVersionsResponse) (sync_ranges 3) [] 7
              (mkApiVersionsRequest None None None) = Ok p /\
    exists header_version header body,
      read_versioned header_version (prepared_buf p +> cursor []) = Ok (header, body +> cursor []) /\
      request_correlation_id header = mkInt32 7.
Proof.
  eexists. split; [vm_compute; reflexivity|].
  pose proof (prepared_request_readable (Resp:=ApiVersionsResponse) (sync_ranges 3) [] 7
    (mkApiVersionsRequest None None None) _ (cursor []) I eq_refl
    ltac:(vm_compute; split; congruence) ltac:(vm_compute; reflexivity)
    ltac:(vm_compute; split; congruence)) as (range & body & hv & _ & _ & _ & _ & H).
  eexists hv, _, body. split; [exact H|reflexivity].
Defined.

(** A client ID of 2^15 bytes or more makes every request with a matching
    version panic: the length does not fit the [i16] of the header, and the
    header is written under an [expect]. *)
Theorem long_client_id_panics {Req Resp} `{RequestBody Req Resp, WriteVersionedType Req}
    ranges client_id id (msg : Req) range v :
  version_get ranges (API_KEY (Req:=Req) (Resp:=Resp)) = Some range ->
  match_versions range (API_VERSION_RANGE (Req:=Req) (Resp:=Resp)) = Some v ->
  2 ^ 15 <= zlen client_id ->
  prepare_request (Resp:=Resp) ranges client_id id msg = Panic ExpectFailed.
Proof.
  intros Hget Hm Hlen. unfold prepare_request. rewrite Hget. simpl. rewrite Hm. simpl.
  assert (Hw : forall hv key, vnum hv = 1 \/ vnum hv = 2 ->
    write_versioned hv (mkRequestHeader key v (mkInt32 id) (Some (mkNullableString (Some client_id)))
      (Some TaggedFields_default)) = Err (WVWriteError (WriteMalformed TryFromInt))).
  { intros hv key Hhv. unfold write_versioned, RequestHeader_WriteVersioned, RequestHeader_write_versioned.
    assert (vnum hv <=? 2 = true) as -> by (apply Z.leb_le; lia).
    assert (1 <=? vnum hv = true) as -> by (apply Z.leb_le; lia).
    unfold wr_or, wr. simpl. rewrite nullable_string_write.
    destruct (Z.ltb_spec (zlen client_id) (2 ^ 15)); [lia|]. done. }
  destruct (version_le _ v); rewrite Hw by (vm_compute; auto); done.
Qed.

Lemma long_client_id_panics_witness :
  prepare_request (Resp:=ApiVersionsResponse) (sync_ranges 3) (repeat (byte_of_Z 97) (Z.to_nat 40000)) 0
    (mkApiVersionsRequest None None None) = Panic ExpectFailed.
Proof.
  apply (long_client_id_panics (Resp:=ApiVersionsResponse) (sync_ranges 3) _ 0
    (mkApiVersionsRequest None None None) (mkApiVersionRange (V 0) (V 3)) (V 3));
    [reflexivity|reflexivity|]. unfold zlen. rewrite repeat_length. vm_compute. congruence.
Defined.

(** Version negotiation never panics and never yields an empty range:
    whatever the brokers answer, if [sync_versions] returns ranges then each of
    them has its minimum below its maximum, so that [ApiVersionRange::new] did
    not fail on one. *)
Theorem sync_versions_sound replies r :
  Forall good_reply replies -> sync_versions replies = Some r -> sync_result_ok r.
Proof. apply sync_loop_ok. Qed.

Definition sample_versions : ApiVersionsResponse :=
  mkApiVersionsResponse None [mkApiVersionsResponseApiKey ApiKeys.Produce (V 3) (V 7) None] None None.

Lemma sync_versions_sound_witness :
  exists m, sync_versions [Err (ReqReadError ReadOverflow); Ok sample_versions] = Some (Ok m) /\
    sync_result_ok (Ok m).
Proof.
  eexists. split; [reflexivity|].
  apply (sync_versions_sound [Err (ReqReadError ReadOverflow); Ok sample_versions]).
  - repeat constructor.
  - reflexivity.
Defined.

(** Version negotiation ends: four answers that do not ask the client to
    wait are enough, one per version of [ApiVersionsRequest]. *)
Theorem sync_versions_terminates replies :
  (4 <= length (filter (fun r => unthrottled r = true) replies))%nat ->
  exists r, sync_versions replies = Some r.
Proof. apply (sync_loop_terminates sync_upper_bounds). Qed.

Lemma sync_versions_terminates_witness :
  sync_versions (repeat (Err (ReqReadError ReadOverflow)) 4) = Some (Err NoWorkingVersion) /\
  exists r, sync_versions (repeat (Err (ReqReadError ReadOverflow)) 4) = Some r.
Proof.
  split; [reflexivity|]. apply (sync_versions_terminates (repeat (Err (ReqReadError ReadOverflow)) 4)).
  vm_compute. lia.
Defined.

(** The request of the negotiation always finds a version, the upper bound
    itself, which is why the [unreachable!] for [NoVersionMatch] is. *)
Theorem sync_request_version ub :
  In ub sync_upper_bounds ->
  version_get (sync_ranges ub) ApiKeys.ApiVersions ≫= (fun r =>
    match_versions r (API_VERSION_RANGE (Req:=ApiVersionsRequest) (Resp:=ApiVersionsResponse)))
  = Some (V ub).
Proof. by intros [<-|[<-|[<-|[<-|[]]]]]. Qed.

Lemma sync_request_version_witness :
  version_get (sync_ranges 2) ApiKeys.ApiVersions ≫= (fun r =>
    match_versions r (API_VERSION_RANGE (Req:=ApiVersionsRequest) (Resp:=ApiVersionsResponse)))
  = Some (V 2).
Proof. apply (sync_request_version 2). simpl. auto. Defined.
