(* ===== verification/MessengerSystem.v ===== *)
(** * Callers and the reader task of a messenger (src/messenger.rs)

    A step relation over the state that [Messenger::request], its
    cancellation, and the reader task share.  A call is named by a number, its
    [oneshot] channel by the same number.  Steps are the atomic actions: the
    critical sections on [MessengerState] and what happens to a call between
    them. *)

From Stdlib Require Import ZArith Lia.
From stdpp Require Import base list numbers gmap fin_maps.
From S2P Require Import Prelude Bytes Wire VecBuilder Varint Primitives PrimitiveLaws ApiKey.
From S2P Require Import ErrorCode Versioned Header ApiVersionsMsg Frame Support Messenger.

Local Open Scope Z_scope.

(** Where a call is: it has its correlation ID and prepares the message, the
    message is being sent, it waits for the response, it has returned, or its
    future was dropped. *)
Inductive phase : Type :=
| Preparing
| Sending
| Waiting
| Returned (r : outcome RequestError Response)
| Dropped.

(** A call: its correlation ID, its phase, and what its channel holds. *)
Record call : Type := mkCall {
  call_id : Z;
  call_phase : phase;
  call_slot : option (outcome RequestError Response);
}.

Record system : Type := mkSystem {
  sys_state : MessengerState;
  sys_count : Z;
  sys_running : bool;
  sys_calls : gmap nat call;
}.

Definition initial : system := mkSystem (RequestMap ∅) 0 true ∅.

(** [self.correlation_id.fetch_add(1)] on an [AtomicI32] that started at 0. *)
Definition correlation_id_of (count : Z) : Z := wrap_signed 32 count.

(** [channel.send(r).ok()]: the first result of a channel stays. *)
Definition deliver (calls : gmap nat call) (d : delivery) : gmap nat call :=
  match calls !! fst d with
  | Some c =>
      match call_slot c with
      | None => <[fst d := mkCall (call_id c) (call_phase c) (Some (snd d))]> calls
      | Some _ => calls
      end
  | None => calls
  end.

Definition deliver_all (calls : gmap nat call) (ds : list delivery) : gmap nat call :=
  fold_left deliver ds calls.

Definition set_phase (ph : phase) (c : call) : call := mkCall (call_id c) ph (call_slot c).

Inductive step : system -> system -> Prop :=
| step_allocate ch s :
    (** a new call takes its correlation ID *)
    sys_calls s !! ch = None ->
    step s (mkSystem (sys_state s) (sys_count s + 1) (sys_running s)
              (<[ch := mkCall (correlation_id_of (sys_count s)) Preparing None]> (sys_calls s)))
| step_write_failed ch c e s :
    (** the body cannot be written, the call returns the error *)
    sys_calls s !! ch = Some c -> call_phase c = Preparing ->
    step s (mkSystem (sys_state s) (sys_count s) (sys_running s)
              (<[ch := set_phase (Returned (Err (ReqWriteError e))) c]> (sys_calls s)))
| step_register ch c tagged s st :
    (** the call makes its channel and registers it *)
    sys_calls s !! ch = Some c -> call_phase c = Preparing ->
    register (call_id c) (mkActiveRequest ch tagged) (sys_state s) = Ok st ->
    step s (mkSystem st (sys_count s) (sys_running s)
              (<[ch := mkCall (call_id c) Sending None]> (sys_calls s)))
| step_rejected ch c tagged s e :
    (** the call finds the state poisoned and returns; the clean-up guard runs *)
    sys_calls s !! ch = Some c -> call_phase c = Preparing ->
    register (call_id c) (mkActiveRequest ch tagged) (sys_state s) = Err e ->
    step s (mkSystem (cleanup (call_id c) (sys_state s)) (sys_count s) (sys_running s)
              (<[ch := set_phase (Returned (Err e)) c]> (sys_calls s)))
| step_sent ch c s :
    (** [cleanup_on_cancel.message_sent()] *)
    sys_calls s !! ch = Some c -> call_phase c = Sending ->
    step s (mkSystem (sys_state s) (sys_count s) (sys_running s)
              (<[ch := set_phase Waiting c]> (sys_calls s)))
| step_send_failed ch c c' err s st e ds :
    (** [send_message] fails, poisons the state and the call returns; the
        clean-up guard runs on the way out *)
    sys_calls s !! ch = Some c -> call_phase c = Sending ->
    poison err (sys_state s) = (st, e, ds) ->
    deliver_all (sys_calls s) ds !! ch = Some c' ->
    step s (mkSystem (cleanup (call_id c) st) (sys_count s) (sys_running s)
              (<[ch := set_phase (Returned (Err (Poisoned e))) c']> (deliver_all (sys_calls s) ds)))
| step_cancel_sending ch c s :
    (** the future is dropped before the message was sent *)
    sys_calls s !! ch = Some c -> call_phase c = Sending ->
    step s (mkSystem (cleanup (call_id c) (sys_state s)) (sys_count s) (sys_running s)
              (<[ch := set_phase Dropped c]> (sys_calls s)))
| step_cancel_waiting ch c s :
    sys_calls s !! ch = Some c -> call_phase c = Waiting ->
    step s (mkSystem (sys_state s) (sys_count s) (sys_running s)
              (<[ch := set_phase Dropped c]> (sys_calls s)))
| step_return ch c r s :
    (** [rx.await] *)
    sys_calls s !! ch = Some c -> call_phase c = Waiting -> call_slot c = Some r ->
    step s (mkSystem (sys_state s) (sys_count s) (sys_running s)
              (<[ch := set_phase (Returned r) c]> (sys_calls s)))
| step_reader r s st ds go :
    (** an iteration of the reader task *)
    sys_running s = true -> reader_step r (sys_state s) = Ok (st, ds, go) ->
    step s (mkSystem st (sys_count s) go (deliver_all (sys_calls s) ds)).

Inductive reachable : system -> Prop :=
| reach_initial : reachable initial
| reach_step s s' : reachable s -> step s s' -> reachable s'.

(** ** Invariant *)

(** A call that is still interested in its result. *)
Definition pending (c : call) : Prop := call_phase c = Sending \/ call_phase c = Waiting.

(** A response that a call holds or has returned is the one to its request. *)
Definition slot_matches (c : call) : Prop :=
  forall resp, call_slot c = Some (Ok resp) \/ call_phase c = Returned (Ok resp) ->
  int32 (response_correlation_id (resp_header resp)) = call_id c.

Record invariant (s : system) : Prop := {
  (** every active request is the request of a call without a result *)
  inv_map : forall m id a, sys_state s = RequestMap m -> m !! id = Some a ->
    exists c, sys_calls s !! channel a = Some c /\ call_id c = id /\ call_slot c = None;
  (** a pending call without a result is an active request *)
  inv_pending : forall ch c, sys_calls s !! ch = Some c -> pending c -> call_slot c = None ->
    exists m a, sys_state s = RequestMap m /\ m !! call_id c = Some a /\ channel a = ch;
  (** a response is the response to the request it was delivered to *)
  inv_slot : forall ch c, sys_calls s !! ch = Some c -> slot_matches c;
  (** correlation IDs were handed out in order *)
  inv_ids : 0 <= sys_count s /\ forall ch c, sys_calls s !! ch = Some c ->
    exists k, 0 <= k < sys_count s /\ call_id c = correlation_id_of k;
  inv_unique : forall ch1 ch2 c1 c2, sys_calls s !! ch1 = Some c1 -> sys_calls s !! ch2 = Some c2 ->
    call_id c1 = call_id c2 -> ch1 = ch2;
  (** the reader task only ends when the state is poisoned *)
  inv_running : sys_running s = false -> exists e, sys_state s = Poison e;
}.

(** ** Lemmas *)
Lemma correlation_id_inj a b :
  0 <= a < 2 ^ 32 -> 0 <= b < 2 ^ 32 -> correlation_id_of a = correlation_id_of b -> a = b.
Proof.
  unfold correlation_id_of, wrap_signed. intros Ha Hb H.
  assert (Hm : (a + 2 ^ (32 - 1)) mod 2 ^ 32 = (b + 2 ^ (32 - 1)) mod 2 ^ 32) by lia.
  pose proof (Z.div_mod (a + 2 ^ (32 - 1)) (2 ^ 32) ltac:(lia)).
  pose proof (Z.div_mod (b + 2 ^ (32 - 1)) (2 ^ 32) ltac:(lia)).
  rewrite Hm in *. simpl in *. lia.
Qed.

Lemma step_count s s' : step s s' -> sys_count s <= sys_count s'.
Proof. destruct 1; simpl; lia. Qed.

(** What a delivery does to a call. *)
Definition delivered (ds : list delivery) (ch : nat) (c c' : call) : Prop :=
  call_id c' = call_id c /\ call_phase c' = call_phase c /\
  (c' = c /\ (call_slot c = None -> ~ In ch (map fst ds)) \/
   call_slot c = None /\ exists r, In (ch, r) ds /\ call_slot c' = Some r).

Lemma deliver_lookup calls d ch :
  match calls !! ch with
  | Some c => exists c', deliver calls d !! ch = Some c' /\ delivered [d] ch c c'
  | None => deliver calls d !! ch = None
  end.
Proof.
  unfold deliver, delivered. destruct d as [ch0 r]. simpl.
  destruct (decide (ch0 = ch)) as [->|Hne].
  - destruct (calls !! ch) as [c|] eqn:E; [|done]. destruct (call_slot c) eqn:Es.
    + exists c. rewrite Es. naive_solver.
    + rewrite lookup_insert_eq. eexists. split; [done|]. simpl. naive_solver.
  - destruct (calls !! ch0) as [c0|]; [destruct (call_slot c0)|];
      rewrite ?lookup_insert_ne by done; destruct (calls !! ch) as [c|]; try done;
      exists c; naive_solver.
Qed.

Lemma deliver_all_lookup ds calls ch :
  match calls !! ch with
  | Some c => exists c', deliver_all calls ds !! ch = Some c' /\ delivered ds ch c c'
  | None => deliver_all calls ds !! ch = None
  end.
Proof.
  revert calls. induction ds as [|d ds IH]; intros calls; simpl.
  { destruct (calls !! ch) as [c|]; [|done]. exists c. unfold delivered. simpl. naive_solver. }
  pose proof (deliver_lookup calls d ch) as Hd. specialize (IH (deliver calls d)).
  destruct (calls !! ch) as [c|].
  - destruct Hd as (c1 & Hc1 & H1). rewrite Hc1 in IH. destruct IH as (c2 & Hc2 & H2).
    exists c2. split; [done|]. unfold delivered in *. simpl in *. destruct d as [ch0 r0].
    destruct H1 as (Hi1 & Hp1 & [[-> Hn]|(Hn & r & Hr & Hs)]).
    + destruct H2 as (Hi2 & Hp2 & [[-> Hn2]|(Hn2 & r & Hr & Hs)]); naive_solver.
    + destruct H2 as (Hi2 & Hp2 & [[-> Hn2]|(Hn2 & r2 & Hr2 & Hs2)]); [|congruence].
      naive_solver congruence.
  - by rewrite Hd in IH.
Qed.

(** Every call after a delivery comes from one before it. *)
Lemma deliver_all_inv ds calls ch c' :
  deliver_all calls ds !! ch = Some c' -> exists c, calls !! ch = Some c /\ delivered ds ch c c'.
Proof.
  intros H. pose proof (deliver_all_lookup ds calls ch) as Hl.
  destruct (calls !! ch) as [c|]; [|congruence]. destruct Hl as (c2 & H2 & Hd).
  exists c. split; [done|]. congruence.
Qed.

(** Replacing a call by one with the same correlation ID. *)
Definition same_id (calls : gmap nat call) (ch : nat) (c : call) : Prop :=
  exists c0, calls !! ch = Some c0 /\ call_id c0 = call_id c.

Lemma lookup_replace (calls : gmap nat call) ch c ch' c' :
  <[ch := c]> calls !! ch' = Some c' ->
  ch' = ch /\ c' = c \/ ch' <> ch /\ calls !! ch' = Some c'.
Proof.
  destruct (decide (ch = ch')) as [<-|Hne].
  - rewrite lookup_insert_eq. intros [= <-]. by left.
  - rewrite lookup_insert_ne by done. by right.
Qed.

Lemma replace_ids s ch c :
  invariant s -> same_id (sys_calls s) ch c ->
  (forall ch' c', <[ch := c]> (sys_calls s) !! ch' = Some c' ->
     exists k, 0 <= k < sys_count s /\ call_id c' = correlation_id_of k) /\
  (forall ch1 ch2 c1 c2, <[ch := c]> (sys_calls s) !! ch1 = Some c1 ->
     <[ch := c]> (sys_calls s) !! ch2 = Some c2 -> call_id c1 = call_id c2 -> ch1 = ch2).
Proof.
  intros I (c0 & Hc0 & Hid).
  assert (Hold : forall ch' c', <[ch := c]> (sys_calls s) !! ch' = Some c' ->
    exists d, sys_calls s !! ch' = Some d /\ call_id d = call_id c').
  { intros ch' c' [[-> ->]|[_ ?]]%lookup_replace; eauto. }
  split.
  - intros ch' c' (d & Hd & <-)%Hold. destruct (inv_ids s I) as [_ Hids]. eauto.
  - intros ch1 ch2 c1 c2 (d1 & H1 & <-)%Hold (d2 & H2 & <-)%Hold. by apply (inv_unique s I).
Qed.

(** Steps that change the phase of one call, and possibly remove the active
    request of that call when it is not pending any more. *)
Lemma inv_set_phase s ch c ph st :
  invariant s -> sys_calls s !! ch = Some c -> slot_matches (set_phase ph c) ->
  (pending (set_phase ph c) -> pending c) ->
  st = sys_state s \/ (~ pending (set_phase ph c) /\ st = cleanup (call_id c) (sys_state s)) ->
  invariant (mkSystem st (sys_count s) (sys_running s) (<[ch := set_phase ph c]> (sys_calls s))).
Proof.
  intros I Hc Hsm Hpend Hst.
  destruct (replace_ids s ch (set_phase ph c) I) as [Rids Runiq]; [by exists c|].
  destruct I as [Imap Ipend Islot [Ic Iids] Iuniq Irun]. split; simpl; try done.
  - intros m id a Hm Ha.
    assert (exists m0, sys_state s = RequestMap m0 /\ m0 !! id = Some a) as (m0 & Hm0 & Ha0).
    { destruct Hst as [->|[_ ->]]; [by eauto|]. destruct (sys_state s) as [m0|]; [|done].
      simpl in Hm. injection Hm as <-. apply lookup_delete_Some in Ha as [_ Ha]. by eauto. }
    destruct (Imap _ _ _ Hm0 Ha0) as (c0 & Hc0 & <- & Hs).
    destruct (decide (ch = channel a)) as [->|]; [|rewrite lookup_insert_ne by done; eauto].
    rewrite lookup_insert_eq. exists (set_phase ph c). rewrite Hc in Hc0. injection Hc0 as <-. done.
  - intros ch' c' Hc' Hp' Hs'.
    assert (exists c0, sys_calls s !! ch' = Some c0 /\ call_id c' = call_id c0 /\
      call_slot c0 = None /\ pending c0) as (c0 & Hc0 & Hi & Hs & Hp).
    { apply lookup_replace in Hc' as [[-> ->]|[_ Hc']]; [exists c|exists c']; eauto. }
    destruct (Ipend ch' c0 Hc0 Hp Hs) as (m & a & Hm & Ha & Hch).
    rewrite Hi. destruct Hst as [->|[Hnp ->]]; [by eauto|]. rewrite Hm. simpl.
    exists (delete (call_id c) m), a. split; [done|]. split; [|done].
    rewrite lookup_delete_ne; [done|]. intros Heq.
    pose proof (Iuniq _ _ _ _ Hc Hc0 Heq) as <-. rewrite lookup_insert_eq in Hc'. congruence.
  - intros ch' c' [[-> ->]|[_ Hc']]%lookup_replace; [done|eauto].
  - intros Hr. destruct (Irun Hr) as [e He]. exists e. rewrite He in Hst. naive_solver.
Qed.

(** A call that registers its channel. *)
Lemma inv_register s ch c m a :
  invariant s -> sys_calls s !! ch = Some c -> sys_state s = RequestMap m -> channel a = ch ->
  invariant (mkSystem (RequestMap (<[call_id c := a]> m)) (sys_count s) (sys_running s)
               (<[ch := mkCall (call_id c) Sending None]> (sys_calls s))).
Proof.
  intros I Hc Hm <-.
  destruct (replace_ids s (channel a) (mkCall (call_id c) Sending None) I) as [Rids Runiq]; [by exists c|].
  destruct I as [Imap Ipend Islot [Ic Iids] Iuniq Irun]. split; simpl; try done.
  - intros m' id a' [= <-] Ha'. destruct (decide (call_id c = id)) as [<-|Hne].
    + rewrite lookup_insert_eq in Ha'. injection Ha' as <-. rewrite lookup_insert_eq. eauto.
    + rewrite lookup_insert_ne in Ha' by done. destruct (Imap _ _ _ Hm Ha') as (c' & Hc' & <- & Hs).
      exists c'. rewrite lookup_insert_ne; [done|congruence].
  - intros ch' c' [[-> ->]|[Hne Hc']]%lookup_replace Hp Hs; simpl.
    + exists (<[call_id c := a]> m), a. by rewrite lookup_insert_eq.
    + destruct (Ipend _ _ Hc' Hp Hs) as (m' & a' & Hm' & Ha' & Hch).
      rewrite Hm in Hm'. injection Hm' as <-. exists (<[call_id c := a]> m), a'.
      rewrite lookup_insert_ne; [done|]. intros Heq. by destruct Hne, (Iuniq _ _ _ _ Hc Hc' Heq).
  - intros ch' c' [[-> ->]|[_ Hc']]%lookup_replace; [by intros resp []|eauto].
  - intros Hr. destruct (Irun Hr) as [e He]. congruence.
Qed.

(** A new call whose correlation ID is not in use. *)
Lemma fresh_id s ch c :
  invariant s -> sys_count s < 2 ^ 32 -> sys_calls s !! ch = Some c ->
  call_id c <> correlation_id_of (sys_count s).
Proof.
  intros I Hlt Hc Heq. destruct (inv_ids s I) as [H0 Hids].
  destruct (Hids ch c Hc) as (k & Hk & Hid).
  assert (k = sys_count s) by (apply correlation_id_inj; [lia|lia|congruence]). lia.
Qed.

Lemma inv_new_call s ch :
  invariant s -> sys_count s < 2 ^ 32 -> sys_calls s !! ch = None ->
  invariant (mkSystem (sys_state s) (sys_count s + 1) (sys_running s)
    (<[ch := mkCall (correlation_id_of (sys_count s)) Preparing None]> (sys_calls s))).
Proof.
  intros I Hlt Hnew.
  assert (Hne : forall ch' c', sys_calls s !! ch' = Some c' -> call_id c' <> correlation_id_of (sys_count s))
    by eauto using fresh_id.
  destruct I as [Imap Ipend Islot [Ic Iids] Iuniq Irun]. split; simpl; try done.
  - intros m id a Hm Ha. destruct (Imap _ _ _ Hm Ha) as (c & Hc & ? & ?). exists c.
    rewrite lookup_insert_ne by congruence. done.
  - intros ch' c' [[-> ->]|[_ Hc']]%lookup_replace Hp; [by destruct Hp|eauto].
  - intros ch' c' [[-> ->]|[_ Hc']]%lookup_replace; [by intros resp []|eauto].
  - split; [lia|]. intros ch' c' [[-> ->]|[_ Hc']]%lookup_replace.
    + exists (sys_count s). split; [lia|done].
    + destruct (Iids _ _ Hc') as (k & ? & ?). exists k. split; [lia|done].
  - intros ch1 ch2 c1 c2 [[-> ->]|[_ H1]]%lookup_replace [[-> ->]|[_ H2]]%lookup_replace Heq; simpl in Heq.
    + done.
    + by destruct (Hne _ _ H2).
    + by destruct (Hne _ _ H1).
    + eauto.
Qed.

(** Deliveries that match what happens to the active requests. *)
Lemma inv_deliver s st go ds :
  invariant s ->
  (forall m id a, st = RequestMap m -> m !! id = Some a ->
     exists m0, sys_state s = RequestMap m0 /\ m0 !! id = Some a /\ ~ In (channel a) (map fst ds)) ->
  (forall m0 id a, sys_state s = RequestMap m0 -> m0 !! id = Some a -> ~ In (channel a) (map fst ds) ->
     exists m, st = RequestMap m /\ m !! id = Some a) ->
  (forall ch c resp, In (ch, Ok resp) ds -> sys_calls s !! ch = Some c ->
     int32 (response_correlation_id (resp_header resp)) = call_id c) ->
  (go = false -> exists e, st = Poison e) ->
  invariant (mkSystem st (sys_count s) go (deliver_all (sys_calls s) ds)).
Proof.
  intros [Imap Ipend Islot [Ic Iids] Iuniq Irun] Hkeep Hdrop Hresp Hgo. split; simpl.
  - intros m id a Hm Ha. destruct (Hkeep _ _ _ Hm Ha) as (m0 & Hm0 & Ha0 & Hnin).
    destruct (Imap _ _ _ Hm0 Ha0) as (c & Hc & Hid & Hs).
    pose proof (deliver_all_lookup ds (sys_calls s) (channel a)) as Hl. rewrite Hc in Hl.
    destruct Hl as (c' & Hc' & Hi & _ & [[-> _]|(_ & r & Hr & _)]); [by exists c|].
    destruct Hnin. apply (in_map fst _ _ Hr).
  - intros ch c' Hc' Hp Hs. apply deliver_all_inv in Hc' as (c & Hc & Hi & Hph & Hor).
    destruct Hor as [[-> Hnin]|(_ & r & _ & Hr)]; [|congruence].
    destruct (Ipend _ _ Hc Hp Hs) as (m0 & a & Hm0 & Ha & Hch). subst ch.
    destruct (Hdrop _ _ _ Hm0 Ha (Hnin Hs)) as (m & Hm & Ha'). by exists m, a.
  - intros ch c' Hc' resp Hr. apply deliver_all_inv in Hc' as (c & Hc & Hi & Hph & Hor).
    rewrite Hi. destruct Hor as [[-> _]|(_ & r & Hin & Hr')]; [by apply (Islot _ _ Hc)|].
    destruct Hr as [Hr|Hr]; [|apply (Islot _ _ Hc); right; congruence].
    rewrite Hr in Hr'. injection Hr' as <-. by apply (Hresp ch).
  - split; [done|]. intros ch c' Hc'. apply deliver_all_inv in Hc' as (c & Hc & Hi & _).
    rewrite Hi. eauto.
  - intros ch1 ch2 c1 c2 H1 H2. apply deliver_all_inv in H1 as (d1 & Hd1 & -> & _).
    apply deliver_all_inv in H2 as (d2 & Hd2 & -> & _). eauto.
  - done.
Qed.

(** Poisoning answers every active request. *)
Lemma poison_spec err st st' e ds :
  poison err st = (st', e, ds) ->
  st' = Poison e /\
  (forall m id a, st = RequestMap m -> m !! id = Some a -> In (channel a) (map fst ds)) /\
  (forall ch r, In (ch, r) ds -> r = Err (Poisoned e)).
Proof.
  destruct st as [m|e0]; simpl; intros [= <- <- <-].
  - split; [done|]. split.
    + intros m' id a [= <-] Ha. rewrite map_map. apply in_map_iff. exists (id, a).
      split; [done|]. by apply list_elem_of_In, elem_of_map_to_list.
    + intros ch r Hin. apply in_map_iff in Hin as ([i a] & [= <- <-] & _). done.
  - split; [done|]. split; [done|]. intros ch r [].
Qed.

Lemma inv_poison s err st e ds go :
  invariant s -> poison err (sys_state s) = (st, e, ds) ->
  invariant (mkSystem st (sys_count s) go (deliver_all (sys_calls s) ds)).
Proof.
  intros I (-> & Hall & Herr)%poison_spec. apply inv_deliver; try done.
  - intros m0 id a Hm Ha Hnin. destruct Hnin. eauto.
  - intros ch c resp Hin. by apply Herr in Hin.
  - intros _. by exists e.
Qed.

(** What an iteration of the reader does to the active requests. *)
Lemma reader_step_spec r s st ds go :
  invariant s -> reader_step r (sys_state s) = Ok (st, ds, go) ->
  invariant (mkSystem st (sys_count s) go (deliver_all (sys_calls s) ds)).
Proof.
  intros I. unfold reader_step. destruct r as [msg|e|p]; [| |done].
  2: { destruct (poison (ReadFramedMessageError e) (sys_state s)) as [[st0 e0] ds0] eqn:Hp.
       intros [= <- <- <-]. by eapply inv_poison. }
  assert (Hsame : forall go, (go = false -> exists e, sys_state s = Poison e) ->
    invariant (mkSystem (sys_state s) (sys_count s) go (deliver_all (sys_calls s) []))).
  { intros go0 Hgo. apply inv_deliver; simpl; eauto 10. intros ? ? ? []. }
  destruct (read_versioned (V 0) (cursor msg)) as [[header cur]|e|p]; [|intros [= <- <- <-]; by apply Hsame|done].
  destruct (sys_state s) as [m|e] eqn:Hst; [|intros [= <- <- <-]; apply Hsame; by eauto].
  set (id := int32 (response_correlation_id header)).
  destruct (m !! id) as [a|] eqn:Ha; [|intros [= <- <- <-]; by apply Hsame].
  destruct (inv_map s I m id a Hst Ha) as (ca & Hca & Hid & Hsa).
  assert (Hone : forall r, (forall resp, r = Ok resp -> int32 (response_correlation_id (resp_header resp)) = id) ->
    invariant (mkSystem (RequestMap (delete id m)) (sys_count s) true
                 (deliver_all (sys_calls s) [(channel a, r)]))).
  { intros r Hr. apply inv_deliver; try done.
    - intros m' id' a' [= <-] Ha'. apply lookup_delete_Some in Ha' as [Hne Ha'].
      exists m. split; [done|]. split; [done|]. intros [Heq|[]]. simpl in Heq.
      destruct (inv_map s I m id' a' Hst Ha') as (c' & Hc' & Hid' & _).
      rewrite <-Heq, Hca in Hc'. congruence.
    - intros m0 id' a' Hm0 Ha' Hnin. rewrite Hst in Hm0. injection Hm0 as <-.
      exists (delete id m). split; [done|]. rewrite lookup_delete_ne; [done|].
      intros <-. destruct Hnin. left. simpl. congruence.
    - intros ch c resp [[= <- ->]|[]] Hc. rewrite (Hr resp eq_refl). congruence. }
  destruct (use_tagged_fields a).
  - destruct (read cur) as [[fields cur']|e|p]; [| |done]; intros [= <- <- <-]; apply Hone.
    + by intros resp [= <-].
    + done.
  - intros [= <- <- <-]. apply Hone. by intros resp [= <-].
Qed.

(** A phase that carries no response keeps the matching. *)
Lemma phase_slot_err c ph :
  slot_matches c -> (forall resp, ph <> Returned (Ok resp)) -> slot_matches (set_phase ph c).
Proof. intros Hc Hph resp [Hr|Hr]; [apply Hc; by left|]. by destruct (Hph resp). Qed.

Lemma step_preserves s s' :
  invariant s -> sys_count s' <= 2 ^ 32 -> step s s' -> invariant s'.
Proof.
  intros I Hcount Hstep.
  assert (Hslot : forall ch c, sys_calls s !! ch = Some c -> slot_matches c) by apply (inv_slot s I).
  destruct Hstep as
    [ch s Hnew|ch c e s Hc Hp|ch c tagged s st Hc Hp Hreg|ch c tagged s e Hc Hp Hreg|ch c s Hc Hp
    |ch c c' err s st e ds Hc Hp Hpo Hc'
    |ch c s Hc Hp|ch c s Hc Hp|ch c r s Hc Hp Hs|r s st ds go Hrun Hr]; simpl in Hcount.
  - apply inv_new_call; [done|lia|done].
  - eapply inv_set_phase; eauto using phase_slot_err. by intros [].
  - destruct (sys_state s) as [m|] eqn:Hst; [|done]. injection Hreg as <-. by apply inv_register.
  - eapply inv_set_phase; eauto using phase_slot_err; [by intros []|]. right. split; [by intros []|done].
  - eapply inv_set_phase; eauto using phase_slot_err. by left.
  - apply (inv_poison s err st e ds (sys_running s)) in Hpo as I'; [|done].
    destruct (deliver_all_inv _ _ _ _ Hc') as (c1 & Hc1 & Hi & _).
    rewrite Hc in Hc1. injection Hc1 as <-. rewrite <-Hi.
    apply (inv_set_phase _ ch c' _ (cleanup (call_id c') st) I'); simpl; try done.
    + apply phase_slot_err; [|done]. by apply (inv_slot _ I' ch).
    + by intros [].
    + right. split; [by intros []|done].
  - eapply inv_set_phase; eauto using phase_slot_err; [by intros []|]. right. split; [by intros []|done].
  - eapply inv_set_phase; eauto using phase_slot_err. by intros [].
  - eapply inv_set_phase; eauto; [|by intros []]. specialize (Hslot _ _ Hc).
    intros resp [Hr|[= ->]]; apply Hslot; by left.
  - by eapply reader_step_spec.
Qed.

Lemma reachable_invariant s : reachable s -> sys_count s <= 2 ^ 32 -> invariant s.
Proof.
  induction 1 as [|s s' Hr IH Hstep]; intros Hcount.
  - split; simpl; try done.
    + by intros m id a [= <-] Ha.
  - eapply step_preserves; [|done|done]. apply IH. apply step_count in Hstep. lia.
Qed.

(** ** Properties *)

(** The reader answers a registered request with whatever it reads next for
    it: a message with its correlation ID, or the failure of the connection. *)
Definition answers (id : Z) (r : outcome FrameReadError (list byte)) : Prop :=
  match r with
  | Ok msg => exists header cur,
      read_versioned (A:=ResponseHeader) (V 0) (cursor msg) = Ok (header, cur) /\
      int32 (response_correlation_id header) = id
  | Err _ => True
  | Panic _ => False
  end.

Lemma reader_answers r id m a :
  answers id r -> m !! id = Some a ->
  exists st ds go, reader_step r (RequestMap m) = Ok (st, ds, go) /\ In (channel a) (map fst ds).
Proof.
  intros Hr Ha. destruct r as [msg|e|p]; [| |done]; unfold reader_step; simpl in Hr.
  - destruct Hr as (header & cur & -> & ->). rewrite Ha.
    destruct (use_tagged_fields a); [|eexists _, _, _; split; [done|]; by left].
    destruct (read cur) as [[fields cur']|e|p] eqn:Hf; [eexists _, _, _; split; [done|]; by left..|].
    by destruct (read_no_panic (A:=TaggedFields) cur p).
  - destruct (poison (ReadFramedMessageError e) (RequestMap m)) as [[st e'] ds] eqn:Hp.
    apply poison_spec in Hp as (_ & Hall & _). eexists _, _, _. split; [done|]. eauto.
Qed.

(** C5: responses go to the right caller.  In every interleaving of calls,
    cancellations and the reader task, a response that is in the channel of a
    call, or that the call has returned, carries the correlation ID of its
    request (for the first 2^32 requests of a connection, after which the IDs
    repeat). *)
Theorem response_matches_request s ch c resp :
  reachable s -> sys_count s <= 2 ^ 32 -> sys_calls s !! ch = Some c ->
  call_slot c = Some (Ok resp) \/ call_phase c = Returned (Ok resp) ->
  int32 (response_correlation_id (resp_header resp)) = call_id c.
Proof. intros Hr Hcount Hc. apply (inv_slot s (reachable_invariant s Hr Hcount) ch c Hc). Qed.

(** C6: no call hangs.  In every reachable state a call that is sending or
    waiting and has no result is registered with the reader task under its own
    correlation ID, and the reader task is alive; and whatever the reader gets
    next for the call, its response or a failure of the connection, the step
    that handles it puts a result in the channel of the call. *)
Theorem no_call_hangs s ch c :
  reachable s -> sys_count s <= 2 ^ 32 -> sys_calls s !! ch = Some c -> pending c ->
  call_slot c = None ->
  (sys_running s = true /\
   exists m a, sys_state s = RequestMap m /\ m !! call_id c = Some a /\ channel a = ch) /\
  forall r, answers (call_id c) r ->
    exists st ds go c', reader_step r (sys_state s) = Ok (st, ds, go) /\
      step s (mkSystem st (sys_count s) go (deliver_all (sys_calls s) ds)) /\
      deliver_all (sys_calls s) ds !! ch = Some c' /\ is_Some (call_slot c').
Proof.
  intros Hr Hcount Hc Hp Hs. pose proof (reachable_invariant s Hr Hcount) as I.
  destruct (inv_pending s I ch c Hc Hp Hs) as (m & a & Hm & Ha & Hch).
  assert (Hrun : sys_running s = true).
  { destruct (sys_running s) eqn:Hrun; [done|]. destruct (inv_running s I Hrun) as [e He]. congruence. }
  split; [split; [done|by exists m, a]|]. intros r Hans.
  destruct (reader_answers r _ m a Hans Ha) as (st & ds & go & Hstep & Hin). rewrite <-Hm in Hstep.
  pose proof (deliver_all_lookup ds (sys_calls s) ch) as Hl. rewrite Hc in Hl.
  destruct Hl as (c' & Hc' & _ & _ & Hd). exists st, ds, go, c'.
  split; [done|]. split; [by eapply step_reader|]. split; [done|].
  destruct Hd as [[-> Hn]|(_ & x & _ & ->)]; [|done]. destruct (Hn Hs). congruence.
Qed.

(** The bookkeeping does not leak to strangers: every registered request
    belongs to a call that exists, has that correlation ID and has not been
    answered; in particular a response for an ID that was answered or cleaned
    up is not delivered to anyone. *)
Theorem active_requests_unanswered s m id a :
  reachable s -> sys_count s <= 2 ^ 32 -> sys_state s = RequestMap m -> m !! id = Some a ->
  exists c, sys_calls s !! channel a = Some c /\ call_id c = id /\ call_slot c = None.
Proof. intros Hr Hcount. apply (inv_map s (reachable_invariant s Hr Hcount)). Qed.

(** ** What a call is told *)
Definition exchange_error (e : RequestError) : Prop :=
  (exists e', e = Poisoned e') \/ (exists e', e = ReqReadError e').

Definition told (r : outcome RequestError Response) : Prop :=
  match r with Ok _ => True | Err e => exchange_error e | Panic _ => False end.

Definition call_told (c : call) : Prop :=
  (forall r, call_slot c = Some r -> told r) /\
  (forall r, call_phase c = Returned r -> told r \/ exists e, r = Err (ReqWriteError e)).

Lemma poison_told err st st' e ds : poison err st = (st', e, ds) -> Forall (fun d => told (snd d)) ds.
Proof.
  destruct st as [m|e0]; intros [= <- <- <-]; [|done]. apply Forall_forall.
  intros d ((?, a) & <- & _)%list_elem_of_In%in_map_iff. left. eauto.
Qed.

Lemma reader_told r st st' ds go :
  reader_step r st = Ok (st', ds, go) -> Forall (fun d => told (snd d)) ds.
Proof.
  unfold reader_step. destruct r as [msg|e|p]; [| |done].
  - destruct (read_versioned _ _) as [[h cur]|e|p]; [|by intros [= <- <- <-]|done].
    destruct st as [m|e]; [|by intros [= <- <- <-]].
    destruct (m !! _) as [a|]; [|by intros [= <- <- <-]].
    destruct (use_tagged_fields a); [|by intros [= <- <- <-]; repeat constructor].
    destruct (read cur) as [[f c]|e|p]; [| |done]; intros [= <- <- <-];
      apply Forall_singleton; [done|right; eauto].
  - destruct (poison _ st) as [[st1 e1] ds1] eqn:Hp. intros [= <- <- <-]. by eapply poison_told.
Qed.

Lemma deliver_told calls ds ch c :
  (forall ch c, calls !! ch = Some c -> call_told c) -> Forall (fun d => told (snd d)) ds ->
  deliver_all calls ds !! ch = Some c -> call_told c.
Proof.
  intros Hc Hds (c0 & Hc0 & _ & Hph & Hcase)%deliver_all_inv. destruct (Hc _ _ Hc0) as [Hs Hr].
  split; [|by rewrite Hph]. destruct Hcase as [[-> _]|(_ & r & Hin & Heq)]; [done|].
  rewrite Heq. intros ? [= <-]. rewrite Forall_forall in Hds.
  by apply (Hds (ch, r)), list_elem_of_In.
Qed.

Lemma step_told s s' :
  (forall ch c, sys_calls s !! ch = Some c -> call_told c) -> step s s' ->
  forall ch c, sys_calls s' !! ch = Some c -> call_told c.
Proof.
  intros I Hstep.
  assert (Hph : forall c ph, call_told c -> (forall r, ph = Returned r -> told r \/ exists e, r = Err (ReqWriteError e)) ->
    call_told (set_phase ph c)) by (intros c ph [H1 _] H2; by split).
  destruct Hstep; simpl; intros ch' c0 Hl;
    try (apply lookup_replace in Hl as [[-> ->]|[_ Hl]]; [|by eauto]).
  - by split.
  - apply Hph; [eauto|]. intros ? [= <-]. eauto.
  - by split.
  - apply Hph; [eauto|]. intros ? [= <-]. left.
    unfold register in *. destruct (sys_state s); [discriminate|]. simplify_eq. left. eauto.
  - apply Hph; [eauto|done].
  - apply lookup_replace in Hl as [[-> ->]|[_ Hl]]; [|by eauto using deliver_told, poison_told].
    apply Hph; [by eauto using deliver_told, poison_told|]. intros ? [= <-]. left. left. eauto.
  - apply Hph; [eauto|done].
  - apply Hph; [eauto|done].
  - apply Hph; [eauto|]. intros ? [= <-]. left. by eapply I.
  - by eauto using deliver_told, reader_told.
Qed.

(** What a call returns: a response, that the connection is poisoned, that the
    header of its response cannot be read, or that its body cannot be written;
    no other error and no panic. *)
Theorem call_results s ch c r :
  reachable s -> sys_calls s !! ch = Some c -> call_phase c = Returned r ->
  told r \/ exists e, r = Err (ReqWriteError e).
Proof.
  intros Hr. enough (forall ch c, sys_calls s !! ch = Some c -> call_told c) as H.
  { intros Hc. by apply (H ch c Hc). }
  induction Hr as [|s s' _ IH Hs]; [done|]. by eapply step_told.
Qed.

(** An execution with one call that gets its response. *)
Definition sample_message : list byte := map byte_of_Z [0; 0; 0; 0].

Definition sample_registered : system :=
  mkSystem (RequestMap {[0 := mkActiveRequest 5 false]}) 1 true {[5%nat := mkCall 0 Sending None]}.

Lemma sample_registered_reachable : reachable sample_registered.
Proof.
  eapply (reach_step (mkSystem (RequestMap ∅) 1 true {[5%nat := mkCall 0 Preparing None]})).
  - eapply reach_step; [apply reach_initial|]. exact (step_allocate 5 initial eq_refl).
  - apply (step_register 5 (mkCall 0 Preparing None) false); reflexivity.
Qed.

Definition sample_response : Response :=
  mkResponse (mkResponseHeader (mkInt32 0) None) (cursor []) 4.

Definition sample_answered : system :=
  mkSystem (RequestMap (delete 0 {[0 := mkActiveRequest 5 false]})) 1 true
    (deliver_all {[5%nat := mkCall 0 Waiting None]} [(5%nat, Ok sample_response)]).

Definition sample_returned : system :=
  mkSystem (sys_state sample_answered) 1 true
    (<[5%nat := mkCall 0 (Returned (Ok sample_response)) (Some (Ok sample_response))]>
       (sys_calls sample_answered)).

Lemma sample_answered_reachable : reachable sample_answered.
Proof.
  eapply reach_step.
  - eapply reach_step; [apply sample_registered_reachable|].
    apply (step_sent 5 (mkCall 0 Sending None)); reflexivity.
  - apply (step_reader (Ok sample_message)); reflexivity.
Qed.

Lemma sample_returned_reachable : reachable sample_returned.
Proof.
  eapply reach_step; [apply sample_answered_reachable|].
  apply (step_return 5 (mkCall 0 Waiting (Some (Ok sample_response))) (Ok sample_response)); reflexivity.
Qed.

Lemma response_matches_request_witness :
  exists c, sys_calls sample_returned !! 5%nat = Some c /\ 0 = call_id c.
Proof.
  eexists. split; [reflexivity|].
  apply (response_matches_request sample_returned 5 _ sample_response sample_returned_reachable);
    [vm_compute; congruence|reflexivity|right; reflexivity].
Defined.

Lemma no_call_hangs_witness :
  exists st ds go c', reader_step (Ok sample_message) (sys_state sample_registered) = Ok (st, ds, go) /\
    step sample_registered (mkSystem st 1 go (deliver_all (sys_calls sample_registered) ds)) /\
    deliver_all (sys_calls sample_registered) ds !! 5%nat = Some c' /\ is_Some (call_slot c').
Proof.
  apply (no_call_hangs sample_registered 5 (mkCall 0 Sending None) sample_registered_reachable);
    [vm_compute; congruence|reflexivity|left; reflexivity|reflexivity|].
  eexists _, _. split; reflexivity.
Defined.
