(* ===== verification/WriteSide.v ===== *)
(** * Sending on a connection (src/messenger.rs)

    [send_message] under the lock of the write half, with the wrapper that
    keeps a write alive when its caller is cancelled.  The system below adds to
    [MessengerSystem] what happens between the registration of a request and
    the moment its message is out: waiting for the lock, partial writes,
    cancellation, and the tasks that finish a cancelled write. *)

From Stdlib Require Import ZArith Lia.
From stdpp Require Import base list numbers gmap fin_maps.
From S2P Require Import Prelude Bytes Wire VecBuilder Varint Primitives PrimitiveLaws ApiKey.
From S2P Require Import ErrorCode Versioned Header ApiVersionsMsg Frame Support Messenger MessengerSystem.

Local Open Scope Z_scope.
Local Open Scope rust_scope.

(** ** [CancellationSafeFuture] *)
Record CancellationSafeFuture (F : Type) : Type := mkCancellationSafeFuture {
  done : bool;
  inner : option F;
}.
Arguments mkCancellationSafeFuture {F} _ _.
Arguments done {F} _.
Arguments inner {F} _.

Definition CancellationSafeFuture_new {F} (fut : F) : CancellationSafeFuture F :=
  mkCancellationSafeFuture false (Some fut).

(** [Future::poll]; [poll] is that of the inner future, on the state it works
    on. *)
Definition safe_poll {F S Out} (poll : F -> S -> Poll Out * F * S)
    (self : CancellationSafeFuture F) (s : S) :
    outcome Empty_set (Poll Out * CancellationSafeFuture F * S) :=
  match inner self with
  | None => Panic ExpectFailed
  | Some f =>
      match poll f s with
      | (Ready res, f, s) => Ok (Ready res, mkCancellationSafeFuture true (Some f), s)
      | (Pending, f, s) => Ok (Pending, mkCancellationSafeFuture (done self) (Some f), s)
      end
  end.

(** [Drop::drop]: the future that a new task will finish. *)
Definition safe_drop {F} (self : CancellationSafeFuture F) : outcome Empty_set (option F) :=
  if negb (done self) then
    match inner self with
    | Some f => Ok (Some f)
    | None => Panic ExpectFailed
    end
  else Ok None.

(** ** The future of one message *)

(** What the stream does when it is asked to write or to flush. When no answer
    is left, it blocks. *)
Inductive stream_answer : Type :=
| Accepts (n : nat)
| Fails (e : ErrorKind).

(** The buffers that [write_message] hands to [write_all]. *)
Definition frame_bufs (msg : list byte) : outcome FrameWriteError (list (list byte)) :=
  let! len := ok_or (TooLarge (zlen msg)) (signed_try_from 32 (zlen msg)) in
  match write (mkInt32 len) with
  | Ok len_buf => Ok [len_buf; msg]
  | _ => Panic ExpectFailed
  end.

(** [write_all] is done with an empty buffer. *)
Fixpoint skip_empty (bufs : list (list byte)) : list (list byte) :=
  match bufs with
  | [] :: bufs => skip_empty bufs
  | _ => bufs
  end.

(** [write_all] of the buffers and [flush], as far as the answers of the stream
    reach. A write of no bytes is an error of [write_all]. *)
Fixpoint send_bufs (answers : list stream_answer) (bufs : list (list byte)) (wire : list byte) :
    Poll (outcome RequestError unit) * list (list byte) * list byte :=
  match answers, skip_empty bufs with
  | [], bufs => (Pending, bufs, wire)
  | Accepts _ :: _, [] => (Ready (Ok tt), [], wire)
  | Fails e :: _, [] => (Ready (Err (ReqIO e)), [], wire)
  | Accepts O :: _, bufs => (Ready (Err (WriteMessageError (FrameWriteIO OtherIo))), bufs, wire)
  | Accepts n :: answers, buf :: bufs => send_bufs answers (drop n buf :: bufs) (wire ++ take n buf)
  | Fails e :: _, bufs => (Ready (Err (WriteMessageError (FrameWriteIO e))), bufs, wire)
  end.

(** The [async] block of [send_message_inner]: before its first poll, or with
    the buffers that are not written yet. *)
Inductive WriteFuture : Type :=
| WriteStart (msg : list byte)
| Writing (bufs : list (list byte)).

Definition write_poll (answers : list stream_answer) (f : WriteFuture) (wire : list byte) :
    Poll (outcome RequestError unit) * WriteFuture * list byte :=
  let send bufs :=
    let '(r, bufs, wire) := send_bufs answers bufs wire in (r, Writing bufs, wire) in
  match f with
  | WriteStart msg =>
      match frame_bufs msg with
      | Ok bufs => send bufs
      | Err e => (Ready (Err (WriteMessageError e)), f, wire)
      | Panic p => (Ready (Panic p), f, wire)
      end
  | Writing bufs => send bufs
  end.

(** ** The system *)

(** Where a message is: its caller waits for the lock, polls the write, has the
    result, has acted on it, or was cancelled while it waited; a task finishes
    the write of a cancelled caller, or has finished it. *)
Inductive send_phase : Type :=
| AwaitLock
| Polling (fut : CancellationSafeFuture WriteFuture)
| SendDone (r : outcome RequestError unit)
| Answered (r : outcome RequestError unit)
| GaveUp
| Rescued (fut : WriteFuture)
| RescueDone (r : outcome RequestError unit).

Record sender : Type := mkSender {
  snd_msg : list byte;
  snd_phase : send_phase;
}.

Record connection : Type := mkConnection {
  conn_sys : system;
  conn_lock : option nat;
  conn_wire : list byte;
  conn_sends : gmap nat sender;
}.

Definition connection_initial : connection := mkConnection initial None [] ∅.

(** The guard of the lock belongs to the write and goes with it. *)
Definition lock_after {A} (r : Poll A) (lock : option nat) : option nat :=
  match r with
  | Pending => lock
  | Ready _ => None
  end.

Definition set_send (ch : nat) (msg : list byte) (ph : send_phase) (sends : gmap nat sender) :
    gmap nat sender := <[ch := mkSender msg ph]> sends.

(** The call [ch] of the messenger goes on in phase [ph] with state [st]. *)
Definition set_call (ch : nat) (c : call) (ph : phase) (st : MessengerState) (s : system) : system :=
  mkSystem st (sys_count s) (sys_running s) (<[ch := set_phase ph c]> (sys_calls s)).

Definition is_sending (s : system) (ch : nat) : Prop :=
  exists c, sys_calls s !! ch = Some c /\ call_phase c = Sending.

Inductive conn_step : connection -> connection -> Prop :=
| conn_register ch c tagged msg s st :
    (** a call registers its channel and asks for its message to be sent *)
    sys_calls (conn_sys s) !! ch = Some c -> call_phase c = Preparing ->
    conn_sends s !! ch = None ->
    register (call_id c) (mkActiveRequest ch tagged) (sys_state (conn_sys s)) = Ok st ->
    conn_step s
      (mkConnection
         (mkSystem st (sys_count (conn_sys s)) (sys_running (conn_sys s))
            (<[ch := mkCall (call_id c) Sending None]> (sys_calls (conn_sys s))))
         (conn_lock s) (conn_wire s) (set_send ch msg AwaitLock (conn_sends s)))
| conn_acquire ch msg s :
    (** [lock_owned] *)
    conn_sends s !! ch = Some (mkSender msg AwaitLock) -> conn_lock s = None ->
    conn_step s
      (mkConnection (conn_sys s) (Some ch) (conn_wire s)
         (set_send ch msg (Polling (CancellationSafeFuture_new (WriteStart msg))) (conn_sends s)))
| conn_poll ch msg fut answers r fut' wire s :
    (** [fut.await] *)
    conn_sends s !! ch = Some (mkSender msg (Polling fut)) ->
    safe_poll (write_poll answers) fut (conn_wire s) = Ok (r, fut', wire) ->
    conn_step s
      (mkConnection (conn_sys s) (lock_after r (conn_lock s)) wire
         (set_send ch msg (match r with Pending => Polling fut' | Ready v => SendDone v end)
            (conn_sends s)))
| conn_sent ch c msg s :
    (** [send_message] returns, [cleanup_on_cancel.message_sent()] *)
    conn_sends s !! ch = Some (mkSender msg (SendDone (Ok tt))) ->
    sys_calls (conn_sys s) !! ch = Some c -> call_phase c = Sending ->
    conn_step s
      (mkConnection (set_call ch c Waiting (sys_state (conn_sys s)) (conn_sys s))
         (conn_lock s) (conn_wire s) (set_send ch msg (Answered (Ok tt)) (conn_sends s)))
| conn_failed ch c c' msg err st e ds s :
    (** [send_message] poisons the state *)
    conn_sends s !! ch = Some (mkSender msg (SendDone (Err err))) ->
    sys_calls (conn_sys s) !! ch = Some c -> call_phase c = Sending ->
    poison err (sys_state (conn_sys s)) = (st, e, ds) ->
    deliver_all (sys_calls (conn_sys s)) ds !! ch = Some c' ->
    conn_step s
      (mkConnection
         (mkSystem (cleanup (call_id c) st) (sys_count (conn_sys s)) (sys_running (conn_sys s))
            (<[ch := set_phase (Returned (Err (Poisoned e))) c']> (deliver_all (sys_calls (conn_sys s)) ds)))
         (conn_lock s) (conn_wire s) (set_send ch msg (Answered (Err err)) (conn_sends s)))
| conn_cancel_lock ch c msg s :
    (** the caller is dropped while it waits for the lock *)
    conn_sends s !! ch = Some (mkSender msg AwaitLock) ->
    sys_calls (conn_sys s) !! ch = Some c -> call_phase c = Sending ->
    conn_step s
      (mkConnection
         (set_call ch c Dropped (cleanup (call_id c) (sys_state (conn_sys s))) (conn_sys s))
         (conn_lock s) (conn_wire s) (set_send ch msg GaveUp (conn_sends s)))
| conn_cancel_write ch c msg fut f s :
    (** the caller is dropped while it writes *)
    conn_sends s !! ch = Some (mkSender msg (Polling fut)) -> safe_drop fut = Ok (Some f) ->
    sys_calls (conn_sys s) !! ch = Some c -> call_phase c = Sending ->
    conn_step s
      (mkConnection
         (set_call ch c Dropped (cleanup (call_id c) (sys_state (conn_sys s))) (conn_sys s))
         (conn_lock s) (conn_wire s) (set_send ch msg (Rescued f) (conn_sends s)))
| conn_rescue ch msg f answers r f' wire s :
    (** [inner.await] in the task that was spawned *)
    conn_sends s !! ch = Some (mkSender msg (Rescued f)) ->
    write_poll answers f (conn_wire s) = (r, f', wire) ->
    conn_step s
      (mkConnection (conn_sys s) (lock_after r (conn_lock s)) wire
         (set_send ch msg (match r with Pending => Rescued f' | Ready v => RescueDone v end)
            (conn_sends s)))
| conn_other s s' :
    (** every other action of callers and of the reader task *)
    step (conn_sys s) s' -> (forall ch, is_sending (conn_sys s) ch <-> is_sending s' ch) ->
    conn_step s (mkConnection s' (conn_lock s) (conn_wire s) (conn_sends s)).

Inductive conn_reachable : connection -> Prop :=
| conn_reach_initial : conn_reachable connection_initial
| conn_reach_step s s' : conn_reachable s -> conn_step s s' -> conn_reachable s'.

(** ** What one message has put on the wire *)
Definition io_failure (e : RequestError) : Prop :=
  (exists k, e = ReqIO k) \/ (exists k, e = WriteMessageError (FrameWriteIO k)).

(** The bytes of a write that is not finished. *)
Definition future_wrote (msg : list byte) (f : WriteFuture) (w : list byte) : Prop :=
  match f with
  | WriteStart m => m = msg /\ w = []
  | Writing bufs => write_message msg = Ok (w ++ concat bufs)
  end.

(** The bytes of a write that is. *)
Inductive result_wrote (msg : list byte) : outcome RequestError unit -> list byte -> Prop :=
| wrote_frame frame :
    write_message msg = Ok frame -> result_wrote msg (Ok tt) frame
| wrote_nothing n :
    write_message msg = Err (TooLarge n) -> result_wrote msg (Err (WriteMessageError (TooLarge n))) []
| wrote_part frame w e :
    write_message msg = Ok frame -> w `prefix_of` frame -> io_failure e ->
    result_wrote msg (Err e) w.

Lemma concat_skip_empty bufs : concat (skip_empty bufs) = concat bufs.
Proof. by induction bufs as [|[|b buf] bufs IH]. Qed.

Lemma frame_bufs_concat msg :
  write_message msg = (let! bufs := frame_bufs msg in Ok (concat bufs)).
Proof.
  unfold write_message, frame_bufs.
  destruct (ok_or _ _) as [len|e|p]; [|done..]. cbn [obind].
  destruct (write _) as [len_buf|e|p]; [|done..]. cbn [obind concat]. rewrite app_nil_r.
  destruct (Z.eqb_spec (zlen msg) 0) as [Hz|]; [by rewrite (zlen_0 msg Hz)|done].
Qed.

(** [TooLarge] is the only error before the first byte. *)
Lemma frame_bufs_cases msg :
  (exists bufs, frame_bufs msg = Ok bufs /\ write_message msg = Ok (concat bufs)) \/
  (exists n, frame_bufs msg = Err (TooLarge n) /\ write_message msg = Err (TooLarge n)).
Proof.
  rewrite frame_bufs_concat. unfold frame_bufs.
  destruct (signed_try_from 32 (zlen msg)); simpl; eauto.
Qed.

(** What [write_all] and [flush] do to the wire: bytes move from the buffers
    to its end, and success means that none is left. *)
Lemma send_bufs_wire answers : forall bufs wire r bufs' wire',
  send_bufs answers bufs wire = (r, bufs', wire') ->
  exists w, wire' = wire ++ w /\ w ++ concat bufs' = concat bufs /\
    match r with
    | Pending => True
    | Ready (Ok _) => concat bufs' = []
    | Ready (Err e) => io_failure e
    | Ready (Panic _) => False
    end.
Proof.
  unfold io_failure. induction answers as [|[n|e] answers IH]; intros bufs wire r bufs' wire';
    cbn [send_bufs]; rewrite <-(concat_skip_empty bufs).
  - intros [= <- <- <-]. exists []. by rewrite app_nil_r.
  - destruct (skip_empty bufs) as [|buf rest], n as [|n];
      try (intros [= <- <- <-]; exists []; rewrite app_nil_r; by eauto).
    intros (w & -> & Hw & Hr)%IH. exists (take (S n) buf ++ w). rewrite (assoc_L app). split; [done|].
    split; [|done]. rewrite <-(assoc_L app), Hw. cbn [concat]. by rewrite (assoc_L app), take_drop.
  - destruct (skip_empty bufs) as [|buf rest]; intros [= <- <- <-]; exists []; rewrite app_nil_r; eauto.
Qed.

Lemma write_poll_wire answers msg f w0 wire r f' wire' :
  future_wrote msg f w0 -> write_poll answers f wire = (r, f', wire') ->
  exists w, wire' = wire ++ w /\
    match r with
    | Pending => future_wrote msg f' (w0 ++ w)
    | Ready v => result_wrote msg v (w0 ++ w)
    end.
Proof.
  assert (Hsend : forall bufs, write_message msg = Ok (w0 ++ concat bufs) ->
    (let '(r, bufs, wire) := send_bufs answers bufs wire in (r, Writing bufs, wire)) = (r, f', wire') ->
    exists w, wire' = wire ++ w /\
      match r with Pending => future_wrote msg f' (w0 ++ w) | Ready v => result_wrote msg v (w0 ++ w) end).
  { intros bufs Hm. destruct (send_bufs answers bufs wire) as [[r1 b1] w1] eqn:Hs. intros [= -> <- ->].
    apply send_bufs_wire in Hs as (w & -> & Hw & Hr). exists w. split; [done|].
    rewrite <-Hw, (assoc_L app) in Hm. destruct r as [|[[]|e|p]]; cbn [future_wrote]; [done| | |done].
    - rewrite Hr, app_nil_r in Hm. by constructor.
    - eapply wrote_part; [done|by eexists|done]. }
  destruct f as [m|bufs]; cbn [future_wrote write_poll]; [|by apply Hsend].
  intros [-> ->]. destruct (frame_bufs_cases msg) as [(bufs & -> & Hm)|(n & -> & Hm)]; [by apply Hsend|].
  intros [= <- <- <-]. exists []. rewrite app_nil_r. split; [done|by constructor].
Qed.

(** ** Invariant *)
Definition result_of (ph : send_phase) : option (outcome RequestError unit) :=
  match ph with
  | SendDone r | Answered r | RescueDone r => Some r
  | _ => None
  end.

Definition future_of (ph : send_phase) : option WriteFuture :=
  match ph with
  | Polling fut => inner fut
  | Rescued f => Some f
  | _ => None
  end.

(** The wrapper of a write that is polled holds its future. *)
Definition phase_ok (ph : send_phase) : Prop :=
  forall fut, ph = Polling fut -> done fut = false /\ is_Some (inner fut).

(** A message with something that its phase determines. *)
Definition has {X} (g : send_phase -> option X) (sends : gmap nat sender) (ch : nat)
    (m : list byte) (x : X) : Prop :=
  exists ph, sends !! ch = Some (mkSender m ph) /\ g ph = Some x.

Abbreviation has_result := (has result_of).
Abbreviation has_future := (has future_of).

(** The bytes on the wire: those of the finished writes [out], in this order,
    and those of the write that holds the lock. *)
Record wire_split (s : connection) (out : list (nat * list byte)) (cur : list byte) : Prop := {
  split_wire : conn_wire s = concat out.*2 ++ cur;
  split_once : NoDup out.*1;
  split_out : forall ch w, (ch, w) ∈ out ->
    exists m r, has_result (conn_sends s) ch m r /\ result_wrote m r w;
  split_all : forall ch m r, has_result (conn_sends s) ch m r -> ch ∈ out.*1;
  split_free : conn_lock s = None -> cur = [];
  split_held : forall ch m f, has_future (conn_sends s) ch m f -> future_wrote m f cur;
}.

Record conn_inv (s : connection) : Prop := {
  ci_phase : forall ch m ph, conn_sends s !! ch = Some (mkSender m ph) -> phase_ok ph;
  ci_lock : forall ch, conn_lock s = Some ch <-> exists m f, has_future (conn_sends s) ch m f;
  ci_wire : exists out cur, wire_split s out cur;
}.

Lemma lookup_set_send sends ch m ph ch' m' ph' :
  set_send ch m ph sends !! ch' = Some (mkSender m' ph') <->
  ch' = ch /\ m' = m /\ ph' = ph \/ ch' <> ch /\ sends !! ch' = Some (mkSender m' ph').
Proof.
  unfold set_send. destruct (decide (ch = ch')) as [<-|Hne].
  - rewrite lookup_insert_eq. naive_solver.
  - rewrite lookup_insert_ne by done. naive_solver.
Qed.

(** A change of phase that [g] does not see. *)
Definition unseen {X} (g : send_phase -> option X) (sends : gmap nat sender) (ch : nat)
    (m : list byte) (ph : send_phase) : Prop :=
  (sends !! ch = None /\ g ph = None) \/
  (exists ph0, sends !! ch = Some (mkSender m ph0) /\ g ph = g ph0).

Lemma has_unseen {X} (g : send_phase -> option X) sends ch m ph ch' m' x :
  unseen g sends ch m ph -> has g (set_send ch m ph sends) ch' m' x <-> has g sends ch' m' x.
Proof.
  unfold has. intros Hu. setoid_rewrite lookup_set_send. split.
  - intros (ph' & [(-> & -> & ->)|[_ H]] & Hg); [|eauto].
    destruct Hu as [[_ Hn]|(ph0 & H0 & Heq)]; [congruence|]. exists ph0. by rewrite <-Heq.
  - intros (ph' & H & Hg). destruct (decide (ch' = ch)) as [->|]; [|by eauto].
    destruct Hu as [[Hn _]|(ph0 & H0 & Heq)]; [congruence|]. rewrite H in H0. injection H0 as -> ->.
    exists ph. rewrite Heq. eauto.
Qed.

(** Steps that change neither the wire nor the result or the future of a
    message. *)
Lemma inv_relabel s sys ch m ph :
  conn_inv s -> phase_ok ph ->
  unseen result_of (conn_sends s) ch m ph -> unseen future_of (conn_sends s) ch m ph ->
  conn_inv (mkConnection sys (conn_lock s) (conn_wire s) (set_send ch m ph (conn_sends s))).
Proof.
  intros [Iph Ilock (out & cur & [Sw So Sout Sall Sf Sh])] Hph Hr Hf.
  pose proof (fun ch' m' r => has_unseen result_of _ ch m ph ch' m' r Hr) as Er.
  pose proof (fun ch' m' f => has_unseen future_of _ ch m ph ch' m' f Hf) as Ef. split; simpl.
  - intros ch' m' ph' [(-> & -> & ->)|[_ H]]%lookup_set_send; [done|eauto].
  - intros ch'. rewrite Ilock. by setoid_rewrite Ef.
  - exists out, cur. split; simpl; try done; setoid_rewrite Er || setoid_rewrite Ef; eauto.
Qed.

Lemma inv_acquire s ch m :
  conn_inv s -> conn_sends s !! ch = Some (mkSender m AwaitLock) -> conn_lock s = None ->
  conn_inv (mkConnection (conn_sys s) (Some ch) (conn_wire s)
    (set_send ch m (Polling (CancellationSafeFuture_new (WriteStart m))) (conn_sends s))).
Proof.
  intros [Iph Ilock (out & cur & [Sw So Sout Sall Sf Sh])] Hch Hl. rewrite (Sf Hl) in *.
  assert (Hnone : forall ch' m' f, ~ has_future (conn_sends s) ch' m' f).
  { intros ch' m' f Hf. assert (conn_lock s = Some ch') by (apply Ilock; eauto). congruence. }
  pose proof (fun ch' m' r => has_unseen result_of (conn_sends s) ch m
    (Polling (CancellationSafeFuture_new (WriteStart m))) ch' m' r
    (or_intror (ex_intro _ AwaitLock (conj Hch eq_refl)))) as Hres.
  split; simpl.
  - intros ch' m' ph' [(-> & -> & ->)|[_ H]]%lookup_set_send; [|eauto]. intros fut [= <-]. simpl. eauto.
  - intros ch'. split.
    + intros [= <-]. exists m, (WriteStart m). eexists. rewrite lookup_set_send. eauto.
    + intros (m' & f & ph' & [(-> & -> & ->)|[_ H]]%lookup_set_send & Hf); [done|].
      destruct (Hnone ch' m' f). by exists ph'.
  - exists out, []. split; simpl; try done; try (setoid_rewrite Hres; eauto).
    intros ch' m' f (ph' & [(-> & -> & ->)|[_ H]]%lookup_set_send & Hf).
    + by injection Hf as <-.
    + destruct (Hnone ch' m' f). by exists ph'.
Qed.

(** What is known of the others when one message changes. *)
Lemma has_set_send {X} (g : send_phase -> option X) sends ch m ph ch' m' x :
  has g (set_send ch m ph sends) ch' m' x <->
  ch' = ch /\ m' = m /\ g ph = Some x \/ ch' <> ch /\ has g sends ch' m' x.
Proof.
  unfold has. setoid_rewrite lookup_set_send. split.
  - intros (ph' & [(-> & -> & ->)|[Hne H]] & Hg); eauto 6.
  - intros [(-> & -> & Hg)|(Hne & ph' & H & Hg)]; eauto 8.
Qed.

(** A poll of the write that holds the lock, by its caller or by a task. *)
Lemma inv_advance s ch m ph0 f answers r f' wire ph :
  conn_inv s -> conn_sends s !! ch = Some (mkSender m ph0) -> future_of ph0 = Some f ->
  write_poll answers f (conn_wire s) = (r, f', wire) -> phase_ok ph ->
  future_of ph = match r with Pending => Some f' | Ready _ => None end ->
  result_of ph = match r with Pending => None | Ready v => Some v end ->
  conn_inv (mkConnection (conn_sys s) (lock_after r (conn_lock s)) wire
              (set_send ch m ph (conn_sends s))).
Proof.
  intros [Iph Ilock (out & cur & [Sw So Sout Sall Sf Sh])] Hch Hf0 Hp Hph Hfut Hres.
  assert (Hl : conn_lock s = Some ch) by (apply Ilock; exists m, f; by exists ph0).
  assert (Honly : forall ch' m' f0, has_future (conn_sends s) ch' m' f0 -> ch' = ch).
  { intros ch' m' f0 H. assert (conn_lock s = Some ch') by (apply Ilock; eauto). congruence. }
  assert (Hw0 : future_wrote m f cur) by (apply (Sh ch); by exists ph0).
  assert (Hnew : forall m' r0, ~ has_result (conn_sends s) ch m' r0).
  { intros m' r0 (ph1 & H1 & Hr1). rewrite Hch in H1. injection H1 as _ <-. by destruct ph0. }
  assert (Hout : ch ∉ out.*1).
  { intros ((?, w) & -> & Hin)%list_elem_of_fmap. simpl in *.
    destruct (Sout _ _ Hin) as (m' & r0 & Hr & _). by destruct (Hnew m' r0). }
  destruct (write_poll_wire _ _ _ _ _ _ _ _ Hw0 Hp) as (w & -> & Hcase).
  assert (Hold : forall ch' w', (ch', w') ∈ out -> exists m' r0,
    has_result (set_send ch m ph (conn_sends s)) ch' m' r0 /\ result_wrote m' r0 w').
  { intros ch' w' Hin. destruct (Sout _ _ Hin) as (m' & r0 & Hr & Hwr). exists m', r0. split; [|done].
    apply has_set_send. right. split; [|done]. intros ->. by destruct (Hnew m' r0). }
  split; simpl.
  - intros ch' m' ph' [(-> & -> & ->)|[_ H]]%lookup_set_send; [done|eauto].
  - intros ch'. setoid_rewrite has_set_send. rewrite Hfut, Hl. destruct r as [|v]; simpl; naive_solver.
  - destruct r as [|v].
    + exists out, (cur ++ w). split; simpl; [by rewrite Sw, (assoc_L app)|done|done| |congruence|].
      * intros ch' m' r0 [(-> & -> & H)|[_ H]]%has_set_send; [congruence|eauto].
      * intros ch' m' f0 [(-> & -> & H)|[Hne H]]%has_set_send; [congruence|by destruct Hne; eauto].
    + assert (Hfr : forall ch' m' f0, ~ has_future (set_send ch m ph (conn_sends s)) ch' m' f0).
      { intros ch' m' f0 [(-> & -> & H)|[Hne H]]%has_set_send; [congruence|by destruct Hne; eauto]. }
      exists (out ++ [(ch, cur ++ w)]), []. split; simpl; rewrite ?fmap_app; simpl.
      * rewrite Sw, concat_app. simpl. by rewrite !app_nil_r, (assoc_L app).
      * apply NoDup_app. split; [done|]. split; [set_solver|by apply NoDup_singleton].
      * intros ch' w' [Hin|[= -> ->]%list_elem_of_singleton]%elem_of_app; [by apply Hold|].
        exists m, v. split; [|done]. apply has_set_send. by left.
      * intros ch' m' r0 [(-> & -> & H)|[_ H]]%has_set_send; [set_solver|].
        apply Sall in H. set_solver.
      * done.
      * intros ch' m' f0 H. by destruct (Hfr ch' m' f0).
Qed.

(** [safe_poll] of a wrapper that holds its future is the poll of the future. *)
Lemma safe_poll_ok {F S Out} (poll : F -> S -> Poll Out * F * S) fut f s :
  inner fut = Some f ->
  exists r f' s', poll f s = (r, f', s') /\
    safe_poll poll fut s =
      Ok (r, mkCancellationSafeFuture (match r with Pending => done fut | Ready _ => true end) (Some f'), s').
Proof. unfold safe_poll. intros ->. destruct (poll f s) as [[[|o] f'] s']; eauto. Qed.

Lemma conn_step_inv s s' : conn_inv s -> conn_step s s' -> conn_inv s'.
Proof.
  intros I Hstep. destruct Hstep.
  - apply inv_relabel; [done|by intros ?|left; done..].
  - by apply inv_acquire.
  - destruct (ci_phase _ I _ _ _ H fut eq_refl) as [Hd [f Hf]].
    destruct (safe_poll_ok (write_poll answers) fut f (conn_wire s) Hf) as (r1 & f1 & s1 & Hp & Hs).
    rewrite Hs in H0. injection H0 as <- <- <-.
    eapply inv_advance; [done..| | |]; destruct r1; try done. intros ? [= <-]. simpl. eauto.
  - apply inv_relabel; [done|by intros ?|right; eauto..].
  - apply inv_relabel; [done|by intros ?|right; eauto..].
  - apply inv_relabel; [done|by intros ?|right; eauto..].
  - destruct (ci_phase _ I _ _ _ H fut eq_refl) as [Hd [g Hg]].
    unfold safe_drop in H0. rewrite Hd, Hg in H0. injection H0 as ->.
    apply inv_relabel; [done|by intros ?|right; eauto..].
  - eapply inv_advance; [done..| | |]; by destruct r.
  - destruct I as [Iph Ilock (out & cur & [])]. split; simpl; [done..|]. exists out, cur. by split.
Qed.

Lemma conn_reachable_inv s : conn_reachable s -> conn_inv s.
Proof.
  induction 1; [|by eapply conn_step_inv]. split; simpl.
  - done.
  - split; [done|]. by intros (m & f & ph & ? & _).
  - exists [], []. split; simpl; [done|by apply NoDup_nil|by intros ? ? ?%elem_of_nil| |done|];
      by intros ch m x (ph & ? & _).
Qed.

(** ** Theorems *)

(** No write of the connection has failed so far. *)
Definition no_io_failure (s : connection) : Prop :=
  forall ch m e, has_result (conn_sends s) ch m (Err e) -> ~ io_failure e.

(** The message of a write that has succeeded. *)
Definition sent (s : connection) (ch : nat) (m : list byte) : Prop :=
  has_result (conn_sends s) ch m (Ok tt).

(** The finished writes of a connection without failures are whole frames. *)
Lemma out_frames s out :
  no_io_failure s ->
  (forall ch w, (ch, w) ∈ out -> exists m r, has_result (conn_sends s) ch m r /\ result_wrote m r w) ->
  exists order, order.*1 `sublist_of` out.*1 /\ (forall ch m, (ch, m) ∈ order -> sent s ch m) /\
    (forall ch m, sent s ch m -> ch ∈ out.*1 -> ch ∈ order.*1) /\
    write_many write_message order.*2 = Ok (concat out.*2).
Proof.
  intros Hno. induction out as [|[ch w] out IH]; intros Hout.
  { exists []. split; [done|]. split; [set_solver|]. split; [set_solver|done]. }
  destruct IH as (order & Hsub & Hsent & Hall & Hwm); [set_solver|].
  destruct (Hout ch w) as (m & r & Hr & Hw); [set_solver|].
  destruct Hw as [frame Hf|n Hn|frame w e Hf Hp He].
  - exists ((ch, m) :: order). split; [by apply sublist_skip|]. split; [set_solver|]. split; [set_solver|].
    cbn [fmap list_fmap snd write_many concat]. unfold wseq. rewrite Hf. simpl. by rewrite Hwm.
  - exists order. split; [by apply sublist_cons|]. split; [done|]. split; [|done].
    intros ch' m' Hs. rewrite fmap_cons, elem_of_cons. simpl. intros [->|Hin]; [|eauto].
    destruct Hs as (ph & Hph & Hres), Hr as (ph' & Hph' & Hres'). congruence.
  - by destruct (Hno ch m e Hr).
Qed.

(** C7: what the broker can read. As long as no write of a connection has
    failed, in every interleaving of senders and cancellations the bytes on the
    wire are the frames of exactly the messages whose write has succeeded,
    whole and in one order, and then what the holder of the lock has written of
    its frame: a broker that reads the connection gets these messages and is
    left there. *)
Theorem broker_reads_sent_messages s limit fuel tail :
  conn_reachable s -> no_io_failure s -> 0 < limit ->
  (forall ch m, sent s ch m -> zlen m < Z.of_nat fuel) ->
  exists order cur,
    NoDup order.*1 /\ (forall ch m, (ch, m) ∈ order <-> sent s ch m) /\
    read_messages (length order) fuel limit (conn_wire s +> tail)
      = Some (map (frame_result limit) order.*2, cur +> tail) /\
    (conn_lock s = None -> cur = []) /\
    (forall ch m f, has_future (conn_sends s) ch m f -> future_wrote m f cur).
Proof.
  intros Hreach Hno Hlim Hfuel.
  destruct (conn_reachable_inv s Hreach) as [_ _ (out & cur & [Sw So Sout Sall Sf Sh])].
  destruct (out_frames s out Hno Sout) as (order & Hsub & Hsent & Hall & Hwm).
  exists order, cur. split; [by eapply sublist_NoDup|]. split; [|split; [|done]].
  - intros ch m. split; [by apply Hsent|]. intros Hs.
    pose proof (Hall ch m Hs (Sall _ _ _ Hs)) as ((?, m') & -> & Hin)%list_elem_of_fmap. simpl in *.
    destruct (Hsent _ _ Hin) as (ph & Hph & _), Hs as (ph' & Hph' & _). congruence.
  - rewrite Sw, src_app_app. rewrite <-(length_fmap snd).
    apply read_messages_resync; [done| |done]. apply Forall_fmap, Forall_forall.
    intros [ch m] Hin. simpl. eauto.
Qed.

(** A stream that accepts everything lets a write finish. *)
Lemma send_bufs_skip answers bufs wire :
  send_bufs answers ([] :: bufs) wire = send_bufs answers bufs wire.
Proof. by destruct answers. Qed.

Lemma send_bufs_finish bufs : forall wire,
  exists answers bufs' wire', send_bufs answers bufs wire = (Ready (Ok tt), bufs', wire').
Proof.
  induction bufs as [|[|b buf] bufs IH]; intros wire.
  - exists [Accepts 1]. by do 2 eexists.
  - setoid_rewrite send_bufs_skip. apply IH.
  - destruct (IH (wire ++ b :: buf)) as (answers & b' & w' & Hs).
    exists (Accepts (S (length buf)) :: answers), b', w'.
    cbn [send_bufs skip_empty]. simpl. by rewrite drop_all, firstn_all, send_bufs_skip.
Qed.

Lemma write_poll_finish m f cur wire :
  future_wrote m f cur ->
  exists answers r f' wire', write_poll answers f wire = (Ready r, f', wire') /\
    (r = Ok tt \/ exists n, write_message m = Err (TooLarge n)).
Proof.
  assert (Hb : forall bufs, exists answers r f' wire',
    (let '(r, bufs, wire) := send_bufs answers bufs wire in (r, Writing bufs, wire)) = (Ready r, f', wire') /\
    (r = Ok tt \/ exists n, write_message m = Err (TooLarge n))).
  { intros bufs. destruct (send_bufs_finish bufs wire) as (a & b' & w' & Hs).
    exists a. rewrite Hs. eauto 7. }
  destruct f as [m'|bufs]; cbn [future_wrote write_poll]; [|intros _; apply Hb].
  intros [-> _]. destruct (frame_bufs_cases m) as [(bufs & -> & _)|(n & -> & Hn)]; [apply Hb|].
  exists []. eauto 8.
Qed.

(** C25: the lock of the write half is never lost. Whoever holds it, a caller
    or the task that finishes the write of a cancelled caller, can be polled
    without a panic, and when the stream takes the bytes, one poll ends the
    write and frees the lock, with the message sent unless it is too large for
    a frame. Dropping the caller instead hands its write over as it is. *)
Theorem write_lock_never_lost s ch :
  conn_reachable s -> conn_lock s = Some ch ->
  (exists s' m ph, conn_step s s' /\ conn_lock s' = None /\ conn_sys s' = conn_sys s /\
     conn_sends s !! ch = Some (mkSender m ph) /\
     (sent s' ch m \/ exists n, write_message m = Err (TooLarge n))) /\
  (forall m fut, conn_sends s !! ch = Some (mkSender m (Polling fut)) ->
   exists f, safe_drop fut = Ok (Some f) /\ inner fut = Some f).
Proof.
  intros Hreach Hl. destruct (conn_reachable_inv s Hreach) as [Iph Ilock (out & cur & Hs)]. split.
  - destruct (proj1 (Ilock ch) Hl) as (m & f & ph & Hph & Hf).
    destruct (write_poll_finish m f cur (conn_wire s)) as (answers & r & f' & w' & Hp & Hr);
      [by eapply (split_held _ _ _ Hs); exists ph|].
    assert (Hsent : forall s' ph', conn_sends s' = set_send ch m ph' (conn_sends s) ->
      result_of ph' = Some r -> sent s' ch m \/ exists n, write_message m = Err (TooLarge n)).
    { intros s' ph' Hs' Hr'. destruct Hr as [->|?]; [left|by right]. exists ph'. rewrite Hs'.
      split; [|done]. apply lookup_set_send. by left. }
    destruct ph as [|fut| | | |g|]; try discriminate Hf.
    + destruct (safe_poll_ok (write_poll answers) fut f (conn_wire s) Hf) as (r1 & f1 & s1 & Hp1 & Hs1).
      rewrite Hp in Hp1. injection Hp1 as <- <- <-.
      do 3 eexists. split; [by eapply conn_poll|]. repeat (split; [done|]). by eapply Hsent.
    + injection Hf as ->. do 3 eexists. split; [by eapply conn_rescue|].
      repeat (split; [done|]). by eapply Hsent.
  - intros m fut Hsend. destruct (Iph _ _ _ Hsend fut eq_refl) as [Hd [f Hf]]. exists f.
    unfold safe_drop. by rewrite Hd, Hf.
Qed.

(** Each action is one of [MessengerSystem] or leaves its state alone. *)
Lemma conn_step_simulates s s' :
  conn_step s s' -> step (conn_sys s) (conn_sys s') \/ conn_sys s' = conn_sys s.
Proof. destruct 1; simpl; auto; left; by econstructor. Qed.

(** The connection with its writes is a refinement of the messenger in
    which sending is one action: whatever the lock, partial writes and tasks
    do, the states of calls and of the reader task are states that can be
    reached there, so what holds of all of them holds here. *)
Theorem connection_refines_messenger s : conn_reachable s -> reachable (conn_sys s).
Proof.
  induction 1 as [|s s' _ IH Hs]; [constructor|].
  destruct (conn_step_simulates _ _ Hs) as [H| ->]; [by econstructor|done].
Qed.

(** ** A run in which a rescued write fails

    Two calls register and want to send. The first one writes five bytes of
    its frame and is cancelled, the task that took over gets an error from the
    stream, and the second call sends its message. *)
Module FailedRescue.
Definition msg_a : list byte := map byte_of_Z [1; 2; 3].
Definition msg_b : list byte := map byte_of_Z [9].

Definition registered : system :=
  mkSystem (RequestMap (<[1 := mkActiveRequest 1 false]> (<[0 := mkActiveRequest 0 false]> ∅))) 2 true
    (<[1%nat := mkCall 1 Sending None]> (<[0%nat := mkCall 0 Sending None]>
      (<[1%nat := mkCall 1 Preparing None]> (<[0%nat := mkCall 0 Preparing None]> ∅)))).

Definition both_wait : connection :=
  mkConnection registered None [] (set_send 1 msg_b AwaitLock (set_send 0 msg_a AwaitLock ∅)).

Definition partly : list byte := map byte_of_Z [0; 0; 0; 3; 1].

Definition last_state : connection :=
  let s := set_call 0 (mkCall 0 Sending None) Dropped
             (cleanup 0 (sys_state registered)) registered in
  mkConnection (set_call 1 (mkCall 1 Sending None) Waiting (sys_state s) s) None
    (partly ++ map byte_of_Z [0; 0; 0; 1; 9])
    (set_send 1 msg_b (Answered (Ok tt)) (set_send 1 msg_b (SendDone (Ok tt))
      (set_send 1 msg_b (Polling (CancellationSafeFuture_new (WriteStart msg_b)))
        (set_send 0 msg_a (RescueDone (Err (WriteMessageError (FrameWriteIO OtherIo))))
          (set_send 0 msg_a (Rescued (Writing [map byte_of_Z [2; 3]]))
            (set_send 0 msg_a (Polling (mkCancellationSafeFuture false (Some (Writing [map byte_of_Z [2; 3]]))))
              (set_send 0 msg_a (Polling (CancellationSafeFuture_new (WriteStart msg_a)))
                (conn_sends both_wait)))))))).

Lemma allocate_reachable s ch :
  conn_reachable s -> sys_calls (conn_sys s) !! ch = None ->
  conn_reachable (mkConnection
    (mkSystem (sys_state (conn_sys s)) (sys_count (conn_sys s) + 1) (sys_running (conn_sys s))
       (<[ch := mkCall (correlation_id_of (sys_count (conn_sys s))) Preparing None]>
          (sys_calls (conn_sys s)))) (conn_lock s) (conn_wire s) (conn_sends s)).
Proof.
  intros Hs Hch. eapply conn_reach_step; [done|]. apply conn_other; [by constructor|].
  intros ch'. unfold is_sending. simpl. destruct (decide (ch' = ch)) as [->|].
  - rewrite lookup_insert_eq. naive_solver.
  - by rewrite lookup_insert_ne.
Qed.

Lemma both_wait_reachable : conn_reachable both_wait.
Proof.
  pose proof (allocate_reachable _ 1 (allocate_reachable _ 0 conn_reach_initial eq_refl) eq_refl) as H.
  eapply conn_reach_step; [eapply conn_reach_step; [exact H|]|].
  - by apply (conn_register 0 (mkCall 0 Preparing None) false msg_a).
  - by apply (conn_register 1 (mkCall 1 Preparing None) false msg_b).
Qed.

Lemma last_state_reachable : conn_reachable last_state.
Proof.
  eapply conn_reach_step; [eapply conn_reach_step; [
    eapply conn_reach_step; [eapply conn_reach_step; [eapply conn_reach_step; [eapply conn_reach_step; [eapply conn_reach_step; [apply both_wait_reachable|]|]|]|]|]|]|].
  - by apply (conn_acquire 0 msg_a).
  - by eapply (conn_poll 0 msg_a _ [Accepts 4; Accepts 1]).
  - by eapply (conn_cancel_write 0 (mkCall 0 Sending None) msg_a).
  - by eapply (conn_rescue 0 msg_a _ [Fails OtherIo]).
  - by apply (conn_acquire 1 msg_b).
  - by eapply (conn_poll 1 msg_b _ [Accepts 4; Accepts 1; Accepts 1]).
  - by eapply (conn_sent 1 (mkCall 1 Sending None) msg_b).
Qed.

(** The first call has written its frame up to the last two bytes. *)
Definition half_written : connection :=
  mkConnection registered (Some 0%nat) partly
    (set_send 0 msg_a (Polling (mkCancellationSafeFuture false (Some (Writing [map byte_of_Z [2; 3]]))))
      (set_send 0 msg_a (Polling (CancellationSafeFuture_new (WriteStart msg_a))) (conn_sends both_wait))).

Lemma half_written_reachable : conn_reachable half_written.
Proof.
  eapply conn_reach_step; [eapply conn_reach_step; [apply both_wait_reachable|]|].
  - by apply (conn_acquire 0 msg_a).
  - by eapply (conn_poll 0 msg_a _ [Accepts 4; Accepts 1] Pending).
Qed.

(** It has sent it and the second call is about to write. *)
Definition first_sent : connection :=
  mkConnection registered (Some 1%nat) (partly ++ map byte_of_Z [2; 3])
    (set_send 1 msg_b (Polling (CancellationSafeFuture_new (WriteStart msg_b)))
      (set_send 0 msg_a (SendDone (Ok tt)) (conn_sends half_written))).

Lemma first_sent_reachable : conn_reachable first_sent.
Proof.
  eapply conn_reach_step; [eapply conn_reach_step; [apply half_written_reachable|]|].
  - by eapply (conn_poll 0 msg_a _ [Accepts 2; Accepts 1] (Ready (Ok tt))).
  - by apply (conn_acquire 1 msg_b).
Qed.

Lemma first_sent_results ch m r :
  has_result (conn_sends first_sent) ch m r -> ch = 0%nat /\ m = msg_a /\ r = Ok tt.
Proof.
  intros [(_ & _ & [=])|[Hne [(-> & -> & [= <-])|[Hne' H]]%has_set_send]]%has_set_send; [done|].
  destruct H as (ph & H & Hr). do 4 (apply lookup_set_send in H as [(-> & _)|[_ H]]; [done|]).
  by rewrite lookup_empty in H.
Qed.
End FailedRescue.

(** C40: a failed write of a cancelled call is not noticed. There is a run in
    which the task that finishes a cancelled write fails, the state of the
    messenger is not poisoned, a later call succeeds in sending its message,
    and a broker that reads the connection gets a message that nobody sent,
    made of the rest of the broken frame and the next one. *)
Theorem failed_rescue_corrupts_stream :
  exists s map_ forged rest,
    conn_reachable s /\ sys_state (conn_sys s) = RequestMap map_ /\
    sent s 1 FailedRescue.msg_b /\
    (exists e, has_result (conn_sends s) 0 FailedRescue.msg_a (Err e)) /\
    read_message 0 100 (cursor (conn_wire s)) = Some (Ok forged, rest) /\
    forged <> FailedRescue.msg_a /\ forged <> FailedRescue.msg_b.
Proof.
  exists FailedRescue.last_state. do 3 eexists. split; [apply FailedRescue.last_state_reachable|].
  split; [done|]. split; [by eexists|]. split; [do 2 eexists; done|]. split; [by vm_compute|].
  split; by vm_compute.
Qed.

Lemma broker_reads_sent_messages_witness :
  exists order cur, read_messages (length order) 8 16 (conn_wire FailedRescue.first_sent +> cursor [])
      = Some (map (frame_result 16) order.*2, cur +> cursor []) /\
    (0%nat, FailedRescue.msg_a) ∈ order /\ NoDup order.*1.
Proof.
  destruct (broker_reads_sent_messages FailedRescue.first_sent 16 8 (cursor []))
    as (order & cur & Hnd & Hin & Hread & _).
  - apply FailedRescue.first_sent_reachable.
  - intros ch m e H. by apply FailedRescue.first_sent_results in H as (_ & _ & [=]).
  - lia.
  - intros ch m H. apply FailedRescue.first_sent_results in H as (_ & -> & _). by vm_compute.
  - exists order, cur. split; [done|]. split; [|done]. apply Hin. by eexists.
Defined.

Lemma write_lock_never_lost_witness :
  exists s' m, conn_step FailedRescue.half_written s' /\ conn_lock s' = None /\ sent s' 0 m.
Proof.
  destruct (write_lock_never_lost FailedRescue.half_written 0)
    as [(s' & m & ph & Hs & Hl & _ & Hm & [Hsent|[n Hn]]) _].
  - apply FailedRescue.half_written_reachable.
  - reflexivity.
  - by exists s', m.
  - injection Hm as <- _. discriminate Hn.
Defined.

Lemma connection_refines_messenger_witness : reachable FailedRescue.registered.
Proof.
  apply (connection_refines_messenger FailedRescue.half_written).
  apply FailedRescue.half_written_reachable.
Defined.
