(* ===== verification/Io.v ===== *)
(** * Asynchronous calls that run against a world

    An [async fn] of the clients reads and writes the state of the client,
    waits for the network and sleeps.  Here it is a function of a world: [io W E
    A] ends with an outcome and the world after it, or does not end ([None]: an
    answer that never comes, or a loop that runs out of fuel).  A mutex of the
    runtime is a part of the world; calls that hold one are atomic to each other.

    [io_le] orders computations by how often they end; loops are monotone in
    their fuel with respect to it.  [post] is the partial correctness of a run,
    with a rule for each combinator. *)

From Stdlib Require Import ZArith Lia Morphisms.
From stdpp Require Import base list numbers.
From S2P Require Import Prelude.

Local Open Scope Z_scope.
Local Open Scope rust_scope.

Definition io (W E A : Type) : Type := W -> option (outcome E A * W).

Section combinators.
Context {W : Type}.

Definition io_lift {E A} (r : outcome E A) : io W E A := fun w => Some (r, w).

(** [.await?]. *)
Definition io_bind {E A B} (m : io W E A) (k : A -> io W E B) : io W E B := fun w =>
  match m w with
  | Some (Ok a, w) => k a w
  | Some (Err e, w) => Some (Err e, w)
  | Some (Panic p, w) => Some (Panic p, w)
  | None => None
  end.

(** [match m.await]: the result as a value; a panic is none. *)
Definition io_try {E F A} (m : io W E A) : io W F (E + A) := fun w =>
  match m w with
  | Some (Ok a, w) => Some (Ok (inr a), w)
  | Some (Err e, w) => Some (Ok (inl e), w)
  | Some (Panic p, w) => Some (Panic p, w)
  | None => None
  end.

Definition io_map_err {E F A} (f : E -> F) (m : io W E A) : io W F A := fun w =>
  match m w with
  | Some (r, w) => Some (omap_err f r, w)
  | None => None
  end.

Definition io_get {E A} (f : W -> A) : io W E A := fun w => Some (Ok (f w), w).
Definition io_put {E} (f : W -> W) : io W E unit := fun w => Some (Ok tt, f w).
End combinators.

Notation "'do!' x '<-' m 'in' k" := (io_bind m (fun x => k))
  (at level 10, x pattern, m at level 100, k at level 200,
   format "'[v' 'do!'  x  '<-'  m  'in' '/' k ']'") : rust_scope.
Abbreviation io_ret a := (io_lift (Ok a)) (only parsing).
Abbreviation io_err e := (io_lift (Err e)) (only parsing).
Abbreviation io_panic p := (io_lift (Panic p)) (only parsing).

(** A value that holds a result itself: [Result<Result<T, F>, E>] and [?] on it. *)
Definition io_flatten {W E A} (m : io W E (E + A)) : io W E A :=
  do! r <- m in
  match r with
  | inl e => io_err e
  | inr a => io_ret a
  end.

(** ** Definedness *)
Definition io_le {W E A} (m m' : io W E A) : Prop :=
  forall w r, m w = Some r -> m' w = Some r.

#[export] Instance io_le_preorder {W E A} : PreOrder (@io_le W E A).
Proof. split; [by intros m w r|]. intros m1 m2 m3 H12 H23 w r Hr. by apply H23, H12. Qed.

#[export] Instance io_bind_le {W E A B} :
  Proper (io_le ==> pointwise_relation A io_le ==> io_le) (@io_bind W E A B).
Proof.
  intros m m' Hm k k' Hk w r. unfold io_bind. specialize (Hm w).
  destruct (m w) as [[o w']|] eqn:Hmw; [|done]. rewrite (Hm _ eq_refl).
  destruct o; [apply Hk|done|done].
Qed.

#[export] Instance io_try_le {W E F A} : Proper (io_le ==> io_le) (@io_try W E F A).
Proof.
  intros m m' Hm w r. unfold io_try. specialize (Hm w).
  destruct (m w) as [[o w']|] eqn:Hmw; [|done]. by rewrite (Hm _ eq_refl).
Qed.

#[export] Instance io_map_err_le {W E F A} (f : E -> F) :
  Proper (io_le ==> io_le) (@io_map_err W E F A f).
Proof.
  intros m m' Hm w r. unfold io_map_err. specialize (Hm w).
  destruct (m w) as [[o w']|] eqn:Hmw; [|done]. by rewrite (Hm _ eq_refl).
Qed.

#[export] Instance io_flatten_le {W E A} : Proper (io_le ==> io_le) (@io_flatten W E A).
Proof. intros m m' Hm. unfold io_flatten. by f_equiv. Qed.

(** ** Partial correctness *)
Definition post {W E A} (m : io W E A) (w : W) (Q : outcome E A -> W -> Prop) : Prop :=
  forall r w', m w = Some (r, w') -> Q r w'.

Section rules.
Context {W : Type}.
Implicit Types w : W.

Lemma post_weaken {E A} (m : io W E A) w (Q Q' : outcome E A -> W -> Prop) :
  post m w Q -> (forall r w', Q r w' -> Q' r w') -> post m w Q'.
Proof. intros Hm HQ r w' Hr. by apply HQ, Hm. Qed.

Lemma post_lift {E A} (r : outcome E A) w (Q : outcome E A -> W -> Prop) :
  Q r w -> post (io_lift r) w Q.
Proof. intros HQ r' w' [= <- <-]. done. Qed.

Lemma post_get {E A} (f : W -> A) w (Q : outcome E A -> W -> Prop) :
  Q (Ok (f w)) w -> post (io_get f) w Q.
Proof. intros HQ r' w' [= <- <-]. done. Qed.

Lemma post_put {E} (f : W -> W) w (Q : outcome E unit -> W -> Prop) :
  Q (Ok tt) (f w) -> post (io_put f) w Q.
Proof. intros HQ r' w' [= <- <-]. done. Qed.

Lemma post_bind {E A B} (m : io W E A) (k : A -> io W E B) w (Q : outcome E B -> W -> Prop) :
  post m w (fun r w' =>
    match r with
    | Ok a => post (k a) w' Q
    | Err e => Q (Err e) w'
    | Panic p => Q (Panic p) w'
    end) ->
  post (io_bind m k) w Q.
Proof.
  intros Hm r w'. unfold io_bind. destruct (m w) as [[[a|e|p] w1]|] eqn:Hmw; [..|done].
  - intros Hk. by apply (Hm _ _ Hmw).
  - intros [= <- <-]. by apply (Hm _ _ Hmw).
  - intros [= <- <-]. by apply (Hm _ _ Hmw).
Qed.

Lemma post_try {E F A} (m : io W E A) w (Q : outcome F (E + A) -> W -> Prop) :
  post m w (fun r w' =>
    match r with
    | Ok a => Q (Ok (inr a)) w'
    | Err e => Q (Ok (inl e)) w'
    | Panic p => Q (Panic p) w'
    end) ->
  post (io_try m) w Q.
Proof.
  intros Hm r w'. unfold io_try. destruct (m w) as [[[a|e|p] w1]|] eqn:Hmw; [..|done];
    intros [= <- <-]; by apply (Hm _ _ Hmw).
Qed.

Lemma post_map_err {E F A} (f : E -> F) (m : io W E A) w (Q : outcome F A -> W -> Prop) :
  post m w (fun r w' => Q (omap_err f r) w') -> post (io_map_err f m) w Q.
Proof.
  intros Hm r w'. unfold io_map_err. destruct (m w) as [[o w1]|] eqn:Hmw; [|done].
  intros [= <- <-]. by apply (Hm _ _ Hmw).
Qed.

Lemma post_flatten {E A} (m : io W E (E + A)) w (Q : outcome E A -> W -> Prop) :
  post m w (fun r w' =>
    match r with
    | Ok (inl e) => Q (Err e) w'
    | Ok (inr a) => Q (Ok a) w'
    | Err e => Q (Err e) w'
    | Panic p => Q (Panic p) w'
    end) ->
  post (io_flatten m) w Q.
Proof.
  intros Hm. apply post_bind. eapply post_weaken; [exact Hm|].
  intros [[e|a]|e|p] w' HQ; [by apply post_lift..|done|done].
Qed.

(** What holds of every run of [m] from a state with [P]: [P] is kept. *)
Definition keeps {E A} (P : W -> Prop) (m : io W E A) : Prop :=
  forall w, P w -> post m w (fun _ w' => P w').

Lemma keeps_lift {E A} P (r : outcome E A) : keeps P (io_lift r).
Proof. intros w Hw. by apply post_lift. Qed.

Lemma keeps_get {E A} P (f : W -> A) : keeps (E:=E) P (io_get f).
Proof. intros w Hw. by apply post_get. Qed.

Lemma keeps_put {E} P (f : W -> W) : (forall w, P w -> P (f w)) -> keeps (E:=E) P (io_put f).
Proof. intros Hf w Hw. by apply post_put, Hf. Qed.

Lemma keeps_bind {E A B} P (m : io W E A) (k : A -> io W E B) :
  keeps P m -> (forall a, keeps P (k a)) -> keeps P (io_bind m k).
Proof.
  intros Hm Hk w Hw. apply post_bind. eapply post_weaken; [by apply Hm|].
  intros [a|e|p] w' Hw'; [by apply Hk|done|done].
Qed.

Lemma keeps_try {E F A} P (m : io W E A) : keeps P m -> keeps (E:=F) P (io_try m).
Proof.
  intros Hm w Hw. apply post_try. eapply post_weaken; [by apply Hm|]. by intros [] w'.
Qed.

Lemma keeps_map_err {E F A} P (f : E -> F) (m : io W E A) : keeps P m -> keeps P (io_map_err f m).
Proof.
  intros Hm w Hw. apply post_map_err. eapply post_weaken; [by apply Hm|]. done.
Qed.

Lemma keeps_flatten {E A} P (m : io W E (E + A)) : keeps P m -> keeps P (io_flatten m).
Proof.
  intros Hm. apply keeps_bind; [done|]. intros [e|a]; apply keeps_lift.
Qed.
End rules.

Create HintDb io discriminated.
#[export] Hint Resolve keeps_lift keeps_get keeps_put keeps_bind keeps_try keeps_map_err keeps_flatten : io.
#[export] Hint Extern 5 (keeps _ (match ?x with _ => _ end)) => destruct x : io.
#[export] Hint Extern 2 (io_le ?m ?m) => reflexivity : io.

(** Evaluates a run: the equations for a computation whose first part is known. *)
Lemma io_bind_ok {W E A B} (m : io W E A) (k : A -> io W E B) w a w' :
  m w = Some (Ok a, w') -> io_bind m k w = k a w'.
Proof. unfold io_bind. by intros ->. Qed.

Lemma io_bind_err {W E A B} (m : io W E A) (k : A -> io W E B) w e w' :
  m w = Some (Err e, w') -> io_bind m k w = Some (Err e, w').
Proof. unfold io_bind. by intros ->. Qed.
