(* ===== verification/Backoff.v ===== *)
(** * Exponential backoff with jitter (src/backoff.rs)

    The intervals are [f64] numbers of seconds: IEEE binary64 as specified by
    the standard library's [SpecFloat].  A [Duration] is its number of
    nanoseconds.  The random number generators ([rand]) are parameters: the
    state of the thread's generator is a part of the world, and so is the time
    spent sleeping. *)

From Stdlib Require Import ZArith Lia SpecFloat.
From stdpp Require Import base list numbers.
From S2P Require Import Prelude Io Support.

Local Open Scope Z_scope.
Local Open Scope rust_scope.

(** ** [f64] *)
Abbreviation f64 := spec_float.

Definition f64_mul : f64 -> f64 -> f64 := SFmul 53 1024.
Definition f64_add : f64 -> f64 -> f64 := SFadd 53 1024.
Definition f64_div : f64 -> f64 -> f64 := SFdiv 53 1024.
Definition f64_lt : f64 -> f64 -> bool := SFltb.
Definition f64_le : f64 -> f64 -> bool := SFleb.

(** The values of the type: canonical mantissas and exponents in range. *)
Definition f64_valid (x : f64) : bool := valid_binary 53 1024 x.

Definition is_nan (x : f64) : bool := match x with S754_nan => true | _ => false end.

(** [f64::min]: a NaN gives way to the other argument. *)
Definition f64_min (x y : f64) : f64 :=
  if is_nan y then x else if f64_lt x y then x else y.

(** [n as f64] of an unsigned integer, rounded to nearest even. *)
Definition f64_of_Z (n : Z) : f64 := binary_normalize 53 1024 n 0 false.

Definition f64_0 : f64 := S754_zero false.

(** ** [Duration] *)
Definition nanos_per_sec : Z := 10 ^ 9.
Definition duration_max : Z := 2 ^ 64 * nanos_per_sec - 1.

Definition from_millis (millis : Z) : Z := millis * 10 ^ 6.
Definition from_secs (secs : Z) : Z := secs * nanos_per_sec.

Definition as_secs_f64 (d : Z) : f64 :=
  f64_add (f64_of_Z (d / nanos_per_sec))
          (f64_div (f64_of_Z (d mod nanos_per_sec)) (f64_of_Z nanos_per_sec)).

(** Division rounded to the nearest, ties to even. *)
Definition div_half_even (n d : Z) : Z :=
  let q := n / d in
  match 2 * (n mod d) ?= d with
  | Lt => q
  | Eq => if Z.even q then q else q + 1
  | Gt => q + 1
  end.

(** The number of nanoseconds in [m * 2 ^ e] seconds. *)
Definition nanos_of (m : positive) (e : Z) : Z :=
  if 0 <=? e then Z.pos m * 2 ^ e * nanos_per_sec
  else div_half_even (Z.pos m * nanos_per_sec) (2 ^ (- e)).

(** [Duration::from_secs_f64]: panics on negative, infinite, NaN and too large
    arguments. *)
Definition from_secs_f64 {E} (x : f64) : outcome E Z :=
  match x with
  | S754_zero _ => Ok 0
  | S754_finite false m e =>
      let ns := nanos_of m e in
      if ns <=? duration_max then Ok ns else Panic ExplicitPanic
  | _ => Panic ExplicitPanic
  end.

(** ** Configuration and state *)
Record BackoffConfig : Type := mkBackoffConfig {
  config_init_backoff : Z;
  config_max_backoff : Z;
  config_base : f64;
  config_deadline : option Z;
}.

(** [BackoffConfig::default]. *)
Definition BackoffConfig_default : BackoffConfig :=
  mkBackoffConfig (from_millis 100) (from_secs 500) (f64_of_Z 3) None.

(** [BackoffError]; the source is the error of the last attempt. *)
Inductive BackoffError (S : Type) : Type :=
| DeadlineExceded (deadline : Z) (source : S).
Arguments DeadlineExceded {S} deadline source.

(** [std::ops::ControlFlow]. *)
Inductive ControlFlow (B C : Type) : Type :=
| Break (b : B)
| Continue (c : C).
Arguments Break {B C} b.
Arguments Continue {B C} c.

(** [Rng::gen_range] on a half-open range; [None]: a panic. *)
Class RngCore (R : Type) : Type := gen_range : f64 -> f64 -> R -> option (f64 * R).

(** A range that is empty, or too wide for its width to be finite, makes
    [gen_range] panic; otherwise the result is in the range. *)
Class RngOk (R : Type) `{RngCore R} : Prop := {
  gen_range_empty : forall lo hi r, f64_lt lo hi = false -> gen_range lo hi r = None;
  gen_range_in : forall lo hi r x r', gen_range lo hi r = Some (x, r') ->
    f64_le lo x = true /\ f64_lt x hi = true /\ f64_valid x = true;
}.

(** What a backoff needs of the world: the thread's generator, and sleeping,
    with a log of the sleeps. *)
Class Timer (W : Type) : Type := {
  thread_rng :: RngCore W;
  sleep_for : Z -> W -> W;
  slept : W -> list Z;
}.

Class TimerOk (W : Type) `{Timer W} : Prop := {
  thread_rng_ok :: RngOk W;
  slept_sleep : forall d w, slept (sleep_for d w) = slept w ++ [d];
  slept_gen_range : forall lo hi w x w', gen_range lo hi w = Some (x, w') -> slept w' = slept w;
}.

Section backoff.
Context {W R : Type} `{!Timer W} `{!RngCore R}.

Record Backoff : Type := mkBackoff {
  init_backoff : f64;
  next_backoff_secs : f64;
  max_backoff_secs : f64;
  base : f64;
  total : f64;
  deadline : option f64;
  rng : option R;
}.

(** [Backoff::new_with_rng]. *)
Definition Backoff_new_with_rng (config : BackoffConfig) (rng : option R) : Backoff :=
  let init_backoff := as_secs_f64 (config_init_backoff config) in
  mkBackoff init_backoff init_backoff (as_secs_f64 (config_max_backoff config))
    (config_base config) f64_0 (option_map as_secs_f64 (config_deadline config)) rng.

(** [Backoff::new]. *)
Definition Backoff_new (config : BackoffConfig) : Backoff := Backoff_new_with_rng config None.

(** [gen_range] of the generator of the backoff, or of the thread's. *)
Definition draw {E} (self : Backoff) (lo hi : f64) : io W E (f64 * option R) := fun w =>
  match rng self with
  | Some rng =>
      match gen_range lo hi rng with
      | Some (x, rng) => Some (Ok (x, Some rng), w)
      | None => Some (Panic AssertFailed, w)
      end
  | None =>
      match gen_range lo hi w with
      | Some (x, w) => Some (Ok (x, None), w)
      | None => Some (Panic AssertFailed, w)
      end
  end.

(** [Backoff::next] with the state after it. *)
Definition Backoff_next {E} (self : Backoff) : io W E (option Z * Backoff) :=
  do! (rand_backoff, rng) <- draw self (init_backoff self)
                                 (f64_mul (next_backoff_secs self) (base self)) in
  let next_backoff := f64_min (max_backoff_secs self) rand_backoff in
  let total := f64_add (total self) next_backoff in
  do! backoff <- io_lift (from_secs_f64 (next_backoff_secs self)) in
  let self := mkBackoff (init_backoff self) next_backoff (max_backoff_secs self) (base self)
                total (deadline self) rng in
  match deadline self with
  | Some deadline =>
      if f64_le deadline total then io_ret (None, self) else io_ret (Some backoff, self)
  | None => io_ret (Some backoff, self)
  end.

Definition sleep {E} (d : Z) : io W E unit := io_put (sleep_for d).

(** [Backoff::retry_with_backoff], with fuel for the loop. *)
Fixpoint retry_with_backoff {B E} (fuel : nat)
    (do_stuff : io W (BackoffError E) (ControlFlow B (ErrorOrThrottle E))) (self : Backoff) :
    io W (BackoffError E) B :=
  match fuel with
  | O => fun _ => None
  | S fuel =>
      do! r <- do_stuff in
      match r with
      | Break r => io_ret r
      | Continue (EtError e) =>
          do! (interval, self) <- Backoff_next self in
          match interval with
          | Some backoff =>
              do! _ <- sleep backoff in
              retry_with_backoff fuel do_stuff self
          | None =>
              match deadline self with
              | Some deadline =>
                  do! deadline <- io_lift (from_secs_f64 deadline) in
                  io_err (DeadlineExceded deadline e)
              | None => io_panic ExpectFailed
              end
          end
      | Continue (Throttle millis) =>
          do! _ <- sleep (from_millis millis) in
          retry_with_backoff fuel do_stuff self
      end
  end.
End backoff.
Arguments Backoff : clear implicits.

(** ** The order of [f64] *)

(** Sign, exponent and mantissa: comparisons are lexicographic in them. *)
Definition f64_key (x : f64) : Z * Z * Z :=
  match x with
  | S754_nan => (0, 0, 0)
  | S754_zero _ => (0, 0, 0)
  | S754_infinity s => (if s then -2 else 2, 0, 0)
  | S754_finite true m e => (-1, - e, Z.neg m)
  | S754_finite false m e => (1, e, Z.pos m)
  end.

Definition key_le (a b : Z * Z * Z) : Prop :=
  let '(a1, a2, a3) := a in
  let '(b1, b2, b3) := b in
  a1 < b1 \/ (a1 = b1 /\ (a2 < b2 \/ (a2 = b2 /\ a3 <= b3))).

Lemma f64_le_key x y :
  f64_le x y = true <-> is_nan x = false /\ is_nan y = false /\ key_le (f64_key x) (f64_key y).
Proof.
  unfold f64_le, SFleb, SFcompare.
  destruct x as [[]|[]| |[] m1 e1], y as [[]|[]| |[] m2 e2]; simpl;
    try (split; [done|intros (? & ? & ?); done || lia]);
    try (split; [intros _; repeat split; lia|done]).
  all: change (Pos.compare_cont Eq m1 m2) with (Pos.compare m1 m2);
    destruct (Z.compare_spec e1 e2), (Pos.compare_spec m1 m2); simpl;
    (split; [try done; intros _; repeat split; lia | intros (_ & _ & ?); try done; exfalso; lia]).
Qed.

Lemma f64_lt_key x y :
  f64_lt x y = true <-> is_nan x = false /\ is_nan y = false /\ ~ key_le (f64_key y) (f64_key x).
Proof.
  unfold f64_lt, SFltb, SFcompare.
  destruct x as [[]|[]| |[] m1 e1], y as [[]|[]| |[] m2 e2]; simpl;
    try (split; [done|intros (? & ? & ?); done || lia]);
    try (split; [intros _; repeat split; lia|done]).
  all: change (Pos.compare_cont Eq m1 m2) with (Pos.compare m1 m2);
    destruct (Z.compare_spec e1 e2), (Pos.compare_spec m1 m2); simpl;
    (split; [try done; intros _; repeat split; lia | intros (_ & _ & ?); try done; exfalso; lia]).
Qed.

Lemma key_le_trans a b c : key_le a b -> key_le b c -> key_le a c.
Proof. destruct a as [[] ?], b as [[] ?], c as [[] ?]. simpl. lia. Qed.

Lemma key_le_total a b : ~ key_le a b -> key_le b a.
Proof. destruct a as [[] ?], b as [[] ?]. simpl. lia. Qed.

Lemma f64_le_trans x y z : f64_le x y = true -> f64_le y z = true -> f64_le x z = true.
Proof.
  rewrite !f64_le_key. intros (? & ? & ?) (? & ? & ?).
  repeat split; [done..|]. by eapply key_le_trans.
Qed.

Lemma f64_lt_le x y : f64_lt x y = true -> f64_le x y = true.
Proof.
  rewrite f64_lt_key, f64_le_key. intros (? & ? & ?). repeat split; [done..|]. by apply key_le_total.
Qed.

Lemma f64_le_refl x : is_nan x = false -> f64_le x x = true.
Proof. intros. rewrite f64_le_key. repeat split; [done..|]. destruct (f64_key x) as [[] ?]. simpl. lia. Qed.

Lemma f64_le_not_nan x y : f64_le x y = true -> is_nan x = false /\ is_nan y = false.
Proof. rewrite f64_le_key. by intros (? & ? & _). Qed.

(** [f64::min] against a NaN-free bound. *)
Lemma f64_min_le x y : is_nan x = false -> f64_le (f64_min x y) x = true.
Proof.
  intros Hx. unfold f64_min. destruct (is_nan y) eqn:Hy; [by apply f64_le_refl|].
  destruct (f64_lt x y) eqn:Hlt; [by apply f64_le_refl|].
  apply f64_le_key. repeat split; [done..|]. destruct (decide (key_le (f64_key y) (f64_key x))) as [|Hn]; [done|].
  assert (f64_lt x y = true) by (by apply f64_lt_key). congruence.
Qed.

Lemma f64_min_glb l x y : f64_le l x = true -> f64_le l y = true -> f64_le l (f64_min x y) = true.
Proof. intros. unfold f64_min. by repeat case_match. Qed.

Lemma f64_min_valid x y : f64_valid x = true -> f64_valid y = true -> f64_valid (f64_min x y) = true.
Proof. intros. unfold f64_min. by repeat case_match. Qed.

(** ** Durations are monotone *)
Lemma digits2_bounds m :
  2 ^ (Z.pos (digits2_pos m) - 1) <= Z.pos m < 2 ^ Z.pos (digits2_pos m).
Proof.
  induction m as [m IH|m IH|]; simpl digits2_pos; [| |by vm_compute];
    rewrite Pos2Z.inj_succ, Z.sub_1_r, Z.pred_succ, Z.pow_succ_r by lia;
    (assert (2 ^ Z.pos (digits2_pos m) = 2 * 2 ^ (Z.pos (digits2_pos m) - 1));
      [rewrite <-Z.pow_succ_r by lia; f_equal; lia|lia]).
Qed.

(** The value of a finite number in units of the smallest exponent. *)
Definition f64_units (m : positive) (e : Z) : Z := Z.pos m * 2 ^ (e + 1074).

Lemma f64_bounded m e :
  bounded 53 1024 m e = true ->
  -1074 <= e /\ Z.pos m < 2 ^ 53 /\ (-1074 < e -> 2 ^ 52 <= Z.pos m).
Proof.
  unfold bounded, canonical_mantissa, fexp, emin. rewrite andb_true_iff, Z.eqb_eq. intros [Hc _].
  pose proof (digits2_bounds m) as [Hlo Hhi]. set (d := Z.pos (digits2_pos m)) in *.
  split; [lia|]. assert (d <= 53) by lia. split.
  - eapply Z.lt_le_trans; [exact Hhi|]. by apply Z.pow_le_mono_r.
  - intros He. assert (d = 53) as Hd by lia. rewrite Hd in Hlo. done.
Qed.

Lemma f64_le_units m1 e1 m2 e2 :
  bounded 53 1024 m1 e1 = true -> bounded 53 1024 m2 e2 = true ->
  f64_le (S754_finite false m1 e1) (S754_finite false m2 e2) = true ->
  f64_units m1 e1 <= f64_units m2 e2.
Proof.
  intros (He1 & Hm1 & _)%f64_bounded (He2 & Hm2 & Hn2)%f64_bounded (_ & _ & Hk)%f64_le_key.
  unfold f64_units. simpl in Hk. destruct Hk as [|[_ [Hlt|[-> Hle]]]]; [lia| |].
  - specialize (Hn2 ltac:(lia)). replace (e2 + 1074) with ((e1 + 1074) + (e2 - e1)) by lia.
    rewrite (Z.pow_add_r 2 (e1 + 1074) (e2 - e1)) by lia.
    assert (2 <= 2 ^ (e2 - e1)) by (change 2 with (2 ^ 1) at 1; apply Z.pow_le_mono_r; lia).
    assert (0 < 2 ^ (e1 + 1074)) by (apply Z.pow_pos_nonneg; lia).
    assert (Z.pos m1 <= Z.pos m2 * 2 ^ (e2 - e1)).
    { apply Z.le_trans with (Z.pos m2 * 2); [simpl in *; lia|]. apply Z.mul_le_mono_nonneg_l; lia. }
    replace (Z.pos m2 * (2 ^ (e1 + 1074) * 2 ^ (e2 - e1)))
      with (Z.pos m2 * 2 ^ (e2 - e1) * 2 ^ (e1 + 1074)) by ring.
    apply Z.mul_le_mono_nonneg_r; lia.
  - apply Z.mul_le_mono_nonneg_r; [|done]. apply Z.pow_nonneg. lia.
Qed.

Lemma div_half_even_scale n d k :
  0 < d -> 0 < k -> div_half_even (n * k) (d * k) = div_half_even n d.
Proof.
  intros Hd Hk. unfold div_half_even. rewrite Z.div_mul_cancel_r by lia.
  rewrite Z.mul_mod_distr_r by lia. rewrite Z.mul_assoc.
  by rewrite <-(Zmult_compare_compat_r (2 * (n mod d)) d k) by lia.
Qed.

Lemma div_half_even_mono n n' d : 0 < d -> n <= n' -> div_half_even n d <= div_half_even n' d.
Proof.
  intros Hd Hn. unfold div_half_even.
  pose proof (Z.div_mod n d ltac:(lia)) as E. pose proof (Z.mod_pos_bound n d Hd).
  pose proof (Z.div_mod n' d ltac:(lia)) as E'. pose proof (Z.mod_pos_bound n' d Hd).
  pose proof (Z.div_le_mono n n' d Hd Hn).
  destruct (Z.eq_dec (n / d) (n' / d)) as [Heq|].
  - rewrite Heq in *.
    destruct (Z.compare_spec (2 * (n mod d)) d), (Z.compare_spec (2 * (n' mod d)) d);
      try destruct (Z.even (n' / d)); lia.
  - repeat case_match; lia.
Qed.

Lemma nanos_of_units m e :
  -1074 <= e -> nanos_of m e = div_half_even (f64_units m e * nanos_per_sec) (2 ^ 1074).
Proof.
  intros He. unfold nanos_of, f64_units. destruct (Z.leb_spec 0 e).
  - replace (e + 1074) with (1074 + e) by lia. rewrite Z.pow_add_r by lia.
    unfold div_half_even.
    replace (Z.pos m * (2 ^ 1074 * 2 ^ e) * nanos_per_sec)
      with (Z.pos m * 2 ^ e * nanos_per_sec * 2 ^ 1074) by lia.
    assert (0 < 2 ^ 1074) by (by apply Z.pow_pos_nonneg).
    rewrite Z.div_mul, Z.mod_mul by lia. by destruct (Z.compare_spec (2 * 0) (2 ^ 1074)); [lia|..|lia].
  - assert (0 < 2 ^ (e + 1074)) by (apply Z.pow_pos_nonneg; lia).
    assert (0 < 2 ^ (- e)) by (apply Z.pow_pos_nonneg; lia).
    rewrite <-(div_half_even_scale _ _ (2 ^ (e + 1074))) by done. f_equal; [lia|].
    rewrite <-Z.pow_add_r by lia. f_equal. lia.
Qed.

Lemma from_secs_f64_nonneg {E} x a : from_secs_f64 (E:=E) x = Ok a -> 0 <= a.
Proof.
  destruct x as [| | |[] m e]; simpl; try done; [by intros [= <-]|].
  case_match; [|done]. intros [= <-]. unfold nanos_of. destruct (Z.leb_spec 0 e).
  - pose proof (Z.pow_nonneg 2 e ltac:(lia)). unfold nanos_per_sec. lia.
  - unfold div_half_even. assert (0 < 2 ^ (- e)) by (apply Z.pow_pos_nonneg; lia).
    assert (0 <= Z.pos m * nanos_per_sec / 2 ^ (- e)) by (apply Z.div_pos; unfold nanos_per_sec; lia).
    repeat case_match; lia.
Qed.

Lemma from_secs_f64_mono {E} x y a b :
  f64_valid x = true -> f64_valid y = true -> f64_le x y = true ->
  from_secs_f64 (E:=E) x = Ok a -> from_secs_f64 (E:=E) y = Ok b -> a <= b.
Proof.
  intros Hx Hy Hle Ha Hb. pose proof (from_secs_f64_nonneg y b Hb).
  destruct x as [| | |[] m1 e1]; simpl in Ha; try done; [by injection Ha as <-|].
  destruct y as [| | |[] m2 e2]; simpl in Hb; try done.
  pose proof (f64_le_units _ _ _ _ Hx Hy Hle) as Hu.
  destruct (f64_bounded m1 e1 Hx) as [H1 _], (f64_bounded m2 e2 Hy) as [H2 _].
  rewrite nanos_of_units in Ha, Hb by done.
  destruct (_ <=? _) in Ha; [|done]. destruct (_ <=? _) in Hb; [|done].
  injection Ha as <-. injection Hb as <-. apply div_half_even_mono; [by apply Z.pow_pos_nonneg|].
  apply Z.mul_le_mono_nonneg_r; [done|exact Hu].
Qed.

(** ** The loop *)
Section loop.
Context {W R : Type} `{!Timer W} `{!RngCore R}.

Lemma retry_le {B E} n m (do1 do2 : io W (BackoffError E) (ControlFlow B (ErrorOrThrottle E)))
    (self : Backoff R) :
  io_le do1 do2 -> (n <= m)%nat -> io_le (retry_with_backoff n do1 self) (retry_with_backoff m do2 self).
Proof.
  intros Hdo. revert m self. induction n as [|n IH]; intros m self Hnm; [done|].
  destruct m as [|m]; [lia|]. simpl. apply io_bind_le; [done|].
  intros [b|[e|t]]; [reflexivity| |]; (apply io_bind_le; [reflexivity|]).
  - intros [[d|] self']; [|reflexivity]. apply io_bind_le; [reflexivity|]. intros []. apply IH. lia.
  - intros []. apply IH. lia.
Qed.

(** What the attempts, the generator and sleeping keep, the loop keeps. *)
Lemma keeps_next {E} P (self : Backoff R) :
  (forall lo hi w x w', P w -> gen_range lo hi w = Some (x, w') -> P w') ->
  keeps (E:=E) P (Backoff_next self).
Proof.
  intros Hrng. apply keeps_bind.
  2: { intros [x g]. apply keeps_bind; [apply keeps_lift|]. intros d. simpl.
       repeat case_match; apply keeps_lift. }
  intros w Hw r w'. unfold draw. destruct (rng self) as [g|].
  - destruct (gen_range _ _ g) as [[]|]; by intros [= <- <-].
  - destruct (gen_range _ _ w) as [[x w1]|] eqn:Hg; intros [= <- <-]; [by eapply Hrng|done].
Qed.

Lemma keeps_retry {B E} P fuel (do_stuff : io W (BackoffError E) (ControlFlow B (ErrorOrThrottle E)))
    (self : Backoff R) :
  keeps P do_stuff ->
  (forall lo hi w x w', P w -> gen_range lo hi w = Some (x, w') -> P w') ->
  (forall d w, P w -> P (sleep_for d w)) ->
  keeps P (retry_with_backoff fuel do_stuff self).
Proof.
  intros Hdo Hrng Hsleep. revert self. induction fuel as [|fuel IH]; intros self; [by intros w _ r w'|].
  simpl. apply keeps_bind; [done|].
  intros [b|[e|t]]; [apply keeps_lift| |].
  - apply keeps_bind; [by apply keeps_next|]. intros [[d|] self']; [|eauto with io].
    apply keeps_bind; [apply keeps_put; eauto|]. intros []. apply IH.
  - apply keeps_bind; [apply keeps_put; eauto|]. intros []. apply IH.
Qed.

Context {B E : Type} (do_stuff : io W (BackoffError E) (ControlFlow B (ErrorOrThrottle E))).

(** Attempts that fail and are followed by a sleep. *)
Inductive failures : Backoff R -> W -> list (ErrorOrThrottle E) -> Backoff R -> W -> Prop :=
| failures_nil self w : failures self w [] self w
| failures_error self w e w1 d self1 w2 l self' w' :
    do_stuff w = Some (Ok (Continue (EtError e)), w1) ->
    Backoff_next (E:=BackoffError E) self w1 = Some (Ok (Some d, self1), w2) ->
    failures self1 (sleep_for d w2) l self' w' ->
    failures self w (EtError e :: l) self' w'
| failures_throttle self w t w1 l self' w' :
    do_stuff w = Some (Ok (Continue (Throttle t)), w1) ->
    failures self (sleep_for (from_millis t) w1) l self' w' ->
    failures self w (Throttle t :: l) self' w'.

(** The attempt after which the loop ends. *)
Inductive final (self : Backoff R) (w : W) : outcome (BackoffError E) B -> W -> Prop :=
| final_break b w' : do_stuff w = Some (Ok (Break b), w') -> final self w (Ok b) w'
| final_err e w' : do_stuff w = Some (Err e, w') -> final self w (Err e) w'
| final_panic p w' : do_stuff w = Some (Panic p, w') -> final self w (Panic p) w'
| final_deadline e w1 self1 w2 d dur :
    do_stuff w = Some (Ok (Continue (EtError e)), w1) ->
    Backoff_next (E:=BackoffError E) self w1 = Some (Ok (None, self1), w2) ->
    deadline self1 = Some d -> from_secs_f64 (E:=BackoffError E) d = Ok dur ->
    final self w (Err (DeadlineExceded dur e)) w2
| final_next_panic e w1 p w2 :
    do_stuff w = Some (Ok (Continue (EtError e)), w1) ->
    Backoff_next (E:=BackoffError E) self w1 = Some (Panic p, w2) ->
    final self w (Panic p) w2
| final_deadline_panic e w1 self1 w2 d p :
    do_stuff w = Some (Ok (Continue (EtError e)), w1) ->
    Backoff_next (E:=BackoffError E) self w1 = Some (Ok (None, self1), w2) ->
    deadline self1 = Some d -> from_secs_f64 (E:=BackoffError E) d = Panic p ->
    final self w (Panic p) w2.

(** [next] gives up only for a deadline, and never with an error. *)
Lemma next_none (self self' : Backoff R) w w' :
  Backoff_next (E:=BackoffError E) self w = Some (Ok (None, self'), w') ->
  exists d, deadline self' = Some d /\ f64_le d (total self') = true.
Proof.
  unfold Backoff_next, io_bind, io_lift. destruct (draw _ _ _ w) as [[[[x g]|?|?] w1]|]; try done.
  destruct (from_secs_f64 _); try done. simpl. destruct (deadline self) as [d|] eqn:Hd; [|done].
  destruct (f64_le d _) eqn:Hle; [|done]. intros [= <- <-]. simpl. eauto.
Qed.

Lemma from_secs_f64_not_err {F} x (e : F) : from_secs_f64 x <> Err e.
Proof. destruct x as [| | |[] m e0]; simpl; try done. by case_match. Qed.

Lemma next_not_err (self : Backoff R) w e w' :
  Backoff_next (E:=BackoffError E) self w <> Some (Err e, w').
Proof.
  unfold Backoff_next, io_bind, io_lift, draw.
  destruct (match rng self with Some _ => _ | None => _ end) as [[[[x g]|e1|p] w1]|] eqn:Hd; try done.
  - destruct (from_secs_f64 _) as [a|e1|p] eqn:Hf; [|by apply from_secs_f64_not_err in Hf|done].
    simpl. by repeat case_match.
  - destruct (rng self) as [g|]; [destruct (gen_range _ _ g) as [[]|]|destruct (gen_range _ _ w) as [[]|]];
      congruence.
Qed.
End loop.
#[export] Hint Resolve retry_le : io.

(** ** Properties of the loop *)
Section theorems.
Context {W R : Type} `{!Timer W} `{!RngCore R}.
Context {B E : Type} (do_stuff : io W (BackoffError E) (ControlFlow B (ErrorOrThrottle E))).

Lemma retry_failures (self : Backoff R) w l self1 w1 r w' :
  failures do_stuff self w l self1 w1 -> final do_stuff self1 w1 r w' ->
  retry_with_backoff (S (length l)) do_stuff self w = Some (r, w').
Proof.
  induction 1 as [self w|self w e w1 d self1 w2 l self' w3 Hdo Hnext _ IH|self w t w1 l self' w3 Hdo _ IH];
    intros Hf.
  - destruct Hf as [b w' Hdo|e w' Hdo|p w' Hdo|e w1 self1 w2 d dur Hdo Hnext Hd Hs
      |e w1 p w2 Hdo Hnext|e w1 self1 w2 d p Hdo Hnext Hd Hs];
      simpl; unfold io_bind; rewrite Hdo; try done; rewrite Hnext; try done; by rewrite Hd; simpl; rewrite Hs.
  - specialize (IH Hf). change (length (EtError e :: l)) with (S (length l)). simpl retry_with_backoff at 1.
    rewrite (io_bind_ok _ _ _ _ _ Hdo), (io_bind_ok _ _ _ _ _ Hnext). exact IH.
  - specialize (IH Hf). change (length (Throttle t :: l)) with (S (length l)). simpl retry_with_backoff at 1.
    rewrite (io_bind_ok _ _ _ _ _ Hdo). exact IH.
Qed.

Lemma retry_split fuel (self : Backoff R) w r w' :
  retry_with_backoff fuel do_stuff self w = Some (r, w') ->
  exists l self1 w1, failures do_stuff self w l self1 w1 /\ final do_stuff self1 w1 r w'.
Proof.
  revert self w. induction fuel as [|fuel IH]; intros self w; [done|]. simpl. unfold io_bind at 1.
  destruct (do_stuff w) as [[[[b|[e|t]]|e|p] w1]|] eqn:Hdo; [..|done].
  - intros [= <- <-]. do 3 eexists. split; [constructor|]. by apply final_break.
  - unfold io_bind at 1. destruct (Backoff_next self w1) as [[[[[d|] self1]|e1|p] w2]|] eqn:Hnext; [..|done].
    + intros (l & self2 & w3 & Hfs & Hf)%IH. do 3 eexists. split; [|exact Hf]. by eapply failures_error.
    + pose proof Hnext as (d & Hd & _)%next_none. rewrite Hd. unfold io_bind, io_lift.
      destruct (from_secs_f64 d) as [dur|e1|p] eqn:Hs; intros [= <- <-].
      * do 3 eexists. split; [constructor|]. by eapply final_deadline.
      * by apply from_secs_f64_not_err in Hs.
      * do 3 eexists. split; [constructor|]. by eapply final_deadline_panic.
    + by apply next_not_err in Hnext.
    + intros [= <- <-]. do 3 eexists. split; [constructor|]. by eapply final_next_panic.
  - intros (l & self2 & w3 & Hfs & Hf)%IH. do 3 eexists. split; [|exact Hf]. by eapply failures_throttle.
  - intros [= <- <-]. do 3 eexists. split; [constructor|]. by apply final_err.
  - intros [= <- <-]. do 3 eexists. split; [constructor|]. by apply final_panic.
Qed.

(** A throttled attempt is repeated after the pause, with the same backoff. *)
Lemma retry_throttled fuel (self : Backoff R) w t w1 :
  do_stuff w = Some (Ok (Continue (Throttle t)), w1) ->
  retry_with_backoff (S fuel) do_stuff self w = retry_with_backoff fuel do_stuff self (sleep_for (from_millis t) w1).
Proof. intros Hdo. cbn [retry_with_backoff]. by rewrite (io_bind_ok _ _ _ _ _ Hdo). Qed.

(** The deadline of a backoff is fixed. *)
Lemma next_deadline (self self' : Backoff R) w n w' :
  Backoff_next (E:=BackoffError E) self w = Some (Ok (n, self'), w') -> deadline self' = deadline self.
Proof.
  unfold Backoff_next, io_bind, io_lift. destruct (draw _ _ _ w) as [[[[x g]|?|?] w1]|]; try done.
  destruct (from_secs_f64 _); try done. simpl. destruct (deadline self) as [d|] eqn:Hd.
  - by destruct (f64_le d _); intros [= <- <- <-].
  - by intros [= <- <- <-].
Qed.

Lemma failures_deadline (self : Backoff R) w l self1 w1 :
  failures do_stuff self w l self1 w1 -> deadline self1 = deadline self.
Proof.
  induction 1 as [|? ? ? ? ? ? ? ? ? ? ? Hn _ IH|? ? ? ? ? ? ? ? _ IH]; [done| |done].
  by rewrite IH, (next_deadline _ _ _ _ _ Hn).
Qed.

(** The loop is what its description says.  It ends with a result
    exactly when a sequence of attempts fails, each followed by its sleep
    (the next interval of the backoff for an error, the time the broker asked
    for when it throttles, which leaves the backoff as it is), and the attempt
    after them breaks with that result or exceeds the deadline; one unit of
    fuel per attempt is enough. *)
Theorem retry_with_backoff_spec (self : Backoff R) w r w' :
  (exists fuel, retry_with_backoff fuel do_stuff self w = Some (r, w')) <->
  (exists l self1 w1, failures do_stuff self w l self1 w1 /\ final do_stuff self1 w1 r w').
Proof.
  split.
  - intros (fuel & Hr). by eapply retry_split.
  - intros (l & self1 & w1 & Hfs & Hf). exists (S (length l)). by eapply retry_failures.
Qed.

(** The state of a backoff between two calls of [next]: the next interval lies
    between the first one and the maximum. *)
Definition backoff_ok (lo hi : Z) (self : Backoff R) : Prop :=
  f64_valid (init_backoff self) = true /\ f64_valid (max_backoff_secs self) = true /\
  f64_valid (next_backoff_secs self) = true /\
  f64_le (init_backoff self) (next_backoff_secs self) = true /\
  f64_le (next_backoff_secs self) (max_backoff_secs self) = true /\
  from_secs_f64 (E:=BackoffError E) (init_backoff self) = Ok lo /\
  from_secs_f64 (E:=BackoffError E) (max_backoff_secs self) = Ok hi.

Context `{!TimerOk W} `{!RngOk R}.

Lemma draw_in (self : Backoff R) lo hi w x g w' :
  draw (E:=BackoffError E) self lo hi w = Some (Ok (x, g), w') ->
  f64_le lo x = true /\ f64_lt x hi = true /\ f64_valid x = true /\ slept w' = slept w.
Proof.
  unfold draw. destruct (rng self) as [g0|].
  - destruct (gen_range _ _ g0) as [[y g1]|] eqn:Hg; [|done]. intros [= -> _ <-].
    apply gen_range_in in Hg. naive_solver.
  - destruct (gen_range _ _ w) as [[y w1]|] eqn:Hg; [|done]. intros [= -> _ <-].
    pose proof (slept_gen_range _ _ _ _ _ Hg). apply gen_range_in in Hg. naive_solver.
Qed.

Lemma next_ok lo hi (self : Backoff R) w n self' w' :
  backoff_ok lo hi self ->
  Backoff_next (E:=BackoffError E) self w = Some (Ok (n, self'), w') ->
  backoff_ok lo hi self' /\ slept w' = slept w /\ (forall d, n = Some d -> lo <= d <= hi).
Proof.
  intros (Hvi & Hvm & Hvn & Hle & Hle' & Hlo & Hhi). unfold Backoff_next.
  unfold io_bind at 1. destruct (draw _ _ _ w) as [[[[x g]|?|?] w1]|] eqn:Hdraw; try done.
  apply draw_in in Hdraw as (Hx & _ & Hvx & Hs).
  unfold io_bind, io_lift. destruct (from_secs_f64 (next_backoff_secs self)) as [d|?|?] eqn:Hd; try done.
  assert (lo <= d <= hi) by (split;
    [exact (from_secs_f64_mono _ _ _ _ Hvi Hvn Hle Hlo Hd)|exact (from_secs_f64_mono _ _ _ _ Hvn Hvm Hle' Hd Hhi)]).
  assert (Hmin : is_nan (max_backoff_secs self) = false) by (by eapply f64_le_not_nan).
  pose proof (f64_min_le (max_backoff_secs self) x Hmin).
  pose proof (f64_min_glb _ _ _ (f64_le_trans _ _ _ Hle Hle') Hx).
  pose proof (f64_min_valid _ _ Hvm Hvx).
  simpl. repeat case_match; intros [= <- <- <-]; (split; [done|]); (split; [done|]); naive_solver.
Qed.

(** The sleep after a failed attempt: an interval of the backoff, or the time
    that the broker asked for. *)
Definition sleep_after (lo hi : Z) (failure : ErrorOrThrottle E) (d : Z) : Prop :=
  match failure with
  | EtError _ => lo <= d <= hi
  | Throttle t => d = from_millis t
  end.

(** The attempts themselves do not sleep. *)
Definition quiet_attempt : Prop := forall w, post do_stuff w (fun _ w' => slept w' = slept w).

Lemma failures_sleeps lo hi (self : Backoff R) w l self1 w1 :
  quiet_attempt -> failures do_stuff self w l self1 w1 -> backoff_ok lo hi self ->
  backoff_ok lo hi self1 /\
  exists ds, slept w1 = slept w ++ ds /\ Forall2 (sleep_after lo hi) l ds.
Proof.
  intros Hq. induction 1 as [self w|self w e w1 d self1 w2 l self' w3 Hdo Hnext _ IH|self w t w1 l self' w3 Hdo _ IH];
    intros Hok.
  - split; [done|]. exists []. by rewrite app_nil_r.
  - apply Hq in Hdo as Hs. apply (next_ok lo hi) in Hnext as (Hok1 & Hs2 & Hd); [|done].
    destruct (IH Hok1) as (Hok' & ds & Hs3 & Hds). split; [done|]. exists (d :: ds). split.
    + rewrite Hs3, slept_sleep, Hs2, Hs. by rewrite <-app_assoc.
    + constructor; [by apply Hd|done].
  - apply Hq in Hdo as Hs. destruct (IH Hok) as (Hok' & ds & Hs3 & Hds).
    split; [done|]. exists (from_millis t :: ds). split.
    + rewrite Hs3, slept_sleep, Hs. by rewrite <-app_assoc.
    + by constructor.
Qed.

Lemma final_slept lo hi (self : Backoff R) w r w' :
  quiet_attempt -> backoff_ok lo hi self -> final do_stuff self w r w' ->
  (forall p, r <> Panic p) -> slept w' = slept w.
Proof.
  intros Hq Hok Hf Hp.
  destruct Hf as [? ? Hdo|? ? Hdo|p ? Hdo|? ? ? ? ? ? Hdo Hnext ? ?|? ? p ? ? ?|? ? ? ? ? p ? ? ? ?];
    try (by destruct (Hp p)); apply Hq in Hdo as Hs; try done.
  apply (next_ok lo hi) in Hnext as (_ & Hs2 & _); [|done]. congruence.
Qed.

(** C23: between attempts the client sleeps neither too long nor too short.  A
    run of the loop is a sequence of failed attempts and a last one; the log of
    sleeps grows by one sleep for each of the failed attempts, in order: for an
    error an interval between the first backoff and the maximum one of the
    configuration, for a throttled request the time that the broker asked for. *)
Theorem retry_sleeps_bounded config lo hi fuel w r w' :
  let self := Backoff_new (R:=R) config in
  f64_valid (init_backoff self) = true -> f64_valid (max_backoff_secs self) = true ->
  f64_le (init_backoff self) (max_backoff_secs self) = true ->
  from_secs_f64 (E:=BackoffError E) (init_backoff self) = Ok lo ->
  from_secs_f64 (E:=BackoffError E) (max_backoff_secs self) = Ok hi ->
  quiet_attempt ->
  retry_with_backoff fuel do_stuff self w = Some (r, w') -> (forall p, r <> Panic p) ->
  exists l self1 w1 ds,
    failures do_stuff self w l self1 w1 /\ final do_stuff self1 w1 r w' /\
    slept w' = slept w ++ ds /\ Forall2 (sleep_after lo hi) l ds.
Proof.
  intros self Hvi Hvm Hle Hlo Hhi Hq (l & self1 & w1 & Hfs & Hf)%retry_split Hp.
  assert (backoff_ok lo hi self) as Hok.
  { repeat split; try done. apply f64_le_refl. exact (proj1 (f64_le_not_nan _ _ Hle)). }
  destruct (failures_sleeps lo hi _ _ _ _ _ Hq Hfs Hok) as (Hok1 & ds & Hs & Hds).
  exists l, self1, w1, ds. split; [done|]. split; [done|]. split; [|done].
  by rewrite (final_slept lo hi _ _ _ _ Hq Hok1 Hf Hp).
Qed.

(** A configuration whose first backoff is zero makes the client panic on
    the first error that it would retry: the range of the jitter is empty. *)
Theorem zero_backoff_panics config fuel w e w1 :
  config_init_backoff config = 0 ->
  do_stuff w = Some (Ok (Continue (EtError e)), w1) ->
  retry_with_backoff (S fuel) do_stuff (Backoff_new (R:=R) config) w = Some (Panic AssertFailed, w1).
Proof.
  intros H0 Hdo. simpl. rewrite (io_bind_ok _ _ _ _ _ Hdo). unfold io_bind, Backoff_next at 1.
  unfold io_bind, draw. simpl. rewrite H0.
  rewrite gen_range_empty; [done|]. change (as_secs_f64 0) with f64_0.
  unfold f64_mul, f64_0. by destruct (config_base config) as [[]|[]| |[] m0 e0].
Qed.
End theorems.

(** The clients make their backoffs with [Backoff::new], without a generator. *)
#[export] Instance no_rng : RngCore Empty_set := fun _ _ r => match r with end.
#[export] Instance no_rng_ok : RngOk Empty_set.
Proof. split; by intros ? ? []. Qed.

(** ** A concrete world: a log of sleeps, the results of the next attempts, and
    a generator that always draws the lower end of the range *)
#[local] Instance low_rng (W : Type) : RngCore W := fun lo hi w =>
  if f64_lt lo hi && f64_valid lo then Some (lo, w) else None.

#[local] Instance low_rng_ok W : RngOk W.
Proof.
  split; unfold gen_range, low_rng.
  - intros lo hi r Hlt. by rewrite Hlt.
  - intros lo hi r x r'. destruct (f64_lt lo hi) eqn:Hlt, (f64_valid lo) eqn:Hv; simpl; try done.
    intros [= <- <-]. split; [|done]. apply f64_le_refl.
    by apply f64_lt_key in Hlt as (? & _).
Qed.

Record AttemptWorld : Type := mkAttemptWorld {
  aw_slept : list Z;
  aw_attempts : list (ControlFlow Z (ErrorOrThrottle Z));
}.

#[export] Instance attempt_timer : Timer AttemptWorld := {|
  thread_rng := low_rng AttemptWorld;
  sleep_for d w := mkAttemptWorld (aw_slept w ++ [d]) (aw_attempts w);
  slept := aw_slept;
|}.

#[export] Instance attempt_timer_ok : TimerOk AttemptWorld.
Proof.
  split; [apply low_rng_ok|done|]. intros lo hi w x w'. unfold gen_range; simpl; unfold low_rng.
  case_match; [|done]. by intros [= _ <-].
Qed.

Definition next_attempt : io AttemptWorld (BackoffError Z) (ControlFlow Z (ErrorOrThrottle Z)) := fun w =>
  match aw_attempts w with
  | r :: rest => Some (Ok r, mkAttemptWorld (aw_slept w) rest)
  | [] => None
  end.

Definition sample_attempts : AttemptWorld :=
  mkAttemptWorld [] [Continue (EtError 1); Continue (Throttle 7); Continue (EtError 2); Break 5].
Definition sample_attempts_done : AttemptWorld :=
  mkAttemptWorld [from_millis 100; from_millis 7; from_millis 100] [].

Lemma retry_sleeps_bounded_witness :
  retry_with_backoff 4 next_attempt (Backoff_new (R:=unit) BackoffConfig_default) sample_attempts
  = Some (Ok 5, sample_attempts_done) /\
  exists l self1 w1 ds,
    failures next_attempt (Backoff_new (R:=unit) BackoffConfig_default) sample_attempts l self1 w1 /\
    final next_attempt self1 w1 (Ok 5) sample_attempts_done /\
    slept sample_attempts_done = slept sample_attempts ++ ds /\
    Forall2 (sleep_after (from_millis 100) (from_secs 500)) l ds.
Proof.
  split; [by vm_compute|].
  apply (retry_sleeps_bounded next_attempt BackoffConfig_default (R:=unit)
    (from_millis 100) (from_secs 500) 4 sample_attempts (Ok 5) sample_attempts_done);
    try (by vm_compute); try done.
  intros w r w'. unfold next_attempt. destruct (aw_attempts w); [done|]. by intros [= <- <-].
Defined.

Lemma zero_backoff_panics_witness :
  retry_with_backoff 1 next_attempt (Backoff_new (R:=unit) (mkBackoffConfig 0 (from_secs 5) (f64_of_Z 3) None))
    (mkAttemptWorld [] [Continue (EtError 1)])
  = Some (Panic AssertFailed, mkAttemptWorld [] []).
Proof. by apply (zero_backoff_panics next_attempt (R:=unit) _ 0 _ 1). Defined.
