(* ===== verification/Deadline.v ===== *)
(** * A deadline ends the retries (src/backoff.rs)

    [Backoff::next] adds the intervals up in an [f64] and gives up when the sum
    reaches the deadline.  A sum of floating-point numbers can stop growing, so
    that this happens at all is a fact about rounding: an addition of [SpecFloat]
    is at least every representable number below the exact sum.  From it follows
    a lower bound on the sum after [k] intervals, a bound on the number of errors
    that are retried, and that [retry_with_backoff] returns. *)

From Stdlib Require Import ZArith Lia SpecFloat.
From stdpp Require Import base list numbers.
From S2P Require Import Prelude Io Support Backoff.

Local Open Scope Z_scope.
Local Open Scope rust_scope.

(** ** Rounding *)

Definition fexp64 : Z -> Z := fexp 53 1024.

Lemma fexp64_max e : fexp64 e = Z.max (e - 53) (-1074).
Proof. reflexivity. Qed.

(** A shift of the mantissa by one bit at a time is a division. *)
Lemma shr_1_m mrs : 0 <= shr_m mrs -> shr_m (shr_1 mrs) = shr_m mrs / 2.
Proof.
  destruct mrs as [[|[p|p|]|p] r s]; simpl; intros H; try lia; try done.
  - rewrite Pos2Z.inj_xI. apply (Z.div_unique_pos _ 2 _ 1); lia.
  - rewrite Pos2Z.inj_xO. apply (Z.div_unique_pos _ 2 _ 0); lia.
Qed.

Lemma iter_shr_m p mrs :
  0 <= shr_m mrs -> shr_m (SpecFloat.iter_pos shr_1 p mrs) = shr_m mrs / 2 ^ Z.pos p.
Proof.
  revert mrs. induction p as [p IH|p IH|]; intros mrs Hm; simpl SpecFloat.iter_pos;
    try (assert (Hp : 0 < 2 ^ Z.pos p) by (by apply Z.pow_pos_nonneg)).
  - pose proof (shr_1_m mrs Hm) as H1. pose proof (Z.div_pos (shr_m mrs) 2 Hm ltac:(lia)) as H2.
    pose proof (IH (shr_1 mrs) ltac:(by rewrite H1)) as H3.
    rewrite IH by (rewrite H3, H1; by apply Z.div_pos). rewrite H3, H1, !Z.div_div by lia.
    f_equal. change 2 with (2 ^ 1) at 1. rewrite <-!Z.pow_add_r by lia. f_equal. lia.
  - pose proof (IH mrs Hm) as H3. rewrite IH by (rewrite H3; by apply Z.div_pos).
    rewrite H3, Z.div_div by lia. f_equal. rewrite <-Z.pow_add_r by lia. f_equal. lia.
  - by apply shr_1_m.
Qed.

Lemma shr_record_of_loc_m m l : shr_m (shr_record_of_loc m l) = m.
Proof. by destruct l as [|[]]. Qed.

(** [shr_fexp] truncates the mantissa to the precision of its magnitude. *)
Lemma shr_fexp_trunc m e l mrs e' :
  0 <= m -> shr_fexp 53 1024 m e l = (mrs, e') ->
  e' = Z.max e (fexp64 (Zdigits2 m + e)) /\ shr_m mrs = m / 2 ^ (e' - e).
Proof.
  intros Hm. unfold shr_fexp, fexp64. set (k := fexp 53 1024 (Zdigits2 m + e)).
  unfold shr. destruct (k - e) as [|p|p] eqn:Hk; intros [= <- <-].
  - rewrite Z.max_l by lia. rewrite Z.sub_diag, Z.div_1_r. split; [done|apply shr_record_of_loc_m].
  - rewrite iter_shr_m; rewrite shr_record_of_loc_m; [|done].
    split; [lia|]. do 2 f_equal. lia.
  - rewrite Z.max_l by lia. rewrite Z.sub_diag, Z.div_1_r. split; [done|apply shr_record_of_loc_m].
Qed.

(** [x] is a multiple of a power of two with at most 53 digits, in units of
    [2 ^ -1074]. *)
Definition representable (x : Z) : Prop :=
  exists m e, x = m * 2 ^ (e + 1074) /\ 0 <= m <= 2 ^ 53 /\ -1074 <= e.

Definition units (m e : Z) : Z := m * 2 ^ (e + 1074).

Lemma units_shift m e k : -1074 <= e -> 0 <= k -> units m (e + k) = units (m * 2 ^ k) e.
Proof.
  intros He Hk. unfold units. replace (e + k + 1074) with (k + (e + 1074)) by lia.
  rewrite Z.pow_add_r by lia. lia.
Qed.

Lemma units_mono m m' e : -1074 <= e -> m <= m' -> units m e <= units m' e.
Proof. intros. apply Z.mul_le_mono_nonneg_r; [apply Z.pow_nonneg; lia|done]. Qed.

Lemma units_le_inv m m' e : -1074 <= e -> units m e <= units m' e -> m <= m'.
Proof. intros He H. unfold units in H. apply Z.mul_le_mono_pos_r in H; [done|apply Z.pow_pos_nonneg; lia]. Qed.

(** Truncation keeps the representable numbers below. *)
Lemma trunc_above x m e e' :
  representable x -> 0 < m -> -1074 <= e -> e' = Z.max e (fexp64 (Zdigits2 m + e)) ->
  x <= units m e -> x <= units (m / 2 ^ (e' - e)) e' /\ 0 < m / 2 ^ (e' - e) < 2 ^ 53.
Proof.
  intros (mx & ex & -> & Hmx & Hex) Hm He He' Hx. rewrite fexp64_max in He'.
  destruct m as [|m|m]; [lia| |lia]. simpl Zdigits2 in He'.
  pose proof (digits2_bounds m) as [Hlo Hhi]. set (d := Z.pos (digits2_pos m)) in *.
  destruct (Z.eq_dec e' e) as [->|Hne].
  { rewrite Z.sub_diag, Z.div_1_r. split; [done|]. split; [done|].
    eapply Z.lt_le_trans; [exact Hhi|]. apply Z.pow_le_mono_r; lia. }
  assert (He2 : e' - e = d - 53) by lia. assert (Hd : 53 < d) by lia.
  set (k := e' - e) in *. assert (Hpk : 0 < 2 ^ k) by (apply Z.pow_pos_nonneg; lia).
  assert (2 ^ 52 <= Z.pos m / 2 ^ k) as H52.
  { apply Z.div_le_lower_bound; [done|]. etrans; [|exact Hlo]. rewrite <-Z.pow_add_r by lia.
    apply Z.pow_le_mono_r; lia. }
  assert (Z.pos m / 2 ^ k < 2 ^ 53) as H53.
  { apply Z.div_lt_upper_bound; [done|]. rewrite <-Z.pow_add_r by lia. by replace (k + 53) with d by lia. }
  split; [|lia]. change (mx * 2 ^ (ex + 1074)) with (units mx ex) in *.
  destruct (Z.le_gt_cases e' ex) as [Hex'|Hex'].
  - replace ex with (e' + (ex - e')) in * by lia. rewrite units_shift in * by lia.
    apply units_mono; [lia|]. apply Z.div_le_lower_bound; [done|].
    set (a := mx * 2 ^ (ex - e')) in *.
    assert (units a e' = units (a * 2 ^ k) e) as Ha by (rewrite <-units_shift by lia; f_equal; lia).
    rewrite Ha in Hx. apply units_le_inv in Hx; lia.
  - apply Z.le_trans with (units (2 ^ 52) e'); [|apply units_mono; lia].
    replace e' with (ex + (e' - ex)) by lia. rewrite units_shift by lia. apply units_mono; [lia|].
    rewrite <-Z.pow_add_r by lia. etrans; [apply Hmx|]. apply Z.pow_le_mono_r; lia.
Qed.

Lemma round_nearest_even_le m l : m <= round_nearest_even m l <= m + 1.
Proof. destruct l as [|[]]; simpl; try lia. case_match; lia. Qed.

(** A number that is at least [x] units: zero, infinite, or finite with a mantissa
    of at most 53 digits. *)
Definition at_least (x : Z) (r : f64) : Prop :=
  match r with
  | S754_zero _ => x <= 0
  | S754_infinity false => True
  | S754_finite false m e => x <= f64_units m e /\ Z.pos m < 2 ^ 53 /\ -1074 <= e
  | _ => False
  end.

Lemma binary_round_aux_above x m e l :
  representable x -> 0 < m -> -1074 <= e -> x <= units m e ->
  at_least x (binary_round_aux 53 1024 false m e l).
Proof.
  intros Hrep Hm He Hx. unfold binary_round_aux.
  destruct (shr_fexp 53 1024 m e l) as [mrs e1] eqn:H1. apply shr_fexp_trunc in H1 as [He1 Hm1]; [|lia].
  destruct (trunc_above x m e e1 Hrep Hm He He1 Hx) as [Hx1 Hpos1]. rewrite <-Hm1 in *.
  pose proof (round_nearest_even_le (shr_m mrs) (loc_of_shr_record mrs)) as Hr.
  set (m1 := round_nearest_even _ _) in *.
  assert (x <= units m1 e1) as Hx2 by (etrans; [exact Hx1|]; apply units_mono; lia).
  destruct (shr_fexp 53 1024 m1 e1 loc_Exact) as [mrs2 e2] eqn:H2.
  apply shr_fexp_trunc in H2 as [He2 Hm2]; [|lia].
  destruct (trunc_above x m1 e1 e2 Hrep ltac:(lia) ltac:(lia) He2 Hx2) as [Hx3 Hpos2]. rewrite <-Hm2 in *.
  destruct (shr_m mrs2) as [|m2|m2]; [lia| |lia]. destruct (e2 <=? _); [|done].
  split; [exact Hx3|lia].
Qed.

Lemma pos_iter_xO m p : Z.pos (Pos.iter xO m p) = Z.pos m * 2 ^ Z.pos p.
Proof.
  induction p as [|p IH] using Pos.peano_ind; [simpl; lia|].
  rewrite Pos.iter_succ, Pos2Z.inj_xO, IH, Pos2Z.inj_succ, Z.pow_succ_r by lia. lia.
Qed.

Lemma shl_align_units m e e' :
  -1074 <= e -> -1074 <= e' ->
  units (Z.pos (fst (shl_align m e e'))) (snd (shl_align m e e')) = units (Z.pos m) e /\
  -1074 <= snd (shl_align m e e').
Proof.
  intros He He'. unfold shl_align. destruct (e' - e) as [|p|p] eqn:Hp; simpl; [done..|].
  split; [|done]. rewrite pos_iter_xO, <-units_shift by lia. f_equal. lia.
Qed.

Lemma binary_round_above x m e :
  representable x -> -1074 <= e -> x <= units (Z.pos m) e ->
  at_least x (binary_round 53 1024 false m e).
Proof.
  intros Hrep He Hx. unfold binary_round.
  destruct (shl_align_units m e (fexp64 (Z.pos (digits2_pos m) + e)) He) as [Hu Hs]; [rewrite fexp64_max; lia|].
  unfold fexp64 in Hu, Hs. destruct (shl_align _ _ _) as [mz ez]. simpl in *.
  apply binary_round_aux_above; [done|lia|done|by rewrite Hu].
Qed.

Lemma shl_align_fst m e e' : e' <= e -> Z.pos (fst (shl_align m e e')) = Z.pos m * 2 ^ (e - e').
Proof.
  intros He. unfold shl_align. destruct (e' - e) as [|p|p] eqn:Hp; simpl; [|lia|].
  - replace (e - e') with 0 by lia. lia.
  - rewrite pos_iter_xO. do 2 f_equal. lia.
Qed.

(** An addition is at least every representable number below the sum of the
    lower bounds of its operands. *)
Lemma f64_add_above x a b s t :
  representable x -> x <= a + b -> at_least a s -> at_least b t -> at_least x (f64_add s t).
Proof.
  intros Hrep Hx Hs Ht. unfold f64_add, SFadd.
  destruct s as [[]|[]| |[] m1 e1], t as [[]|[]| |[] m2 e2]; try done.
  all: try (simpl in *; lia).
  destruct Hs as (Hs & _ & He1), Ht as (Ht & _ & He2).
  change (f64_units ?m ?e) with (units (Z.pos m) e) in *. set (ez := Z.min e1 e2).
  cbv zeta. simpl cond_Zopp.
  rewrite <-(Pos2Z.inj_add (fst _) (fst _)). simpl binary_normalize.
  apply binary_round_above; [done|lia|]. rewrite Pos2Z.inj_add, !shl_align_fst by lia.
  replace e1 with (ez + (e1 - ez)) in Hs by lia. replace e2 with (ez + (e2 - ez)) in Ht by lia.
  rewrite units_shift in Hs, Ht by lia. unfold units in *. lia.
Qed.

(** ** The sum of the intervals *)

(** The value of a non-negative finite number in units. *)
Definition units_of (x : f64) : Z :=
  match x with S754_finite false m e => f64_units m e | _ => 0 end.

Lemma f64_le_at_least x y :
  f64_valid x = true -> f64_valid y = true -> f64_le f64_0 x = true -> f64_le x y = true ->
  at_least (units_of x) y.
Proof.
  intros Hx Hy H0 Hle. destruct x as [sx|[]| |[] m1 e1]; try done; destruct y as [sy|[]| |[] m2 e2]; try done.
  1: destruct (f64_bounded _ _ Hy) as (? & ? & _); simpl; split; [|lia]; unfold f64_units;
    assert (0 <= 2 ^ (e2 + 1074)) by (apply Z.pow_nonneg; lia); lia.
  destruct (f64_bounded _ _ Hy) as (? & ? & _). split; [|lia]. by apply f64_le_units.
Qed.

(** A number reaches every duration of at most its units. *)
Lemma at_least_le {E} x d dur t :
  f64_valid d = true -> from_secs_f64 (E:=E) d = Ok dur -> units_of d <= x -> at_least x t ->
  f64_le d t = true.
Proof.
  intros Hd Hdur Hx Ht. destruct d as [sd|[]| |[] m1 e1]; try done.
  { by destruct t as [[]|[]| |[] m2 e2]. }
  destruct t as [st|[]| |[] m2 e2]; try done; clear Hdur; simpl in Hx.
  - destruct (f64_bounded _ _ Hd) as (He & _). unfold f64_units in Hx. simpl in Ht.
    assert (0 < 2 ^ (e1 + 1074)) by (apply Z.pow_pos_nonneg; lia). lia.
  - destruct Ht as (Ht & Hm & He2), (f64_bounded _ _ Hd) as (He1 & _ & Hn).
    apply f64_le_key. repeat split. simpl. right. split; [done|].
    destruct (Z.lt_trichotomy e1 e2) as [|[->|Hlt]]; [by left| |exfalso].
    + right. split; [done|]. apply (units_le_inv _ _ e2); [done|]. by etrans.
    + specialize (Hn ltac:(lia)).
      assert (units (Z.pos m1) e1 <= units (Z.pos m2) e2) as Hu by (by etrans).
      replace e1 with (e2 + (e1 - e2)) in Hu by lia. rewrite units_shift in Hu by lia.
      apply units_le_inv in Hu; [|done].
      assert (2 <= 2 ^ (e1 - e2)) by (change 2 with (2 ^ 1) at 1; apply Z.pow_le_mono_r; lia).
      assert (2 ^ 52 * 2 <= Z.pos m1 * 2 ^ (e1 - e2)) by (apply Z.mul_le_mono_nonneg; lia). lia.
Qed.

Lemma units_of_pos {E} x dur :
  f64_valid x = true -> f64_lt f64_0 x = true -> from_secs_f64 (E:=E) x = Ok dur -> 0 < units_of x.
Proof.
  intros Hv H0 Hx. destruct x as [|[]| |[] m e]; try done. simpl.
  destruct (f64_bounded _ _ Hv) as (? & _). apply Z.mul_pos_pos; [done|apply Z.pow_pos_nonneg; lia].
Qed.

(** The number of errors among the failures: the throttles do not count. *)
Definition is_error {E} (x : ErrorOrThrottle E) : bool :=
  match x with EtError _ => true | Throttle _ => false end.
Definition errors {E} (l : list (ErrorOrThrottle E)) : nat := length (List.filter is_error l).
Definition throttles {E} (l : list (ErrorOrThrottle E)) : nat := length (List.filter (fun x => negb (is_error x)) l).

Lemma errors_throttles {E} (l : list (ErrorOrThrottle E)) : length l = (errors l + throttles l)%nat.
Proof.
  unfold errors, throttles. induction l as [|x l IH]; [done|].
  simpl. rewrite IH. by destruct x; simpl; lia.
Qed.

(** The most errors that are retried before a deadline: the intervals that fit
    into it, twice as many because the sum is rounded. *)
Definition retry_bound (init deadline : f64) : Z := 2 * units_of deadline / units_of init.

Section deadline.
Context {W R : Type} `{!Timer W} `{!RngCore R} `{!TimerOk W} `{!RngOk R}.
Context {B E : Type} (do_stuff : io W (BackoffError E) (ControlFlow B (ErrorOrThrottle E))).
Context (lo hi : Z) (d : f64).

(** The largest power of two below the first interval. *)
Definition unit_step (self : Backoff R) : Z := 2 ^ Z.log2 (units_of (init_backoff self)).

Lemma unit_step_representable (self : Backoff R) k :
  0 <= k <= 2 ^ 53 -> representable (k * unit_step self).
Proof.
  intros Hk. exists k, (Z.log2 (units_of (init_backoff self)) - 1074).
  unfold unit_step. split; [do 2 f_equal; lia|]. split; [done|].
  pose proof (Z.log2_nonneg (units_of (init_backoff self))). lia.
Qed.

(** One interval adds at least a step. *)
Lemma next_total (self self' : Backoff R) k w n w' :
  backoff_ok (E:=E) lo hi self -> f64_lt f64_0 (init_backoff self) = true ->
  0 <= k < 2 ^ 53 -> at_least (k * unit_step self) (total self) ->
  Backoff_next (E:=BackoffError E) self w = Some (Ok (n, self'), w') ->
  init_backoff self' = init_backoff self /\ at_least ((k + 1) * unit_step self) (total self') /\
  (deadline self = Some d -> n = None <-> f64_le d (total self') = true).
Proof.
  intros Hok H0 Hk Ht Hn. pose proof (next_ok lo hi _ _ _ _ _ Hok Hn) as (Hok' & _ & _).
  assert (init_backoff self' = init_backoff self /\
    total self' = f64_add (total self) (next_backoff_secs self') /\
    (deadline self = Some d -> n = None <-> f64_le d (total self') = true)) as (Hi & Htot & Hnone).
  { revert Hn. unfold Backoff_next, io_bind, io_lift. destruct (draw _ _ _ w) as [[[[x g]|?|?] w1]|]; try done.
    destruct (from_secs_f64 _); try done. simpl.
    destruct (deadline self) as [d0|]; [destruct (f64_le d0 _) eqn:Hle|]; intros [= <- <- <-]; simpl;
      (split; [done|]; split; [done|]); [intros [= ->]..|done]; by rewrite Hle. }
  split; [done|]. split; [|done]. rewrite Htot.
  destruct Hok' as (Hvi & _ & Hvn & Hle & _ & Hlo & _). rewrite Hi in Hvi, Hle, Hlo.
  apply (f64_add_above _ (k * unit_step self) (units_of (init_backoff self)) _ _).
  - apply unit_step_representable. lia.
  - pose proof (Z.log2_spec _ (units_of_pos _ _ Hvi H0 Hlo)). unfold unit_step. lia.
  - done.
  - apply f64_le_at_least; try done. by apply f64_lt_le.
Qed.

(** What a backoff with a deadline keeps: the first interval, the deadline, and
    a sum of at least [k] steps. *)
Definition counting (k : Z) (self : Backoff R) : Prop :=
  backoff_ok (E:=E) lo hi self /\ f64_lt f64_0 (init_backoff self) = true /\
  deadline self = Some d /\ at_least (k * unit_step self) (total self).

Context (dur : Z) (Hd : f64_valid d = true) (Hdur : from_secs_f64 (E:=BackoffError E) d = Ok dur).

(** An interval that does not reach the deadline leaves fewer steps. *)
Lemma next_counting (self self' : Backoff R) k N w x w' :
  counting k self -> 0 <= k < N -> N <= 2 ^ 53 -> units_of d <= N * unit_step self ->
  Backoff_next (E:=BackoffError E) self w = Some (Ok (Some x, self'), w') ->
  counting (k + 1) self' /\ k + 1 < N /\ unit_step self' = unit_step self.
Proof.
  intros (Hok & H0 & Hdl & Ht) Hk HN Hu Hn.
  destruct (next_total self self' k w _ w' Hok H0 ltac:(lia) Ht Hn) as (Hi & Ht' & Hiff).
  specialize (Hiff Hdl). pose proof (next_ok lo hi _ _ _ _ _ Hok Hn) as (Hok' & _ & _).
  assert (unit_step self' = unit_step self) as Hs by (unfold unit_step; by rewrite Hi).
  split; [|split; [|done]].
  { split; [done|]. rewrite Hi, Hs, (next_deadline _ _ _ _ _ Hn). done. }
  destruct (Z.lt_ge_cases (k + 1) N) as [|Hge]; [done|]. exfalso.
  assert (Some x = None); [|done]. apply Hiff.
  apply (at_least_le (E:=BackoffError E) ((k + 1) * unit_step self) _ dur); try done.
  by replace (k + 1) with N by lia.
Qed.

Lemma failures_counting (self self1 : Backoff R) k N w l w1 :
  failures do_stuff self w l self1 w1 ->
  counting k self -> 0 <= k < N -> N <= 2 ^ 53 -> units_of d <= N * unit_step self ->
  k + Z.of_nat (errors l) < N.
Proof.
  intros Hf. revert k. induction Hf as [self w|self w e w1 x self1 w2 l self' w3 Hdo Hn _ IH
    |self w t w1 l self' w3 Hdo _ IH]; intros k Hc Hk HN Hu; [unfold errors; simpl; lia| |by apply IH].
  destruct (next_counting _ _ _ _ _ _ _ Hc Hk HN Hu Hn) as (Hc1 & Hk1 & Hs).
  change (errors (EtError e :: l)) with (S (errors l)). rewrite Nat2Z.inj_succ.
  specialize (IH (k + 1) Hc1 ltac:(lia) HN). rewrite Hs in IH. lia.
Qed.

Lemma failures_errors (self self1 : Backoff R) w l w1 :
  failures do_stuff self w l self1 w1 -> counting 0 self ->
  retry_bound (init_backoff self) d < 2 ^ 53 ->
  Z.of_nat (errors l) <= retry_bound (init_backoff self) d.
Proof.
  intros Hf Hc Hb. pose proof Hc as ((Hvi & _ & _ & _ & _ & Hlo & _) & H0 & _).
  pose proof (units_of_pos _ _ Hvi H0 Hlo) as Hu. pose proof (Z.log2_spec _ Hu) as Hl.
  unfold retry_bound in *. set (ui := units_of (init_backoff self)) in *.
  assert (0 <= units_of d) as Hud.
  { clear -Hd. destruct d as [|[]| |[] m e]; try done. simpl. destruct (f64_bounded _ _ Hd) as (? & _).
    apply Z.mul_nonneg_nonneg; [done|apply Z.pow_nonneg; lia]. }
  pose proof (Z.div_pos (2 * units_of d) ui ltac:(lia) Hu).
  pose proof (Z.mul_succ_div_gt (2 * units_of d) ui Hu) as Hgt.
  assert (0 + Z.of_nat (errors l) < 2 * units_of d / ui + 1); [|lia].
  apply (failures_counting self self1 0 _ w l w1 Hf Hc); [lia..|].
  unfold unit_step. fold ui. rewrite Z.pow_succ_r in Hl by apply Z.log2_nonneg.
  set (q := 2 * units_of d / ui) in *. set (L := 2 ^ Z.log2 ui) in *.
  assert (ui * Z.succ q <= 2 * L * Z.succ q) by (apply Z.mul_le_mono_nonneg_r; lia). lia.
Qed.

Lemma next_defined (self : Backoff R) w : Backoff_next (E:=BackoffError E) self w <> None.
Proof.
  unfold Backoff_next, io_bind, io_lift, draw.
  destruct (rng self) as [g|]; [destruct (gen_range _ _ g) as [[]|]|destruct (gen_range _ _ w) as [[]|]];
    try done; destruct (from_secs_f64 _); try done; by repeat case_match.
Qed.

(** If every attempt returns, a run goes on for [n] failures or ends before. *)
Lemma run_or_failures (n : nat) (self : Backoff R) w :
  (forall w, exists x, do_stuff w = Some x) -> counting 0 self ->
  (exists l self1 w1, failures do_stuff self w l self1 w1 /\ length l = n) \/
  (exists l self1 w1 r w', failures do_stuff self w l self1 w1 /\ (length l < n)%nat /\
     final do_stuff self1 w1 r w').
Proof.
  intros Htotal Hc. clear Hd. assert (Hdl : deadline self = Some d) by apply Hc. clear Hc.
  revert self w Hdl. induction n as [|n IH]; intros self w Hdl.
  { left. exists [], self, w. split; [constructor|done]. }
  assert (Hend : forall r w', final do_stuff self w r w' ->
    exists l self1 w1 r w', failures do_stuff self w l self1 w1 /\ (length l < S n)%nat /\
      final do_stuff self1 w1 r w').
  { intros r w' Hf. exists [], self, w, r, w'. split; [constructor|]. split; [simpl; lia|done]. }
  destruct (Htotal w) as [[[[b|[e|t]]|e|p] w1] Hdo].
  - right. eapply Hend, final_break, Hdo.
  - destruct (Backoff_next (E:=BackoffError E) self w1) as [[[[[x|] self1]|e1|p] w2]|] eqn:Hn.
    + destruct (IH self1 (sleep_for x w2)) as [(l & self2 & w3 & Hf & Hl)|(l & self2 & w3 & r & w' & Hf & Hl & Hfin)].
      { by rewrite (next_deadline _ _ _ _ _ Hn). }
      * left. do 3 eexists. split; [by eapply failures_error|]. simpl. lia.
      * right. do 5 eexists. split; [by eapply failures_error|]. split; [simpl; lia|done].
    + right. eapply Hend, final_deadline; [done..| |exact Hdur]. by rewrite (next_deadline _ _ _ _ _ Hn).
    + by apply next_not_err in Hn.
    + right. by eapply Hend, final_next_panic.
    + by apply next_defined in Hn.
  - destruct (IH self (sleep_for (from_millis t) w1) Hdl)
      as [(l & self2 & w3 & Hf & Hl)|(l & self2 & w3 & r & w' & Hf & Hl & Hfin)].
    + left. do 3 eexists. split; [by eapply failures_throttle|]. simpl. lia.
    + right. do 5 eexists. split; [by eapply failures_throttle|]. split; [simpl; lia|done].
  - right. eapply Hend, final_err, Hdo.
  - right. eapply Hend, final_panic, Hdo.
Qed.

(** The loop ends within the errors that fit before the deadline and the
    throttles. *)
Lemma retry_ends (T : nat) (self : Backoff R) w :
  counting 0 self -> retry_bound (init_backoff self) d < 2 ^ 53 ->
  (forall w, exists x, do_stuff w = Some x) ->
  (forall l self1 w1, failures do_stuff self w l self1 w1 -> (throttles l <= T)%nat) ->
  exists l self1 w1 r w',
    failures do_stuff self w l self1 w1 /\ final do_stuff self1 w1 r w' /\
    Z.of_nat (errors l) <= retry_bound (init_backoff self) d /\
    retry_with_backoff (S (Z.to_nat (retry_bound (init_backoff self) d) + T)) do_stuff self w = Some (r, w').
Proof.
  intros Hc Hb Htotal HT. set (n := (Z.to_nat (retry_bound (init_backoff self) d) + T)%nat).
  assert (Hlen : forall l self1 w1, failures do_stuff self w l self1 w1 ->
    Z.of_nat (errors l) <= retry_bound (init_backoff self) d /\ (length l <= n)%nat).
  { intros l self1 w1 Hf. pose proof (failures_errors _ _ _ _ _ Hf Hc Hb). pose proof (HT _ _ _ Hf).
    rewrite errors_throttles. lia. }
  destruct (run_or_failures (S n) self w Htotal Hc) as [(l & self1 & w1 & Hf & Hl)|(l & self1 & w1 & r & w' & Hf & Hl & Hfin)].
  { apply Hlen in Hf. lia. }
  exists l, self1, w1, r, w'. split; [done|]. split; [done|]. split; [exact (proj1 (Hlen _ _ _ Hf))|].
  apply (retry_le (S (length l)) (S n) do_stuff do_stuff); [reflexivity|lia|].
  by eapply retry_failures.
Qed.
End deadline.

(** The backoff of a configuration whose first interval and maximum are in order. *)
Definition config_ok {E} (config : BackoffConfig) (lo hi dur : Z) (d : f64) : Prop :=
  let init := as_secs_f64 (config_init_backoff config) in
  let max := as_secs_f64 (config_max_backoff config) in
  f64_valid init = true /\ f64_valid max = true /\ f64_valid d = true /\
  f64_lt f64_0 init = true /\ f64_le init max = true /\
  from_secs_f64 (E:=BackoffError E) init = Ok lo /\ from_secs_f64 (E:=BackoffError E) max = Ok hi /\
  option_map as_secs_f64 (config_deadline config) = Some d /\ from_secs_f64 (E:=BackoffError E) d = Ok dur /\
  retry_bound init d < 2 ^ 53.

Lemma new_counting {R E} config lo hi dur d :
  config_ok (E:=E) config lo hi dur d -> counting (R:=R) (E:=E) lo hi d 0 (Backoff_new config).
Proof.
  intros (Hvi & Hvm & Hvd & H0 & Hle & Hlo & Hhi & Hdl & Hdur & Hb).
  repeat split; try done. apply f64_le_refl. exact (proj1 (f64_le_not_nan _ _ Hle)).
Qed.

(** C24: a deadline ends the retries.  For a configuration with a deadline whose
    first interval is positive and not above the maximum ([config_ok]), if every attempt returns and the broker
    throttles at most [T] times, [retry_with_backoff] returns: at most
    [2 * deadline / init_backoff] errors are retried before it gives up, although
    the intervals are random and their sum is rounded, and that many iterations
    are enough fuel.  It ends the way its specification says, with a result of
    an attempt, the failure to meet the deadline, or, for a base of at most one,
    the panic of an empty range. *)
Theorem retry_deadline_terminates {W R : Type} `{!Timer W} `{!RngCore R} `{!TimerOk W} `{!RngOk R} {B E : Type}
    (do_stuff : io W (BackoffError E) (ControlFlow B (ErrorOrThrottle E))) config lo hi dur d T w :
  let self := Backoff_new (R:=R) config in
  let bound := retry_bound (init_backoff self) d in
  config_ok (E:=E) config lo hi dur d ->
  (forall w, exists x, do_stuff w = Some x) ->
  (forall l self1 w1, failures do_stuff self w l self1 w1 -> (throttles l <= T)%nat) ->
  exists l self1 w1 r w',
    failures do_stuff self w l self1 w1 /\ final do_stuff self1 w1 r w' /\
    Z.of_nat (errors l) <= bound /\
    retry_with_backoff (S (Z.to_nat bound + T)) do_stuff self w = Some (r, w').
Proof.
  intros self bound Hok Htotal HT. pose proof Hok as (_ & _ & Hvd & _ & _ & _ & _ & _ & Hdur & Hb).
  by apply (retry_ends do_stuff lo hi d dur); [| |apply new_counting with (dur:=dur)|..].
Qed.

(** ** A deadline of one second and attempts that always fail *)
Definition one_second : BackoffConfig :=
  mkBackoffConfig (from_millis 100) (from_secs 500) (f64_of_Z 3) (Some (from_secs 1)).

Definition always_fails : io AttemptWorld (BackoffError Z) (ControlFlow Z (ErrorOrThrottle Z)) := fun w =>
  Some (Ok (Continue (EtError 7)), w).

Lemma always_fails_no_throttle {R} `{!RngCore R} (self : Backoff R) w l self1 w1 :
  failures always_fails self w l self1 w1 -> (throttles l <= 0)%nat.
Proof. induction 1 as [|? ? e ? ? ? ? l ? ? Hdo Hn _ IH|? ? ? ? ? ? ? Hdo _ _]; [done|exact IH|done]. Qed.

Lemma retry_deadline_terminates_witness :
  retry_bound (as_secs_f64 (config_init_backoff one_second)) (f64_of_Z 1) = 19 /\
  exists l self1 w1 r w',
    failures always_fails (Backoff_new (R:=Empty_set) one_second) (mkAttemptWorld [] []) l self1 w1 /\
    final always_fails self1 w1 r w' /\ Z.of_nat (errors l) <= 19 /\
    retry_with_backoff (S (19 + 0)) always_fails (Backoff_new (R:=Empty_set) one_second) (mkAttemptWorld [] [])
      = Some (r, w').
Proof.
  split; [by vm_compute|].
  apply (retry_deadline_terminates (R:=Empty_set) always_fails one_second (from_millis 100) (from_secs 500)
    (from_secs 1) (f64_of_Z 1) 0 (mkAttemptWorld [] [])).
  - by vm_compute.
  - intros w. eexists. reflexivity.
  - apply always_fails_no_throttle.
Defined.

(** With intervals of 100 ms the tenth error is not retried. *)
Example one_second_run :
  retry_with_backoff 20 always_fails (Backoff_new (R:=Empty_set) one_second) (mkAttemptWorld [] [])
  = Some (Err (DeadlineExceded (from_secs 1) 7), mkAttemptWorld (replicate 10 (from_millis 100)) []).
Proof. by vm_compute. Qed.
