(* ===== verification/Topology.v ===== *)
(** * Known brokers of the cluster (src/connection/topology.rs)

    A map from broker IDs to addresses behind a lock, filled from the brokers
    that metadata responses list.  Its contract is "the last address announced
    for each broker"; the map implements it without ever growing twice for a
    broker, and it never forgets one. *)

From Stdlib Require Import ZArith Lia.
From stdpp Require Import base list numbers gmap.
From S2P Require Import Prelude Bytes Wire VecBuilder Varint Primitives PrimitiveLaws ApiKey.
From S2P Require Import ErrorCode Versioned TopicMessages.

Local Open Scope Z_scope.

Record Broker : Type := mkBroker {
  broker_id : Z;
  broker_host : rstring;
  broker_port : Z;
}.

#[export] Instance Broker_eq_dec : EqDecision Broker.
Proof. solve_decision. Defined.

(** [From<&MetadataResponseBroker> for Broker]. *)
Definition Broker_from (b : MetadataResponseBroker) : Broker :=
  mkBroker (int32 (node_id b)) (string_ (host b)) (int32 (port b)).

(** ** [Display]: numbers in decimal *)
Definition digit (z : Z) : byte := byte_of_Z (48 + z).

Fixpoint decimal_loop (fuel : nat) (z : Z) : rstring :=
  match fuel with
  | O => []
  | S fuel => if z <? 10 then [digit z] else decimal_loop fuel (z / 10) ++ [digit (z mod 10)]
  end.

Definition colon : byte := byte_of_Z 58.
Definition minus : byte := byte_of_Z 45.

(** [Display for i32]. *)
Definition decimal (z : Z) : rstring :=
  if z <? 0 then minus :: decimal_loop 20 (- z) else decimal_loop 20 z.

(** [Display for Broker]: [host:port]. *)
Definition Broker_to_string (b : Broker) : rstring :=
  broker_host b ++ [colon] ++ decimal (broker_port b).

(** ** Operations *)
Abbreviation BrokerTopology := (gmap Z Broker).

Definition topology_is_empty (t : BrokerTopology) : bool := bool_decide (t = ∅).

Definition get_broker (t : BrokerTopology) (broker_id : Z) : option Broker := t !! broker_id.

(** [values().cloned().collect()]; the order is that of the map. *)
Definition get_brokers (t : BrokerTopology) : list Broker := (map_to_list t).*2.

(** The body of the loop of [update], on the entry for the ID. *)
Definition update_broker (t : BrokerTopology) (broker : MetadataResponseBroker) : BrokerTopology :=
  let id := int32 (node_id broker) in
  match t !! id with
  | Some current =>
      if negb (bool_decide (broker_host current = string_ (host broker))) ||
         negb (broker_port current =? int32 (port broker))
      then <[id := Broker_from broker]> t
      else t
  | None => <[id := Broker_from broker]> t
  end.

(** [BrokerTopology::update]. *)
Definition topology_update (bs : list MetadataResponseBroker) (t : BrokerTopology) : BrokerTopology :=
  fold_left update_broker bs t.

(** ** The contract: the last announcement of each broker *)
Definition announced (history : list MetadataResponseBroker) (id : Z) : option Broker :=
  fold_left (fun acc b => if int32 (node_id b) =? id then Some (Broker_from b) else acc) history None.

Definition implements (t : BrokerTopology) (history : list MetadataResponseBroker) : Prop :=
  forall id, t !! id = announced history id.

Lemma announced_snoc history b id :
  announced (history ++ [b]) id =
    if int32 (node_id b) =? id then Some (Broker_from b) else announced history id.
Proof. unfold announced. by rewrite fold_left_app. Qed.

Lemma announced_id history id b : announced history id = Some b -> broker_id b = id.
Proof.
  induction history as [|x history IH] using rev_ind; [done|]. rewrite announced_snoc.
  destruct (Z.eqb_spec (int32 (node_id x)) id); [|done]. by intros [= <-].
Qed.

Lemma implements_step t history b :
  implements t history -> implements (update_broker t b) (history ++ [b]).
Proof.
  intros Ht id. rewrite announced_snoc. unfold update_broker.
  destruct (t !! int32 (node_id b)) as [cur|] eqn:Hcur.
  - destruct (bool_decide_reflect (broker_host cur = string_ (host b))) as [Hh|];
      [destruct (Z.eqb_spec (broker_port cur) (int32 (port b))) as [Hp|]|]; cbn [negb orb].
    1: { destruct (Z.eqb_spec (int32 (node_id b)) id) as [<-|]; [|apply Ht]. rewrite Hcur. f_equal.
         rewrite Ht in Hcur. apply announced_id in Hcur. destruct cur; simpl in *. by subst. }
    all: rewrite lookup_insert; case_decide; destruct (Z.eqb_spec (int32 (node_id b)) id); done || apply Ht.
  - rewrite lookup_insert. case_decide; destruct (Z.eqb_spec (int32 (node_id b)) id); done || apply Ht.
Qed.

Lemma implements_update t history bs :
  implements t history -> implements (topology_update bs t) (history ++ bs).
Proof.
  revert t history. induction bs as [|b bs IH]; intros t history Ht; [by rewrite app_nil_r|].
  simpl. rewrite cons_middle, app_assoc. by apply IH, implements_step.
Qed.

Lemma update_broker_known t b id : is_Some (t !! id) -> is_Some (update_broker t b !! id).
Proof.
  intros Ht. unfold update_broker. repeat case_match; try done; by apply lookup_insert_is_Some'; right.
Qed.

(** Nothing is forgotten. *)
Lemma topology_update_known bs t id : is_Some (t !! id) -> is_Some (topology_update bs t !! id).
Proof.
  revert t. induction bs as [|b bs IH]; intros t Ht; [done|]. simpl. by apply IH, update_broker_known.
Qed.

(** ** Properties *)

(** The topology refines "the last announced address of each broker":
    after any sequence of updates a broker is known exactly when some response
    listed it, with the address of the last response that did, and the list of
    brokers has each of them once. *)
Theorem topology_refines_announcements (updates : list (list MetadataResponseBroker)) :
  let t := fold_left (fun t bs => topology_update bs t) updates ∅ in
  implements t (concat updates) /\
  (forall b, b ∈ get_brokers t <-> announced (concat updates) (broker_id b) = Some b) /\
  NoDup (map broker_id (get_brokers t)).
Proof.
  intros t. assert (Himp : implements t (concat updates)).
  { unfold t. clear t. induction updates as [|bs updates IH] using rev_ind; [done|].
    rewrite fold_left_app, concat_app. simpl. rewrite app_nil_r. by apply implements_update. }
  assert (Hid : forall id b, (id, b) ∈ map_to_list t -> broker_id b = id).
  { intros id b Hb%elem_of_map_to_list. rewrite Himp in Hb. by apply announced_id in Hb. }
  split; [done|]. unfold get_brokers. split.
  - intros b. rewrite list_elem_of_fmap. split.
    + intros ([id b'] & -> & Hin). simpl. pose proof (Hid _ _ Hin) as ->.
      apply elem_of_map_to_list in Hin. by rewrite Himp in Hin.
    + intros Hb. exists (broker_id b, b). split; [done|]. apply elem_of_map_to_list. by rewrite Himp.
  - rewrite map_map. rewrite (map_ext_in _ fst); [apply NoDup_fst_map_to_list|].
    intros [id b] Hin%list_elem_of_In. simpl. by apply Hid.
Qed.
