(* ===== verification/Transport.v ===== *)
(** * Opening a connection (src/connection/transport.rs, transport/sasl.rs)

    [Transport::connect] resolves an address [host:port], optionally goes
    through a SOCKS5 proxy, and optionally wraps the stream in TLS.  Sockets,
    the proxy protocol and TLS are code of other crates; they are the fields of
    [Sockets]. *)

From Stdlib Require Import ZArith Lia.
From stdpp Require Import base list numbers gmap.
From S2P Require Import Prelude Bytes Wire Io Topology.

Local Open Scope Z_scope.
Local Open Scope rust_scope.

Module TransportErrors.
Inductive Error : Type :=
| IO (e : ErrorKind)
| InvalidHostPort (broker : rstring)
| InvalidPort
| BadHostname
| Socks5.
End TransportErrors.

(** ** SASL configuration *)
Record Credentials : Type := mkCredentials {
  username : rstring;
  password : rstring;
}.

Inductive SaslConfig : Type :=
| SaslPlain (c : Credentials)
| ScramSha256 (c : Credentials)
| ScramSha512 (c : Credentials).

(** [SaslConfig::credentials]. *)
Definition credentials (self : SaslConfig) : Credentials :=
  match self with
  | SaslPlain c => c
  | ScramSha256 c => c
  | ScramSha512 c => c
  end.

(** A string literal of ASCII characters. *)
Definition ascii_string (l : list Z) : rstring := map byte_of_Z l.

(** [SaslConfig::mechanism]: "PLAIN", "SCRAM-SHA-256" and "SCRAM-SHA-512". *)
Definition sasl_mechanism (self : SaslConfig) : rstring :=
  match self with
  | SaslPlain _ => ascii_string [80; 76; 65; 73; 78]
  | ScramSha256 _ => ascii_string [83; 67; 82; 65; 77; 45; 83; 72; 65; 45; 50; 53; 54]
  | ScramSha512 _ => ascii_string [83; 67; 82; 65; 77; 45; 83; 72; 65; 45; 53; 49; 50]
  end.

(** ** Strings *)

(** [str::split]. *)
Fixpoint split_on (c : byte) (s : rstring) : list rstring :=
  match s with
  | [] => [[]]
  | x :: s =>
      if decide (x = c) then [] :: split_on c s
      else match split_on c s with
           | p :: ps => (x :: p) :: ps
           | [] => [[x]]
           end
  end.

Definition digit_value (b : byte) : option Z :=
  let v := byte_to_Z b - 48 in
  if (0 <=? v) && (v <? 10) then Some v else None.

(** [u16::from_str]: an optional plus sign, then digits; [None] for anything
    else and for values that do not fit. *)
Fixpoint parse_digits (acc : Z) (s : rstring) : option Z :=
  match s with
  | [] => Some acc
  | b :: s =>
      match digit_value b with
      | Some v => let acc := acc * 10 + v in if acc <? 2 ^ 16 then parse_digits acc s else None
      | None => None
      end
  end.

Definition parse_u16 (s : rstring) : option Z :=
  match s with
  | [] => None
  | b :: rest =>
      if decide (b = byte_of_Z 43) then match rest with [] => None | _ => parse_digits 0 rest end
      else parse_digits 0 s
  end.

(** ** The network *)
Class Sockets (N : Type) : Type := {
  TcpStream : Type;
  TlsStream : Type;
  ClientConfig : Type;
  ServerName : Type;
  tcp_connect : rstring -> io N ErrorKind TcpStream;
  socks5_connect : TcpStream -> rstring * Z -> io N unit TcpStream;
  server_name_try_from : rstring -> option ServerName;
  tls_connect : ClientConfig -> ServerName -> TcpStream -> io N ErrorKind TlsStream;
}.

Section transport.
Context {N : Type} `{!Sockets N}.

(** [TlsConfig]. *)
Definition TlsConfig : Type := option ClientConfig.

Inductive Transport : Type :=
| Plain (inner : TcpStream)
| Tls (inner : TlsStream).

Import TransportErrors.

(** [Transport::connect_tcp]. *)
Definition connect_tcp (broker : rstring) (socks5_proxy : option rstring) :
    io N Error TcpStream :=
  match socks5_proxy with
  | Some proxy =>
      do! stream <- io_map_err IO (tcp_connect proxy) in
      match split_on colon broker with
      | [] => io_err (InvalidHostPort broker)
      | [_] => io_err (InvalidHostPort broker)
      | broker_host :: broker_port :: _ =>
          do! broker_port <- io_lift (ok_or InvalidPort (parse_u16 broker_port)) in
          io_map_err (fun _ => Socks5) (socks5_connect stream (broker_host, broker_port))
      end
  | None => io_map_err IO (tcp_connect broker)
  end.

(** [Transport::wrap_tls]. *)
Definition wrap_tls (tcp_stream : TcpStream) (broker : rstring) (tls_config : TlsConfig) :
    io N Error Transport :=
  match tls_config with
  | Some config =>
      do! host <- io_lift (ok_or (InvalidHostPort broker) (head (split_on colon broker))) in
      do! server_name <- io_lift (ok_or BadHostname (server_name_try_from host)) in
      do! tls_stream <- io_map_err IO (tls_connect config server_name tcp_stream) in
      io_ret (Tls tls_stream)
  | None => io_ret (Plain tcp_stream)
  end.

(** [Transport::connect]. *)
Definition Transport_connect (broker : rstring) (tls_config : TlsConfig)
    (socks5_proxy : option rstring) : io N Error Transport :=
  do! tcp_stream <- connect_tcp broker socks5_proxy in
  wrap_tls tcp_stream broker tls_config.
End transport.

(** ** Lemmas *)
Lemma split_on_clean c s t : c ∉ s -> split_on c (s ++ [c] ++ t) = s :: split_on c t.
Proof.
  induction s as [|x s IH]; intros Hs; simpl; [by destruct (decide (c = c))|].
  apply not_elem_of_cons in Hs as [Hx Hs]. destruct (decide (x = c)); [by subst|].
  simpl in IH. by rewrite IH.
Qed.

Lemma split_on_none c s : c ∉ s -> split_on c s = [s].
Proof.
  induction s as [|x s IH]; intros Hs; simpl; [done|].
  apply not_elem_of_cons in Hs as [Hx Hs]. destruct (decide (x = c)); [by subst|].
  by rewrite IH.
Qed.

Lemma digit_value_digit d : 0 <= d < 10 -> digit_value (digit d) = Some d.
Proof.
  intros Hd. unfold digit_value, digit. rewrite byte_to_of_Z, Z.mod_small by lia.
  replace (48 + d - 48) with d by lia.
  destruct (Z.leb_spec 0 d), (Z.ltb_spec d 10); try lia. done.
Qed.

Lemma parse_digits_app acc s t :
  parse_digits acc (s ++ t) = parse_digits acc s ≫= fun acc => parse_digits acc t.
Proof.
  revert acc. induction s as [|b s IH]; intros acc; simpl; [done|].
  destruct (digit_value b); [|done]. case_match; [apply IH|done].
Qed.

Lemma parse_decimal_loop fuel z :
  0 <= z < 2 ^ 16 -> z < 10 ^ Z.of_nat fuel -> parse_digits 0 (decimal_loop fuel z) = Some z.
Proof.
  revert z. induction fuel as [|fuel IH]; intros z Hz Hf; [simpl in *; f_equal; lia|].
  rewrite Nat2Z.inj_succ, Z.pow_succ_r in Hf by lia. cbn [decimal_loop].
  destruct (Z.ltb_spec z 10).
  - cbn [parse_digits]. rewrite digit_value_digit by lia. cbn zeta.
    destruct (Z.ltb_spec (0 * 10 + z) (2 ^ 16)); [|lia]. f_equal.
  - pose proof (Z.div_mod z 10 ltac:(lia)). pose proof (Z.mod_pos_bound z 10 ltac:(lia)).
    rewrite parse_digits_app, IH; [|lia|apply Z.div_lt_upper_bound; lia].
    cbn [mbind option_bind parse_digits]. rewrite digit_value_digit by lia. cbn zeta.
    replace (z / 10 * 10 + z mod 10) with z by lia.
    destruct (Z.ltb_spec z (2 ^ 16)); [done|lia].
Qed.

(** The text of a number has only digits. *)
Lemma decimal_loop_digits fuel z b :
  0 <= z -> b ∈ decimal_loop fuel z -> 48 <= byte_to_Z b < 58.
Proof.
  revert z. induction fuel as [|fuel IH]; intros z Hz; cbn [decimal_loop]; [by intros ?%elem_of_nil|].
  assert (Hd : forall d, 0 <= d < 10 -> 48 <= byte_to_Z (digit d) < 58).
  { intros d Hd. unfold digit. rewrite byte_to_of_Z, Z.mod_small; lia. }
  destruct (Z.ltb_spec z 10).
  - intros ->%list_elem_of_singleton. apply Hd. lia.
  - rewrite elem_of_app, list_elem_of_singleton. intros [Hb| ->].
    + eapply IH; [|exact Hb]. apply Z.div_pos; lia.
    + apply Hd. apply Z.mod_pos_bound. lia.
Qed.

Lemma decimal_loop_cons fuel z : exists b l, decimal_loop (S fuel) z = b :: l.
Proof.
  cbn [decimal_loop]. destruct (z <? 10); [eauto|].
  destruct (decimal_loop fuel (z / 10)); simpl; eauto.
Qed.

Lemma parse_u16_decimal z : 0 <= z < 2 ^ 16 -> parse_u16 (decimal z) = Some z.
Proof.
  intros Hz. unfold decimal. destruct (Z.ltb_spec z 0); [lia|].
  assert (Hf : z < 10 ^ Z.of_nat 20) by (change (10 ^ Z.of_nat 20) with (10 ^ 20); lia).
  pose proof (parse_decimal_loop 20 z Hz Hf) as Hp.
  pose proof (decimal_loop_digits 20 z) as Hd.
  destruct (decimal_loop_cons 19 z) as (b & l & Hl). rewrite Hl in *. unfold parse_u16.
  case_decide as Hb; [|done]. specialize (Hd b ltac:(lia) ltac:(left)).
  rewrite Hb, byte_to_of_Z, Z.mod_small in Hd; lia.
Qed.

Lemma decimal_no_colon z : 0 <= z -> colon ∉ decimal z.
Proof.
  intros Hz. unfold decimal. destruct (Z.ltb_spec z 0); [lia|].
  intros Hc%decimal_loop_digits; [|done]. unfold colon in Hc. rewrite byte_to_of_Z, Z.mod_small in Hc; lia.
Qed.

Section properties.
Context {N : Type} `{!Sockets N}.

(** Through a proxy, a broker of the topology is reached at exactly the
    host and the port that the cluster announced: the address survives being
    printed as [host:port] and parsed again, for host names without a colon. *)
Theorem socks5_address_round_trip (b : Broker) proxy :
  colon ∉ broker_host b -> 0 <= broker_port b < 2 ^ 16 ->
  connect_tcp (Broker_to_string b) (Some proxy) =
    (do! stream <- io_map_err TransportErrors.IO (tcp_connect proxy) in
     do! port <- io_lift (Ok (broker_port b)) in
     io_map_err (fun _ => TransportErrors.Socks5) (socks5_connect stream (broker_host b, port))).
Proof.
  intros Hh Hp. unfold connect_tcp, Broker_to_string. rewrite split_on_clean by done.
  rewrite split_on_none by (apply decimal_no_colon; lia). by rewrite parse_u16_decimal.
Qed.

(** An address with a colon in its host part, such as an IPv6 literal, is cut
    at the first one: the name that is verified by TLS is only what precedes
    it. *)
Theorem tls_name_before_first_colon tcp config host rest :
  colon ∉ host ->
  wrap_tls tcp (host ++ [colon] ++ rest) (Some config) =
    (do! server_name <- io_lift (ok_or TransportErrors.BadHostname (server_name_try_from host)) in
     do! tls_stream <- io_map_err TransportErrors.IO (tls_connect config server_name tcp) in
     io_ret (Tls tls_stream)).
Proof. intros Hh. unfold wrap_tls. by rewrite split_on_clean. Qed.
End properties.
