(* ===== verification/TransportStream.v ===== *)
(** * Bytes over a transport (src/connection/transport.rs)

    [Transport] is a stream itself: its [AsyncRead] and [AsyncWrite] hand every
    call to the TCP or the TLS stream inside.  What the messenger relies on is
    the class [AsyncStreamOk]; a transport has it when both of its streams
    do. *)

From Stdlib Require Import ZArith Lia.
From stdpp Require Import base list numbers.
From S2P Require Import Prelude Bytes Wire Io Support Topology Transport.

Local Open Scope Z_scope.
Local Open Scope rust_scope.

(** [AsyncRead] and [AsyncWrite] of [tokio::io].  [poll_read] is given the
    room that is left in the [ReadBuf] and yields the bytes it put there. *)
Class AsyncStream (S : Type) : Type := {
  poll_read : Z -> S -> Poll (outcome ErrorKind (list byte)) * S;
  poll_write : list byte -> S -> Poll (outcome ErrorKind Z) * S;
  poll_flush : S -> Poll (outcome ErrorKind unit) * S;
  poll_shutdown : S -> Poll (outcome ErrorKind unit) * S;
}.

(** A stream fills no more than the buffer, takes no more than it was given,
    and does not panic. *)
Definition no_poll_panic {A} (r : Poll (outcome ErrorKind A)) : Prop :=
  match r with Ready (Panic _) => False | _ => True end.

Class AsyncStreamOk (S : Type) `{!AsyncStream S} : Prop := {
  poll_read_fits : forall room s bs s', 0 <= room -> poll_read room s = (Ready (Ok bs), s') -> zlen bs <= room;
  poll_write_fits : forall buf s n s', poll_write buf s = (Ready (Ok n), s') -> 0 <= n <= zlen buf;
  poll_no_panic : forall room buf s,
    no_poll_panic (fst (poll_read room s)) /\ no_poll_panic (fst (poll_write buf s)) /\
    no_poll_panic (fst (poll_flush s)) /\ no_poll_panic (fst (poll_shutdown s));
}.

Section stream.
Context {N : Type} `{!Sockets N, !AsyncStream TcpStream, !AsyncStream TlsStream}.
Abbreviation Transport := (Transport (N:=N)).

(** [self.deref_mut()]: the stream inside is polled in place. *)
Definition in_plain {A} (r : A * TcpStream) : A * Transport := (fst r, Plain (snd r)).
Definition in_tls {A} (r : A * TlsStream) : A * Transport := (fst r, Tls (snd r)).

Definition Transport_poll_read (buf : Z) (self : Transport) :
    Poll (outcome ErrorKind (list byte)) * Transport :=
  match self with
  | Plain inner => in_plain (poll_read buf inner)
  | Tls inner => in_tls (poll_read buf inner)
  end.

Definition Transport_poll_write (buf : list byte) (self : Transport) :
    Poll (outcome ErrorKind Z) * Transport :=
  match self with
  | Plain inner => in_plain (poll_write buf inner)
  | Tls inner => in_tls (poll_write buf inner)
  end.

Definition Transport_poll_flush (self : Transport) : Poll (outcome ErrorKind unit) * Transport :=
  match self with
  | Plain inner => in_plain (poll_flush inner)
  | Tls inner => in_tls (poll_flush inner)
  end.

Definition Transport_poll_shutdown (self : Transport) : Poll (outcome ErrorKind unit) * Transport :=
  match self with
  | Plain inner => in_plain (poll_shutdown inner)
  | Tls inner => in_tls (poll_shutdown inner)
  end.

#[export] Instance Transport_AsyncStream : AsyncStream Transport := {|
  poll_read := Transport_poll_read;
  poll_write := Transport_poll_write;
  poll_flush := Transport_poll_flush;
  poll_shutdown := Transport_poll_shutdown;
|}.

#[export] Instance Transport_AsyncStreamOk
    `{!AsyncStreamOk TcpStream, !AsyncStreamOk TlsStream} : AsyncStreamOk Transport.
Proof.
  split.
  - intros room [s|s] bs s' Hroom; cbn; intros [= Hr _]; destruct (poll_read room s) as [r s1] eqn:Hp;
      simpl in Hr; subst r; exact (poll_read_fits _ _ _ _ Hroom Hp).
  - intros buf [s|s] n s'; cbn; intros [= Hr _]; destruct (poll_write buf s) as [r s1] eqn:Hp;
      simpl in Hr; subst r; exact (poll_write_fits _ _ _ _ Hp).
  - intros room buf [s|s]; apply (poll_no_panic room buf s).
Qed.

(** [write_all]: the buffer is offered until all of it is taken. [None]: the
    stream is not ready, and the bytes that are left are kept for the next
    poll. *)
Fixpoint stream_write_all {S} `{!AsyncStream S} (fuel : nat) (buf : list byte) (s : S) :
    option (outcome ErrorKind unit) * list byte * S :=
  match buf, fuel with
  | [], _ => (Some (Ok tt), [], s)
  | _, O => (None, buf, s)
  | _, Datatypes.S fuel =>
      match poll_write buf s with
      | (Pending, s) => (None, buf, s)
      | (Ready (Ok n), s) =>
          if n =? 0 then (Some (Err OtherIo), buf, s)
          else stream_write_all fuel (drop (Z.to_nat n) buf) s
      | (Ready (Err e), s) => (Some (Err e), buf, s)
      | (Ready (Panic p), s) => (Some (Panic p), buf, s)
      end
  end.

(** The encrypted stream stays the encrypted stream. *)
Definition is_tls (t : Transport) : bool := match t with Tls _ => true | Plain _ => false end.

Theorem write_stays_encrypted fuel buf t r rest t' :
  stream_write_all fuel buf t = (r, rest, t') -> is_tls t' = is_tls t /\ exists sent, buf = sent ++ rest.
Proof.
  revert buf t. induction fuel as [|fuel IH]; intros [|b buf] t; simpl;
    try (intros [= <- <- <-]; split; [done|by exists []]).
  assert (Hk : is_tls (snd (Transport_poll_write (b :: buf) t)) = is_tls t) by (by destruct t).
  destruct (Transport_poll_write (b :: buf) t) as [[|[n|e|p]] t1]; simpl in Hk;
    try (intros [= <- <- <-]; split; [done|by exists []]).
  destruct (Z.eqb_spec n 0); [intros [= <- <- <-]; split; [done|by exists []]|].
  intros [Ht (sent & Hs)]%IH. split; [congruence|].
  exists (take (Z.to_nat n) (b :: buf) ++ sent). by rewrite <-app_assoc, <-Hs, take_drop.
Qed.

(** Streams that keep to the contract and are always ready are written to the
    end: every poll takes at least a byte. *)
Theorem write_all_ends {S} `{AsyncStreamOk S} fuel buf (s : S) :
  (forall bs s, exists r s', poll_write bs s = (Ready r, s')) -> (length buf <= fuel)%nat ->
  exists r rest s', stream_write_all fuel buf s = (Some r, rest, s').
Proof.
  intros Hready. revert buf s. induction fuel as [|fuel IH]; intros [|b buf] s Hlen; simpl in *;
    [eauto..|lia|eauto|].
  destruct (Hready (b :: buf) s) as (r & s' & Hp). rewrite Hp. destruct r as [n|e|p]; [|eauto..].
  destruct (Z.eqb_spec n 0); [eauto|]. apply IH.
  apply poll_write_fits in Hp. rewrite length_drop. simpl. lia.
Qed.
End stream.
