(* ===== verification/Session.v ===== *)
(** * The messenger as its callers see it (src/messenger.rs)

    The world that the clients run in, requests over an established
    connection, the version negotiation and the SASL exchange.  A request is
    prepared and its response interpreted by the functions of [Messenger];
    between the two, its frame is sent and its response awaited while other
    callers use the connection.  That part is the system of [MessengerSystem]
    together with the broker: here it is the field [exchange] of [Network], with
    the errors that the messenger reports as its law. *)

From Stdlib Require Import ZArith Lia.
From stdpp Require Import base list numbers gmap.
From S2P Require Import Prelude Bytes Wire VecBuilder Varint Primitives PrimitiveLaws ApiKey.
From S2P Require Import ErrorCode Versioned Header ApiVersionsMsg TopicMessages SaslMessages Frame.
From S2P Require Import Support MetadataCache Messenger MessengerSystem Io Backoff Topology Transport.

Local Open Scope Z_scope.
Local Open Scope rust_scope.

(** ** The network and other crates *)
Class Network (N : Type) : Type := {
  net_timer :: Timer N;
  net_sockets :: Sockets N;
  (** [SliceRandom::shuffle] with the thread's generator *)
  shuffle : forall A, list A -> N -> list A * N;
  (** a message with a correlation ID, on a stream with a size limit for the
      answer; whether the answer has tagged fields in its header *)
  exchange : Transport -> Z -> Z -> list byte -> bool -> io N RequestError Response;
}.
Arguments shuffle {N _} {A} l n.

(** What is relied on. [exchange_ok] is what [MessengerSystem.call_results]
    proves of the calls, the reader task and poisoning. *)
Class NetworkOk (N : Type) `{!Network N} : Prop := {
  net_timer_ok :: TimerOk N;
  shuffle_permutation : forall A (l : list A) n, Permutation (fst (shuffle l n)) l;
  exchange_ok : forall t size id buf tagged n r n',
    exchange t size id buf tagged n = Some (r, n') ->
    match r with Ok _ => True | Err e => exchange_error e | Panic _ => False end;
}.

(** The [rsasl] crate: mechanism names, and a session that turns what the
    server sent into what to send, until it is not running any more. *)
Class Rsasl : Type := {
  Mechname : Type;
  mechname_eq_dec :: EqDecision Mechname;
  mechname_parse : rstring -> option Mechname;
  SaslClientConfig : Type;
  with_credentials : rstring -> rstring -> option SaslClientConfig;
  SaslSession : Type;
  start_suggested : SaslClientConfig -> Mechname -> option SaslSession;
  (** an error of the session is opaque *)
  session_step : SaslSession -> option (list byte) -> outcome unit (bool * list byte * SaslSession);
}.

(** ** The world *)
Section world.
Context {N : Type} `{!Network N}.

(** [Messenger]: the stream, and where its correlation counter is kept.  The
    version ranges are set before the connection is shared. *)
Record MessengerTransport : Type := mkMessengerTransport {
  stream : Transport;
  max_message_size : Z;
  client_id : rstring;
  counter : nat;
  version_ranges : version_map;
}.

(** [BrokerCacheGeneration] is a number; a cache of a connection. *)
Record BrokerCell : Type := mkBrokerCell {
  cell_broker : option MessengerTransport;
  cell_gen : Z;
}.

(** [CurrentBroker] of a partition client. *)
Record CurrentBroker : Type := mkCurrentBroker {
  broker : option MessengerTransport;
  gen_broker : Z;
  gen_leader_from_arbitrary : option Z;
  gen_leader_from_self : option Z;
}.

(** The state of a client: the counters of its messengers, the topology, the
    caches of the connector, of the controller client and of a partition
    client, and the network around it. *)
Record World : Type := mkWorld {
  w_net : N;
  w_counters : list Z;
  w_topology : BrokerTopology;
  w_arbitrary : BrokerCell;
  w_metadata : MetadataCache;
  w_controller : BrokerCell;
  w_leader : CurrentBroker;
}.

Definition set_net (n : N) (w : World) : World :=
  mkWorld n (w_counters w) (w_topology w) (w_arbitrary w) (w_metadata w) (w_controller w) (w_leader w).
Definition set_counters (c : list Z) (w : World) : World :=
  mkWorld (w_net w) c (w_topology w) (w_arbitrary w) (w_metadata w) (w_controller w) (w_leader w).
Definition set_topology (t : BrokerTopology) (w : World) : World :=
  mkWorld (w_net w) (w_counters w) t (w_arbitrary w) (w_metadata w) (w_controller w) (w_leader w).
Definition set_arbitrary (c : BrokerCell) (w : World) : World :=
  mkWorld (w_net w) (w_counters w) (w_topology w) c (w_metadata w) (w_controller w) (w_leader w).
Definition set_metadata (m : MetadataCache) (w : World) : World :=
  mkWorld (w_net w) (w_counters w) (w_topology w) (w_arbitrary w) m (w_controller w) (w_leader w).
Definition set_controller (c : BrokerCell) (w : World) : World :=
  mkWorld (w_net w) (w_counters w) (w_topology w) (w_arbitrary w) (w_metadata w) c (w_leader w).
Definition set_leader (c : CurrentBroker) (w : World) : World :=
  mkWorld (w_net w) (w_counters w) (w_topology w) (w_arbitrary w) (w_metadata w) (w_controller w) c.

(** What the network does leaves the client's own state alone. *)
Definition with_net {E A} (m : io N E A) : io World E A := fun w =>
  match m (w_net w) with
  | Some (r, n) => Some (r, set_net n w)
  | None => None
  end.

#[export] Instance World_Timer : Timer World := {|
  thread_rng lo hi w :=
    match gen_range lo hi (w_net w) with
    | Some (x, n) => Some (x, set_net n w)
    | None => None
    end;
  sleep_for d w := set_net (sleep_for d (w_net w)) w;
  slept w := slept (w_net w);
|}.

#[export] Instance World_TimerOk `{!NetworkOk N} : TimerOk World.
Proof.
  split; [split|..]; unfold gen_range; simpl.
  - intros lo hi w Hlt. by rewrite (gen_range_empty lo hi (w_net w) Hlt).
  - intros lo hi w x w'. destruct (gen_range lo hi (w_net w)) as [[y n]|] eqn:Hg; [|done].
    intros [= <- <-]. by apply gen_range_in in Hg.
  - intros d w. apply slept_sleep.
  - intros lo hi w x w'. destruct (gen_range lo hi (w_net w)) as [[y n]|] eqn:Hg; [|done].
    intros [= <- <-]. by apply slept_gen_range in Hg.
Qed.

(** ** Requests *)

(** [Messenger::new]. *)
Definition Messenger_new {E} (stream : Transport) (max_message_size : Z) (client_id : rstring) :
    io World E MessengerTransport := fun w =>
  Some (Ok (mkMessengerTransport stream max_message_size client_id (length (w_counters w)) []),
        set_counters (w_counters w ++ [0]) w).

(** [self.correlation_id.fetch_add(1, ..)]: an [AtomicI32] wraps around. *)
Definition fetch_correlation_id {E} (self : MessengerTransport) : io World E Z := fun w =>
  let id := default 0 (w_counters w !! counter self) in
  Some (Ok id, set_counters (<[counter self := wrap_signed 32 (id + 1)]> (w_counters w)) w).

(** [request_with_version_ranges]. *)
Definition request_with_version_ranges {Req Resp}
    `{RequestBody Req Resp, WriteVersionedType Req, ReadVersionedType Resp}
    (self : MessengerTransport) (msg : Req) (version_ranges : version_map) :
    io World RequestError Resp :=
  let key := API_KEY (Req:=Req) (Resp:=Resp) in
  match version_get version_ranges key ≫= fun range_server =>
        match_versions range_server (API_VERSION_RANGE (Req:=Req) (Resp:=Resp)) with
  | None => io_err (NoVersionMatch key)
  | Some _ =>
      do! correlation_id <- fetch_correlation_id self in
      do! p <- io_lift (prepare_request (Resp:=Resp) version_ranges (client_id self) correlation_id msg) in
      do! response <- with_net (exchange (stream self) (max_message_size self) correlation_id
                                  (prepared_buf p) (use_tagged_fields_in_response p)) in
      io_lift (finish_response key (body_api_version p) response)
  end.

(** [Messenger::request]. *)
Definition request {Req Resp}
    `{RequestBody Req Resp, WriteVersionedType Req, ReadVersionedType Resp}
    (self : MessengerTransport) (msg : Req) : io World RequestError Resp :=
  request_with_version_ranges self msg (version_ranges self).

(** [set_version_ranges]. *)
Definition set_version_ranges (ranges : version_map) (self : MessengerTransport) : MessengerTransport :=
  mkMessengerTransport (stream self) (max_message_size self) (client_id self) (counter self) ranges.

(** ** Version negotiation *)

(** "rskafka" and "0.5.0". *)
Definition CARGO_PKG_NAME : rstring := ascii_string [114; 115; 107; 97; 102; 107; 97].
Definition CARGO_PKG_VERSION : rstring := ascii_string [48; 46; 53; 46; 48].

Definition api_versions_request : ApiVersionsRequest :=
  mkApiVersionsRequest (Some (mkCompactString CARGO_PKG_NAME))
    (Some (mkCompactString CARGO_PKG_VERSION)) (Some TaggedFields_default).

(** The loops of [sync_versions]: over the versions still to try, and over the
    throttled answers. *)
Fixpoint sync_loop (fuel : nat) (upper_bounds : list Z) (self : MessengerTransport) :
    io World SyncVersionsError version_map :=
  match fuel with
  | O => fun _ => None
  | S fuel =>
      match upper_bounds with
      | [] => io_err NoWorkingVersion
      | upper_bound :: rest =>
          do! r <- io_try (request_with_version_ranges (Resp:=ApiVersionsResponse) self
                             api_versions_request (sync_ranges upper_bound)) in
          match r with
          | inr response =>
              match maybe_throttle (E:=SyncVersionsError) (avresp_throttle_time_ms response) with
              | Err (Throttle millis) =>
                  do! _ <- sleep (from_millis millis) in
                  sync_loop fuel upper_bounds self
              | _ =>
                  match avresp_error_code response with
                  | Some _ => sync_loop fuel rest self
                  | None =>
                      match first_flipped (api_keys response) with
                      | Some x =>
                          io_err (FlippedVersionRange (api_key x) (min_version x) (max_version x))
                      | None => io_lift (collect_ranges (api_keys response) [])
                      end
                  end
              end
          | inl (NoVersionMatch _) => io_panic Unreachable
          | inl (ReqReadVersionedError _) | inl (ReqReadError _) | inl (TooMuchData _ _ _ _) =>
              sync_loop fuel rest self
          | inl e => io_err (SyncRequestError e)
          end
      end
  end.

(** [Messenger::sync_versions]: the messenger with the ranges of the broker. *)
Definition Messenger_sync_versions (fuel : nat) (self : MessengerTransport) :
    io World SyncVersionsError MessengerTransport :=
  do! ranges <- sync_loop fuel sync_upper_bounds self in
  io_ret (set_version_ranges ranges self).

(** ** SASL *)
Context {rsasl : Rsasl} {prof : Profile}.

Inductive SaslError : Type :=
| SaslRequestError (e : RequestError)
| SaslApiError (e : Errors.Error)
| InvalidSaslMechanism
| SaslSessionError
| UnsupportedSaslMechanism.

(** [Messenger::sasl_authentication]. *)
Definition sasl_authentication (self : MessengerTransport) (auth_bytes : list byte) :
    io World SaslError SaslAuthenticateResponse :=
  do! resp <- io_map_err SaslRequestError
                (request (Resp:=SaslAuthenticateResponse) self (SaslAuthenticateRequest_new auth_bytes)) in
  match sas_error_code resp with
  | Some err => io_err (SaslApiError err)
  | None => io_ret resp
  end.

(** [Messenger::sasl_handshake]. *)
Definition sasl_handshake (self : MessengerTransport) (mechanism : rstring) :
    io World SaslError SaslHandshakeResponse :=
  do! resp <- io_map_err SaslRequestError
                (request (Resp:=SaslHandshakeResponse) self (SaslHandshakeRequest_new mechanism)) in
  match handshake_error_code resp with
  | Some err => io_err (SaslApiError err)
  | None => io_ret resp
  end.

(** The loop of [do_sasl]. *)
Fixpoint sasl_loop (fuel : nat) (self : MessengerTransport) (session : SaslSession)
    (data_received : option (list byte)) : io World SaslError unit :=
  match fuel with
  | O => fun _ => None
  | S fuel =>
      do! (running, to_sent, session) <-
        io_lift (omap_err (fun _ => SaslSessionError) (session_step session data_received)) in
      if negb running then io_ret tt
      else
        do! authentication_response <- sasl_authentication self to_sent in
        sasl_loop fuel self session (Some (bytes_0 (sas_auth_bytes authentication_response)))
  end.

(** [mechanisms.iter().map(Mechname::parse).collect::<Result<..>>()]. *)
Fixpoint parse_mechanisms (l : list String_) : outcome SaslError (list Mechname) :=
  match l with
  | [] => Ok []
  | mech :: l =>
      let! m := ok_or InvalidSaslMechanism (mechname_parse (string_ mech)) in
      let! ms := parse_mechanisms l in
      Ok (m :: ms)
  end.

(** [Messenger::do_sasl]. *)
Definition do_sasl (fuel : nat) (self : MessengerTransport) (config : SaslConfig) :
    io World SaslError unit :=
  let mechanism := sasl_mechanism config in
  do! resp <- sasl_handshake self mechanism in
  do! sasl <- io_lift match with_credentials (username (credentials config))
                                (password (credentials config)) with
                      | Some c => Ok c
                      | None => Panic ExpectFailed
                      end in
  let raw_mechanisms := default [] (array_0 (mechanisms resp)) in
  do! mechanisms <- io_lift (parse_mechanisms raw_mechanisms) in
  do! prefer_mechanism <- io_lift (ok_or InvalidSaslMechanism (mechname_parse mechanism)) in
  if negb (bool_decide (prefer_mechanism ∈ mechanisms)) then io_err UnsupportedSaslMechanism
  else
    do! session <- io_lift (ok_or UnsupportedSaslMechanism (start_suggested sasl prefer_mechanism)) in
    sasl_loop fuel self session None.
End world.

(** ** Lemmas *)
Section lemmas.
Context {N : Type} `{!Network N}.
Implicit Types w : World (N:=N).

(** What only depends on the client's own state, apart from counters. *)
Definition same_client w w' : Prop :=
  w_topology w' = w_topology w /\ w_arbitrary w' = w_arbitrary w /\ w_metadata w' = w_metadata w /\
  w_controller w' = w_controller w /\ w_leader w' = w_leader w.

#[export] Instance same_client_equiv : Equivalence same_client.
Proof.
  split.
  - by intros w.
  - by intros w w' (? & ? & ? & ? & ?).
  - intros w1 w2 w3 (? & ? & ? & ? & ?) (? & ? & ? & ? & ?). repeat split; congruence.
Qed.

Lemma with_net_keeps {E A} (m : io N E A) w0 : keeps (same_client w0) (with_net m).
Proof.
  intros w Hw r w'. unfold with_net. destruct (m (w_net w)) as [[o n]|]; [|done].
  intros [= <- <-]. by etrans; [exact Hw|].
Qed.

Lemma gen_range_keeps w0 lo hi w x w' :
  same_client w0 w -> gen_range lo hi w = Some (x, w') -> same_client w0 w'.
Proof.
  intros Hw. unfold gen_range; simpl. destruct (gen_range lo hi (w_net w)) as [[y n]|]; [|done].
  intros [= <- <-]. by etrans; [exact Hw|].
Qed.

Lemma sleep_keeps w0 d w : same_client w0 w -> same_client w0 (sleep_for d w).
Proof. intros Hw. by etrans; [exact Hw|]. Qed.

Lemma fetch_keeps {E} w0 (m : MessengerTransport) :
  keeps (E:=E) (same_client w0) (fetch_correlation_id m).
Proof. intros w Hw r w' [= <- <-]. by etrans; [exact Hw|]. Qed.

Lemma Messenger_new_keeps {E} w0 t size cid :
  keeps (E:=E) (same_client w0) (Messenger_new t size cid).
Proof. intros w Hw r w' [= <- <-]. by etrans; [exact Hw|]. Qed.

Lemma request_ranges_keeps {Req Resp}
    `{RequestBody Req Resp, WriteVersionedType Req, ReadVersionedType Resp} w0
    (m : MessengerTransport) (msg : Req) ranges :
  keeps (same_client w0) (request_with_version_ranges (Resp:=Resp) m msg ranges).
Proof.
  unfold request_with_version_ranges. case_match; [|apply keeps_lift].
  apply keeps_bind; [apply fetch_keeps|]. intros id. apply keeps_bind; [apply keeps_lift|].
  intros p. apply keeps_bind; [apply with_net_keeps|]. intros. apply keeps_lift.
Qed.

Lemma request_keeps {Req Resp}
    `{RequestBody Req Resp, WriteVersionedType Req, ReadVersionedType Resp} w0
    (m : MessengerTransport) (msg : Req) :
  keeps (same_client w0) (request (Resp:=Resp) m msg).
Proof. apply request_ranges_keeps. Qed.

Lemma retry_same_client {B E R} `{!RngCore R} fuel
    (do_stuff : io (World (N:=N)) (BackoffError E) (ControlFlow B (ErrorOrThrottle E))) (self : Backoff R) w0 :
  keeps (same_client w0) do_stuff -> keeps (same_client w0) (retry_with_backoff fuel do_stuff self).
Proof. intros Hdo. apply keeps_retry; [done| |]; intros; [by eapply gen_range_keeps|by apply sleep_keeps]. Qed.

Lemma sync_loop_keeps fuel ubs (m : MessengerTransport) w0 :
  keeps (same_client w0) (sync_loop fuel ubs m).
Proof.
  revert ubs. induction fuel as [|fuel IH]; intros ubs; [by intros w _ r w'|].
  destruct ubs as [|ub rest]; [apply keeps_lift|]. cbn [sync_loop].
  apply keeps_bind; [apply keeps_try, request_ranges_keeps|]. intros [e|resp].
  - destruct e; auto with io.
  - case_match; [|case_match|]; repeat case_match; auto with io.
    all: apply keeps_bind; [|intros []; apply IH]; apply keeps_put; intros; by apply sleep_keeps.
Qed.

Context {rsasl : Rsasl} {prof : Profile}.

Lemma sasl_authentication_keeps (m : MessengerTransport) bs w0 :
  keeps (same_client w0) (sasl_authentication m bs).
Proof.
  apply keeps_bind; [apply keeps_map_err, request_keeps|]. intros resp. case_match; apply keeps_lift.
Qed.

Lemma sasl_handshake_keeps (m : MessengerTransport) mech w0 :
  keeps (same_client w0) (sasl_handshake m mech).
Proof.
  apply keeps_bind; [apply keeps_map_err, request_keeps|]. intros resp. case_match; apply keeps_lift.
Qed.

Lemma sasl_loop_keeps fuel (m : MessengerTransport) session data w0 :
  keeps (same_client w0) (sasl_loop fuel m session data).
Proof.
  revert session data. induction fuel as [|fuel IH]; intros session data; [by intros w _ r w'|].
  cbn [sasl_loop]. apply keeps_bind; [apply keeps_lift|]. intros [[running out] session'].
  destruct running; [|apply keeps_lift]. cbn [negb].
  apply keeps_bind; [apply sasl_authentication_keeps|]. intros resp. apply IH.
Qed.

Lemma do_sasl_keeps fuel (m : MessengerTransport) config w0 :
  keeps (same_client w0) (do_sasl fuel m config).
Proof.
  apply keeps_bind; [apply sasl_handshake_keeps|]. intros resp.
  apply keeps_bind; [apply keeps_lift|]. intros c. apply keeps_bind; [apply keeps_lift|]. intros ms.
  apply keeps_bind; [apply keeps_lift|]. intros name. case_match; [apply keeps_lift|].
  apply keeps_bind; [apply keeps_lift|]. intros session. apply sasl_loop_keeps.
Qed.
End lemmas.
#[export] Hint Resolve with_net_keeps fetch_keeps Messenger_new_keeps request_keeps retry_same_client : io.
#[export] Hint Resolve sync_loop_keeps do_sasl_keeps : io.

(** ** Properties *)
Section properties.
Context {N : Type} `{!Network N} `{!NetworkOk N}.
Implicit Types w : World (N:=N).

(** Once a version is selected, the errors of a request do not include the one
    for a missing version. *)
Lemma request_version_found {Req Resp}
    `{RequestBody Req Resp, WriteVersionedType Req, ReadVersionedType Resp}
    (m : MessengerTransport) (msg : Req) ranges v k w w' :
  version_get ranges (API_KEY (Req:=Req) (Resp:=Resp)) ≫= (fun r =>
    match_versions r (API_VERSION_RANGE (Req:=Req) (Resp:=Resp))) = Some v ->
  request_with_version_ranges (Resp:=Resp) m msg ranges w <> Some (Err (NoVersionMatch k), w').
Proof.
  intros Hv. unfold request_with_version_ranges. rewrite Hv. unfold io_bind, io_lift.
  destruct (fetch_correlation_id m w) as [[[id|e|p] w1]|] eqn:Hf; try done.
  destruct (prepare_request ranges (client_id m) id msg) as [p|e|p] eqn:Hp; try done.
  - destruct (with_net _ w1) as [[[resp|e|q] w2]|] eqn:Hx; try done.
    + unfold finish_response.
      destruct (read_versioned _ _) as [[body rest]|e|q]; simpl; try done. by case_match.
    + intros [= -> ->]. unfold with_net in Hx. destruct (exchange _ _ _ _ _ _) as [[o n]|] eqn:He; [|done].
      injection Hx as -> _. apply exchange_ok in He as [[? ?]|[? ?]]; done.
  - intros [= -> _]. revert Hp. unfold prepare_request. rewrite Hv. unfold obind, ok_or, omap_err.
    repeat case_match; simplify_eq; done.
Qed.

(** ** Version negotiation, step by step

    The state of the negotiation: the versions still to try, and the world. *)
Section negotiation.
Variable m : MessengerTransport (N:=N).
Local Abbreviation ask ub :=
  (request_with_version_ranges (Resp:=ApiVersionsResponse) m api_versions_request (sync_ranges ub)).
Local Abbreviation throttle resp :=
  (maybe_throttle (E:=SyncVersionsError) (avresp_throttle_time_ms resp)).

(** The broker does not speak the version of the request: it answers with an
    error code, or the answer cannot be read. *)
Definition unusable (r : outcome RequestError ApiVersionsResponse) : Prop :=
  match r with
  | Ok resp => throttle resp = Ok tt /\ avresp_error_code resp <> None
  | Err (ReqReadVersionedError _ | ReqReadError _ | TooMuchData _ _ _ _) => True
  | _ => False
  end.

(** The broker answers with its versions. *)
Definition usable (r : outcome RequestError ApiVersionsResponse) (resp : ApiVersionsResponse) : Prop :=
  r = Ok resp /\ throttle resp = Ok tt /\ avresp_error_code resp = None.

Inductive sync_step : list Z * World (N:=N) -> list Z * World (N:=N) -> Prop :=
| sync_throttled ub rest w resp w1 t w2 :
    ask ub w = Some (Ok resp, w1) -> throttle resp = Err (Throttle t) ->
    sleep (E:=SyncVersionsError) (from_millis t) w1 = Some (Ok tt, w2) ->
    sync_step (ub :: rest, w) (ub :: rest, w2)
| sync_refused ub rest w r w1 :
    ask ub w = Some (r, w1) -> unusable r -> sync_step (ub :: rest, w) (rest, w1).

(** The ranges that an answer announces; the last one for a key counts. *)
Definition announced (resp : ApiVersionsResponse) : version_map :=
  rev (map (fun x => (api_key x, mkApiVersionRange (min_version x) (max_version x))) (api_keys resp)).

Definition flipped (x : ApiVersionsResponseApiKey) : Prop := vnum (max_version x) < vnum (min_version x).

(** How the negotiation ends once the versions [ubs] are left, in world [w0]. *)
Definition sync_end (ubs : list Z) w0 (r : outcome SyncVersionsError version_map) w' : Prop :=
  match r with
  | Err NoWorkingVersion => ubs = [] /\ w0 = w'
  | Ok ranges => exists ub rest answer resp, ubs = ub :: rest /\ ask ub w0 = Some (answer, w') /\
      usable answer resp /\ Forall (fun x => ~ flipped x) (api_keys resp) /\ ranges = announced resp
  | Err (FlippedVersionRange key lo hi) =>
      exists ub rest answer resp x, ubs = ub :: rest /\ ask ub w0 = Some (answer, w') /\
      usable answer resp /\ In x (api_keys resp) /\ flipped x /\
      key = api_key x /\ lo = min_version x /\ hi = max_version x
  | Err (SyncRequestError e) => exists ub rest, ubs = ub :: rest /\ ask ub w0 = Some (Err e, w') /\ ~ unusable (Err e)
  | Panic p => exists ub rest, ubs = ub :: rest /\ ask ub w0 = Some (Panic p, w')
  end.

Lemma collect_announced l acc :
  Forall (fun x => ~ flipped x) l ->
  collect_ranges l acc =
    Ok (rev (map (fun x => (api_key x, mkApiVersionRange (min_version x) (max_version x))) l) ++ acc).
Proof.
  revert acc. induction l as [|x l IH]; intros acc Hl; [done|].
  apply list.Forall_cons in Hl as [Hx Hl]. unfold flipped in Hx. simpl. unfold ApiVersionRange_new.
  destruct (Z.leb_spec (vnum (min_version x)) (vnum (max_version x))); [|lia]. simpl.
  by rewrite IH, <-app_assoc.
Qed.

Lemma first_flipped_spec l :
  match first_flipped l with
  | Some x => In x l /\ flipped x
  | None => Forall (fun x => ~ flipped x) l
  end.
Proof.
  induction l as [|x l IH]; simpl; [constructor|].
  destruct (Z.ltb_spec (vnum (max_version x)) (vnum (min_version x))); [by split; [left|]|].
  destruct (first_flipped l); [by destruct IH; split; [right|]|]. constructor; [|done]. unfold flipped. lia.
Qed.

Lemma usable_end ub rest resp w0 w' r :
  ask ub w0 = Some (Ok resp, w') -> usable (Ok resp) resp ->
  match first_flipped (api_keys resp) with
  | Some x => Err (FlippedVersionRange (api_key x) (min_version x) (max_version x))
  | None => collect_ranges (api_keys resp) []
  end = r ->
  sync_end (ub :: rest) w0 r w'.
Proof.
  intros Hask Hu <-. pose proof (first_flipped_spec (api_keys resp)) as Hf.
  destruct (first_flipped (api_keys resp)) as [x|].
  - destruct Hf. by exists ub, rest, (Ok resp), resp, x.
  - rewrite collect_announced by done. rewrite app_nil_r. by exists ub, rest, (Ok resp), resp.
Qed.

Lemma sync_loop_steps fuel ubs w r w' :
  (forall ub, In ub ubs -> In ub sync_upper_bounds) ->
  sync_loop fuel ubs m w = Some (r, w') ->
  exists ubs' w0, rtc sync_step (ubs, w) (ubs', w0) /\ sync_end ubs' w0 r w'.
Proof using NetworkOk0.
  revert ubs w. induction fuel as [|fuel IH]; intros ubs w Hubs; [done|].
  destruct ubs as [|ub rest]; [intros [= <- <-]; exists [], w; by split; [apply rtc_refl|]|].
  cbn [sync_loop]. unfold io_bind at 1, io_try at 1.
  destruct (ask ub w) as [[reply w1]|] eqn:Hreq; [|done].
  assert (Hrest : forall ub, In ub rest -> In ub sync_upper_bounds) by (intros; apply Hubs; by right).
  assert (Hstep : forall c, sync_step (ub :: rest, w) c -> (forall ub, In ub (fst c) -> In ub sync_upper_bounds) ->
    sync_loop fuel (fst c) m (snd c) = Some (r, w') ->
    exists ubs' w0, rtc sync_step (ub :: rest, w) (ubs', w0) /\ sync_end ubs' w0 r w').
  { intros [l w2] Hs Hl Hr. destruct (IH _ _ Hl Hr) as (ubs' & w0 & Hrtc & He).
    exists ubs', w0. split; [by eapply rtc_l|done]. }
  assert (Hend : sync_end (ub :: rest) w r w' ->
    exists ubs' w0, rtc sync_step (ub :: rest, w) (ubs', w0) /\ sync_end ubs' w0 r w').
  { intros He. exists (ub :: rest), w. by split; [apply rtc_refl|]. }
  destruct reply as [resp|e|p].
  - pose proof (maybe_throttle_not_error (E:=SyncVersionsError) (avresp_throttle_time_ms resp)) as Hne.
    pose proof (maybe_throttle_no_panic (E:=SyncVersionsError) (avresp_throttle_time_ms resp)) as Hnp.
    destruct (throttle resp) as [[]|[e|t]|p] eqn:Ht; [|by destruct (Hne e)| |by destruct (Hnp p)].
    + destruct (avresp_error_code resp) as [c|] eqn:Hc.
      * intros Hr. apply (Hstep (rest, w1)); [|done|done]. eapply sync_refused; [done|]. split; congruence.
      * intros Hr. apply Hend, (usable_end _ _ resp); [|done|by destruct (first_flipped _); injection Hr].
        destruct (first_flipped _); injection Hr as _ <-; done.
    + unfold io_bind. destruct (sleep (from_millis t) w1) as [[[[]|e|p] w2]|] eqn:Hs; try done.
      intros Hr. apply (Hstep (ub :: rest, w2)); [by eapply sync_throttled|done|done].
  - assert (forall k, e <> NoVersionMatch k) as Hnv.
    { intros k ->. revert Hreq. eapply (request_version_found _ _ _ (V ub)).
      apply sync_request_version, Hubs. by left. }
    destruct e; try (by edestruct Hnv);
      try (by intros [= <- <-]; apply Hend; exists ub, rest; split_and!; [done|done|intros []]);
      (intros Hr; apply (Hstep (rest, w1)); [by eapply sync_refused|done|done]).
  - intros [= <- <-]. apply Hend. by exists ub, rest.
Qed.
End negotiation.

(** C26: version negotiation, from the answers that came.  The versions of the
    request are tried from the highest down; a throttled request is repeated
    after the pause, and a version is given up only for an error code or an
    answer that cannot be read.  The ranges that the messenger gets are those of
    the first answer that is neither, none of which has its bounds flipped.
    Otherwise the error is that all versions were given up, a flipped range of
    such an answer, or the error of the last request. *)
Theorem negotiation_follows_answers fuel (m : MessengerTransport) w r w' :
  Messenger_sync_versions fuel m w = Some (r, w') ->
  same_client w w' /\
  exists ubs w0, rtc (sync_step m) (sync_upper_bounds, w) (ubs, w0) /\
    match r with
    | Ok m' => exists ranges, sync_end m ubs w0 (Ok ranges) w' /\ m' = set_version_ranges ranges m
    | Err e => sync_end m ubs w0 (Err e) w'
    | Panic p => sync_end m ubs w0 (Panic p) w'
    end.
Proof.
  unfold Messenger_sync_versions, io_bind.
  destruct (sync_loop fuel sync_upper_bounds m w) as [[o w1]|] eqn:Hs; [|done].
  pose proof (sync_loop_keeps _ _ _ w w (reflexivity w) _ _ Hs) as Hw.
  apply sync_loop_steps in Hs as (ubs & w0 & Hrtc & He); [|done].
  destruct o as [ranges|e|p]; intros [= <- <-]; (split; [done|]); exists ubs, w0; (split; [done|]); by eauto.
Qed.

Context {rsasl : Rsasl} {prof : Profile}.

(** C28: no credentials leave the client before the broker agreed to the
    mechanism.  After the handshake, the authentication starts only if the
    configured mechanism is among those that the broker listed; in all other
    cases [do_sasl] fails and nothing is sent after the handshake. *)
Theorem sasl_needs_offered_mechanism fuel (m : MessengerTransport) config w r w' :
  do_sasl fuel m config w = Some (r, w') ->
  exists h w1, sasl_handshake m (sasl_mechanism config) w = Some (h, w1) /\
    ((exists resp name names c session,
        h = Ok resp /\ mechname_parse (sasl_mechanism config) = Some name /\
        parse_mechanisms (default [] (array_0 (mechanisms resp))) = Ok names /\ name ∈ names /\
        with_credentials (username (credentials config)) (password (credentials config)) = Some c /\
        start_suggested c name = Some session /\
        sasl_loop fuel m session None w1 = Some (r, w')) \/
     ((forall u, r <> Ok u) /\ w' = w1)).
Proof.
  unfold do_sasl. unfold io_bind at 1. set (mech := sasl_mechanism config).
  destruct (sasl_handshake m mech w) as [[[resp|e|p] w1]|] eqn:Hh; [..|done].
  2,3: intros [= <- <-]; do 2 eexists; split; [done|]; right; done.
  intros Hrun. exists (Ok resp), w1. split; [done|]. revert Hrun. unfold io_bind, io_lift.
  destruct (with_credentials _ _) as [c|] eqn:Hc; [|intros [= <- <-]; by right].
  destruct (parse_mechanisms _) as [names|e|p] eqn:Hm; [|intros [= <- <-]; by right..].
  destruct (mechname_parse mech) as [name|] eqn:Hn; simpl; [|intros [= <- <-]; by right].
  destruct (bool_decide_reflect (name ∈ names)); simpl; [|intros [= <- <-]; by right].
  destruct (start_suggested c name) as [session|] eqn:Hs; simpl; [|intros [= <- <-]; by right].
  intros Hrun. left. exists resp, name, names, c, session. done.
Qed.
End properties.

(** ** A concrete network: connections and answers come from two lists, shuffling
    keeps the order, and the requests are logged with their stream *)
Module RefNetwork.
Inductive Reply : Type :=
| Delivered (r : Response)
| Broken.

Record Net : Type := mkNet {
  rn_slept : list Z;
  rn_tcp : list (outcome ErrorKind Z);
  rn_replies : list Reply;
  rn_sent : list (Z * list byte);
}.

Definition ref_gen_range (lo hi : f64) (n : Net) : option (f64 * Net) :=
  if f64_lt lo hi && f64_valid lo then Some (lo, n) else None.

#[export] Instance ref_timer : Timer Net := {|
  thread_rng := ref_gen_range;
  sleep_for d n := mkNet (rn_slept n ++ [d]) (rn_tcp n) (rn_replies n) (rn_sent n);
  slept := rn_slept;
|}.

#[export] Instance ref_timer_ok : TimerOk Net.
Proof.
  split; [split|done|]; unfold gen_range; simpl; unfold ref_gen_range.
  - intros lo hi n Hlt. by rewrite Hlt.
  - intros lo hi n x n'. destruct (f64_lt lo hi) eqn:Hlt, (f64_valid lo) eqn:Hv; simpl; try done.
    intros [= <- <-]. split; [|done]. apply f64_le_refl. by apply f64_lt_key in Hlt as (? & _).
  - intros lo hi n x n'. case_match; [|done]. by intros [= _ <-].
Qed.

Definition ref_tcp_connect (_ : rstring) : io Net ErrorKind Z := fun n =>
  match rn_tcp n with
  | r :: rest => Some (r, mkNet (rn_slept n) rest (rn_replies n) (rn_sent n))
  | [] => None
  end.

#[export] Instance ref_sockets : Sockets Net := {|
  TcpStream := Z;
  TlsStream := Z;
  ClientConfig := unit;
  ServerName := rstring;
  tcp_connect := ref_tcp_connect;
  socks5_connect s _ := io_lift (Ok s);
  server_name_try_from := Some;
  tls_connect _ _ s := io_lift (Ok s);
|}.

Definition stream_number (t : Transport (N:=Net)) : Z :=
  match t with Plain s => s | Tls s => s end.

Definition ref_exchange (t : Transport (N:=Net)) (_ _ : Z) (buf : list byte) (_ : bool) :
    io Net RequestError Response := fun n =>
  match rn_replies n with
  | r :: rest =>
      Some (match r with Delivered r => Ok r | Broken => Err (Poisoned (ReqIO UnexpectedEof)) end,
            mkNet (rn_slept n) (rn_tcp n) rest (rn_sent n ++ [(stream_number t, buf)]))
  | [] => None
  end.

#[export] Instance ref_network : Network Net := {|
  net_timer := ref_timer;
  net_sockets := ref_sockets;
  shuffle A l n := (l, n);
  exchange := ref_exchange;
|}.

#[export] Instance ref_network_ok : NetworkOk Net.
Proof.
  split; [exact ref_timer_ok|done|].
  intros t size id buf tagged n r n'. simpl. unfold ref_exchange. destruct (rn_replies n) as [|x rest]; [done|].
  intros [= <- _]. destruct x; [done|]. left. eauto.
Qed.

(** A SASL mechanism of one message, which is the password. *)
#[export] Instance ref_rsasl : Rsasl := {|
  Mechname := rstring;
  mechname_parse s := match s with [] => None | _ => Some s end;
  SaslClientConfig := rstring;
  with_credentials _ pw := Some pw;
  SaslSession := option rstring;
  start_suggested pw _ := Some (Some pw);
  session_step s _ := match s with Some pw => Ok (true, pw, None) | None => Ok (false, [], None) end;
|}.

Definition reply_bytes (bs : list byte) : Reply :=
  Delivered (mkResponse (mkResponseHeader (mkInt32 0) None) (cursor bs) (zlen bs)).

(** The answer that carries a message. *)
Definition reply_of {A} `{WriteVersionedType A} (v : ApiVersion) (x : A) : Reply :=
  match write_versioned v x with
  | Ok bs => reply_bytes bs
  | _ => Broken
  end.

Abbreviation RefWorld := (World (N:=Net)).

Definition world (n : Net) (counters : list Z) : World (N:=Net) :=
  mkWorld n counters ∅ (mkBrokerCell None 0) MetadataCache_default (mkBrokerCell None 0)
    (mkCurrentBroker None 0 None None).

Definition sample_messenger : MessengerTransport (N:=Net) :=
  mkMessengerTransport (Plain (1 : TcpStream (N:=Net))) 1000 CARGO_PKG_NAME 0 [].
End RefNetwork.
Import RefNetwork.


(** The broker cannot read the first request, and answers the second one. *)
Definition sample_sync_world : World (N:=Net) :=
  world (mkNet [] [] [reply_bytes []; reply_of (V 2) sample_versions] []) [0].

(** The number of requests that a successful run sent. *)
Definition sent_ok {E A} (r : option (outcome E A * RefWorld)) : option nat :=
  match r with
  | Some (Ok _, w) => Some (length (rn_sent (w_net w)))
  | _ => None
  end.

Lemma negotiation_follows_answers_witness :
  exists m' w', Messenger_sync_versions 2 sample_messenger sample_sync_world = Some (Ok m', w') /\
    length (rn_sent (w_net w')) = 2%nat /\
    exists ubs w0 ranges, rtc (sync_step sample_messenger) (sync_upper_bounds, sample_sync_world) (ubs, w0) /\
      sync_end sample_messenger ubs w0 (Ok ranges) w' /\ m' = set_version_ranges ranges sample_messenger.
Proof.
  assert (Hlen : sent_ok (Messenger_sync_versions 2 sample_messenger sample_sync_world) = Some 2%nat)
    by (vm_compute; reflexivity).
  destruct (Messenger_sync_versions 2 sample_messenger sample_sync_world) as [[[m'|e|p] w']|] eqn:Hr;
    try discriminate Hlen.
  exists m', w'. split; [reflexivity|]. split; [injection Hlen as Hlen; exact Hlen|].
  destruct (negotiation_follows_answers 2 sample_messenger sample_sync_world (Ok m') w' Hr)
    as (_ & ubs & w0 & Hrtc & ranges & He & Hm).
  exists ubs, w0, ranges. split; [exact Hrtc|]. split; [exact He|exact Hm].
Defined.

(** The broker offers another mechanism than the configured one. *)
Definition sample_sasl_world : World (N:=Net) :=
  world (mkNet [] [] [reply_bytes (to_be_bytes 2 0 ++ to_be_bytes 4 1 ++ to_be_bytes 2 1 ++ [byte_of_Z 88])] []) [0].
Definition sample_sasl_messenger : MessengerTransport (N:=Net) :=
  set_version_ranges [(ApiKeys.SaslHandshake, mkApiVersionRange (V 0) (V 1))] sample_messenger.
Definition sample_sasl_config : SaslConfig :=
  SaslPlain (mkCredentials (ascii_string [117]) (ascii_string [112])).

Definition unsupported (r : option (outcome SaslError unit * RefWorld)) : bool :=
  match r with Some (Err UnsupportedSaslMechanism, _) => true | _ => false end.

Lemma sasl_needs_offered_mechanism_witness :
  exists w', do_sasl (prof:=debug_profile) 3 sample_sasl_messenger sample_sasl_config sample_sasl_world
    = Some (Err UnsupportedSaslMechanism, w') /\
  exists h w1, sasl_handshake sample_sasl_messenger (sasl_mechanism sample_sasl_config) sample_sasl_world
      = Some (h, w1) /\
    ((exists resp name names c session,
        h = Ok resp /\ mechname_parse (sasl_mechanism sample_sasl_config) = Some name /\
        parse_mechanisms (default [] (array_0 (mechanisms resp))) = Ok names /\ name ∈ names /\
        with_credentials (username (credentials sample_sasl_config))
          (password (credentials sample_sasl_config)) = Some c /\
        start_suggested c name = Some session /\
        sasl_loop (prof:=debug_profile) 3 sample_sasl_messenger session None w1
          = Some (Err UnsupportedSaslMechanism, w')) \/
     ((forall u, Err (A:=unit) UnsupportedSaslMechanism <> Ok u) /\ w' = w1)).
Proof.
  assert (Hu : unsupported (do_sasl (prof:=debug_profile) 3 sample_sasl_messenger sample_sasl_config
    sample_sasl_world) = true) by (vm_compute; reflexivity).
  destruct (do_sasl (prof:=debug_profile) 3 sample_sasl_messenger sample_sasl_config sample_sasl_world)
    as [[[u|e|p] w']|] eqn:Hr; try discriminate Hu.
  destruct e; try discriminate Hu. exists w'. split; [reflexivity|].
  apply (sasl_needs_offered_mechanism (rsasl:=ref_rsasl) (prof:=debug_profile) 3 sample_sasl_messenger sample_sasl_config
    sample_sasl_world (Err UnsupportedSaslMechanism) w' Hr).
Defined.
