(* ===== verification/BrokerCache.v ===== *)
(** * Caches of a broker connection (the trait [BrokerCache] of src/connection.rs)

    A cache hands out a connection with a generation, and drops the connection
    when a caller that found it broken asks for it with that generation.  Three
    types implement the trait: the connector (an arbitrary broker), the
    controller client and the partition client.  Their operations hold the
    mutex of the cache from start to end, so calls of different tasks happen one
    after the other; between them the rest of the world changes.

    The trait itself promises nothing about generations.  The class
    [BrokerCacheOk] has what the three implementations do; each of them
    discharges it in its own file, and the lemmas here are shared by them. *)

From Stdlib Require Import ZArith Lia.
From stdpp Require Import base list numbers.
From S2P Require Import Prelude Io.

Local Open Scope Z_scope.

(** The trait; [R] is the type of connections, [E] that of errors. *)
Class BrokerCache (W R E : Type) : Type := {
  bc_get : io W E (R * Z);
  bc_invalidate : Z -> W -> W;
}.

(** [BrokerCacheGeneration], a [usize], with [START] and [bump]. *)
Definition BrokerCacheGeneration_START : Z := 0.
Definition bump {prof : Profile} {E} (gen : Z) : outcome E Z := arith_unsigned usize_bits (gen + 1).

(** The generation after [n] more calls is still in range. *)
Definition gen_room (gen n : Z) : Prop := 0 <= gen /\ gen + n < 2 ^ usize_bits.

Lemma bump_room {prof : Profile} {E} gen n : gen_room gen n -> 0 < n -> bump (E:=E) gen = Ok (gen + 1).
Proof.
  intros [H0 Hb] Hn. unfold bump, arith_unsigned.
  rewrite (proj2 (in_unsigned_b_true _ _)); [done|]. unfold in_unsigned. lia.
Qed.

(** ** The abstract cache: a connection, if there is one, and a generation *)
Section abstract.
Context {R : Type}.

Definition cell : Type := option R * Z.

Inductive event : Type :=
| Got (b : R) (g : Z)
| GetFailed
| Invalidated (g : Z).

Inductive cell_step : cell -> event -> cell -> Prop :=
| step_hit b g : cell_step (Some b, g) (Got b g) (Some b, g)
| step_connect b g : cell_step (None, g) (Got b (g + 1)) (Some b, g + 1)
| step_fail g : cell_step (None, g) GetFailed (None, g)
| step_drop o g : cell_step (o, g) (Invalidated g) (None, g)
| step_stale o g g' : g' <> g -> cell_step (o, g) (Invalidated g') (o, g).

Inductive cell_run : cell -> list event -> cell -> Prop :=
| cell_run_nil c : cell_run c [] c
| cell_run_cons c ev c1 evs c' :
    cell_step c ev c1 -> cell_run c1 evs c' -> cell_run c (ev :: evs) c'.

Lemma cell_run_app c evs1 evs2 c' :
  cell_run c (evs1 ++ evs2) c' <-> exists c1, cell_run c evs1 c1 /\ cell_run c1 evs2 c'.
Proof.
  revert c. induction evs1 as [|ev evs1 IH]; intros c; simpl.
  - split; [by eexists; split; [constructor|]|]. intros (c1 & H1 & H2). by inversion H1; subst.
  - split.
    + inversion 1 as [|? ? c1 ? ? Hs Hr]; subst. apply IH in Hr as (c2 & H1 & H2).
      exists c2. split; [by econstructor|done].
    + intros (c2 & H1 & H2). inversion H1 as [|? ? c1 ? ? Hs Hr]; subst.
      econstructor; [exact Hs|]. apply IH. by exists c2.
Qed.

(** The generation only grows, and the connection of a generation is fixed. *)
Lemma cell_step_gen c ev c' : cell_step c ev c' -> snd c <= snd c'.
Proof. destruct 1; simpl; lia. Qed.

Lemma cell_run_gen c evs c' : cell_run c evs c' -> snd c <= snd c'.
Proof. induction 1 as [|? ? ? ? ? Hs%cell_step_gen]; lia. Qed.

(** An empty cache hands out only newer generations. *)
Lemma got_after_empty c evs c' b g :
  cell_run c evs c' -> Got b g ∈ evs -> snd c <= g /\ (fst c = None -> snd c < g).
Proof.
  induction 1 as [c|c ev c1 evs c' Hs Hr IH]; [by intros ?%elem_of_nil|].
  intros [<-|Hin]%elem_of_cons.
  - inversion Hs; subst; simpl; split; try done; lia.
  - specialize (IH Hin) as [H1 H2]. inversion Hs; subst; simpl in *; split; try done; intuition lia.
Qed.

(** While the generation is that of a connection, the cache holds it or nothing. *)
Lemma got_current c evs c' b g :
  cell_run c evs c' -> snd c = g -> fst c = Some b ->
  forall b', Got b' g ∈ evs -> b' = b.
Proof.
  intros Hr. revert b g. induction Hr as [c|c ev c1 evs c' Hs Hr IH]; intros b g Hg Hb b'; [by intros ?%elem_of_nil|].
  intros [<-|Hin]%elem_of_cons.
  - inversion Hs; subst; simpl in *; [congruence|done].
  - inversion Hs as [? ?|? ?|?|o g0|o g0 g']; subst; simpl in *; try done.
    + by apply (IH b g0).
    + destruct (got_after_empty _ _ _ _ _ Hr Hin) as [_ Hlt]. simpl in Hlt. specialize (Hlt eq_refl). lia.
    + by apply (IH b g0).
Qed.
End abstract.
Arguments cell : clear implicits.
Arguments event : clear implicits.

(** ** What a caching implementation does *)
Class BrokerCacheOk (W R E : Type) `{!BrokerCache W R E} : Type := {
  (** the content of the cache *)
  bc_cell : W -> cell R;
  bc_get_hit : forall w b g, bc_cell w = (Some b, g) -> bc_get w = Some (Ok (b, g), w);
  bc_get_ok : forall w b g w', bc_get w = Some (Ok (b, g), w') -> bc_cell w' = (Some b, g);
  bc_get_err : forall w e w', bc_get w = Some (Err e, w') -> bc_cell w' = (None, snd (bc_cell w));
  (** a new connection has the next generation, unless that is out of range *)
  bc_get_new : forall w g r w',
    bc_cell w = (None, g) -> gen_room g 1 -> bc_get w = Some (r, w') ->
    match r with
    | Ok (_, g') => g' = g + 1
    | _ => bc_cell w' = (None, g)
    end;
  bc_invalidate_spec : forall gen w,
    bc_cell (bc_invalidate gen w) =
      if snd (bc_cell w) =? gen then (None, gen) else bc_cell w;
}.

Section implementation.
Context {W R E : Type} `{!BrokerCache W R E} `{!BrokerCacheOk W R E}.

(** Calls of several tasks in some order; what happens to the world between
    them leaves the cache alone. *)
Inductive cache_run : W -> list (event R) -> W -> Prop :=
| run_nil w : cache_run w [] w
| run_other w w1 evs w' : bc_cell w1 = bc_cell w -> cache_run w1 evs w' -> cache_run w evs w'
| run_got w b g w1 evs w' :
    bc_get w = Some (Ok (b, g), w1) -> cache_run w1 evs w' -> cache_run w (Got b g :: evs) w'
| run_failed w r w1 evs w' :
    bc_get w = Some (r, w1) -> (forall x, r <> Ok x) -> cache_run w1 evs w' ->
    cache_run w (GetFailed :: evs) w'
| run_invalidated w gen evs w' :
    cache_run (bc_invalidate gen w) evs w' -> cache_run w (Invalidated gen :: evs) w'.

Lemma get_refines w r w1 :
  gen_room (snd (bc_cell w)) 1 -> bc_get w = Some (r, w1) ->
  cell_step (bc_cell w) (match r with Ok (b, g) => Got b g | _ => GetFailed end) (bc_cell w1).
Proof.
  intros Hroom Hget. destruct (bc_cell w) as [[b|] g] eqn:Hc.
  - pose proof Hget as Hget'. rewrite (bc_get_hit _ _ _ Hc) in Hget'. injection Hget' as <- <-.
    rewrite Hc. constructor.
  - pose proof (bc_get_new _ _ _ _ Hc Hroom Hget) as Hm. destruct r as [[b g']|e|p].
    + rewrite (bc_get_ok _ _ _ _ Hget). subst g'. constructor.
    + rewrite Hm. constructor.
    + rewrite Hm. constructor.
Qed.

Lemma invalidate_refines gen w :
  cell_step (bc_cell w) (Invalidated gen) (bc_cell (bc_invalidate gen w)).
Proof.
  rewrite bc_invalidate_spec. destruct (bc_cell w) as [o g]. simpl.
  destruct (Z.eqb_spec g gen) as [<-|Hne]; constructor. congruence.
Qed.

(** A step takes up one generation at most. *)
Lemma cell_step_room {R'} (c c' : cell R') ev n :
  cell_step c ev c' -> gen_room (snd c) (n + 1) -> gen_room (snd c') n.
Proof. unfold gen_room. destruct 1; simpl; lia. Qed.

Lemma cache_run_refines w evs w' :
  cache_run w evs w' -> gen_room (snd (bc_cell w)) (zlen evs) -> cell_run (bc_cell w) evs (bc_cell w').
Proof.
  induction 1 as [w|w w1 evs w' Hc _ IH|w b g w1 evs w' Hg _ IH|w r w1 evs w' Hg Hr _ IH|w gen evs w' _ IH];
    intros Hroom; [constructor|by rewrite <-Hc in *; apply IH|..];
    rewrite zlen_cons in Hroom; pose proof (zlen_nonneg evs);
    assert (gen_room (snd (bc_cell w)) 1) as Hone by (unfold gen_room in *; lia).
  - pose proof (get_refines _ _ _ Hone Hg) as Hs. econstructor; [exact Hs|].
    apply IH. eapply cell_step_room; [exact Hs|]. by rewrite Z.add_comm.
  - pose proof (get_refines _ _ _ Hone Hg) as Hs.
    assert (match r with Ok (b, g) => Got b g | _ => GetFailed end = GetFailed) as Heq
      by (destruct r as [x|e|p]; [by destruct (Hr x)|done..]).
    rewrite Heq in Hs. econstructor; [exact Hs|]. apply IH. eapply cell_step_room; [exact Hs|]. by rewrite Z.add_comm.
  - pose proof (invalidate_refines gen w) as Hs. econstructor; [exact Hs|].
    apply IH. eapply cell_step_room; [exact Hs|]. by rewrite Z.add_comm.
Qed.

(** An invalidation never takes away a connection that is newer than the
    one its caller saw: with an older generation it does nothing. *)
Theorem stale_invalidation_ignored w b g evs w' b' g' w1 :
  bc_get w = Some (Ok (b, g), w1) -> cache_run w1 evs w' -> gen_room g (zlen evs) ->
  bc_cell w' = (Some b', g') -> g <> g' ->
  bc_cell (bc_invalidate g w') = (Some b', g') /\ g < g'.
Proof.
  intros Hg Hr Hroom Hc Hne. rewrite bc_invalidate_spec, Hc. simpl.
  destruct (Z.eqb_spec g' g); [congruence|]. split; [done|].
  apply bc_get_ok in Hg. apply cache_run_refines, cell_run_gen in Hr; [|by rewrite Hg].
  rewrite Hg, Hc in Hr. simpl in Hr. lia.
Qed.
End implementation.

(** ** Runs of the abstract cache *)

(** A generation stands for one connection; and after an invalidation with the
    generation of a connection every [get] gives a newer one. *)
Definition one_connection {R} (evs : list (event R)) : Prop :=
  forall evs1 b g evs2 b', evs = evs1 ++ Got b g :: evs2 -> Got b' g ∈ evs2 -> b' = b.
Definition broken_never_again {R} (evs : list (event R)) : Prop :=
  forall evs1 b g evs2 evs3 b' g',
    evs = evs1 ++ Got b g :: evs2 ++ Invalidated g :: evs3 -> Got b' g' ∈ evs3 -> g < g'.

Lemma cell_run_sound {R} (c : cell R) evs c' :
  cell_run c evs c' -> one_connection evs /\ broken_never_again evs.
Proof.
  intros Hr. split.
  - intros evs1 b g evs2 b' -> Hin. apply cell_run_app in Hr as (c1 & _ & Hr).
    inversion Hr as [|? ? c2 ? ? Hs Hr']; subst.
    assert (c2 = (Some b, g)) as -> by by inversion Hs.
    by apply (got_current _ _ _ b g Hr').
  - intros evs1 b g evs2 evs3 b' g' -> Hin. apply cell_run_app in Hr as (c1 & _ & Hr).
    inversion Hr as [|? ? c2 ? ? Hs Hr']; subst.
    assert (c2 = (Some b, g)) as -> by by inversion Hs.
    apply cell_run_app in Hr' as (c3 & H2 & H3). inversion H3 as [|? ? c4 ? ? Hs3 Hr4]; subst.
    pose proof (cell_run_gen _ _ _ H2) as Hg. simpl in Hg.
    destruct (got_after_empty _ _ _ _ _ Hr4 Hin) as [Hle Hlt].
    inversion Hs3; subst; simpl in *; [by apply Hlt|lia].
Qed.
