(* ===== verification/Connection.v ===== *)
(** * Connections to the brokers (src/connection.rs)

    [BrokerConnector] knows the bootstrap brokers and the topology, caches a
    connection to an arbitrary broker and one metadata response, and requests
    metadata.  Its immutable fields are the record [BrokerConnector]; its
    mutable ones are parts of the [World].  The two retry functions are generic
    in the source and here: over a handler that connects, and over a cache of
    brokers that answer metadata requests.  All loops share one amount of fuel. *)

From Stdlib Require Import ZArith Lia.
From stdpp Require Import base list numbers gmap.
From S2P Require Import Prelude Bytes Wire VecBuilder Varint Primitives PrimitiveLaws ApiKey.
From S2P Require Import ErrorCode Versioned Header ApiVersionsMsg TopicMessages SaslMessages Frame.
From S2P Require Import Support MetadataCache Messenger Io Backoff Topology Transport.
From S2P Require Import Session BrokerCache.

Local Open Scope Z_scope.
Local Open Scope rust_scope.

(** ** Errors and modes *)
Module ConnectionErrors.
(** [connection::Error].  The source of a failed retry is the list of errors
    of the last round of connects ([MultiError]) or the last request error. *)
#[warnings="-register-all"]
Inductive Error : Type :=
| Metadata (e : RequestError)
| Transport (broker : rstring) (error : TransportErrors.Error)
| SyncVersions (e : SyncVersionsError)
| RetryFailed (e : BackoffError (list Error + RequestError))
| SaslFailed (e : SaslError).
End ConnectionErrors.

(** [MetadataLookupMode]. *)
Inductive MetadataLookupMode (R : Type) : Type :=
| ArbitraryBroker
| SpecificBroker (b : R)
| CachedArbitrary.
Arguments ArbitraryBroker {R}.
Arguments SpecificBroker {R} b.
Arguments CachedArbitrary {R}.

(** The traits [RequestHandler] and [ConnectionHandler]. *)
Class RequestHandler (W R : Type) : Type :=
  metadata_request : R -> MetadataRequest -> io W RequestError MetadataResponse.
Class ConnectionHandler (W B R E : Type) : Type :=
  handler_connect : B -> io W E R.

Section connection.
Context {N : Type} `{!Network N} {rsasl : Rsasl} {prof : Profile}.
Variable fuel : nat.
Abbreviation World := (World (N:=N)).
Abbreviation Error := ConnectionErrors.Error.

Record BrokerConnector : Type := mkBrokerConnector {
  bootstrap_brokers : list rstring;
  connector_client_id : rstring;
  tls_config : TlsConfig (N:=N);
  socks5_proxy : option rstring;
  sasl_config : option SaslConfig;
  connector_max_message_size : Z;
  backoff_config : BackoffConfig;
}.

(** ** Connecting *)
Inductive BrokerRepresentation : Type :=
| Bootstrap (url : rstring)
| TopologyBroker (b : Broker).

(** [BrokerRepresentation::url]. *)
Definition representation_url (self : BrokerRepresentation) : rstring :=
  match self with
  | Bootstrap inner => inner
  | TopologyBroker broker => Broker_to_string broker
  end.

(** [ConnectionHandler for BrokerRepresentation]. *)
Definition representation_connect (c : BrokerConnector) (self : BrokerRepresentation) :
    io World Error MessengerTransport :=
  let url := representation_url self in
  do! transport <- io_map_err (ConnectionErrors.Transport url)
                     (with_net (Transport_connect url (tls_config c) (socks5_proxy c))) in
  do! messenger <- Messenger_new transport (connector_max_message_size c) (connector_client_id c) in
  do! messenger <- io_map_err ConnectionErrors.SyncVersions (Messenger_sync_versions fuel messenger) in
  match sasl_config c with
  | Some sasl_config =>
      do! _ <- io_map_err ConnectionErrors.SaslFailed (do_sasl fuel messenger sasl_config) in
      io_ret messenger
  | None => io_ret messenger
  end.

Section handler.
Context {B R : Type} `{!ConnectionHandler World B R Error}.

(** The attempt of [connect_to_a_broker_with_retry]: the brokers in order, with
    the errors so far. *)
Fixpoint try_brokers (brokers : list B) (errors : list Error) :
    io World (BackoffError (list Error)) (ControlFlow R (ErrorOrThrottle (list Error))) :=
  match brokers with
  | [] => io_ret (Continue (EtError errors))
  | broker :: brokers =>
      do! conn <- io_try (handler_connect broker) in
      match conn with
      | inr connection => io_ret (Break connection)
      | inl e => try_brokers brokers (errors ++ [e])
      end
  end.

(** [brokers.shuffle(&mut thread_rng())]. *)
Definition shuffled {E} (brokers : list B) : io World E (list B) := fun w =>
  let '(brokers, n) := shuffle brokers (w_net w) in Some (Ok brokers, set_net n w).

Definition connect_failed (e : BackoffError (list Error)) : Error :=
  match e with
  | DeadlineExceded d es => ConnectionErrors.RetryFailed (DeadlineExceded d (inl es))
  end.

Definition connect_to_a_broker_with_retry (brokers : list B) (backoff_config : BackoffConfig) :
    io World Error R :=
  do! brokers <- shuffled brokers in
  io_map_err connect_failed
    (retry_with_backoff (R:=Empty_set) fuel (try_brokers brokers [])
       (Backoff_new backoff_config)).
End handler.

(** ** Metadata requests *)
Section metadata.
Context {R E : Type} `{!RequestHandler World R} `{!BrokerCache World R E} (into : E -> Error).

(** Whether an error means that the connection is broken. *)
Definition broken_connection (e : RequestError) : bool :=
  match e with
  | Poisoned _ | ReqIO _ => true
  | _ => false
  end.

Definition is_specific (mode : MetadataLookupMode R) : bool :=
  match mode with SpecificBroker _ => true | _ => false end.

(** The second half of the attempt of [metadata_request_with_retry]: the
    request to the chosen broker. *)
Definition ask_broker (metadata_mode : MetadataLookupMode R) (request_params : MetadataRequest)
    (broker : R) (cache_gen : option Z) :
    io World (BackoffError RequestError)
       (ControlFlow (Error + MetadataResponse) (ErrorOrThrottle RequestError)) :=
  do! r <- io_try (metadata_request broker request_params) in
  match r with
  | inr response =>
      match maybe_throttle (mresp_throttle_time_ms response) with
      | Err e => io_ret (Continue e)
      | _ => io_ret (Break (inr response))
      end
  | inl e =>
      if broken_connection e && negb (is_specific metadata_mode) then
        do! _ <- match cache_gen with
                 | Some gen => io_put (bc_invalidate gen)
                 | None => io_ret tt
                 end in
        io_ret (Continue (EtError e))
      else io_ret (Break (inl (ConnectionErrors.Metadata e)))
  end.

(** The attempt. *)
Definition metadata_attempt (metadata_mode : MetadataLookupMode R) (request_params : MetadataRequest) :
    io World (BackoffError RequestError)
       (ControlFlow (Error + MetadataResponse) (ErrorOrThrottle RequestError)) :=
  match metadata_mode with
  | SpecificBroker b => ask_broker metadata_mode request_params b None
  | ArbitraryBroker | CachedArbitrary =>
      do! r <- io_try bc_get in
      match r with
      | inr (broker, cache_gen) => ask_broker metadata_mode request_params broker (Some cache_gen)
      | inl e => io_ret (Break (inl (into e)))
      end
  end.

Definition metadata_failed (e : BackoffError RequestError) : Error :=
  match e with
  | DeadlineExceded d e => ConnectionErrors.RetryFailed (DeadlineExceded d (inr e))
  end.

(** [metadata_request_with_retry]. *)
Definition metadata_request_with_retry (metadata_mode : MetadataLookupMode R)
    (request_params : MetadataRequest) (backoff : Backoff Empty_set) : io World Error MetadataResponse :=
  io_flatten (io_map_err metadata_failed
    (retry_with_backoff fuel (metadata_attempt metadata_mode request_params) backoff)).
End metadata.

(** ** The connector *)

(** [RequestHandler for MessengerTransport]. *)
#[export] Instance messenger_request_handler : RequestHandler World MessengerTransport :=
  fun self request_params => request self request_params.

Section connector.
Variable self : BrokerConnector.

#[export] Instance representation_handler :
    ConnectionHandler World BrokerRepresentation MessengerTransport Error :=
  representation_connect self.

(** [BrokerConnector::brokers]. *)
Definition connector_brokers (w : World) : list BrokerRepresentation :=
  if topology_is_empty (w_topology w) then map Bootstrap (bootstrap_brokers self)
  else map TopologyBroker (get_brokers (w_topology w)).

(** [BrokerCache::get] of the connector: an arbitrary broker. *)
Definition arbitrary_get : io World Error (MessengerTransport * Z) :=
  do! current_broker <- io_get w_arbitrary in
  match cell_broker current_broker with
  | Some broker => io_ret (broker, cell_gen current_broker)
  | None =>
      do! brokers <- io_get connector_brokers in
      do! connection <- connect_to_a_broker_with_retry brokers (backoff_config self) in
      do! _ <- io_put (set_arbitrary (mkBrokerCell (Some connection) (cell_gen current_broker))) in
      do! gen <- io_lift (bump (cell_gen current_broker)) in
      do! _ <- io_put (set_arbitrary (mkBrokerCell (Some connection) gen)) in
      io_ret (connection, gen)
  end.

(** [BrokerCache::invalidate] of the connector, and of the controller client:
    [guard.0.take()] unless the generation is another one. *)
Definition cell_invalidate (gen : Z) (guard : BrokerCell (N:=N)) : BrokerCell (N:=N) :=
  if negb (cell_gen guard =? gen) then guard else mkBrokerCell None (cell_gen guard).

Definition arbitrary_invalidate (gen : Z) (w : World) : World :=
  set_arbitrary (cell_invalidate gen (w_arbitrary w)) w.

#[export] Instance arbitrary_cache : BrokerCache World MessengerTransport Error := {|
  bc_get := arbitrary_get;
  bc_invalidate := arbitrary_invalidate;
|}.

(** The lookup with which [request_metadata] starts. *)
Definition lookup_cached (metadata_mode : MetadataLookupMode MessengerTransport)
    (topics : option (list rstring)) : io World Error (option (MetadataResponse * Z)) :=
  match metadata_mode with
  | CachedArbitrary => fun w =>
      let '(r, c) := cache_get topics (w_metadata w) in Some (Ok r, set_metadata c w)
  | _ => io_ret None
  end.

(** [BrokerConnector::request_metadata]. *)
Definition request_metadata (metadata_mode : MetadataLookupMode MessengerTransport)
    (topics : option (list rstring)) : io World Error (MetadataResponse * option Z) :=
  do! cached <- lookup_cached metadata_mode topics in
  match cached with
  | Some (m, gen) => io_ret (m, Some gen)
  | None =>
      let backoff := Backoff_new (backoff_config self) in
      let request :=
        mkMetadataRequest
          (option_map (map (fun x => mkMetadataRequestTopic (mkString_ x))) topics) None in
      do! response <- metadata_request_with_retry (E:=Error) id metadata_mode request backoff in
      do! _ <- match mreq_topics request with
               | None => fun w => let '(r, c) := cache_update response (w_metadata w) in Some (r, set_metadata c w)
               | Some _ => io_ret tt
               end in
      do! _ <- io_put (fun w => set_topology (topology_update (brokers response) (w_topology w)) w) in
      io_ret (response, None)
  end.

(** [BrokerConnector::refresh_metadata]. *)
Definition refresh_metadata : io World Error unit :=
  do! _ <- request_metadata ArbitraryBroker None in
  io_ret tt.

(** [BrokerConnector::invalidate_metadata_cache]. *)
Definition invalidate_metadata_cache (gen : Z) (w : World) : World :=
  set_metadata (cache_invalidate gen (w_metadata w)) w.

(** [BrokerConnector::connect]. *)
Definition connector_connect (broker_id : Z) : io World Error (option MessengerTransport) :=
  do! b <- io_get (fun w => get_broker (w_topology w) broker_id) in
  match b with
  | Some broker =>
      do! connection <- representation_connect self (TopologyBroker broker) in
      io_ret (Some connection)
  | None => io_ret None
  end.
End connector.
End connection.

(** ** Lemmas *)
Section lemmas.
Context {N : Type} `{!Network N} {rsasl : Rsasl} {prof : Profile}.
Variable fuel : nat.
Local Abbreviation World := (World (N:=N)).
Local Abbreviation Error := ConnectionErrors.Error.
Implicit Types w : World.

Lemma representation_connect_keeps self b w0 :
  keeps (same_client w0) (representation_connect fuel self b).
Proof.
  apply keeps_bind; [apply keeps_map_err, with_net_keeps|]. intros t.
  apply keeps_bind; [apply Messenger_new_keeps|]. intros m.
  apply keeps_bind; [apply keeps_map_err, keeps_bind; [apply sync_loop_keeps|intros; apply keeps_lift]|].
  intros m'. destruct (sasl_config self); [|apply keeps_lift].
  apply keeps_bind; [apply keeps_map_err, do_sasl_keeps|]. intros []. apply keeps_lift.
Qed.

Section handler.
Context {B R : Type} `{!ConnectionHandler World B R Error}.

Lemma try_brokers_keeps w0 bs es :
  (forall b, keeps (same_client w0) (handler_connect b)) -> keeps (same_client w0) (try_brokers bs es).
Proof.
  intros Hb. revert es. induction bs as [|b bs IH]; intros es; [apply keeps_lift|].
  apply keeps_bind; [apply keeps_try, Hb|]. intros [e|c]; [apply IH|apply keeps_lift].
Qed.

Lemma connect_with_retry_keeps w0 bs config :
  (forall b, keeps (same_client w0) (handler_connect b)) ->
  keeps (same_client w0) (connect_to_a_broker_with_retry fuel bs config).
Proof.
  intros Hb. apply keeps_bind.
  - intros w Hw r w'. unfold shuffled. destruct (shuffle bs (w_net w)) as [bs' n].
    intros [= <- <-]. by etrans; [exact Hw|].
  - intros bs'. apply keeps_map_err, retry_same_client, try_brokers_keeps, Hb.
Qed.

(** The brokers of a round that refuse, with their errors. *)
Inductive refused : list B -> World -> list Error -> World -> Prop :=
| refused_nil w : refused [] w [] w
| refused_cons b bs w e w1 es w' :
    handler_connect b w = Some (Err e, w1) -> refused bs w1 es w' ->
    refused (b :: bs) w (e :: es) w'.

Lemma try_brokers_refused bs es0 w es w' :
  refused bs w es w' -> try_brokers bs es0 w = Some (Ok (Continue (EtError (es0 ++ es))), w').
Proof.
  intros Hr. revert es0. induction Hr as [w|b bs w e w1 es w' Hb _ IH]; intros es0.
  - by rewrite app_nil_r.
  - simpl. unfold io_bind, io_try. rewrite Hb, IH. by rewrite <-app_assoc.
Qed.

Lemma try_brokers_split bs es0 w r w' :
  try_brokers bs es0 w = Some (r, w') ->
  match r with
  | Ok (Continue (EtError es)) => exists es', es = es0 ++ es' /\ refused bs w es' w'
  | Ok (Break c) => exists bs1 b bs2 es w1,
      bs = bs1 ++ b :: bs2 /\ refused bs1 w es w1 /\ handler_connect b w1 = Some (Ok c, w')
  | Ok (Continue (Throttle _)) => False
  | Err _ => False
  | Panic _ => True
  end.
Proof.
  revert es0 w. induction bs as [|b bs IH]; intros es0 w; simpl.
  - intros [= <- <-]. exists []. rewrite app_nil_r. split; [done|constructor].
  - unfold io_bind, io_try. destruct (handler_connect b w) as [[[c|e|p] w1]|] eqn:Hb; [..|done].
    + intros [= <- <-]. exists [], b, bs, [], w. split; [done|]. split; [constructor|done].
    + intros Hr. specialize (IH _ _ Hr). destruct r as [[c|[es|t]]|?|?]; try done.
      * destruct IH as (bs1 & b' & bs2 & es & w2 & -> & Hrf & Hc).
        exists (b :: bs1), b', bs2, (e :: es), w2. split; [done|]. split; [by econstructor|done].
      * destruct IH as (es' & -> & Hrf). exists (e :: es'). rewrite <-app_assoc.
        split; [done|]. by econstructor.
    + by intros [= <- <-].
Qed.
End handler.

Section metadata.
Context {R E : Type} `{!RequestHandler World R} `{!BrokerCache World R E} (into : E -> Error).

Lemma metadata_attempt_keeps P mode req :
  (forall b, keeps P (metadata_request b req)) -> keeps P bc_get -> (forall g w, P w -> P (bc_invalidate g w)) ->
  keeps P (metadata_attempt into mode req).
Proof.
  intros Hreq Hget Hinv.
  assert (Hask : forall b g, keeps P (ask_broker mode req b g)).
  { intros b g. apply keeps_bind; [apply keeps_try, Hreq|].
    intros [e|resp]; [|case_match; apply keeps_lift].
    case_match; [|apply keeps_lift]. apply keeps_bind; [|intros; apply keeps_lift].
    destruct g; [apply keeps_put; eauto|apply keeps_lift]. }
  destruct mode; try apply Hask; (apply keeps_bind; [by apply keeps_try|]);
    (intros [e|[b g]]; [apply keeps_lift|apply Hask]).
Qed.
End metadata.

(** The parts of the client that the cache of the arbitrary broker is not. *)
Definition same_but_arbitrary w w' : Prop :=
  w_topology w' = w_topology w /\ w_metadata w' = w_metadata w /\
  w_controller w' = w_controller w /\ w_leader w' = w_leader w.

Lemma same_client_weaken w w' : same_client w w' -> same_but_arbitrary w w'.
Proof. intros (? & ? & ? & ? & ?). done. Qed.

#[export] Instance same_but_arbitrary_equiv : Equivalence same_but_arbitrary.
Proof.
  split.
  - by intros w.
  - by intros w w' (? & ? & ? & ?).
  - intros w1 w2 w3 (? & ? & ? & ?) (? & ? & ? & ?). repeat split; congruence.
Qed.

(** A computation that leaves the whole client alone leaves a part of it alone. *)
Lemma keeps_weaken {E A} (m : io World E A) w0 :
  (forall w1, keeps (same_client w1) m) -> keeps (same_but_arbitrary w0) m.
Proof.
  intros Hm w Hw. eapply post_weaken; [by apply (Hm w w)|].
  intros r w' Hr. etrans; [exact Hw|]. by apply same_client_weaken.
Qed.

Context (self : BrokerConnector).

Lemma connect_arbitrary_keeps bs config w0 :
  keeps (same_client w0)
    (connect_to_a_broker_with_retry (ConnectionHandler0:=representation_handler fuel self) fuel bs config).
Proof. apply connect_with_retry_keeps. intros b. apply representation_connect_keeps. Qed.

Lemma arbitrary_get_keeps w0 : keeps (same_but_arbitrary w0) (arbitrary_get fuel self).
Proof.
  apply keeps_bind; [apply keeps_get|]. intros cur. case_match; [apply keeps_lift|].
  apply keeps_bind; [apply keeps_get|]. intros bs.
  apply keeps_bind; [apply keeps_weaken; intros; apply connect_arbitrary_keeps|]. intros c.
  apply keeps_bind; [apply keeps_put; intros w Hw; by etrans; [exact Hw|]|]. intros _.
  apply keeps_bind; [apply keeps_lift|]. intros g.
  apply keeps_bind; [|intros; apply keeps_lift]. apply keeps_put. intros w Hw. by etrans; [exact Hw|].
Qed.

(** A lookup without a connection in the cache: what it did to the cache. *)
Lemma arbitrary_get_miss w r w' :
  cell_broker (w_arbitrary w) = None -> arbitrary_get fuel self w = Some (r, w') ->
  (w_arbitrary w' = w_arbitrary w /\ forall x, r <> Ok x) \/
  (exists c, w_arbitrary w' = mkBrokerCell (Some c) (cell_gen (w_arbitrary w)) /\
     exists p, r = Panic p /\ bump (E:=Error) (cell_gen (w_arbitrary w)) = Panic p) \/
  (exists c g, r = Ok (c, g) /\ bump (E:=Error) (cell_gen (w_arbitrary w)) = Ok g /\
     w_arbitrary w' = mkBrokerCell (Some c) g).
Proof using Type.
  intros Hb. unfold arbitrary_get, io_get. unfold io_bind at 1. rewrite Hb. unfold io_bind at 1 2.
  destruct (connect_to_a_broker_with_retry _ _ _ w) as [[[c|e|p] w1]|] eqn:Hc; [..|done].
  all: pose proof (connect_arbitrary_keeps _ _ w w (reflexivity w) _ _ Hc) as (_ & Ha & _).
  2,3: intros [= <- <-]; left; split; [done|intros ? [=]].
  unfold io_bind, io_put, io_lift. destruct (bump _) as [g|e|p] eqn:Hbump.
  - intros [= <- <-]. right. right. by exists c, g.
  - unfold bump, arith_unsigned in Hbump. by repeat case_match.
  - intros [= <- <-]. right. left. exists c. split; [done|]. by exists p.
Qed.

(** What the connector does as a cache. *)
#[export] Instance arbitrary_cache_ok :
  BrokerCacheOk World MessengerTransport Error (BrokerCache0:=arbitrary_cache fuel self).
Proof.
  refine {| bc_cell := fun w => (cell_broker (w_arbitrary w), cell_gen (w_arbitrary w)) |}.
  - intros w b g [= Hb Hg]. unfold bc_get; simpl. unfold arbitrary_get, io_bind, io_get.
    by rewrite Hb, Hg.
  - intros w b g w' Hget. unfold bc_get in Hget; simpl in Hget.
    destruct (cell_broker (w_arbitrary w)) as [c|] eqn:Hb.
    + revert Hget. unfold arbitrary_get, io_bind, io_get. rewrite Hb. intros [= -> <- <-]. by rewrite Hb.
    + destruct (arbitrary_get_miss _ _ _ Hb Hget) as [[_ Hr]|[(c & _ & p & [=] & _)|(c & g' & [= -> ->] & _ & ->)]];
        [by edestruct Hr|done].
  - intros w e w' Hget. unfold bc_get in Hget; simpl in Hget.
    destruct (cell_broker (w_arbitrary w)) as [c|] eqn:Hb.
    + revert Hget. unfold arbitrary_get, io_bind, io_get. by rewrite Hb.
    + destruct (arbitrary_get_miss _ _ _ Hb Hget) as [[-> _]|[(c & _ & p & [=] & _)|(c & g' & [=] & _)]].
      by rewrite Hb.
  - intros w g r w' [= Hb Hg] Hroom Hget. pose proof (bump_room (E:=Error) g 1 Hroom ltac:(lia)) as Hbump.
    rewrite <-Hg in Hbump.
    destruct (arbitrary_get_miss _ _ _ Hb Hget) as [[-> Hr]|[(c & _ & p & _ & Hp)|(c & g' & -> & Hn & _)]].
    + rewrite Hb, Hg. destruct r as [x|e|p]; [by destruct (Hr x)|done..].
    + congruence.
    + congruence.
  - intros gen w. unfold bc_invalidate; simpl. unfold cell_invalidate.
    destruct (Z.eqb_spec (cell_gen (w_arbitrary w)) gen) as [<-|]; done.
Defined.
End lemmas.

(** ** Properties *)
Section properties.
Context {N : Type} `{!Network N} `{!NetworkOk N} {rsasl : Rsasl} {prof : Profile}.
Variable fuel : nat.
Local Abbreviation World := (World (N:=N)).
Local Abbreviation Error := ConnectionErrors.Error.
Implicit Types w : World.

(** Connecting to a broker goes round in a random order of all candidates.
    A success is a connection to one of them, all before it in that round
    having refused; a failure needs a configured deadline and reports one
    error for each candidate, in the order in which they were asked. *)
Theorem connect_tries_every_broker {B R} `{!ConnectionHandler World B R Error}
    (bs : list B) config w r w' :
  connect_to_a_broker_with_retry fuel bs config w = Some (r, w') ->
  exists order, Permutation order bs /\
    match r with
    | Ok c => exists bs1 b bs2 w1 es w2,
        order = bs1 ++ b :: bs2 /\ refused bs1 w1 es w2 /\ handler_connect b w2 = Some (Ok c, w')
    | Err e => config_deadline config <> None /\
        exists d es w1 w2, e = ConnectionErrors.RetryFailed (DeadlineExceded d (inl es)) /\
          refused order w1 es w2
    | Panic _ => True
    end.
Proof.
  unfold connect_to_a_broker_with_retry. unfold io_bind at 1, shuffled.
  pose proof (shuffle_permutation B bs (w_net w)) as Hperm.
  destruct (shuffle bs (w_net w)) as [order n]. simpl in Hperm. unfold io_map_err.
  destruct (retry_with_backoff _ _ _ _) as [[o w1]|] eqn:Hr; [|done]. intros [= <- <-].
  exists order. split; [done|]. apply retry_split in Hr as (l & self1 & w2 & Hfs & Hf).
  apply failures_deadline in Hfs.
  destruct Hf as [c w3 Hdo|e w3 Hdo|p w3 Hdo|es w3 self2 w4 d dur Hdo Hnext Hd Hs|? ? p ? ? ?|? ? ? ? ? p ? ? ? ?];
    try done; apply try_brokers_split in Hdo.
  - destruct Hdo as (bs1 & b & bs2 & es & w4 & -> & Hrf & Hc). simpl. by repeat eexists.
  - done.
  - destruct Hdo as (es' & -> & Hrf). simpl. split; [|by repeat eexists].
    apply next_deadline in Hnext. rewrite Hnext, Hfs in Hd. simpl in Hd. by destruct (config_deadline config).
Qed.

Section attempt.
Context {R E : Type} `{!RequestHandler World R} `{!BrokerCache World R E} `{!BrokerCacheOk World R E}.
Context (into : E -> Error) (req : MetadataRequest).
Hypothesis request_keeps_cell : forall b w r w',
  metadata_request b req w = Some (r, w') -> bc_cell w' = bc_cell w.

(** What follows the choice of a broker. *)
Lemma ask_broker_spec mode b g w r w' :
  ask_broker mode req b g w = Some (Ok r, w') ->
  match r with
  | Break (inr resp) => maybe_throttle (E:=RequestError) (mresp_throttle_time_ms resp) = Ok tt
  | Break (inl err) => exists e, err = ConnectionErrors.Metadata e /\
      (is_specific mode = true \/ broken_connection e = false)
  | Continue (EtError e) => is_specific mode = false /\ broken_connection e = true /\
      (forall gen, g = Some gen -> bc_cell w' = if snd (bc_cell w) =? gen then (None, gen) else bc_cell w)
  | Continue (Throttle t) => exists resp, metadata_request b req w = Some (Ok resp, w') /\
      maybe_throttle (E:=RequestError) (mresp_throttle_time_ms resp) = Err (Throttle t)
  end.
Proof using request_keeps_cell.
  unfold ask_broker. unfold io_bind at 1, io_try. destruct (metadata_request b req w) as [[[resp|e|p] w1]|] eqn:Hreq; try done.
  - destruct (maybe_throttle _) as [[]|[e|t]|p] eqn:Ht; intros [= <- <-].
    + done.
    + by apply maybe_throttle_not_error in Ht.
    + by eauto.
    + by apply maybe_throttle_no_panic in Ht.
  - destruct (broken_connection e) eqn:Hb; [destruct (is_specific mode) eqn:Hs|]; simpl.
    + intros [= <- <-]. eauto.
    + destruct g as [gen|]; intros [= <- <-]; (split; [done|]); (split; [done|]).
      * intros gen' [= <-]. by rewrite bc_invalidate_spec, (request_keeps_cell _ _ _ _ Hreq).
      * done.
    + intros [= <- <-]. eauto.
Qed.

(** Which failures of a metadata request are retried.  A response is
    returned unless the broker throttles, and then the attempt is repeated
    after the time it asked for.  An error of a broker the caller chose, or one
    that does not mean a broken connection, is returned at once.  A broken
    connection to an arbitrary broker is retried, and by then it is out of the
    cache, so that the next attempt connects anew. *)
Theorem metadata_retry_policy mode w r w' :
  metadata_attempt into mode req w = Some (Ok r, w') ->
  match r with
  | Break (inr resp) => maybe_throttle (E:=RequestError) (mresp_throttle_time_ms resp) = Ok tt
  | Break (inl err) =>
      (exists e, bc_get w = Some (Err e, w') /\ err = into e) \/
      (exists e, err = ConnectionErrors.Metadata e /\
         (is_specific mode = true \/ broken_connection e = false))
  | Continue (EtError e) =>
      is_specific mode = false /\ broken_connection e = true /\
      exists b g w1, bc_get w = Some (Ok (b, g), w1) /\ bc_cell w' = (None, g)
  | Continue (Throttle t) => exists b w1 resp,
      metadata_request b req w1 = Some (Ok resp, w') /\
      maybe_throttle (E:=RequestError) (mresp_throttle_time_ms resp) = Err (Throttle t)
  end.
Proof using request_keeps_cell.
  intros Hrun.
  assert (Hcases : (exists b, mode = SpecificBroker b /\ ask_broker mode req b None w = Some (Ok r, w')) \/
    (exists e, bc_get w = Some (Err e, w') /\ r = Break (inl (into e))) \/
    (exists b g w1, is_specific mode = false /\ bc_get w = Some (Ok (b, g), w1) /\
       ask_broker mode req b (Some g) w1 = Some (Ok r, w'))).
  { destruct mode as [|b|]; [|by eauto|]; revert Hrun; unfold metadata_attempt, io_bind, io_try;
      (destruct (bc_get w) as [[[[b g]|e|p] w1]|] eqn:Hg; try done);
      try (intros [= <- <-]; eauto); intros Hrun; right; right; exists b, g, w1; done. }
  destruct Hcases as [(b & -> & Hask)|[(e & Hg & ->)|(b & g & w1 & Hs & Hg & Hask)]]; [|by eauto|].
  - apply ask_broker_spec in Hask. destruct r as [[err|resp]|[e|t]]; [by eauto|done| |].
    + by destruct Hask.
    + destruct Hask as (resp & ? & ?). eauto.
  - apply ask_broker_spec in Hask. destruct r as [[err|resp]|[e|t]]; [by eauto|done| |].
    + destruct Hask as (_ & Hb & Hc). split; [done|]. split; [done|]. exists b, g, w1.
      split; [done|]. specialize (Hc g eq_refl). rewrite (bc_get_ok _ _ _ _ Hg) in Hc. simpl in Hc.
      by rewrite Z.eqb_refl in Hc.
    + destruct Hask as (resp & ? & ?). eauto.
Qed.
End attempt.

Context (self : BrokerConnector).

Lemma metadata_retry_keeps mode req backoff w0 :
  keeps (same_but_arbitrary w0)
    (metadata_request_with_retry (BrokerCache0:=arbitrary_cache fuel self) fuel id mode req backoff).
Proof using Type.
  apply keeps_flatten, keeps_map_err, keeps_retry.
  - apply metadata_attempt_keeps; [|apply arbitrary_get_keeps|].
    + intros b. apply keeps_weaken. intros. apply request_keeps.
    + intros g w Hw. by etrans; [exact Hw|].
  - intros lo hi w x w' Hw Hg. etrans; [exact Hw|].
    apply same_client_weaken. by apply (gen_range_keeps w lo hi w x w').
  - intros d w Hw. by etrans; [exact Hw|].
Qed.

Lemma metadata_retry_unthrottled mode req backoff w resp w' :
  metadata_request_with_retry (BrokerCache0:=arbitrary_cache fuel self) fuel id mode req backoff w
    = Some (Ok resp, w') ->
  maybe_throttle (E:=RequestError) (mresp_throttle_time_ms resp) = Ok tt.
Proof using Type.
  unfold metadata_request_with_retry, io_flatten, io_map_err, io_bind.
  destruct (retry_with_backoff _ _ _ w) as [[o w1]|] eqn:Hr; [|done].
  destruct o as [[e|resp']|e|p]; simpl; try done. intros [= <- <-].
  apply retry_split in Hr as (l & self1 & w2 & _ & Hf). inversion Hf as [? ? Hdo| | | | |]; subst.
  eapply (metadata_retry_policy id req) in Hdo; [exact Hdo|].
  intros b w3 r w4 Hreq. pose proof (request_keeps w3 b req w3 (reflexivity w3) r w4 Hreq) as (_ & Ha & _).
  simpl. by rewrite Ha.
Qed.

(** The metadata cache after the lookup with which a request starts. *)
Definition after_lookup (mode : MetadataLookupMode (MessengerTransport (N:=N)))
    (topics : option (list rstring)) (c : MetadataCache) : MetadataCache :=
  match mode with CachedArbitrary => snd (cache_get topics c) | _ => c end.

Lemma request_metadata_branches mode topics w r w' :
  request_metadata fuel self mode topics w = Some (r, w') ->
  let c := after_lookup mode topics (w_metadata w) in
  w_controller w' = w_controller w /\ w_leader w' = w_leader w /\
  match r with
  | Ok (m, Some gen) =>
      mode = CachedArbitrary /\ fst (cache_get topics (w_metadata w)) = Some (m, gen) /\
      w' = set_metadata c w
  | Ok (m, None) =>
      maybe_throttle (E:=RequestError) (mresp_throttle_time_ms m) = Ok tt /\
      w_topology w' = topology_update (brokers m) (w_topology w) /\
      match topics with
      | None => cache_update (E:=Error) m c = (Ok tt, w_metadata w')
      | Some _ => w_metadata w' = c
      end
  | Err _ => w_topology w' = w_topology w /\ w_metadata w' = c
  | Panic _ =>
      w_topology w' = w_topology w /\
      (w_metadata w' = c \/
       topics = None /\ exists m p, cache_update (E:=Error) m c = (Panic p, w_metadata w'))
  end.
Proof using Type.
  unfold request_metadata. unfold io_bind at 1. set (req := mkMetadataRequest _ _).
  assert (Hlook : exists o,
      lookup_cached mode topics w = Some (Ok o, set_metadata (after_lookup mode topics (w_metadata w)) w) /\
      (forall m gen, o = Some (m, gen) -> mode = CachedArbitrary /\
         fst (cache_get topics (w_metadata w)) = Some (m, gen))).
  { destruct mode; simpl; [exists None; by destruct w|exists None; by destruct w|].
    destruct (cache_get topics (w_metadata w)) as [o c]. exists o. simpl. naive_solver. }
  destruct Hlook as (o & Hlook & Hhit). rewrite Hlook. set (w0 := set_metadata _ w).
  destruct o as [[m gen]|]; [intros [= <- <-]; naive_solver|].
  unfold io_bind at 1. destruct (metadata_request_with_retry _ _ _ _ _ w0) as [[o w1]|] eqn:Hr; [|done].
  pose proof (metadata_retry_keeps _ _ _ w0 w0 (reflexivity w0) _ _ Hr) as (Ht & Hm & Hc & Hl).
  destruct o as [resp|e|p].
  2,3: intros [= <- <-]; naive_solver.
  apply metadata_retry_unthrottled in Hr. destruct topics as [l|]; unfold io_bind, io_put, io_lift; simpl.
  - intros [= <- <-]; simpl. rewrite ?Ht, ?Hm, ?Hc, ?Hl. done.
  - rewrite Hm. simpl. set (c := after_lookup mode None (w_metadata w)).
    destruct (cache_update (E:=Error) resp c) as [[[]|e|p] c'] eqn:Hu; intros [= <- <-]; simpl;
      rewrite ?Ht, ?Hc, ?Hl; [done| |eauto 10].
    unfold cache_update, arith_unsigned in Hu. by repeat case_match.
Qed.

(** C18: [request_metadata] on every branch.  A hit of the metadata cache is
    returned with its generation and involves no broker.  A response of a
    broker is not throttled; it updates the address of every broker it lists,
    it becomes the cached response exactly when all topics were asked for, and
    it comes without a generation.  After an error the topology is as it was,
    and the cached metadata as the lookup at the start left it: a lookup for a
    topic that is not in the cached response drops it.  A panic is one of a
    broker request, or of the generation when it overflows.  Nothing touches the
    caches of the clients. *)
Theorem request_metadata_spec mode topics w r w' :
  request_metadata fuel self mode topics w = Some (r, w') ->
  let c := after_lookup mode topics (w_metadata w) in
  w_controller w' = w_controller w /\ w_leader w' = w_leader w /\
  match r with
  | Ok (m, Some gen) =>
      mode = CachedArbitrary /\ fst (cache_get topics (w_metadata w)) = Some (m, gen) /\
      w' = set_metadata c w
  | Ok (m, None) =>
      maybe_throttle (E:=RequestError) (mresp_throttle_time_ms m) = Ok tt /\
      w_topology w' = topology_update (brokers m) (w_topology w) /\
      match topics with
      | None => cache_update (E:=Error) m c = (Ok tt, w_metadata w')
      | Some _ => w_metadata w' = c
      end
  | Err _ => w_topology w' = w_topology w /\ w_metadata w' = c
  | Panic _ =>
      w_topology w' = w_topology w /\
      (w_metadata w' = c \/
       topics = None /\ exists m p, cache_update (E:=Error) m c = (Panic p, w_metadata w'))
  end.
Proof using Type. apply request_metadata_branches. Qed.
End properties.

(** ** Concrete runs *)
Import RefNetwork.

Definition sample_connector : BrokerConnector (N:=Net) :=
  mkBrokerConnector (N:=Net) [ascii_string [98]] CARGO_PKG_NAME None None None 1000 BackoffConfig_default.

(** A broker that speaks version 0 of the metadata request. *)
Definition metadata_versions : ApiVersionsResponse :=
  mkApiVersionsResponse None [mkApiVersionsResponseApiKey ApiKeys.Metadata (V 0) (V 0) None] None None.

(** One broker, number 1 at "h:9092", and a topic "t" with partition 0 led by
    [leader]. *)
Definition metadata_reply (leader : Z) : Reply :=
  reply_bytes (to_be_bytes 4 1 ++ to_be_bytes 4 1 ++ to_be_bytes 2 1 ++ [byte_of_Z 104] ++ to_be_bytes 4 9092
    ++ to_be_bytes 4 1 ++ to_be_bytes 2 0 ++ to_be_bytes 2 1 ++ [byte_of_Z 116]
    ++ to_be_bytes 4 1 ++ to_be_bytes 2 0 ++ to_be_bytes 4 0 ++ to_be_bytes 4 leader
    ++ to_be_bytes 4 0 ++ to_be_bytes 4 0).

Definition sample_metadata_world : RefWorld :=
  world (mkNet [] [Err OtherIo; Ok 7] [reply_of (V 3) metadata_versions; metadata_reply 1] []) [].


Definition sample_refresh :=
  request_metadata (prof:=debug_profile) 6 sample_connector ArbitraryBroker None sample_metadata_world.

Lemma request_metadata_spec_witness :
  exists m w', sample_refresh = Some (Ok (m, None), w') /\ sent_ok sample_refresh = Some 2%nat /\
    w_controller w' = w_controller sample_metadata_world /\ w_leader w' = w_leader sample_metadata_world /\
    maybe_throttle (E:=RequestError) (mresp_throttle_time_ms m) = Ok tt /\
    w_topology w' = topology_update (brokers m) (w_topology sample_metadata_world) /\
    cache_update (prof:=debug_profile) (E:=ConnectionErrors.Error) m MetadataCache_default = (Ok tt, w_metadata w').
Proof.
  assert (Hlen : sent_ok sample_refresh = Some 2%nat) by (vm_compute; reflexivity).
  assert (Hg : (match sample_refresh with Some (Ok (_, None), _) => true | _ => false end) = true)
    by (vm_compute; reflexivity).
  destruct sample_refresh as [[[[m [g|]]|e|p] w']|] eqn:Hr; try discriminate Hg.
  exists m, w'. split; [reflexivity|]. split; [exact Hlen|].
  apply (request_metadata_spec (rsasl:=ref_rsasl) (prof:=debug_profile) 6 sample_connector ArbitraryBroker None
    sample_metadata_world (Ok (m, None)) w' Hr).
Defined.

Definition sample_connect :=
  connect_to_a_broker_with_retry (ConnectionHandler0:=representation_handler (rsasl:=ref_rsasl) (prof:=debug_profile) 6 sample_connector)
    6 (connector_brokers sample_connector sample_metadata_world) BackoffConfig_default sample_metadata_world.

Lemma connect_tries_every_broker_witness :
  exists c w', sample_connect = Some (Ok c, w') /\
  exists order, Permutation order (connector_brokers sample_connector sample_metadata_world) /\
    exists bs1 b bs2 w1 es w2,
      order = bs1 ++ b :: bs2 /\
      refused (ConnectionHandler0:=representation_handler (rsasl:=ref_rsasl) (prof:=debug_profile) 6 sample_connector) bs1 w1 es w2 /\
      representation_connect (rsasl:=ref_rsasl) (prof:=debug_profile) 6 sample_connector b w2 = Some (Ok c, w').
Proof.
  assert (Hlen : sent_ok sample_connect = Some 1%nat) by (vm_compute; reflexivity).
  destruct sample_connect as [[[c|e|p] w']|] eqn:Hr; try discriminate Hlen.
  exists c, w'. split; [reflexivity|].
  apply (connect_tries_every_broker
    (ConnectionHandler0:=representation_handler (rsasl:=ref_rsasl) (prof:=debug_profile) 6 sample_connector)
    6 (connector_brokers sample_connector sample_metadata_world) BackoffConfig_default
    sample_metadata_world (Ok c) w' Hr).
Defined.

(** The connection in the cache is broken when it is used. *)
Definition sample_broken_world : RefWorld :=
  set_arbitrary (mkBrokerCell (Some (set_version_ranges
    [(ApiKeys.Metadata, mkApiVersionRange (V 0) (V 0))] sample_messenger)) 4)
    (world (mkNet [] [] [Broken] []) [0]).

Definition sample_attempt :=
  metadata_attempt (BrokerCache0:=arbitrary_cache (rsasl:=ref_rsasl) (prof:=debug_profile) 6 sample_connector) id
    ArbitraryBroker (mkMetadataRequest None None) sample_broken_world.

Lemma metadata_retry_policy_witness :
  exists e w', sample_attempt = Some (Ok (Continue (EtError e)), w') /\
    is_specific (@ArbitraryBroker (MessengerTransport (N:=Net))) = false /\ broken_connection e = true /\
    exists b g w1,
      arbitrary_get (rsasl:=ref_rsasl) (prof:=debug_profile) 6 sample_connector sample_broken_world = Some (Ok (b, g), w1) /\
      (cell_broker (w_arbitrary w'), cell_gen (w_arbitrary w')) = (None, g).
Proof.
  assert (Hc : (match sample_attempt with Some (Ok (Continue (EtError _)), _) => true | _ => false end) = true)
    by (vm_compute; reflexivity).
  destruct sample_attempt as [[[[x|[e|t]]|x|p] w']|] eqn:Hr; try discriminate Hc.
  exists e, w'. split; [reflexivity|].
  apply (metadata_retry_policy (BrokerCache0:=arbitrary_cache (rsasl:=ref_rsasl) (prof:=debug_profile) 6 sample_connector)
    (BrokerCacheOk0:=arbitrary_cache_ok (rsasl:=ref_rsasl) (prof:=debug_profile) 6 sample_connector)
    id (mkMetadataRequest None None)) with (mode:=ArbitraryBroker) (w:=sample_broken_world)
    (r:=Continue (EtError e)) (w':=w'); [|exact Hr].
  intros b w1 r w2 Hreq.
  pose proof (request_keeps w1 b (mkMetadataRequest None None) w1 (reflexivity w1) r w2 Hreq) as (_ & Ha & _).
  simpl. by rewrite Ha.
Defined.

Definition sample_cached : MessengerTransport (N:=Net) :=
  set_version_ranges [(ApiKeys.Metadata, mkApiVersionRange (V 0) (V 0))] sample_messenger.
#[local] Instance sample_cache : BrokerCache RefWorld MessengerTransport ConnectionErrors.Error :=
  arbitrary_cache (rsasl:=ref_rsasl) (prof:=debug_profile) 6 sample_connector.
#[local] Instance sample_cache_ok : BrokerCacheOk RefWorld MessengerTransport ConnectionErrors.Error :=
  arbitrary_cache_ok (rsasl:=ref_rsasl) (prof:=debug_profile) 6 sample_connector.

(** The connection was dropped and another one made, of the next generation. *)
Definition sample_reconnect_world : RefWorld :=
  set_arbitrary (mkBrokerCell (Some sample_cached) 4)
    (world (mkNet [] [Ok 7] [reply_of (V 3) metadata_versions] []) [0]).

Lemma stale_invalidation_ignored_witness :
  exists b w', cache_run sample_reconnect_world [Invalidated 4; Got b 5] w' /\
    bc_cell (bc_invalidate 4 w') = (Some b, 5) /\ 4 < 5.
Proof.
  assert (Hok : sent_ok (bc_get (bc_invalidate 4 sample_reconnect_world)) = Some 1%nat)
    by (vm_compute; reflexivity).
  destruct (bc_get (bc_invalidate 4 sample_reconnect_world)) as [[[[b g]|e|p] w']|] eqn:Hr;
    try discriminate Hok.
  assert (Hempty : bc_cell (bc_invalidate 4 sample_reconnect_world) = (None, 4)) by reflexivity.
  assert (Hg : g = 5) by exact (bc_get_new _ _ _ _ Hempty ltac:(done) Hr). subst g.
  pose proof (bc_get_ok _ _ _ _ Hr) as Hc.
  exists b, w'.
  assert (Hrun : cache_run sample_reconnect_world [Invalidated 4; Got b 5] w').
  { apply run_invalidated. eapply run_got; [exact Hr|]. apply run_nil. }
  split; [exact Hrun|].
  apply (stale_invalidation_ignored sample_reconnect_world sample_cached 4
    [Invalidated 4; Got b 5] w' b 5 sample_reconnect_world).
  - apply bc_get_hit. reflexivity.
  - exact Hrun.
  - done.
  - exact Hc.
  - lia.
Defined.
