(* ===== verification/ConnectionTests.v ===== *)
(** * The tests of the connector, replayed (src/connection.rs)

    The tests replace the brokers, the broker cache and the connections by
    fakes behind the traits [RequestHandler], [BrokerCache] and
    [ConnectionHandler]; the same fakes are instances of the classes here.  The
    network around them only keeps what the fakes share, the sleeps of the
    retries and the order in which brokers are tried. *)

From Stdlib Require Import ZArith Lia.
From stdpp Require Import base list numbers gmap fin_maps.
From S2P Require Import Prelude Bytes Wire VecBuilder Varint Primitives PrimitiveLaws ApiKey ErrorCode.
From S2P Require Import Codec RefCrates RawSnappy Versioned TopicMessages Frame ProtocolTests Support MetadataCache.
From S2P Require Import Messenger MessengerSystem Io Backoff Topology Transport Session BrokerCache Connection.

Local Open Scope Z_scope.
Local Open Scope rust_scope.
Local Open Scope test_scope.

Module Fakes.
(** [succeed] of the tests, whether the shuffle turns the brokers round, and
    the sleeps. *)
Record Net : Type := mkNet {
  succeed : bool;
  reversed : bool;
  fake_slept : list Z;
}.

#[export] Instance fake_timer : Timer Net := {|
  thread_rng := fun lo hi n => if f64_lt lo hi && f64_valid lo then Some (lo, n) else None;
  sleep_for d n := mkNet (succeed n) (reversed n) (fake_slept n ++ [d]);
  slept := fake_slept;
|}.

#[export] Instance fake_sockets : Sockets Net := {|
  TcpStream := unit;
  TlsStream := unit;
  ClientConfig := unit;
  ServerName := unit;
  tcp_connect _ := io_lift (Ok tt);
  socks5_connect s _ := io_lift (Ok s);
  server_name_try_from _ := Some tt;
  tls_connect _ _ s := io_lift (Ok s);
|}.

#[export] Instance fake_network : Network Net := {|
  shuffle A l n := (if reversed n then rev l else l, n);
  exchange _ _ _ _ _ := fun _ => None;
|}.

Definition fake_world (n : Net) : World (N:=Net) :=
  mkWorld n [] ∅ (mkBrokerCell None 0) MetadataCache_default (mkBrokerCell None 0)
    (mkCurrentBroker None 0 None None).

Definition arbitrary_metadata_request : MetadataRequest := mkMetadataRequest None None.
Definition arbitrary_metadata_response : MetadataResponse := mkMetadataResponse None [] None None [].
Definition arbitrary_fatal_error : RequestError := NoVersionMatch ApiKeys.Metadata.
Definition arbitrary_recoverable_error : RequestError := ReqIO UnexpectedEof.

(** [FakeBroker::success], [fatal_error] and [recoverable]: what it answers. *)
Definition FakeBroker : Type := outcome RequestError MetadataResponse.
Definition success : FakeBroker := Ok arbitrary_metadata_response.
Definition fatal_error : FakeBroker := Err arbitrary_fatal_error.
Definition recoverable : FakeBroker := Err arbitrary_recoverable_error.

#[export] Instance FakeBroker_handler : RequestHandler (World (N:=Net)) FakeBroker := fun b _ => io_lift b.

(** [FakeBrokerCache], by what its two functions do to the shared flag. *)
Definition FakeBrokerCache (on_get : bool -> outcome ConnectionErrors.Error FakeBroker)
    (on_invalidate : bool -> bool) :
    BrokerCache (World (N:=Net)) FakeBroker ConnectionErrors.Error := {|
  bc_get w := Some (let! b := on_get (succeed (w_net w)) in Ok (b, 0), w);
  bc_invalidate _ w :=
    set_net (mkNet (on_invalidate (succeed (w_net w))) (reversed (w_net w)) (fake_slept (w_net w))) w;
|}.

(** The backoff of the tests, [Backoff::new(&Default::default())]. *)
Definition backoff : Backoff Empty_set := Backoff_new BackoffConfig_default.

(** [metadata_request_with_retry(..).await] with a cache; one retry is all
    that the tests need. *)
Definition with_cache (cache : BrokerCache (World (N:=Net)) FakeBroker ConnectionErrors.Error)
    (mode : MetadataLookupMode FakeBroker) : outcome ConnectionErrors.Error MetadataResponse :=
  match metadata_request_with_retry (E:=ConnectionErrors.Error) 5 id mode
          arbitrary_metadata_request backoff (fake_world (mkNet false false [])) with
  | Some (r, _) => r
  | None => Panic Unreachable
  end.
End Fakes.
Import Fakes.

(** ** Metadata requests *)

(** A cache whose functions are not called: using it would panic, or show in
    the flag. *)
Definition unused_cache : BrokerCache (World (N:=Net)) FakeBroker ConnectionErrors.Error :=
  FakeBrokerCache (fun _ => Panic Unreachable) id.

Definition happy_cached_broker : Prop :=
  get result := with_cache (FakeBrokerCache (fun _ => Ok success) id) ArbitraryBroker in
  arbitrary_metadata_response = result.

Definition fatal_error_cached_broker : Prop :=
  fail result := with_cache (FakeBrokerCache (fun _ => Ok fatal_error) id) ArbitraryBroker in
  match result with ConnectionErrors.Metadata (NoVersionMatch _) => True | _ => False end.

(** The broker fails until the cache is invalidated. *)
Definition sad_cached_broker : Prop :=
  get result := with_cache (FakeBrokerCache (fun succeed => Ok (if succeed then success else recoverable))
                              (fun _ => true)) ArbitraryBroker in
  arbitrary_metadata_response = result.

Definition happy_broker_override : Prop :=
  get result := with_cache unused_cache (SpecificBroker success) in
  arbitrary_metadata_response = result.

Definition sad_broker_override : Prop :=
  fail result := with_cache unused_cache (SpecificBroker recoverable) in
  match result with ConnectionErrors.Metadata (ReqIO _) => True | _ => False end.

(** ** Connecting *)

(** [FakeConn] and [FakeBrokerRepresentation]. *)
Inductive FakeConn : Type := fake_conn.
Definition FakeBrokerRepresentation : Type := outcome ConnectionErrors.Error FakeConn.

#[local] Instance FakeBrokerRepresentation_handler :
  ConnectionHandler (World (N:=Net)) FakeBrokerRepresentation FakeConn ConnectionErrors.Error :=
  fun b => io_lift b.

(** Whatever the order in which the brokers are tried. *)
Definition connect_picks_successful_broker : Prop :=
  let brokers : list FakeBrokerRepresentation :=
    [Ok fake_conn; Err (ConnectionErrors.Metadata arbitrary_recoverable_error)] in
  for_each [false; true] (fun reversed =>
    match connect_to_a_broker_with_retry (R:=FakeConn) 5 brokers BackoffConfig_default
            (fake_world (mkNet false reversed [])) with
    | Some (r, _) => get conn := r in conn = fake_conn
    | None => False
    end).

Lemma connection_tests_pass :
  happy_cached_broker /\ fatal_error_cached_broker /\ sad_cached_broker /\ happy_broker_override /\
  sad_broker_override /\ connect_picks_successful_broker.
Proof. passes. Qed.
