(* ===== verification/ConnectionDisplay.v ===== *)
(** * What connection errors and modes are printed as (src/connection.rs) *)

From Stdlib Require Import ZArith Lia String.
From stdpp Require Import base list numbers gmap.
From S2P Require Import Prelude Bytes Wire Io Topology Session Connection ProtocolTests.

Local Open Scope Z_scope.

(** ** [MultiError] *)
Section multi_error.
Context {Err : Type} (display : Err -> rstring).

(** The loop, with [needs_comma]. *)
Fixpoint fmt_errors (needs_comma : bool) (errors : list Err) : rstring :=
  match errors with
  | [] => []
  | err :: errors =>
      (if needs_comma then ascii_bytes ", " else []) ++ display err ++ fmt_errors true errors
  end.

(** [<MultiError as Display>::fmt]. *)
Definition MultiError_fmt (self : list Err) : rstring :=
  (if (1 <? length self)%nat then ascii_bytes "Multiple errors occured: " else []) ++ fmt_errors false self.

(** The text with separators written out. *)
Fixpoint join (sep : rstring) (l : list rstring) : rstring :=
  match l with
  | [] => []
  | [x] => x
  | x :: l => x ++ sep ++ join sep l
  end.

Lemma fmt_errors_join errors : fmt_errors false errors = join (ascii_bytes ", ") (display <$> errors).
Proof.
  destruct errors as [|e errors]; [done|]. revert e. induction errors as [|e' errors IH]; intros e.
  - cbn. apply app_nil_r.
  - specialize (IH e'). cbn [fmt_errors fmap list_fmap join app] in *. by rewrite <-IH.
Qed.

(** One error is printed as it is, several behind a prefix, with commas. *)
Theorem MultiError_fmt_spec errors :
  MultiError_fmt errors =
    match errors with
    | [] => []
    | [e] => display e
    | _ => ascii_bytes "Multiple errors occured: " ++ join (ascii_bytes ", ") (display <$> errors)
    end.
Proof.
  unfold MultiError_fmt. rewrite fmt_errors_join. destruct errors as [|e [|e' errors]]; [done..|]. done.
Qed.
End multi_error.

(** ** [MetadataLookupMode] *)

(** [debug_tuple("SpecificBroker").field(&"...")]: a string is printed in
    quotes. *)
Definition quote : rstring := [byte_of_Z 34].

Definition MetadataLookupMode_fmt {R} (self : MetadataLookupMode R) : rstring :=
  match self with
  | ArbitraryBroker => ascii_bytes "ArbitraryBroker"
  | SpecificBroker _ => ascii_bytes "SpecificBroker(" ++ quote ++ ascii_bytes "..." ++ quote ++ ascii_bytes ")"
  | CachedArbitrary => ascii_bytes "CachedArbitrary"
  end.

(** Two modes with the same text differ at most in their broker, which is not
    printed. *)
Lemma MetadataLookupMode_fmt_inj {R} (a b : MetadataLookupMode R) :
  MetadataLookupMode_fmt a = MetadataLookupMode_fmt b ->
  match a, b with
  | ArbitraryBroker, ArbitraryBroker | SpecificBroker _, SpecificBroker _
  | CachedArbitrary, CachedArbitrary => True
  | _, _ => False
  end.
Proof. by destruct a, b. Qed.

(** ** [BrokerRepresentation] *)

(** [BrokerRepresentation::id]. *)
Definition representation_id (self : BrokerRepresentation) : option Z :=
  match self with
  | Bootstrap _ => None
  | TopologyBroker broker => Some (broker_id broker)
  end.

(** Once the topology is known, every broker that is tried has the id of one
    of its members. *)
Lemma connector_brokers_have_ids {N} `{!Network N} (c : BrokerConnector (N:=N)) (w : World (N:=N)) :
  topology_is_empty (w_topology w) = false ->
  representation_id <$> connector_brokers c w = Some <$> (broker_id <$> get_brokers (w_topology w)).
Proof.
  intros Ht. unfold connector_brokers. rewrite Ht. by induction (get_brokers (w_topology w)); simpl; f_equal.
Qed.
