(* ===== verification/Aggregator.v ===== *)
(** * Batching of records (src/record.rs, src/client/producer/aggregator.rs)

    The high-level record with its approximate size, the [Aggregator] and
    [StatusDeaggregator] traits, and [RecordAggregator], which batches records
    up to a number of bytes.  Sizes are [usize] in the source; they count bytes
    held in memory, so their sums do not reach 2^64 and are plain [Z] here. *)

From Stdlib Require Import ZArith Lia.
From stdpp Require Import base list numbers.
From S2P Require Import Prelude Bytes.

Local Open Scope Z_scope.
Local Open Scope rust_scope.

(** [crate::record::Record]; the headers are a map, as the list of its entries,
    in the order of its keys, and the timestamp is in nanoseconds since the
    epoch. *)
Record ClientRecord : Type := mkClientRecord {
  record_key : option (list byte);
  record_value : option (list byte);
  record_headers : list (rstring * list byte);
  record_timestamp : Z;
}.

(** [RecordAndOffset]. *)
Record RecordAndOffset : Type := mkRecordAndOffset {
  rao_record : ClientRecord;
  rao_offset : Z;
}.

Definition sum_Z (l : list Z) : Z := fold_right Z.add 0 l.

(** [Record::approximate_size]. *)
Definition approximate_size (r : ClientRecord) : Z :=
  default 0 (option_map zlen (record_key r)) +
  default 0 (option_map zlen (record_value r)) +
  sum_Z (map (fun '(k, v) => zlen k + zlen v) (record_headers r)).

(** [TryPush]. *)
Inductive TryPush (I T : Type) : Type :=
| NoCapacity (i : I)
| Aggregated (t : T).
Arguments NoCapacity {I T} i.
Arguments Aggregated {I T} t.

(** [TryPush::unwrap_input] and [TryPush::unwrap_tag]. *)
Definition unwrap_input {E I T} (self : TryPush I T) : outcome E I :=
  match self with
  | NoCapacity input => Ok input
  | Aggregated _ => Panic ExplicitPanic
  end.
Definition unwrap_tag {E I T} (self : TryPush I T) : outcome E T :=
  match self with
  | NoCapacity _ => Panic ExplicitPanic
  | Aggregated tag => Ok tag
  end.

(** The two traits; [Err] is an opaque error of the implementation. *)
Class StatusDeaggregator (D Tag Status : Type) : Type :=
  deaggregate : D -> list Z -> Tag -> outcome unit Status.

Class Aggregator (A Input Tag D : Type) : Type := {
  try_push : Input -> A -> outcome unit (TryPush Input Tag) * A;
  flush : A -> outcome unit (list ClientRecord * D) * A;
}.

Record AggregatorState : Type := mkAggregatorState {
  batch_size : Z;
  agg_records : list ClientRecord;
}.

Record RecordAggregator : Type := mkRecordAggregator {
  max_batch_size : Z;
  agg_state : AggregatorState;
}.

Inductive RecordAggregatorStatusDeaggregator : Type := RecordDeaggregator.

Definition AggregatorState_default : AggregatorState := mkAggregatorState 0 [].

(** [RecordAggregator::new]. *)
Definition RecordAggregator_new (max_batch_size : Z) : RecordAggregator :=
  mkRecordAggregator max_batch_size AggregatorState_default.

(** [RecordAggregator::try_push]. *)
Definition RecordAggregator_try_push (record : ClientRecord) (self : RecordAggregator) :
    outcome unit (TryPush ClientRecord nat) * RecordAggregator :=
  let record_size := approximate_size record in
  let st := agg_state self in
  if max_batch_size self <? batch_size st + record_size then (Ok (NoCapacity record), self)
  else
    let tag := length (agg_records st) in
    (Ok (Aggregated tag),
     mkRecordAggregator (max_batch_size self)
       (mkAggregatorState (batch_size st + record_size) (agg_records st ++ [record]))).

(** [RecordAggregator::flush]: [std::mem::take]. *)
Definition RecordAggregator_flush (self : RecordAggregator) :
    outcome unit (list ClientRecord * RecordAggregatorStatusDeaggregator) * RecordAggregator :=
  (Ok (agg_records (agg_state self), RecordDeaggregator),
   mkRecordAggregator (max_batch_size self) AggregatorState_default).

(** [RecordAggregatorStatusDeaggregator::deaggregate]: [input[tag]]. *)
Definition RecordAggregator_deaggregate (self : RecordAggregatorStatusDeaggregator)
    (input : list Z) (tag : nat) : outcome unit Z :=
  match input !! tag with
  | Some o => Ok o
  | None => Panic IndexOutOfBounds
  end.

#[export] Instance RecordAggregator_Aggregator :
  Aggregator RecordAggregator ClientRecord nat RecordAggregatorStatusDeaggregator :=
  { try_push := RecordAggregator_try_push; flush := RecordAggregator_flush }.
#[export] Instance RecordAggregator_StatusDeaggregator :
  StatusDeaggregator RecordAggregatorStatusDeaggregator nat Z := RecordAggregator_deaggregate.

(** ** What an aggregator promises

    The producer is written against the traits; these are the laws it needs of
    an implementation: a batch holds the accepted records in order, a tag names
    the position of its record, a rejected record leaves the aggregator as it
    was and is handed back, and a flush empties it. *)
Class AggregatorOk {A D Status} `{Aggregator A ClientRecord nat D, StatusDeaggregator D nat Status}
    (batch : A -> list ClientRecord) (status_of : Z -> Status) : Prop := {
  try_push_law : forall r a res a', try_push r a = (res, a') ->
    match res with
    | Ok (Aggregated tag) => batch a' = batch a ++ [r] /\ tag = length (batch a)
    | Ok (NoCapacity r') => r' = r /\ a' = a
    | Err _ => a' = a
    | Panic _ => False
    end;
  flush_law : forall a, exists d a', flush a = (Ok (batch a, d), a') /\ batch a' = [] /\
    forall offsets tag o, offsets !! tag = Some o -> deaggregate d offsets tag = Ok (status_of o);
}.

(** ** Lemmas *)
Lemma sum_Z_nonneg l : Forall (fun z => 0 <= z) l -> 0 <= sum_Z l.
Proof. induction 1; simpl; lia. Qed.

Lemma sum_Z_app l k : sum_Z (l ++ k) = sum_Z l + sum_Z k.
Proof. induction l; simpl; lia. Qed.

Lemma approximate_size_nonneg r : 0 <= approximate_size r.
Proof.
  unfold approximate_size.
  assert (0 <= sum_Z (map (fun '(k, v) => zlen k + zlen v) (record_headers r))).
  { apply sum_Z_nonneg, Forall_map, Forall_true. intros [k v].
    pose proof (zlen_nonneg k). pose proof (zlen_nonneg v). lia. }
  destruct (record_key r) as [k|], (record_value r) as [v|]; simpl;
    try pose proof (zlen_nonneg k); try pose proof (zlen_nonneg v); lia.
Qed.

(** The size of a batch is the sum of the sizes of its records, within the
    limit. *)
Definition agg_inv (a : RecordAggregator) : Prop :=
  batch_size (agg_state a) = sum_Z (map approximate_size (agg_records (agg_state a))) /\
  (agg_records (agg_state a) <> [] -> batch_size (agg_state a) <= max_batch_size a).

Lemma try_push_inv r a : agg_inv a -> agg_inv (snd (RecordAggregator_try_push r a)).
Proof.
  intros [Hs Hm]. unfold RecordAggregator_try_push.
  destruct (Z.ltb_spec (max_batch_size a) (batch_size (agg_state a) + approximate_size r)); [done|].
  split; simpl; [|lia]. rewrite map_app, sum_Z_app, Hs. simpl. lia.
Qed.

Lemma flush_inv a : agg_inv (snd (RecordAggregator_flush a)).
Proof. split; [done|]. by intros []. Qed.

(** Sequences of calls. *)
Inductive agg_op : Type := Push (r : ClientRecord) | Flush.

Definition agg_step (a : RecordAggregator) (op : agg_op) : RecordAggregator :=
  match op with
  | Push r => snd (RecordAggregator_try_push r a)
  | Flush => snd (RecordAggregator_flush a)
  end.

Lemma agg_run_inv ops a :
  agg_inv a -> agg_inv (fold_left agg_step ops a) /\
  max_batch_size (fold_left agg_step ops a) = max_batch_size a.
Proof.
  revert a. induction ops as [|op ops IH]; intros a Ha; [done|]. simpl.
  assert (agg_inv (agg_step a op)) as Hop by (destruct op; [by apply try_push_inv|apply flush_inv]).
  destruct (IH _ Hop) as [H1 H2]. split; [done|]. rewrite H2.
  destruct op; [|done]. simpl. unfold RecordAggregator_try_push. by case_match.
Qed.

#[export] Instance RecordAggregator_Ok :
  AggregatorOk (A:=RecordAggregator) (D:=RecordAggregatorStatusDeaggregator) (Status:=Z)
    (fun a => agg_records (agg_state a)) (fun o => o).
Proof.
  split.
  - intros r a res a'. unfold try_push, RecordAggregator_Aggregator, RecordAggregator_try_push.
    by case_match; intros [= <- <-].
  - intros a. eexists _, _. split; [done|]. split; [done|].
    intros offsets tag o Ho. unfold deaggregate, RecordAggregator_StatusDeaggregator,
      RecordAggregator_deaggregate. by rewrite Ho.
Qed.

(** ** Clients of the interface *)
Section client.
Context {A D Status : Type} `{AI : Aggregator A ClientRecord nat D, DI : StatusDeaggregator D nat Status}.
Context {batch : A -> list ClientRecord} {status_of : Z -> Status}.
Context {AOK : AggregatorOk batch status_of}.

(** Offers records one after the other and keeps the tags of the accepted
    ones, like the callers of [BatchProducer::produce] between two flushes. *)
Fixpoint push_all (rs : list ClientRecord) (a : A) : list (ClientRecord * nat) * A :=
  match rs with
  | [] => ([], a)
  | r :: rs =>
      match try_push r a with
      | (Ok (Aggregated tag), a') => let '(tags, a'') := push_all rs a' in ((r, tag) :: tags, a'')
      | (_, a') => push_all rs a'
      end
  end.

Lemma push_all_tags rs : forall a tags a',
  push_all rs a = (tags, a') ->
  (exists suffix, batch a' = batch a ++ suffix) /\
  Forall (fun '(r, tag) => batch a' !! tag = Some r) tags.
Proof.
  induction rs as [|r rs IH]; intros a tags a' H; simpl in H.
  { injection H as <- <-. split; [exists []; by rewrite app_nil_r|done]. }
  destruct (try_push r a) as [res a1] eqn:Hp. apply try_push_law in Hp.
  destruct res as [[r'|tag]| |]; [| |subst a1; by eauto|done].
  - destruct Hp as [-> ->]. eauto.
  - destruct Hp as [Hb ->]. destruct (push_all rs a1) as [tags1 a2] eqn:Hr.
    injection H as <- <-. destruct (IH _ _ _ Hr) as [[suffix Hs] Hf].
    split; [exists (r :: suffix); by rewrite Hs, Hb, <-app_assoc|].
    constructor; [|done]. rewrite Hs, Hb, <-app_assoc.
    by apply list_lookup_middle.
Qed.
End client.

(** ** Properties *)

(** A record aggregator never holds more than its limit: after any
    sequence of pushes and flushes the recorded batch size is the sum of the
    sizes of the records in the batch, and does not exceed [max_batch_size]
    unless the batch is empty. *)
Theorem aggregator_bounded max ops :
  let a := fold_left agg_step ops (RecordAggregator_new max) in
  batch_size (agg_state a) = sum_Z (map approximate_size (agg_records (agg_state a))) /\
  (agg_records (agg_state a) <> [] -> batch_size (agg_state a) <= max).
Proof.
  intros a. destruct (agg_run_inv ops (RecordAggregator_new max)) as [[H1 H2] H3].
  { split; [done|]. by intros []. }
  rewrite H3 in H2. done.
Qed.

(** [try_push] accepts a record exactly when it fits next to the records
    of the current batch; a record that does not fit is handed back and the
    batch is unchanged; one that is larger than the limit never fits. *)
Theorem try_push_capacity max ops r :
  let a := fold_left agg_step ops (RecordAggregator_new max) in
  let used := sum_Z (map approximate_size (agg_records (agg_state a))) in
  RecordAggregator_try_push r a =
    (if used + approximate_size r <=? max
     then (Ok (Aggregated (length (agg_records (agg_state a)))),
           mkRecordAggregator max (mkAggregatorState (used + approximate_size r)
                                     (agg_records (agg_state a) ++ [r])))
     else (Ok (NoCapacity r), a)) /\
  (max < approximate_size r -> fst (RecordAggregator_try_push r a) = Ok (NoCapacity r)).
Proof.
  intros a used. destruct (agg_run_inv ops (RecordAggregator_new max)) as [[H1 H2] H3].
  { split; [done|]. by intros []. }
  fold a in H1, H2, H3. fold used in H1. unfold RecordAggregator_try_push. rewrite H1, H3. simpl.
  assert (0 <= used).
  { apply sum_Z_nonneg, Forall_map, Forall_true. apply approximate_size_nonneg. }
  destruct (Z.ltb_spec max (used + approximate_size r)),
    (Z.leb_spec (used + approximate_size r) max); try lia; split; try done. intros. lia.
Qed.

(** Every accepted record gets its own offset.  For any aggregator that
    keeps the laws of the traits: when records are pushed
    and the batch is flushed, each accepted record stands in the flushed batch
    at the position of its tag, and when the produce call returns one offset
    per record, [deaggregate] gives each tag the offset of its record and
    does not panic. *)
Theorem accepted_records_get_their_offset {A D Status}
    `{AI : Aggregator A ClientRecord nat D, DI : StatusDeaggregator D nat Status}
    batch (status_of : Z -> Status) `{!AggregatorOk batch status_of} rs a tags a' r tag offsets :
  push_all rs a = (tags, a') -> In (r, tag) tags ->
  length offsets = length (batch a') ->
  exists d a'' o, flush a' = (Ok (batch a', d), a'') /\ batch a'' = [] /\
    batch a' !! tag = Some r /\ offsets !! tag = Some o /\
    deaggregate d offsets tag = Ok (status_of o).
Proof.
  intros Hpush Hin Hlen. apply push_all_tags in Hpush as [_ Htags].
  rewrite Forall_forall in Htags. apply Htags in Hin as Htag.
  destruct (flush_law a') as (d & a'' & Hf & He & Hd).
  destruct (lookup_lt_is_Some_2 offsets tag) as [o Ho].
  { apply lookup_lt_Some in Htag. lia. }
  exists d, a'', o. eauto 10.
Qed.

Definition sample_record (n : Z) : ClientRecord := mkClientRecord None (Some [byte_of_Z n]) [] 0.

Lemma accepted_records_get_their_offset_witness :
  exists d a'' o,
    flush (mkRecordAggregator 2 (mkAggregatorState 2 [sample_record 1; sample_record 2]))
      = (Ok ([sample_record 1; sample_record 2], d), a'') /\
    agg_records (agg_state a'') = [] /\
    [sample_record 1; sample_record 2] !! 1%nat = Some (sample_record 2) /\
    [10; 11] !! 1%nat = Some o /\ deaggregate d [10; 11] 1%nat = Ok o.
Proof.
  apply (accepted_records_get_their_offset (fun a => agg_records (agg_state a)) (fun o => o)
    [sample_record 1; sample_record 2; sample_record 3] (RecordAggregator_new 2)
    [(sample_record 1, 0%nat); (sample_record 2, 1%nat)]
    (mkRecordAggregator 2 (mkAggregatorState 2 [sample_record 1; sample_record 2]))
    (sample_record 2) 1%nat [10; 11]); [reflexivity|simpl; auto|reflexivity].
Defined.
