(* ===== verification/Batch.v ===== *)
(** * Batches of the producer (src/client/producer/broadcast.rs, batch.rs)

    A [BroadcastOnce] is shared between the batch that will publish a result
    and the callers that wait for it, so it is a cell of a store, named by its
    index.  Cells are only ever added.  The write of a batch runs in a task of
    its own, which owns the cell; tasks are part of the store too, with the
    answer of the client once there is one. *)

From Stdlib Require Import ZArith Lia.
From stdpp Require Import base list numbers.
From S2P Require Import Prelude Bytes Aggregator.

Local Open Scope Z_scope.
Local Open Scope rust_scope.

(** [broadcast::Error]. *)
Inductive BroadcastError : Type := BroadcastDropped.

(** [producer::Error]; [CE] is the error of the client. *)
Inductive ProducerError (CE : Type) : Type :=
| AggregatorError (e : unit)
| ClientError (e : CE)
| FlushError
| TooLarge.
Arguments AggregatorError {CE} e.
Arguments ClientError {CE} e.
Arguments FlushError {CE}.
Arguments TooLarge {CE}.

(** [AggregatedStatus]. *)
Record AggregatedStatus (D : Type) : Type := mkAggregatedStatus {
  aggregated_status : list Z;
  status_deagg : D;
}.
Arguments mkAggregatedStatus {D} _ _.
Arguments aggregated_status {D} _.
Arguments status_deagg {D} _.

(** [BatchWriteResult]. *)
Definition BatchWriteResult (CE D : Type) : Type := outcome (ProducerError CE) (AggregatedStatus D).

(** [ResultHandle]: the receiver of a cell, and the tag. *)
Record ResultHandle (Tag : Type) : Type := mkResultHandle {
  receiver : nat;
  handle_tag : Tag;
}.
Arguments mkResultHandle {Tag} _ _.
Arguments receiver {Tag} _.
Arguments handle_tag {Tag} _.

(** [BatchBuilder]. *)
Record BatchBuilder (A : Type) : Type := mkBatchBuilder {
  aggregator : A;
  results : nat;
}.
Arguments mkBatchBuilder {A} _ _.
Arguments aggregator {A} _.
Arguments results {A} _.

(** The task that [background_flush] spawns. *)
Record FlushTask (CE D : Type) : Type := mkFlushTask {
  task_batch : list ClientRecord;
  task_deagg : D;
  task_cell : nat;
  task_answer : option (outcome CE (list Z));
}.
Arguments mkFlushTask {CE D} _ _ _ _.
Arguments task_batch {CE D} _.
Arguments task_deagg {CE D} _.
Arguments task_cell {CE D} _.
Arguments task_answer {CE D} _.

Section batch.
Context {CE A Input Tag D Status : Type}.
Context `{AI : Aggregator A Input Tag D, DI : StatusDeaggregator D Tag Status}.

(** [Shared::data]. *)
Local Abbreviation shared := (option (outcome BroadcastError (BatchWriteResult CE D))).

Record store : Type := mkStore {
  cells : list shared;
  tasks : list (FlushTask CE D);
}.

(** ** [BroadcastOnce] *)

(** [BroadcastOnce::default]. *)
Definition BroadcastOnce_default (h : store) : nat * store :=
  (length (cells h), mkStore (cells h ++ [None]) (tasks h)).

Definition set_cell (i : nat) (x : shared) (h : store) : store :=
  mkStore (<[i := x]> (cells h)) (tasks h).

(** [BroadcastOnce::drop]. *)
Definition broadcast_drop (i : nat) (h : store) : store :=
  match cells h !! i with
  | Some None => set_cell i (Some (Err BroadcastDropped)) h
  | _ => h
  end.

(** [BroadcastOnce::broadcast], which takes [self] and drops it at its end. *)
Definition broadcast (i : nat) (r : BatchWriteResult CE D) (h : store) : outcome Empty_set store :=
  match cells h !! i with
  | Some None => Ok (broadcast_drop i (set_cell i (Some (Ok r)) h))
  | _ => Panic AssertFailed
  end.

(** [BroadcastOnceReceiver::peek]; [receive] waits until it is [Some]. *)
Definition peek (i : nat) (h : store) : shared :=
  match cells h !! i with
  | Some x => x
  | None => None
  end.

(** ** [BatchBuilder] *)

(** [BatchBuilder::new]. *)
Definition BatchBuilder_new (a : A) (h : store) : BatchBuilder A * store :=
  let '(i, h) := BroadcastOnce_default h in (mkBatchBuilder a i, h).

(** [BatchBuilder::try_push]. *)
Definition BatchBuilder_try_push (data : Input) (self : BatchBuilder A) :
    outcome (ProducerError CE) (TryPush Input (ResultHandle Tag)) * BatchBuilder A :=
  let '(r, a) := try_push data (aggregator self) in
  let self := mkBatchBuilder a (results self) in
  match r with
  | Ok (NoCapacity data) => (Ok (NoCapacity data), self)
  | Ok (Aggregated tag) => (Ok (Aggregated (mkResultHandle (results self) tag)), self)
  | Err e => (Err (AggregatorError e), self)
  | Panic p => (Panic p, self)
  end.

(** [FlushResult], or the panic of the aggregator. *)
Inductive FlushResult : Type :=
| FlushOk (b : BatchBuilder A) (task : option nat)
| FlushFailed (b : BatchBuilder A) (e : ProducerError CE)
| FlushPanic (p : panic).

(** [BatchBuilder::background_flush].  What [self] still owns is dropped on the
    way out. *)
Definition background_flush (self : BatchBuilder A) (h : store) : FlushResult * store :=
  let '(r, a) := flush (aggregator self) in
  match r with
  | Err e =>
      let '(b, h) := BatchBuilder_new a h in
      (FlushFailed b (AggregatorError e), broadcast_drop (results self) h)
  | Panic p => (FlushPanic p, broadcast_drop (results self) h)
  | Ok (batch, status_deagg) =>
      match batch with
      | [] =>
          match broadcast (results self) (Ok (mkAggregatedStatus [] status_deagg)) h with
          | Ok h => let '(b, h) := BatchBuilder_new a h in (FlushOk b None, h)
          | Err e => match e with end
          | Panic p => (FlushPanic p, h)
          end
      | _ =>
          let tid := length (tasks h) in
          let h := mkStore (cells h) (tasks h ++ [mkFlushTask batch status_deagg (results self) None]) in
          let '(b, h) := BatchBuilder_new a h in
          (FlushOk b (Some tid), h)
      end
  end.

(** What the task publishes once the client has answered; a panic of the
    client drops the cell. *)
Definition task_result (t : FlushTask CE D) (answer : outcome CE (list Z)) :
    outcome panic (BatchWriteResult CE D) :=
  match answer with
  | Ok status => Ok (Ok (mkAggregatedStatus status (task_deagg t)))
  | Err e => Ok (Err (ClientError e))
  | Panic p => Err p
  end.

(** The body of the task after [client.produce(batch, compression).await]. *)
Definition complete_task (tid : nat) (t : FlushTask CE D) (answer : outcome CE (list Z)) (h : store) :
    outcome Empty_set store :=
  let h := mkStore (cells h)
    (<[tid := mkFlushTask (task_batch t) (task_deagg t) (task_cell t) (Some answer)]> (tasks h)) in
  match task_result t answer with
  | Ok r => broadcast (task_cell t) r h
  | _ => Ok (broadcast_drop (task_cell t) h)
  end.

(** [JoinHandle::is_finished]. *)
Definition is_finished (h : store) (tid : nat) : bool :=
  match tasks h !! tid with
  | Some t => match task_answer t with Some _ => true | None => false end
  | None => true
  end.

(** [ResultHandle::wait] on what [receive] returned, and [ResultHandle::result]. *)
Definition handle_wait (r : outcome BroadcastError (BatchWriteResult CE D)) :
    outcome (ProducerError CE) (BatchWriteResult CE D) :=
  omap_err (fun _ => FlushError) r.

Definition handle_result (self : ResultHandle Tag) (status : BatchWriteResult CE D) :
    outcome (ProducerError CE) Status :=
  let! status := status in
  omap_err AggregatorError (deaggregate (status_deagg status) (aggregated_status status) (handle_tag self)).

(** What was published stays when the sender is dropped. *)
Lemma broadcast_open i r h :
  cells h !! i = Some None -> broadcast i r h = Ok (set_cell i (Some (Ok r)) h).
Proof.
  intros Hi. unfold broadcast. rewrite Hi. unfold broadcast_drop. simpl.
  by rewrite list_lookup_insert_eq by by eapply lookup_lt_Some.
Qed.

(** ** The store of a producer

    The cell of the current batch is the last one and open.  Each earlier cell
    holds the result of its batch: published when the batch was flushed, or the
    result of its task, which is the only one that owns the cell. *)
Definition cell_of (t : FlushTask CE D) : shared :=
  match task_answer t with
  | None => None
  | Some answer =>
      match task_result t answer with
      | Ok r => Some (Ok r)
      | _ => Some (Err BroadcastDropped)
      end
  end.

Record store_inv (h : store) (cur : nat) : Prop := {
  st_cur : S cur = length (cells h) /\ cells h !! cur = Some None;
  st_task : forall tid t, tasks h !! tid = Some t ->
    (task_cell t < cur)%nat /\ cells h !! task_cell t = Some (cell_of t);
  st_unique : forall i j t u, tasks h !! i = Some t -> tasks h !! j = Some u ->
    task_cell t = task_cell u -> i = j;
  st_open : forall i, (i < cur)%nat -> cells h !! i = Some None ->
    exists tid t, tasks h !! tid = Some t /\ task_cell t = i;
}.

(** The aggregator does not panic. *)
Class AggregatorTotal : Prop := {
  try_push_total : forall r a p, fst (try_push r a) <> Panic p;
  flush_total : forall a p, fst (flush a) <> Panic p;
}.

(** Publishing the result of the current batch and opening a new one. *)
Lemma store_inv_publish h cur v :
  store_inv h cur -> store_inv (mkStore (<[cur := Some v]> (cells h) ++ [None]) (tasks h)) (S cur).
Proof.
  intros [[Hlen Hcur] Htask Huniq Hopen]. split; simpl; try done.
  - rewrite length_app, length_insert. simpl. split; [lia|].
    rewrite lookup_app_r by (rewrite length_insert; lia). rewrite length_insert.
    by replace (S cur - length (cells h))%nat with 0%nat by lia.
  - intros tid t Ht. destruct (Htask _ _ Ht) as [Hlt Hc]. split; [lia|].
    rewrite lookup_app_l by (rewrite length_insert; lia). by rewrite list_lookup_insert_ne by lia.
  - intros i Hi Hc. rewrite lookup_app_l in Hc by (rewrite length_insert; lia).
    destruct (decide (i = cur)) as [->|Hne]; [by rewrite list_lookup_insert_eq in Hc by lia|].
    rewrite list_lookup_insert_ne in Hc by done. apply Hopen; [lia|done].
Qed.

(** Handing the cell of the current batch to a task and opening a new one. *)
Lemma store_inv_spawn h cur recs d :
  store_inv h cur ->
  store_inv (mkStore (cells h ++ [None]) (tasks h ++ [mkFlushTask recs d cur None])) (S cur).
Proof.
  intros [[Hlen Hcur] Htask Huniq Hopen].
  assert (Hnew : forall tid t, (tasks h ++ [mkFlushTask recs d cur None]) !! tid = Some t ->
    tasks h !! tid = Some t \/ tid = length (tasks h) /\ t = mkFlushTask recs d cur None).
  { intros tid t [Ht|[Hle Ht]]%lookup_app_Some; [by left|]. right.
    destruct (tid - length (tasks h))%nat as [|n] eqn:E; simpl in Ht; [|done].
    injection Ht as <-. split; [lia|done]. }
  split; simpl; try done.
  - rewrite length_app. simpl. split; [lia|]. rewrite lookup_app_r by lia.
    by replace (S cur - length (cells h))%nat with 0%nat by lia.
  - intros tid t [Ht|[-> ->]]%Hnew; [destruct (Htask _ _ Ht) as [Hlt Hc]|]; simpl;
      (split; [lia|]); rewrite lookup_app_l by lia; done.
  - intros i j t u [Ht|[-> ->]]%Hnew [Hu|[-> ->]]%Hnew Heq; simpl in Heq; eauto.
    + destruct (Htask _ _ Ht). lia.
    + destruct (Htask _ _ Hu). lia.
  - intros i Hi Hc. rewrite lookup_app_l in Hc by lia. destruct (decide (i = cur)) as [->|].
    + exists (length (tasks h)), (mkFlushTask recs d cur None). by rewrite list_lookup_middle.
    + destruct (Hopen i) as (tid & t & Ht & Hi'); [lia|done|]. exists tid, t.
      split; [by apply lookup_app_l_Some|done].
Qed.

(** [background_flush] keeps the store in order: the new batch has the next
    cell, and a batch with records has become a task. *)
Lemma background_flush_inv `{AggregatorTotal} b h r h' :
  store_inv h (results b) -> background_flush b h = (r, h') ->
  exists b', results b' = S (results b) /\ store_inv h' (results b') /\
    ((exists e e', r = FlushFailed b' e /\ tasks h' = tasks h /\ flush (aggregator b) = (Err e', aggregator b')) \/
     exists recs d, flush (aggregator b) = (Ok (recs, d), aggregator b') /\
       (recs = [] /\ r = FlushOk b' None /\ tasks h' = tasks h \/
        recs <> [] /\ r = FlushOk b' (Some (length (tasks h))) /\
          tasks h' = tasks h ++ [mkFlushTask recs d (results b) None])).
Proof.
  intros I. pose proof (st_cur _ _ I) as [Hlen Hcur]. unfold background_flush.
  pose proof (flush_total (aggregator b)) as Hnp.
  destruct (flush (aggregator b)) as [[[recs d]|e|p] a]; [| |by destruct (Hnp p)].
  - destruct recs as [|x recs]; [rewrite broadcast_open by done|]; simpl; rewrite ?length_insert, <-Hlen;
      intros [= <- <-]; exists (mkBatchBuilder a (S (results b))); (split; [done|]).
    + split; [by apply store_inv_publish|]. right. exists [], d. split; [done|]. by left.
    + split; [by apply store_inv_spawn|]. right. exists (x :: recs), d. split; [done|]. by right.
  - simpl. unfold broadcast_drop. simpl. rewrite lookup_app_l, Hcur by lia. unfold set_cell. simpl.
    rewrite insert_app_l, <-Hlen by lia. intros [= <- <-]. exists (mkBatchBuilder a (S (results b))).
    split; [done|]. split; [by apply store_inv_publish|]. left. eauto.
Qed.

(** A task that has its answer publishes it, and its [assert!] holds. *)
Lemma complete_task_inv h cur tid t answer :
  store_inv h cur -> tasks h !! tid = Some t -> task_answer t = None ->
  exists h', complete_task tid t answer h = Ok h' /\ store_inv h' cur /\
    tasks h' = <[tid := mkFlushTask (task_batch t) (task_deagg t) (task_cell t) (Some answer)]> (tasks h).
Proof.
  intros [[Hlen Hcur] Htask Huniq Hopen] Ht Hans.
  destruct (Htask _ _ Ht) as [Hlt Hc]. unfold cell_of in Hc. rewrite Hans in Hc.
  set (t' := mkFlushTask (task_batch t) (task_deagg t) (task_cell t) (Some answer)).
  assert (exists v, cell_of t' = Some v) as [v Hv].
  { unfold cell_of. simpl. destruct (task_result t' answer); eauto. }
  exists (mkStore (<[task_cell t := cell_of t']> (cells h)) (<[tid := t']> (tasks h))).
  split; [|split; [|done]].
  { unfold complete_task, cell_of. simpl. change (task_result t' answer) with (task_result t answer).
    destruct (task_result t answer); [by rewrite broadcast_open| |]; unfold broadcast_drop; simpl; by rewrite Hc. }
  assert (Hold : forall i u, <[tid := t']> (tasks h) !! i = Some u ->
    i = tid /\ u = t' \/ i <> tid /\ tasks h !! i = Some u).
  { intros i u H. destruct (decide (i = tid)) as [->|]; [|by rewrite list_lookup_insert_ne in H; auto].
    rewrite list_lookup_insert_eq in H by by eapply lookup_lt_Some. injection H as <-. by left. }
  split; simpl.
  - rewrite length_insert, list_lookup_insert_ne by lia. done.
  - intros i u [[-> ->]|[Hne Hu]]%Hold.
    + split; [done|]. simpl. rewrite list_lookup_insert_eq by lia. done.
    + destruct (Htask _ _ Hu) as [? Hcu]. split; [done|].
      rewrite list_lookup_insert_ne; [done|]. intros Heq. by apply Hne, (Huniq _ _ _ _ Hu Ht).
  - intros i j u w [[-> ->]|[Hi Hu]]%Hold [[-> ->]|[Hj Hw]]%Hold Heq; simpl in Heq; eauto.
  - intros i Hi Hci. destruct (decide (i = task_cell t)) as [->|Hne].
    { rewrite list_lookup_insert_eq in Hci by lia. congruence. }
    rewrite list_lookup_insert_ne in Hci by done. destruct (Hopen i Hi Hci) as (j & u & Hu & <-).
    exists j, u. rewrite list_lookup_insert_ne; [done|]. intros ->. congruence.
Qed.
End batch.

Arguments store CE D : clear implicits.
Arguments FlushResult CE A : clear implicits.
Arguments AggregatorTotal A Input Tag D {AI}.
