(* ===== verification/Broadcast.v ===== *)
(** * Waiting for a result (src/client/producer/broadcast.rs)

    [Batch] treats a [BroadcastOnce] as a cell that is written once and read
    when it is full.  Here is why it may: the sender and any number of calls of
    [receive] run side by side, in steps that are no larger than what the lock
    of the data and the [Notify] make atomic.  The sender stores the result and
    notifies under the write lock; a receiver asks for its notification before
    it looks at the data for the first time.

    [tokio::sync::Notify] is a parameter: what is relied on is the documented
    promise that a [Notified] future completes exactly when [notify_waiters] was
    called after the future was created, polled before or not. *)

From Stdlib Require Import ZArith Lia.
From stdpp Require Import base list numbers gmap fin_maps.
From S2P Require Import Prelude Bytes Aggregator Batch.

Local Open Scope rust_scope.

(** [tokio::sync::Notify]: [Token] is the [Notified] future. *)
Class Notify (N Token : Type) : Type := {
  notified : N -> Token;
  notify_waiters : N -> N;
  is_notified : N -> Token -> bool;
}.

Class NotifyOk (N Token : Type) `{!Notify N Token} : Prop :=
  notified_after : forall (n : N) k,
    is_notified (Nat.iter k notify_waiters n) (notified n) = bool_decide (0 < k)%nat.

Section broadcast.
Context {T N Token : Type}.
Context `{NO : NotifyOk N Token}.

Local Abbreviation shared := (option (outcome BroadcastError T)).

(** Where the owner of the [BroadcastOnce] stands.  [broadcast(self, r)] holds
    the write lock from [Publishing] to the notification and then drops [self];
    [drop] takes the lock again. *)
Inductive sender : Type :=
| Holding
| Publishing (r : T)
| Stored
| Dropping
| DropLocked
| DropStored
| Gone
| DoublePublish.

(** Where a call of [receive] stands: before its first look at the data,
    awaiting its notification, before its second look, and at its end. *)
Inductive receiving : Type :=
| Started (token : Token)
| Waiting (token : Token)
| Woken
| Returned (v : outcome BroadcastError T)
| ReceivePanic.

Definition write_locked (s : sender) : bool :=
  match s with
  | Publishing _ | Stored | DropLocked | DropStored => true
  | _ => false
  end.

(** The next step of [BroadcastOnce::broadcast] and [BroadcastOnce::drop]. *)
Definition sender_step (s : sender) (data : shared) (n : N) : sender * shared * N :=
  match s with
  | Publishing r =>
      match data with
      | None => (Stored, Some (Ok r), n)
      | Some _ => (DoublePublish, data, n)
      end
  | Stored => (Dropping, data, notify_waiters n)
  | Dropping => (DropLocked, data, n)
  | DropLocked =>
      match data with
      | None => (DropStored, Some (Err BroadcastDropped), n)
      | Some _ => (Gone, data, n)
      end
  | DropStored => (Gone, data, notify_waiters n)
  | Holding | Gone | DoublePublish => (s, data, n)
  end.

(** [BroadcastOnceReceiver::receive]: its first statement, and the next step of
    a call, if it can go on.  [peek] waits for the lock. *)
Definition receive_start (n : N) : receiving := Started (notified n).

Definition receive_step (s : sender) (data : shared) (n : N) (r : receiving) : option receiving :=
  match r with
  | Started token =>
      if write_locked s then None
      else Some (match data with Some v => Returned v | None => Waiting token end)
  | Waiting token => if is_notified n token then Some Woken else None
  | Woken =>
      if write_locked s then None
      else Some (match data with Some v => Returned v | None => ReceivePanic end)
  | Returned _ | ReceivePanic => None
  end.

(** A channel with the calls of [receive] on its receivers. *)
Record channel : Type := mkChannel {
  ch_sender : sender;
  ch_data : shared;
  ch_notify : N;
  ch_receiving : gmap nat receiving;
}.

Inductive chstep : channel -> channel -> Prop :=
| ch_broadcast r data n m :
    (** the owner calls [broadcast] and gets the lock *)
    chstep (mkChannel Holding data n m) (mkChannel (Publishing r) data n m)
| ch_abandon data n m :
    (** the owner drops the [BroadcastOnce] *)
    chstep (mkChannel Holding data n m) (mkChannel Dropping data n m)
| ch_send c s data n :
    sender_step (ch_sender c) (ch_data c) (ch_notify c) = (s, data, n) ->
    chstep c (mkChannel s data n (ch_receiving c))
| ch_call id c :
    (** [receive] is called *)
    ch_receiving c !! id = None ->
    chstep c (mkChannel (ch_sender c) (ch_data c) (ch_notify c)
                (<[id := receive_start (ch_notify c)]> (ch_receiving c)))
| ch_receive id c r r' :
    ch_receiving c !! id = Some r ->
    receive_step (ch_sender c) (ch_data c) (ch_notify c) r = Some r' ->
    chstep c (mkChannel (ch_sender c) (ch_data c) (ch_notify c) (<[id := r']> (ch_receiving c)))
| ch_cancel id c :
    chstep c (mkChannel (ch_sender c) (ch_data c) (ch_notify c) (delete id (ch_receiving c))).

(** [BroadcastOnce::default]. *)
Definition ch_initial (n : N) : channel := mkChannel Holding None n ∅.

Definition ch_reachable (n : N) : channel -> Prop := rtc chstep (ch_initial n).

(** A call of [receive] that is polled [k] times. *)
Fixpoint receive_run (k : nat) (c : channel) (r : receiving) : option receiving :=
  match k with
  | O => Some r
  | S k => r' ← receive_step (ch_sender c) (ch_data c) (ch_notify c) r; receive_run k c r'
  end.

(** ** The invariant *)

(** Between storing the result and notifying about it. *)
Definition storing (s : sender) : bool :=
  match s with Stored | DropStored => true | _ => false end.

(** The sender and the data. *)
Definition sender_ok (s : sender) (data : shared) : Prop :=
  match s with
  | Holding | Publishing _ => data = None
  | Stored | DropStored | Gone => is_Some data
  | Dropping | DropLocked => True
  | DoublePublish => False
  end.

(** A notification asked for [k] notifications ago: there was one only if the
    data was there. *)
Definition token_age (data : shared) (n : N) (token : Token) (k : nat) : Prop :=
  exists n0, token = notified n0 /\ n = Nat.iter k notify_waiters n0 /\ ((0 < k)%nat -> is_Some data).

Definition receiving_ok (s : sender) (data : shared) (n : N) (r : receiving) : Prop :=
  match r with
  | Started token => exists k, token_age data n token k
  | Waiting token =>
      exists k, token_age data n token k /\
        (is_Some data -> storing s = false -> (0 < k)%nat)
  | Woken => is_Some data
  | Returned v => data = Some v
  | ReceivePanic => False
  end.

Definition channel_ok (c : channel) : Prop :=
  sender_ok (ch_sender c) (ch_data c) /\
  map_Forall (fun _ => receiving_ok (ch_sender c) (ch_data c) (ch_notify c)) (ch_receiving c).

Lemma is_notified_age data n token k :
  token_age data n token k -> is_notified n token = bool_decide (0 < k)%nat.
Proof using NO. intros (n0 & -> & -> & _). apply notified_after. Qed.

Lemma token_age_notify data n token k :
  is_Some data -> token_age data n token k -> token_age data (notify_waiters n) token (S k).
Proof. intros Hd (n0 & -> & -> & _). by exists n0. Qed.

Lemma token_age_data data v n token k :
  token_age data n token k -> token_age (Some v) n token k.
Proof. intros (n0 & -> & -> & _). exists n0. eauto. Qed.

(** What the sender does keeps every call of [receive] right: it stores the
    data, it notifies, or it does neither. *)
Lemma receiving_ok_store s s' v n r :
  storing s' = true -> receiving_ok s None n r -> receiving_ok s' (Some v) n r.
Proof.
  intros Hst. destruct r as [token|token| |v'|]; simpl; [| |by intros [? ?]|done|done].
  - intros [k Hk]. eauto using token_age_data.
  - intros (k & Hk & _). exists k. split; [by eapply token_age_data|congruence].
Qed.

Lemma receiving_ok_notify s s' data n r :
  is_Some data -> receiving_ok s data n r -> receiving_ok s' data (notify_waiters n) r.
Proof.
  intros Hd. destruct r as [token|token| |v|]; simpl; try done.
  - intros [k Hk]. eauto using token_age_notify.
  - intros (k & Hk & _). exists (S k). split; [by apply token_age_notify|lia].
Qed.

Lemma receiving_ok_sender s s' data n r :
  storing s' = storing s -> receiving_ok s data n r -> receiving_ok s' data n r.
Proof. intros Hst. destruct r; simpl; try done. by rewrite Hst. Qed.

Lemma sender_step_ok s data n s' data' n' :
  sender_ok s data -> sender_step s data n = (s', data', n') ->
  sender_ok s' data' /\
  forall r, receiving_ok s data n r -> receiving_ok s' data' n' r.
Proof.
  intros Hs Hstep.
  destruct s; simpl in Hs; subst; simpl in Hstep; repeat case_match; simplify_eq; try done;
    (split; [first [done|by eexists]|]); intros r0;
    first [by apply receiving_ok_sender|by apply receiving_ok_notify|by apply receiving_ok_store].
Qed.

(** A call that goes on stays right. *)
Lemma receive_step_ok s data n r r' :
  receiving_ok s data n r -> receive_step s data n r = Some r' -> receiving_ok s data n r'.
Proof using NO.
  destruct r as [token|token| |v|]; simpl; try done.
  - intros [k Hk]. destruct (write_locked s); intros [= <-]. destruct data as [v|]; [done|].
    exists k. split; [done|]. by intros [? ?].
  - intros (k & Hk & _). destruct (is_notified n token) eqn:Hn; intros [= <-].
    rewrite (is_notified_age _ _ _ _ Hk) in Hn. apply bool_decide_eq_true in Hn.
    destruct Hk as (_ & _ & _ & H). by apply H.
  - intros [v ->]. destruct (write_locked s); by intros [= <-].
Qed.

Lemma chstep_ok c c' : channel_ok c -> chstep c c' -> channel_ok c'.
Proof using NO.
  intros [Hs Hr]. destruct 1 as [? data n m|data n m|c s data n Hstep|id c Hid|id c r r' Hid Hstep|id c];
    simpl in *.
  - split; [done|]. eapply map_Forall_impl; [exact Hr|]. by intros ? [].
  - split; [done|]. eapply map_Forall_impl; [exact Hr|]. by intros ? [].
  - destruct (sender_step_ok _ _ _ _ _ _ Hs Hstep) as [Hs' Hrec]. split; [done|].
    eapply map_Forall_impl; [exact Hr|]. intros ? r. apply Hrec.
  - split; [done|]. apply map_Forall_insert_2; [|done]. exists 0%nat, (ch_notify c). split; [done|].
    split; [done|lia].
  - split; [done|]. apply map_Forall_insert_2; [|done].
    eapply receive_step_ok; [|exact Hstep]. by apply (Hr id).
  - split; [done|]. by apply map_Forall_delete.
Qed.

Lemma ch_reachable_ok n c : ch_reachable n c -> channel_ok c.
Proof using NO.
  intros Hr. assert (Hi : channel_ok (ch_initial n)) by (split; [done|apply map_Forall_empty]).
  revert Hi. unfold ch_reachable in Hr. induction Hr; eauto using chstep_ok.
Qed.

(** Once the sender is gone, each call of [receive] returns within two more
    steps of its own. *)
Lemma receive_returns c r v :
  write_locked (ch_sender c) = false -> storing (ch_sender c) = false -> ch_data c = Some v ->
  receiving_ok (ch_sender c) (ch_data c) (ch_notify c) r ->
  exists k, (k <= 2)%nat /\ receive_run k c r = Some (Returned v).
Proof using NO.
  intros Hl Hst Hd. destruct r as [token|token| |v'|]; simpl; try done.
  - intros _. exists 1%nat. split; [lia|]. simpl. by rewrite Hl, Hd.
  - intros (k & Hk & Hpos). exists 2%nat. split; [lia|]. simpl.
    rewrite (is_notified_age _ _ _ _ Hk), bool_decide_eq_true_2 by eauto. simpl. by rewrite Hl, Hd.
  - intros _. exists 1%nat. split; [lia|]. simpl. by rewrite Hl, Hd.
  - intros Hv. exists 0%nat. split; [lia|]. simpl. congruence.
Qed.
End broadcast.

(** ** Notifications counted *)

#[export] Instance counted_Notify : Notify nat nat := {
  notified n := n;
  notify_waiters n := S n;
  is_notified n token := bool_decide (token < n)%nat;
}.

#[export] Instance counted_NotifyOk : NotifyOk nat nat.
Proof.
  intros n k. assert (Hk : Nat.iter k notify_waiters n = (k + n)%nat) by (by induction k; simpl; f_equal).
  rewrite Hk. simpl. apply bool_decide_ext. lia.
Qed.

(** A receiver that looked too early, the result published and the owner
    gone. *)
Definition published_channel : channel (T:=Z) (N:=nat) (Token:=nat) :=
  mkChannel Gone (Some (Ok 2%Z)) 1%nat {[ 0%nat := Waiting 0%nat ]}.

Lemma published_channel_reachable : ch_reachable 0%nat published_channel.
Proof.
  eapply rtc_l; [by apply (ch_call 0%nat)|]. cbn.
  eapply rtc_l; [eapply (ch_receive 0%nat); [apply lookup_insert_eq|done]|]. cbn.
  eapply rtc_l; [by apply (ch_broadcast 2%Z)|].
  do 4 (eapply rtc_l; [eapply ch_send; reflexivity|]; cbn).
  rewrite insert_insert_eq. apply rtc_refl.
Qed.

(** C14: A [BroadcastOnce] behaves like a cell that is written once.  In every
    interleaving of its owner with any number of calls of [receive] and their
    cancellations, neither the assertion against publishing twice nor the
    [expect] of [receive] fails, and all calls that returned got the published
    result.  No wake-up is lost: once the owner is gone, having published a
    result or not, there is a result, and each call that has not returned
    returns it within two more steps of its own. *)
Theorem receive_never_misses {T N Token} `{NO : NotifyOk N Token} n (c : channel (T:=T)) :
  ch_reachable n c ->
  ch_sender c <> DoublePublish /\
  (forall id r, ch_receiving c !! id = Some r ->
    r <> ReceivePanic /\ forall v, r = Returned v -> ch_data c = Some v) /\
  (ch_sender c = Gone -> exists v, ch_data c = Some v /\
    forall id r, ch_receiving c !! id = Some r ->
      exists k, (k <= 2)%nat /\ receive_run k c r = Some (Returned v)).
Proof.
  intros [Hs Hr]%ch_reachable_ok. split_and!.
  - intros Heq. by rewrite Heq in Hs.
  - intros id r Hid. specialize (Hr _ _ Hid). destruct r; naive_solver.
  - intros Heq. pose proof Hs as Hd. rewrite Heq in Hd. destruct Hd as [v Hv]. exists v. split; [done|].
    intros id r Hid. apply receive_returns; rewrite ?Heq; try done. rewrite <-Heq. by apply (Hr id).
Qed.

Lemma receive_never_misses_witness :
  exists k, (k <= 2)%nat /\ receive_run k published_channel (Waiting 0%nat) = Some (Returned (Ok 2%Z)).
Proof.
  destruct (receive_never_misses 0%nat published_channel published_channel_reachable) as (_ & _ & H).
  destruct (H eq_refl) as (v & Hv & Hrun). injection Hv as <-.
  exact (Hrun 0%nat (Waiting 0%nat) eq_refl).
Defined.
