(* ===== verification/Producer.v ===== *)
(** * The batching producer (src/client/producer.rs)

    [ProducerInner] is the state behind the mutex of a [BatchProducer]: the
    current batch, the flush clock, whether a caller already lingers, and the
    running flush tasks.  The system below interleaves callers of [produce] and
    [flush], expiring lingers, answers of the client and cancellations; each
    critical section is one step.  The aggregator is any implementation of the
    trait. *)

From Stdlib Require Import ZArith Lia.
From stdpp Require Import base list numbers gmap fin_maps.
From S2P Require Import Prelude Bytes Aggregator Batch.

Local Open Scope Z_scope.
Local Open Scope rust_scope.

Record ProducerInner (A : Type) : Type := mkProducerInner {
  batch_builder : option (BatchBuilder A);
  flush_clock : Z;
  has_linger_waiter : bool;
  pending_flushes : list nat;
}.
Arguments mkProducerInner {A} _ _ _ _.
Arguments batch_builder {A} _.
Arguments flush_clock {A} _.
Arguments has_linger_waiter {A} _.
Arguments pending_flushes {A} _.

(** [CallerRole]. *)
Inductive CallerRole (Tag : Type) : Type :=
| JustWait (handle : ResultHandle Tag)
| Linger (handle : ResultHandle Tag) (flush_token : Z).
Arguments JustWait {Tag} _.
Arguments Linger {Tag} _ _.

Section producer.
Context {CE A Input Tag D Status : Type}.
Context `{AI : Aggregator A Input Tag D, DI : StatusDeaggregator D Tag Status}.

(** [ProducerInner::new]. *)
Definition ProducerInner_new (a : A) (h : store CE D) : ProducerInner A * store CE D :=
  let '(b, h) := BatchBuilder_new a h in (mkProducerInner (Some b) 0 false [], h).

(** [ProducerInner::flush] from the new batch builder on. *)
Definition finish_flush (self : ProducerInner A) (h : store CE D) (new_builder : BatchBuilder A)
    (flush_task : option nat) (maybe_err : option (ProducerError CE)) :
    outcome (ProducerError CE) unit * ProducerInner A * store CE D :=
  let pending := filter (fun t => is_finished h t = false) (pending_flushes self) in
  let pending := match flush_task with Some t => pending ++ [t] | None => pending end in
  let self := mkProducerInner (Some new_builder) (wrap_unsigned 64 (flush_clock self + 1)) false pending in
  (match maybe_err with Some e => Err e | None => Ok tt end, self, h).

(** [ProducerInner::flush]. *)
Definition ProducerInner_flush (flusher_token : option Z) (self : ProducerInner A) (h : store CE D) :
    outcome (ProducerError CE) unit * ProducerInner A * store CE D :=
  let spurious := match flusher_token with
                  | Some token => negb (token =? flush_clock self)
                  | None => false
                  end in
  if spurious then (Ok tt, self, h)
  else
    match batch_builder self with
    | None => (Panic ExpectFailed, self, h)
    | Some batch =>
        let '(r, h) := background_flush batch h in
        match r with
        | FlushOk b flush_task => finish_flush self h b flush_task None
        | FlushFailed b e => finish_flush self h b None (Some e)
        | FlushPanic p =>
            (Panic p, mkProducerInner None (flush_clock self) (has_linger_waiter self)
                        (pending_flushes self), h)
        end
    end.

Definition set_builder (b : BatchBuilder A) (self : ProducerInner A) : ProducerInner A :=
  mkProducerInner (Some b) (flush_clock self) (has_linger_waiter self) (pending_flushes self).

(** The end of [ProducerInner::try_push]: who lingers. *)
Definition assign_role (handle : ResultHandle Tag) (self : ProducerInner A) :
    CallerRole Tag * ProducerInner A :=
  if has_linger_waiter self then (JustWait handle, self)
  else (Linger handle (flush_clock self),
        mkProducerInner (batch_builder self) (flush_clock self) true (pending_flushes self)).

(** [ProducerInner::try_push]. *)
Definition ProducerInner_try_push (data : Input) (self : ProducerInner A) (h : store CE D) :
    outcome (ProducerError CE) (CallerRole Tag) * ProducerInner A * store CE D :=
  match batch_builder self with
  | None => (Panic ExpectFailed, self, h)
  | Some b =>
      let '(r, b) := BatchBuilder_try_push data b in
      let self := set_builder b self in
      match r with
      | Ok (Aggregated handle) => let '(role, self) := assign_role handle self in (Ok role, self, h)
      | Ok (NoCapacity data) =>
          match ProducerInner_flush None self h with
          | (Ok _, self, h) =>
              match batch_builder self with
              | None => (Panic ExpectFailed, self, h)
              | Some b =>
                  let '(r, b) := BatchBuilder_try_push data b in
                  let self := set_builder b self in
                  match r with
                  | Ok (Aggregated handle) =>
                      let '(role, self) := assign_role handle self in (Ok role, self, h)
                  | Ok (NoCapacity _) => (Err TooLarge, self, h)
                  | Err e => (Err e, self, h)
                  | Panic p => (Panic p, self, h)
                  end
              end
          | (Err e, self, h) => (Err e, self, h)
          | (Panic p, self, h) => (Panic p, self, h)
          end
      | Err e => (Err e, self, h)
      | Panic p => (Panic p, self, h)
      end
  end.

(** The critical section of [BatchProducer::flush]: the tasks it then waits
    for. *)
Definition BatchProducer_flush (self : ProducerInner A) (h : store CE D) :
    outcome (ProducerError CE) (list nat) * ProducerInner A * store CE D :=
  match ProducerInner_flush None self h with
  | (Ok _, self, h) =>
      (Ok (pending_flushes self),
       mkProducerInner (batch_builder self) (flush_clock self) (has_linger_waiter self) [], h)
  | (Err e, self, h) => (Err e, self, h)
  | (Panic p, self, h) => (Panic p, self, h)
  end.

(** ** Interleavings *)

(** A call of [produce] that was accepted: its data, its handle and what it
    has returned. *)
Record pcall : Type := mkPcall {
  pc_input : Input;
  pc_handle : ResultHandle Tag;
  pc_result : option (outcome (ProducerError CE) Status);
}.

(** [ps_lingers]: the sleeping linger tasks by the call that spawned them, with
    their token.  [ps_taken]: the flush tasks that calls of [flush] took. *)
Record psystem : Type := mkPsystem {
  ps_inner : ProducerInner A;
  ps_store : store CE D;
  ps_calls : gmap nat pcall;
  ps_lingers : gmap nat Z;
  ps_taken : list nat;
}.

Definition ps_initial (a : A) : psystem :=
  let '(inner, h) := ProducerInner_new a (mkStore [] []) in mkPsystem inner h ∅ ∅ [].

Definition return_with (r : outcome (ProducerError CE) Status) (c : pcall) : pcall :=
  mkPcall (pc_input c) (pc_handle c)
    (match pc_result c with Some r0 => Some r0 | None => Some r end).

Inductive pstep : psystem -> psystem -> Prop :=
| p_wait id data handle s inner h :
    (** [produce] joins a batch for which another call lingers *)
    ps_calls s !! id = None -> ps_lingers s !! id = None ->
    ProducerInner_try_push data (ps_inner s) (ps_store s) = (Ok (JustWait handle), inner, h) ->
    pstep s (mkPsystem inner h (<[id := mkPcall data handle None]> (ps_calls s))
               (ps_lingers s) (ps_taken s))
| p_linger id data handle token s inner h :
    (** [produce] is the first of its batch and spawns the linger task *)
    ps_calls s !! id = None -> ps_lingers s !! id = None ->
    ProducerInner_try_push data (ps_inner s) (ps_store s) = (Ok (Linger handle token), inner, h) ->
    pstep s (mkPsystem inner h (<[id := mkPcall data handle None]> (ps_calls s))
               (<[id := token]> (ps_lingers s)) (ps_taken s))
| p_refused data e s inner h :
    (** [produce] returns the error of [try_push] *)
    ProducerInner_try_push data (ps_inner s) (ps_store s) = (Err e, inner, h) ->
    pstep s (mkPsystem inner h (ps_calls s) (ps_lingers s) (ps_taken s))
| p_expired id token s inner h :
    (** a linger expires *)
    ps_lingers s !! id = Some token ->
    ProducerInner_flush (Some token) (ps_inner s) (ps_store s) = (Ok tt, inner, h) ->
    pstep s (mkPsystem inner h (ps_calls s) (delete id (ps_lingers s)) (ps_taken s))
| p_expired_err id token e s inner h :
    (** a linger expires and its flush fails, which its call returns *)
    ps_lingers s !! id = Some token ->
    ProducerInner_flush (Some token) (ps_inner s) (ps_store s) = (Err e, inner, h) ->
    pstep s (mkPsystem inner h (alter (return_with (Err e)) id (ps_calls s))
               (delete id (ps_lingers s)) (ps_taken s))
| p_flush outstanding s inner h :
    (** [flush] *)
    BatchProducer_flush (ps_inner s) (ps_store s) = (Ok outstanding, inner, h) ->
    pstep s (mkPsystem inner h (ps_calls s) (ps_lingers s) (ps_taken s ++ outstanding))
| p_flush_err e s inner h :
    BatchProducer_flush (ps_inner s) (ps_store s) = (Err e, inner, h) ->
    pstep s (mkPsystem inner h (ps_calls s) (ps_lingers s) (ps_taken s))
| p_complete tid t answer s h :
    (** the client answers; it gives one offset per record *)
    tasks (ps_store s) !! tid = Some t -> task_answer t = None ->
    (forall offsets, answer = Ok offsets -> length offsets = length (task_batch t)) ->
    complete_task tid t answer (ps_store s) = Ok h ->
    pstep s (mkPsystem (ps_inner s) h (ps_calls s) (ps_lingers s) (ps_taken s))
| p_receive id c r s :
    (** [handle.wait()] returns, and the call with it *)
    ps_calls s !! id = Some c -> pc_result c = None ->
    peek (receiver (pc_handle c)) (ps_store s) = Some r ->
    pstep s (mkPsystem (ps_inner s) (ps_store s)
               (<[id := return_with (let! status := handle_wait r in handle_result (pc_handle c) status) c]>
                  (ps_calls s)) (ps_lingers s) (ps_taken s))
| p_cancel id s :
    (** the future of a call is dropped; its linger task goes on *)
    pstep s (mkPsystem (ps_inner s) (ps_store s) (delete id (ps_calls s)) (ps_lingers s) (ps_taken s)).

Inductive preachable (a : A) : psystem -> Prop :=
| preach_initial : preachable a (ps_initial a)
| preach_step s s' : preachable a s -> pstep s s' -> preachable a s'.
(** ** What the operations do *)

(** [ProducerInner::try_push] as a relation. *)
Inductive pushed : Input -> ProducerInner A -> store CE D ->
    outcome (ProducerError CE) (CallerRole Tag) -> ProducerInner A -> store CE D -> Prop :=
| pushed_ok data inner h b b' handle role inner' :
    batch_builder inner = Some b -> BatchBuilder_try_push (CE:=CE) data b = (Ok (Aggregated handle), b') ->
    assign_role handle (set_builder b' inner) = (role, inner') ->
    pushed data inner h (Ok role) inner' h
| pushed_err data inner h b b' e :
    batch_builder inner = Some b -> BatchBuilder_try_push data b = (Err e, b') ->
    pushed data inner h (Err e) (set_builder b' inner) h
| pushed_too_large data inner h b b' d :
    batch_builder inner = Some b -> BatchBuilder_try_push (CE:=CE) data b = (Ok (NoCapacity d), b') ->
    pushed data inner h (Err TooLarge) (set_builder b' inner) h
| pushed_flush data inner h b b' d inner1 h1 r inner' h' :
    batch_builder inner = Some b -> BatchBuilder_try_push (CE:=CE) data b = (Ok (NoCapacity d), b') ->
    ProducerInner_flush None (set_builder b' inner) h = (Ok tt, inner1, h1) ->
    pushed d inner1 h1 r inner' h' -> pushed data inner h r inner' h'
| pushed_flush_err data inner h b b' d e inner1 h1 :
    batch_builder inner = Some b -> BatchBuilder_try_push (CE:=CE) data b = (Ok (NoCapacity d), b') ->
    ProducerInner_flush None (set_builder b' inner) h = (Err e, inner1, h1) ->
    pushed data inner h (Err e) inner1 h1.

(** The producer and its store are in order around the current batch [b]. *)
Definition inner_inv (inner : ProducerInner A) (h : store CE D) (b : BatchBuilder A) : Prop :=
  batch_builder inner = Some b /\ store_inv h (results b) /\
  flush_clock inner = wrap_unsigned 64 (Z.of_nat (results b)).

Context {AT : AggregatorTotal A Input Tag D}.

Lemma BatchBuilder_push_shape data b r b' :
  BatchBuilder_try_push (CE:=CE) data b = (r, b') ->
  results b' = results b /\ (forall p, r <> Panic p) /\
  forall handle, r = Ok (Aggregated handle) -> receiver handle = results b.
Proof.
  unfold BatchBuilder_try_push. pose proof (try_push_total data (aggregator b)) as Hp.
  destruct (try_push data (aggregator b)) as [[[d|tag]|e|p] a]; simpl in Hp;
    [..|by destruct (Hp p)]; intros [= <- <-]; naive_solver.
Qed.

(** What a flush that is not spurious leaves behind. *)
Record flushed (inner : ProducerInner A) (h : store CE D) (b : BatchBuilder A)
    (inner' : ProducerInner A) (h' : store CE D) (b' : BatchBuilder A) : Prop := {
  fl_inv : inner_inv inner' h' b';
  fl_next : results b' = S (results b);
  fl_linger : has_linger_waiter inner' = false;
  fl_pending : forall tid t, tasks h' !! tid = Some t -> task_answer t = None ->
    (tid ∈ pending_flushes inner \/ tasks h !! tid = None) -> tid ∈ pending_flushes inner';
  fl_only : forall tid, tid ∈ pending_flushes inner' ->
    tid ∈ pending_flushes inner \/ tid = length (tasks h) /\ is_Some (tasks h' !! tid);
  fl_tasks :
    (exists e, flush (aggregator b) = (Err e, aggregator b') /\ tasks h' = tasks h) \/
    exists recs d, flush (aggregator b) = (Ok (recs, d), aggregator b') /\
      tasks h' = tasks h ++ match recs with
                            | [] => []
                            | _ => [mkFlushTask recs d (results b) None]
                            end;
}.

Lemma filter_pending h (l : list nat) tid t :
  tasks h !! tid = Some t -> task_answer t = None ->
  tid ∈ l -> tid ∈ filter (fun i => is_finished (CE:=CE) (D:=D) h i = false) l.
Proof.
  intros Ht Ha Hin. apply list_elem_of_filter. split; [|done]. unfold is_finished. by rewrite Ht, Ha.
Qed.

Lemma flush_next_clock b :
  wrap_unsigned 64 (wrap_unsigned 64 (Z.of_nat (results (A:=A) b)) + 1)
  = wrap_unsigned 64 (Z.of_nat (S (results b))).
Proof. unfold wrap_unsigned. rewrite Zplus_mod_idemp_l. f_equal. lia. Qed.

Lemma ProducerInner_flush_inv token inner h b r inner' h' :
  inner_inv inner h b -> ProducerInner_flush token inner h = (r, inner', h') ->
  (forall p, r <> Panic p) /\
  (r = Ok tt /\ inner' = inner /\ h' = h /\
     (exists tk, token = Some tk /\ tk <> flush_clock inner) \/
   (forall tk, token = Some tk -> tk = flush_clock inner) /\
     exists b', flushed inner h b inner' h' b').
Proof.
  intros (Hb & Hst & Hclk). unfold ProducerInner_flush. case_match eqn:Hsp.
  { intros [= <- <- <-]. split; [done|]. left. destruct token as [tk|]; [|done].
    apply negb_true_iff, Z.eqb_neq in Hsp. eauto 6. }
  rewrite Hb. destruct (background_flush b h) as [fr h1] eqn:Hbf.
  destruct (background_flush_inv b h fr h1 Hst Hbf) as (b' & Hres & Hst' & Hcase).
  assert (Htok : forall tk, token = Some tk -> tk = flush_clock inner).
  { intros tk ->. by apply negb_false_iff, Z.eqb_eq in Hsp. }
  assert (Hinv : forall pend, inner_inv
    (mkProducerInner (Some b') (wrap_unsigned 64 (flush_clock inner + 1)) false pend) h1 b').
  { intros pend. split; [done|]. split; [done|]. simpl. rewrite Hclk, flush_next_clock, Hres. done. }
  destruct Hcase as [(e & e' & -> & Ht & Hf)|(recs & d & Hf & [(-> & -> & Ht)|(Hne & -> & Ht)])];
    simpl; intros [= <- <- <-]; (split; [done|]); right; (split; [done|]); exists b'; split; try done; simpl.
  - intros tid t Htid Ha [Hin|Hnew]; [by eapply filter_pending|congruence].
  - intros tid [_ Hin]%list_elem_of_filter. by left.
  - left. eauto.
  - intros tid t Htid Ha [Hin|Hnew]; [by eapply filter_pending|congruence].
  - intros tid [_ Hin]%list_elem_of_filter. by left.
  - right. exists [], d. by rewrite app_nil_r.
  - intros tid t Htid Ha [Hin|Hnew]; apply elem_of_app.
    + left. by eapply filter_pending.
    + right. apply list_elem_of_singleton. apply lookup_ge_None_1 in Hnew.
      apply lookup_lt_Some in Htid. rewrite Ht, length_app in Htid. simpl in Htid. lia.
  - intros tid [[_ Hin]%list_elem_of_filter|Hin]%elem_of_app; [by left|].
    apply list_elem_of_singleton in Hin as ->. right. split; [done|]. by rewrite Ht, list_lookup_middle.
  - right. exists recs, d. by destruct recs.
Qed.

Lemma inner_inv_set_builder inner h b b' :
  inner_inv inner h b -> results b' = results b -> inner_inv (set_builder b' inner) h b'.
Proof. intros (Hb & Hst & Hclk) Heq. unfold inner_inv. simpl. by rewrite Heq. Qed.

(** [try_push] never panics and does one of the things of [pushed]. *)
Lemma try_push_pushed data inner h b r inner' h' :
  inner_inv inner h b -> ProducerInner_try_push data inner h = (r, inner', h') ->
  pushed data inner h r inner' h' /\ forall p, r <> Panic p.
Proof.
  intros I. pose proof I as (Hb & _). unfold ProducerInner_try_push. rewrite Hb.
  destruct (BatchBuilder_try_push data b) as [r1 b1] eqn:H1.
  destruct (BatchBuilder_push_shape _ _ _ _ H1) as (Hres1 & Hnp1 & _).
  destruct r1 as [[d|handle]|e|p]; [| | |by destruct (Hnp1 p)].
  - destruct (ProducerInner_flush None (set_builder b1 inner) h) as [[r2 inner2] h2] eqn:H2.
    pose proof (inner_inv_set_builder _ _ _ b1 I Hres1) as I1.
    destruct (ProducerInner_flush_inv _ _ _ _ _ _ _ I1 H2) as [Hnp2 Hcase].
    destruct Hcase as [(_ & _ & _ & tk & [=] & _)|(_ & b2 & Hfl)].
    destruct r2 as [[]|e|p]; [| |by destruct (Hnp2 p)].
    + destruct (fl_inv _ _ _ _ _ _ Hfl) as (Hb2 & _). rewrite Hb2.
      destruct (BatchBuilder_try_push d b2) as [r3 b3] eqn:H3.
      destruct (BatchBuilder_push_shape _ _ _ _ H3) as (_ & Hnp3 & _).
      destruct r3 as [[d'|handle]|e|p]; [| | |by destruct (Hnp3 p)].
      * intros [= <- <- <-]. split; [|done]. eauto using pushed_flush, pushed_too_large.
      * destruct (assign_role handle (set_builder b3 inner2)) as [role inner3] eqn:Hr.
        intros [= <- <- <-]. split; [|done]. eauto using pushed_flush, pushed_ok.
      * intros [= <- <- <-]. split; [|done]. eauto using pushed_flush, pushed_err.
    + intros [= <- <- <-]. split; [|done]. eauto using pushed_flush_err.
  - destruct (assign_role handle (set_builder b1 inner)) as [role inner3] eqn:Hr.
    intros [= <- <- <-]. split; [|done]. eauto using pushed_ok.
  - intros [= <- <- <-]. split; [|done]. eauto using pushed_err.
Qed.

(** ** Nobody waits for nothing *)
Record live (s : psystem) : Prop := {
  (** a call waits for a batch that exists, and one for the current batch has
      somebody who lingers *)
  lv_calls : exists b, inner_inv (ps_inner s) (ps_store s) b /\
    forall id c, ps_calls s !! id = Some c ->
      (receiver (pc_handle c) <= results b)%nat /\
      (receiver (pc_handle c) = results b -> has_linger_waiter (ps_inner s) = true);
  (** who lingers has the token of the current batch *)
  lv_linger : has_linger_waiter (ps_inner s) = true ->
    exists id, ps_lingers s !! id = Some (flush_clock (ps_inner s));
  (** tasks that run are pending, or were taken by a call of [flush] *)
  lv_pending : forall tid t, tasks (ps_store s) !! tid = Some t -> task_answer t = None ->
    tid ∈ pending_flushes (ps_inner s) ++ ps_taken s;
  lv_known : forall tid, tid ∈ pending_flushes (ps_inner s) -> is_Some (tasks (ps_store s) !! tid);
  (** the token of a linger names the batch of its call *)
  lv_token : forall id token c, ps_lingers s !! id = Some token -> ps_calls s !! id = Some c ->
    token = wrap_unsigned 64 (Z.of_nat (receiver (pc_handle c)));
}.

Lemma live_set_builder s b b' :
  live s -> batch_builder (ps_inner s) = Some b -> results b' = results b ->
  live (mkPsystem (set_builder b' (ps_inner s)) (ps_store s) (ps_calls s) (ps_lingers s) (ps_taken s)).
Proof.
  intros [(b0 & I & Hcalls) Hl Hp Hk Htk] Hb Heq. split; simpl; [|done..].
  pose proof I as (Hb0 & _). rewrite Hb in Hb0. injection Hb0 as <-.
  exists b'. rewrite Heq. split; [by eapply inner_inv_set_builder|done].
Qed.

(** A flush, whatever happens to the lingers. *)
Lemma live_flushed s b b' inner' h' lingers :
  live s -> lingers ⊆ ps_lingers s -> inner_inv (ps_inner s) (ps_store s) b -> flushed (ps_inner s) (ps_store s) b inner' h' b' ->
  live (mkPsystem inner' h' (ps_calls s) lingers (ps_taken s)).
Proof.
  intros [(b0 & I & Hcalls) Hl Hp Hk Htk] Hsub Ib [Hi Hn Hlg Hpd Hpo Hts].
  assert (b0 = b) as -> by (destruct I as [? _], Ib as [? _]; congruence).
  assert (Hgrow : exists l, tasks h' = tasks (ps_store s) ++ l).
  { destruct Hts as [(e & _ & ->)|(recs & d & _ & ->)]; [exists []; by rewrite app_nil_r|by eexists]. }
  destruct Hgrow as [l Hgrow]. split; simpl.
  - exists b'. split; [done|]. intros id c Hc. destruct (Hcalls _ _ Hc) as [Hle _].
    split; [lia|]. intros Heq. lia.
  - congruence.
  - intros tid t Ht Ha. apply elem_of_app.
    destruct (tasks (ps_store s) !! tid) as [t0|] eqn:H0; [|left; by eapply Hpd; eauto].
    assert (t0 = t) as -> by (rewrite Hgrow, (lookup_app_l_Some _ _ _ _ H0) in Ht; congruence).
    pose proof (Hp _ _ H0 Ha) as [Hin|Hin]%elem_of_app; [left; by eapply Hpd; eauto|by right].
  - intros tid [Hin|[_ ?]]%Hpo; [|done]. destruct (Hk _ Hin) as [t Ht]. exists t.
    rewrite Hgrow. by apply lookup_app_l_Some.
  - intros id tk c Hid. apply Htk. by eapply lookup_weaken.
Qed.

(** A call that joins the current batch. *)
Lemma live_new_call s id data handle role inner' lingers r :
  live s -> ps_calls s !! id = None -> ps_lingers s !! id = None ->
  (exists b, batch_builder (ps_inner s) = Some b /\ receiver handle = results b) ->
  assign_role handle (ps_inner s) = (role, inner') ->
  lingers = match role with
            | JustWait _ => ps_lingers s
            | Linger _ token => <[id := token]> (ps_lingers s)
            end ->
  live (mkPsystem inner' (ps_store s) (<[id := mkPcall data handle r]> (ps_calls s)) lingers (ps_taken s)).
Proof.
  intros [(b & I & Hcalls) Hl Hp Hk Htk] Hid Hlid (b0 & Hb0 & Hrec) Hrole Hlg.
  pose proof I as (Hb & Hst & Hclk). rewrite Hb in Hb0. injection Hb0 as <-.
  assert (Hcalls' : forall id' c, <[id := mkPcall data handle r]> (ps_calls s) !! id' = Some c ->
    (receiver (pc_handle c) <= results b)%nat).
  { intros id' c [[<- <-]|[_ Hc]]%lookup_insert_Some; [simpl; lia|]. by apply (Hcalls _ _ Hc). }
  unfold assign_role in Hrole. destruct (has_linger_waiter (ps_inner s)) eqn:Hw;
    injection Hrole as <- <-; split; simpl; try done.
  - exists b. split; [done|]. intros id' c Hc. split; [by eapply Hcalls'|done].
  - subst lingers. auto.
  - subst lingers. intros i tk c Hi [[<- <-]|[_ Hc]]%lookup_insert_Some; [congruence|eauto].
  - exists b. split; [done|]. intros id' c Hc. split; [by eapply Hcalls'|done].
  - intros _. exists id. subst lingers. by rewrite lookup_insert_eq.
  - subst lingers. intros i tk c [[<- <-]|[Hne Hi]]%lookup_insert_Some [[Heq <-]|[Hne' Hc]]%lookup_insert_Some;
      simpl; try done; [congruence|eauto].
Qed.

Definition with_role (s : psystem) (id : nat) (data : Input) (role : CallerRole Tag)
    (inner : ProducerInner A) (h : store CE D) : psystem :=
  match role with
  | JustWait handle => mkPsystem inner h (<[id := mkPcall data handle None]> (ps_calls s))
                         (ps_lingers s) (ps_taken s)
  | Linger handle token => mkPsystem inner h (<[id := mkPcall data handle None]> (ps_calls s))
                             (<[id := token]> (ps_lingers s)) (ps_taken s)
  end.

Lemma assign_role_handle handle (inner : ProducerInner A) role inner' :
  assign_role handle inner = (role, inner') -> role = JustWait handle \/ exists tk, role = Linger handle tk.
Proof. unfold assign_role. case_match; intros [= <- <-]; eauto. Qed.

Lemma live_pushed data inner h r inner' h' : pushed data inner h r inner' h' ->
  forall calls lingers taken id data0, live (mkPsystem inner h calls lingers taken) ->
  calls !! id = None -> lingers !! id = None ->
  match r with
  | Ok role => live (with_role (mkPsystem inner h calls lingers taken) id data0 role inner' h')
  | Err _ => live (mkPsystem inner' h' calls lingers taken)
  | Panic _ => False
  end.
Proof.
  induction 1 as [data inner h b b' handle role inner' Hb Hp Hr|data inner h b b' e Hb Hp
    |data inner h b b' d Hb Hp|data inner h b b' d inner1 h1 r inner' h' Hb Hp Hf _ IH
    |data inner h b b' d e inner1 h1 Hb Hp Hf]; intros calls lingers taken id data0 L Hid Hlid;
    destruct (BatchBuilder_push_shape _ _ _ _ Hp) as (Hres & _ & Hrec);
    pose proof (live_set_builder _ _ b' L Hb Hres) as L'; try exact L'; simpl in L'.
  - pose proof (fun lg => live_new_call _ id data0 handle role inner' lg None L' Hid Hlid) as Hnew.
    simpl in Hnew. destruct (assign_role_handle _ _ _ _ Hr) as [->|[tk ->]]; simpl; apply Hnew; try done;
      exists b'; (split; [done|]); rewrite Hres; by apply Hrec.
  - destruct (lv_calls _ L') as (b1 & I1 & _).
    destruct (ProducerInner_flush_inv _ _ _ _ _ _ _ I1 Hf) as [_ [(_ & _ & _ & tk & [=] & _)|(_ & b2 & Hfl)]].
    pose proof (live_flushed _ _ _ _ _ lingers L' (reflexivity _) I1 Hfl) as L1. simpl in L1.
    specialize (IH calls lingers taken id data0 L1 Hid Hlid). by destruct r as [[]| |].
  - destruct (lv_calls _ L') as (b1 & I1 & _).
    destruct (ProducerInner_flush_inv _ _ _ _ _ _ _ I1 Hf) as [_ [(_ & _ & _ & tk & [=] & _)|(_ & b2 & Hfl)]].
    by apply (live_flushed _ _ _ _ _ lingers L' (reflexivity _) I1 Hfl).
Qed.

(** Calls that keep their handles, or go away. *)
Lemma live_calls s calls :
  live s -> (forall id c, calls !! id = Some c ->
    exists c0, ps_calls s !! id = Some c0 /\ pc_handle c = pc_handle c0) ->
  live (mkPsystem (ps_inner s) (ps_store s) calls (ps_lingers s) (ps_taken s)).
Proof.
  intros [(b & I & Hcalls) Hl Hp Hk Htk] Hold. split; simpl; try done.
  - exists b. split; [done|]. intros id c (c0 & Hc0 & ->)%Hold. eauto.
  - intros id tk c Hid (c0 & Hc0 & ->)%Hold. eauto.
Qed.

(** The expiry of a linger. *)
Lemma live_expired s id token r inner h :
  live s -> ps_lingers s !! id = Some token ->
  ProducerInner_flush (Some token) (ps_inner s) (ps_store s) = (r, inner, h) ->
  live (mkPsystem inner h (ps_calls s) (delete id (ps_lingers s)) (ps_taken s)).
Proof.
  intros L Hid Hf. destruct (lv_calls _ L) as (b & I & Hcalls).
  destruct (ProducerInner_flush_inv _ _ _ _ _ _ _ I Hf) as [_ [(_ & -> & -> & tk & [= ->] & Hne)|(_ & b' & Hfl)]].
  - destruct L as [_ Hl Hp Hk Htk]. split; simpl; [by exists b| |done|done|].
    + intros Hw. destruct (Hl Hw) as [id' Hid']. exists id'. rewrite lookup_delete_ne; [done|]. congruence.
    + intros i tk' c [_ Hi]%lookup_delete_Some. eauto.
  - apply (live_flushed s b b'); try done. apply delete_subseteq.
Qed.

(** The end of a task. *)
Lemma live_complete s tid t answer h :
  live s -> tasks (ps_store s) !! tid = Some t -> task_answer t = None ->
  complete_task tid t answer (ps_store s) = Ok h ->
  live (mkPsystem (ps_inner s) h (ps_calls s) (ps_lingers s) (ps_taken s)).
Proof.
  intros [(b & (Hb & Hst & Hclk) & Hcalls) Hl Hp Hk Htk] Ht Ha Hc.
  destruct (complete_task_inv _ _ _ _ answer Hst Ht Ha) as (h' & Hc' & Hst' & Htasks).
  rewrite Hc in Hc'. injection Hc' as <-. split; simpl; [by exists b|done| | |done].
  - intros i u Hu Hau. rewrite Htasks in Hu. destruct (decide (i = tid)) as [->|].
    + rewrite list_lookup_insert_eq in Hu by by eapply lookup_lt_Some. by injection Hu as <-.
    + rewrite list_lookup_insert_ne in Hu by done. eauto.
  - intros i Hi. rewrite Htasks. apply lookup_lt_is_Some. rewrite length_insert.
    by apply lookup_lt_is_Some, Hk.
Qed.

(** [flush]: what it takes is not lost. *)
Lemma live_manual_flush s r inner h :
  live s -> BatchProducer_flush (ps_inner s) (ps_store s) = (r, inner, h) ->
  match r with
  | Ok outstanding => live (mkPsystem inner h (ps_calls s) (ps_lingers s) (ps_taken s ++ outstanding)) /\
      forall tid t, tasks h !! tid = Some t -> task_answer t = None -> tid ∉ ps_taken s -> tid ∈ outstanding
  | Err _ => live (mkPsystem inner h (ps_calls s) (ps_lingers s) (ps_taken s))
  | Panic _ => False
  end.
Proof.
  intros L. unfold BatchProducer_flush. destruct (lv_calls _ L) as (b & I & _).
  destruct (ProducerInner_flush None (ps_inner s) (ps_store s)) as [[r1 inner1] h1] eqn:Hf.
  destruct (ProducerInner_flush_inv _ _ _ _ _ _ _ I Hf) as [Hnp [(_ & _ & _ & tk & [=] & _)|(_ & b' & Hfl)]].
  pose proof (live_flushed _ _ _ _ _ (ps_lingers s) L (reflexivity _) I Hfl) as [Lc Ll Lp Lk Ltk].
  destruct r1 as [u|e|p]; intros [= <- <- <-]; [|by split|by destruct (Hnp p)]. split.
  - split; simpl; [done|done| |by intros tid []%not_elem_of_nil|done].
    intros tid t Ht Ha. specialize (Lp tid t Ht Ha). simpl in Lp. set_solver.
  - intros tid t Ht Ha Hnin. specialize (Lp tid t Ht Ha). simpl in Lp. set_solver.
Qed.

(** A number no call has used. *)
Lemma fresh_call (calls : gmap nat pcall) (lingers : gmap nat Z) :
  exists id, calls !! id = None /\ lingers !! id = None.
Proof.
  exists (fresh (dom calls ∪ dom lingers)).
  pose proof (is_fresh (dom calls ∪ dom lingers)) as Hf. rewrite not_elem_of_union in Hf.
  by rewrite <-!not_elem_of_dom.
Qed.

Lemma live_initial a : live (ps_initial a).
Proof.
  split; simpl; [|done|done| |done].
  - exists (mkBatchBuilder a 0). split; [|done].
    split; [done|]. split; [|done]. split; simpl; try done. intros i Hi. lia.
  - by intros tid []%not_elem_of_nil.
Qed.

Lemma live_step s s' : live s -> pstep s s' -> live s'.
Proof.
  intros L Hstep. destruct (lv_calls _ L) as (b & I & _). destruct Hstep as
    [id data handle s inner h Hid Hlid Hp|id data handle token s inner h Hid Hlid Hp|data e s inner h Hp
    |id token s inner h Hid Hf|id token e s inner h Hid Hf|outstanding s inner h Hf|e s inner h Hf
    |tid t answer s h Ht Ha Hn Hc|id c r s Hid Hres Hpk|id s].
  - destruct (try_push_pushed _ _ _ _ _ _ _ I Hp) as [Hpu _].
    destruct s. exact (live_pushed _ _ _ _ _ _ Hpu _ _ _ id data L Hid Hlid).
  - destruct (try_push_pushed _ _ _ _ _ _ _ I Hp) as [Hpu _].
    destruct s. exact (live_pushed _ _ _ _ _ _ Hpu _ _ _ id data L Hid Hlid).
  - destruct (try_push_pushed _ _ _ _ _ _ _ I Hp) as [Hpu _].
    destruct s as [inner0 h0 calls lingers taken].
    destruct (fresh_call calls lingers) as (id & Hid & Hlid).
    exact (live_pushed _ _ _ _ _ _ Hpu _ _ _ id data L Hid Hlid).
  - by eapply live_expired.
  - pose proof (live_expired _ _ _ _ _ _ L Hid Hf) as L'.
    refine (live_calls _ (alter (return_with (Err e)) id (ps_calls s)) L' _). simpl. intros id' c Hc.
    destruct (decide (id = id')) as [<-|Hne]; [|rewrite lookup_alter_ne in Hc by done; eauto].
    rewrite lookup_alter_eq in Hc. destruct (ps_calls s !! id) as [c0|]; [|done]. simpl in Hc.
    injection Hc as <-. eauto.
  - by apply (live_manual_flush s _ _ _ L) in Hf as [? _].
  - by apply (live_manual_flush s _ _ _ L) in Hf.
  - by eapply live_complete.
  - apply (live_calls s _ L). intros id' c' [[<- <-]|[_ Hc]]%lookup_insert_Some; eauto.
  - apply (live_calls s _ L). intros id' c' [_ Hc]%lookup_delete_Some. eauto.
Qed.

Lemma live_reachable a s : preachable a s -> live s.
Proof. induction 1; [apply live_initial|by eapply live_step]. Qed.

End producer.

Arguments pcall CE Input Tag Status : clear implicits.
Arguments psystem CE A Input Tag D Status : clear implicits.

(** ** Whose offset is whose

    For an aggregator of records that keeps its laws. *)
Section own.
Context {CE A D Status : Type}.
Context `{AI : Aggregator A ClientRecord nat D, DI : StatusDeaggregator D nat Status}.
Context {batch : A -> list ClientRecord} {status_of : Z -> Status}.
Context {AOK : AggregatorOk batch status_of}.

Lemma AggregatorOk_total : AggregatorTotal A ClientRecord nat D.
Proof.
  split.
  - intros r a p. destruct (try_push r a) as [res a'] eqn:H. apply try_push_law in H. by destruct res.
  - intros a p. destruct (flush_law a) as (d & a' & -> & _). done.
Qed.

#[local] Existing Instance AggregatorOk_total.

(** The record of a call is in the batch of a task, at its tag. *)
Definition in_task (h : store CE D) (c : pcall CE ClientRecord nat Status) (t : FlushTask CE D) : Prop :=
  (exists tid, tasks h !! tid = Some t) /\ task_cell t = receiver (pc_handle c) /\
  task_batch t !! handle_tag (pc_handle c) = Some (pc_input c).

(** The client gave the record of the call this offset. *)
Definition has_offset (h : store CE D) (c : pcall CE ClientRecord nat Status) (o : Z) : Prop :=
  exists t offsets, in_task h c t /\ task_answer t = Some (Ok offsets) /\
    length offsets = length (task_batch t) /\ offsets !! handle_tag (pc_handle c) = Some o.

Record own (s : psystem CE A ClientRecord nat D Status) : Prop := {
  ow_record : forall id c b, ps_calls s !! id = Some c -> batch_builder (ps_inner s) = Some b ->
    if decide (receiver (pc_handle c) = results b)
    then batch (aggregator b) !! handle_tag (pc_handle c) = Some (pc_input c)
    else exists t, in_task (ps_store s) c t;
  ow_task : forall tid t, tasks (ps_store s) !! tid = Some t ->
    (forall offsets tag o, offsets !! tag = Some o -> deaggregate (task_deagg t) offsets tag = Ok (status_of o)) /\
    (forall offsets, task_answer t = Some (Ok offsets) -> length offsets = length (task_batch t));
  ow_result : forall id c v, ps_calls s !! id = Some c -> pc_result c = Some (Ok v) ->
    exists o, has_offset (ps_store s) c o /\ v = status_of o;
  ow_distinct : forall i j c d, ps_calls s !! i = Some c -> ps_calls s !! j = Some d ->
    pc_handle c = pc_handle d -> i = j;
}.

(** Tasks are only added, and only get their answer. *)
Definition tasks_grow (h h' : store CE D) : Prop :=
  forall tid t, tasks h !! tid = Some t -> exists t', tasks h' !! tid = Some t' /\
    task_cell t' = task_cell t /\ task_batch t' = task_batch t /\
    forall ans, task_answer t = Some ans -> task_answer t' = Some ans.

Lemma in_task_grow h h' c t :
  tasks_grow h h' -> in_task h c t -> exists t', in_task h' c t' /\ task_batch t' = task_batch t /\
    forall ans, task_answer t = Some ans -> task_answer t' = Some ans.
Proof.
  intros Hg ([tid Ht] & Hc & Hb). destruct (Hg _ _ Ht) as (t' & Ht' & Hc' & Hb' & Ha').
  exists t'. split; [|done]. split; [by exists tid|]. split; congruence.
Qed.

Lemma has_offset_grow h h' c o : tasks_grow h h' -> has_offset h c o -> has_offset h' c o.
Proof.
  intros Hg (t & offsets & Hin & Ha & Hl & Ho). destruct (in_task_grow _ _ _ _ Hg Hin) as (t' & Hin' & Hb & Ha').
  exists t', offsets. rewrite Hb. auto.
Qed.

(** A push that is not accepted leaves the builder as it was. *)
Lemma rejected_push data b r b' :
  BatchBuilder_try_push (CE:=CE) data b = (r, b') -> (forall handle, r <> Ok (Aggregated handle)) ->
  b' = b /\ forall d, r = Ok (NoCapacity d) -> d = data.
Proof.
  unfold BatchBuilder_try_push. destruct (try_push data (aggregator b)) as [res a] eqn:Hp.
  apply try_push_law in Hp. destruct b as [a0 cell]. simpl in *.
  destruct res as [[d|tag]|e|p]; intros [= <- <-] Hn; [| |subst; naive_solver|done].
  - destruct Hp as [-> ->]. naive_solver.
  - by destruct (Hn (mkResultHandle cell tag)).
Qed.

Lemma accepted_push data b handle b' :
  BatchBuilder_try_push (CE:=CE) data b = (Ok (Aggregated handle), b') ->
  results b' = results b /\ batch (aggregator b') = batch (aggregator b) ++ [data] /\
  handle = mkResultHandle (results b) (length (batch (aggregator b))).
Proof.
  unfold BatchBuilder_try_push. destruct (try_push data (aggregator b)) as [res a] eqn:Hp.
  apply try_push_law in Hp. destruct res as [[d|tag]|e|p]; intros [= <- <-]; simpl.
  by destruct Hp as [-> ->].
Qed.

Lemma own_flushed s b b' inner' h' lingers :
  live s -> own s -> inner_inv (ps_inner s) (ps_store s) b ->
  flushed (ps_inner s) (ps_store s) b inner' h' b' ->
  own (mkPsystem inner' h' (ps_calls s) lingers (ps_taken s)).
Proof.
  intros L [Orec Otask Ores Odist] I [(Hb' & _) Hn _ _ _ Hts].
  destruct (lv_calls _ L) as (b0 & (Hb0 & _) & Hcalls). destruct I as (Hb & _).
  rewrite Hb in Hb0. injection Hb0 as <-.
  destruct (flush_law (aggregator b)) as (d & a' & Hf & He & Hd).
  destruct Hts as [(e & Hfe & _)|(recs & d0 & Hf' & Ht)]; [congruence|].
  rewrite Hf in Hf'. injection Hf' as <- <- ->.
  assert (Hg : tasks_grow (ps_store s) h').
  { intros tid t Htid. exists t. split; [|done]. rewrite Ht. by apply lookup_app_l_Some. }
  split; simpl.
  - intros id c b1 Hc Hb1. rewrite Hb' in Hb1. injection Hb1 as <-.
    destruct (Hcalls _ _ Hc) as [Hle _]. rewrite decide_False by lia.
    specialize (Orec _ _ _ Hc Hb). destruct (decide (receiver (pc_handle c) = results b)) as [Heq|Hne].
    + destruct (batch (aggregator b)) as [|x l] eqn:Hbt; [done|].
      exists (mkFlushTask (x :: l) d (results b) None). split; [|done].
      exists (length (tasks (ps_store s))). by rewrite Ht, list_lookup_middle.
    + destruct Orec as [t Hin]. destruct (in_task_grow _ _ _ _ Hg Hin) as (t' & ? & _). eauto.
  - intros tid t Htid. rewrite Ht in Htid. apply lookup_app_Some in Htid as [?|[_ Hnew]]; [eauto|].
    destruct (batch (aggregator b)); [done|]. apply list_lookup_singleton_Some in Hnew as [_ <-]. done.
  - intros id c v Hc Hr. destruct (Ores _ _ _ Hc Hr) as (o & Ho & ->). eauto using has_offset_grow.
  - done.
Qed.
(** A call that was accepted into the current batch. *)
Lemma own_new_call s id data b b' handle inner' h' lingers :
  live s -> own s -> ps_calls s !! id = None -> batch_builder (ps_inner s) = Some b ->
  BatchBuilder_try_push (CE:=CE) data b = (Ok (Aggregated handle), b') ->
  batch_builder inner' = Some b' -> h' = ps_store s ->
  own (mkPsystem inner' h' (<[id := mkPcall data handle None]> (ps_calls s)) lingers (ps_taken s)).
Proof.
  intros L [Orec Otask Ores Odist] Hid Hb (Hres & Hbat & ->)%accepted_push Hb' ->.
  destruct (lv_calls _ L) as (b0 & (Hb0 & _) & Hcalls). rewrite Hb in Hb0. injection Hb0 as <-.
  set (h0 := mkResultHandle (results b) (length (batch (aggregator b)))).
  assert (Hfresh : forall j c, ps_calls s !! j = Some c -> pc_handle c <> h0).
  { intros j c Hc Heq. specialize (Orec _ _ _ Hc Hb). rewrite Heq in Orec. simpl in Orec.
    rewrite decide_True in Orec by done. apply lookup_lt_Some in Orec. lia. }
  split; simpl; try done.
  - intros i c b1 Hc Hb1. rewrite Hb' in Hb1. injection Hb1 as <-. rewrite Hres.
    apply lookup_insert_Some in Hc as [[<- <-]|[_ Hc]]; simpl.
    + rewrite decide_True by done. rewrite Hbat. by rewrite list_lookup_middle.
    + specialize (Orec _ _ _ Hc Hb). case_decide; [|done]. rewrite Hbat. by apply lookup_app_l_Some.
  - intros i c v [[<- <-]|[_ Hc]]%lookup_insert_Some Hr; [done|eauto].
  - intros i j c d [[<- <-]|[_ Hc]]%lookup_insert_Some [[<- <-]|[_ Hd]]%lookup_insert_Some Heq;
      simpl in Heq; eauto.
    + by destruct (Hfresh _ _ Hd).
    + by destruct (Hfresh _ _ Hc).
Qed.

Lemma own_set_builder s b :
  own s -> batch_builder (ps_inner s) = Some b ->
  own (mkPsystem (set_builder b (ps_inner s)) (ps_store s) (ps_calls s) (ps_lingers s) (ps_taken s)).
Proof.
  intros [Orec Otask Ores Odist] Hb. split; simpl; try done.
  intros id c b1 Hc [= <-]. by apply (Orec id).
Qed.

Lemma own_pushed data inner h r inner' h' : pushed data inner h r inner' h' ->
  forall calls lingers taken id,
  live (mkPsystem inner h calls lingers taken) -> own (mkPsystem inner h calls lingers taken) ->
  calls !! id = None -> lingers !! id = None ->
  match r with
  | Ok role => own (with_role (mkPsystem inner h calls lingers taken) id data role inner' h')
  | Err _ => own (mkPsystem inner' h' calls lingers taken)
  | Panic _ => False
  end.
Proof.
  induction 1 as [data inner h b b' handle role inner' Hb Hp Hr|data inner h b b' e Hb Hp
    |data inner h b b' d Hb Hp|data inner h b b' d inner1 h1 r inner' h' Hb Hp Hf _ IH
    |data inner h b b' d e inner1 h1 Hb Hp Hf]; intros calls lingers taken id L O Hid Hlid.
  - assert (Hb' : batch_builder inner' = Some b').
    { revert Hr. unfold assign_role. by case_match; intros [= <- <-]. }
    pose proof (fun lg => own_new_call _ id data b b' handle inner' h lg L O Hid Hb Hp Hb' eq_refl) as Hnew.
    destruct (assign_role_handle _ _ _ _ Hr) as [->|[tk ->]]; apply Hnew.
  - apply rejected_push in Hp as [-> _]; [|done]. by apply (own_set_builder _ _ O).
  - apply rejected_push in Hp as [-> _]; [|done]. by apply (own_set_builder _ _ O).
  - apply rejected_push in Hp as [-> Hd]; [|done]. rewrite (Hd _ eq_refl) in *.
    pose proof (own_set_builder _ _ O Hb) as O'. pose proof (live_set_builder _ _ b L Hb eq_refl) as L'.
    destruct (lv_calls _ L') as (b1 & I1 & _).
    destruct (ProducerInner_flush_inv _ _ _ _ _ _ _ I1 Hf) as [_ [(_ & _ & _ & tk & [=] & _)|(_ & b2 & Hfl)]].
    pose proof (own_flushed _ _ _ _ _ lingers L' O' I1 Hfl) as O1.
    pose proof (live_flushed _ _ _ _ _ lingers L' (reflexivity _) I1 Hfl) as L1. simpl in O1, L1.
    specialize (IH calls lingers taken id L1 O1 Hid Hlid). by destruct r as [[]| |].
  - apply rejected_push in Hp as [-> _]; [|done].
    pose proof (own_set_builder _ _ O Hb) as O'. pose proof (live_set_builder _ _ b L Hb eq_refl) as L'.
    destruct (lv_calls _ L') as (b1 & I1 & _).
    destruct (ProducerInner_flush_inv _ _ _ _ _ _ _ I1 Hf) as [_ [(_ & _ & _ & tk & [=] & _)|(_ & b2 & Hfl)]].
    by apply (own_flushed _ _ _ _ _ lingers L' O' I1 Hfl).
Qed.

(** What a flush of any kind does. *)
Lemma own_flush s token r inner h lingers :
  live s -> own s -> ProducerInner_flush token (ps_inner s) (ps_store s) = (r, inner, h) ->
  own (mkPsystem inner h (ps_calls s) lingers (ps_taken s)).
Proof.
  intros L O Hf. destruct (lv_calls _ L) as (b & I & _).
  destruct (ProducerInner_flush_inv _ _ _ _ _ _ _ I Hf) as [_ [(_ & -> & -> & _)|(_ & b' & Hfl)]].
  - by destruct O.
  - by apply (own_flushed s b b').
Qed.

Lemma own_complete s tid t answer h :
  live s -> own s -> tasks (ps_store s) !! tid = Some t -> task_answer t = None ->
  (forall offsets, answer = Ok offsets -> length offsets = length (task_batch t)) ->
  complete_task tid t answer (ps_store s) = Ok h ->
  own (mkPsystem (ps_inner s) h (ps_calls s) (ps_lingers s) (ps_taken s)).
Proof.
  intros L [Orec Otask Ores Odist] Ht Ha Hn Hc.
  destruct (lv_calls _ L) as (b & (_ & Hst & _) & _).
  destruct (complete_task_inv _ _ _ _ answer Hst Ht Ha) as (h' & Hc' & _ & Htasks).
  rewrite Hc in Hc'. injection Hc' as <-.
  assert (Hg : tasks_grow (ps_store s) h).
  { intros i u Hu. rewrite Htasks. destruct (decide (i = tid)) as [->|Hne].
    - rewrite list_lookup_insert_eq by by eapply lookup_lt_Some.
      rewrite Ht in Hu. injection Hu as <-. eexists. split; [done|]. simpl. split; [done|].
      split; [done|]. congruence.
    - rewrite list_lookup_insert_ne by done. by exists u. }
  split; simpl; try done.
  - intros id c b1 Hid Hb1. specialize (Orec _ _ _ Hid Hb1). case_decide; [done|].
    destruct Orec as [u Hin]. destruct (in_task_grow _ _ _ _ Hg Hin) as (u' & ? & _). eauto.
  - intros i u Hu. rewrite Htasks in Hu. destruct (decide (i = tid)) as [->|Hne].
    + rewrite list_lookup_insert_eq in Hu by by eapply lookup_lt_Some. injection Hu as <-. simpl.
      split; [by apply (Otask tid)|]. intros offsets [= ->]. auto.
    + rewrite list_lookup_insert_ne in Hu by done. eauto.
  - intros id c v Hid Hr. destruct (Ores _ _ _ Hid Hr) as (o & Ho & ->). eauto using has_offset_grow.
Qed.

(** A result that is received is the offset of the record. *)
Lemma own_received s id c r v :
  live s -> own s -> ps_calls s !! id = Some c -> peek (receiver (pc_handle c)) (ps_store s) = Some r ->
  (let! status := handle_wait (CE:=CE) (D:=D) r in handle_result (pc_handle c) status) = Ok v ->
  exists o, has_offset (ps_store s) c o /\ v = status_of o.
Proof.
  intros L O Hc Hpk Hv. destruct (lv_calls _ L) as (b & (Hb & Hst & _) & _).
  pose proof (ow_record _ O _ _ _ Hc Hb) as Hrec. unfold peek in Hpk. case_decide as Heq.
  { rewrite Heq in Hpk. destruct (st_cur _ _ Hst) as [_ Hcur]. by rewrite Hcur in Hpk. }
  destruct Hrec as [t Hin]. pose proof Hin as ([tid Ht] & Hcell & Hbt).
  destruct (st_task _ _ Hst _ _ Ht) as [_ Hct]. rewrite Hcell in Hct. rewrite Hct in Hpk.
  destruct (ow_task _ O _ _ Ht) as [Hd Hl]. unfold cell_of in Hpk.
  destruct (task_answer t) as [[offsets|e|p]|] eqn:Hans; simpl in Hpk; [| | |done];
    injection Hpk as <-; simpl in Hv; [|done..].
  destruct (lookup_lt_is_Some_2 offsets (handle_tag (pc_handle c))) as [o Ho].
  { rewrite (Hl _ eq_refl). by eapply lookup_lt_Some. }
  unfold handle_result in Hv. simpl in Hv. rewrite (Hd _ _ _ Ho) in Hv. simpl in Hv. injection Hv as <-.
  exists o. split; [|done]. exists t, offsets. auto.
Qed.

(** Calls that keep what they are, and return what they may. *)
Lemma own_calls s calls :
  own s -> (forall id c, calls !! id = Some c -> exists c0, ps_calls s !! id = Some c0 /\
    pc_handle c = pc_handle c0 /\ pc_input c = pc_input c0 /\
    forall v, pc_result c = Some (Ok v) -> pc_result c0 = Some (Ok v) \/
      exists o, has_offset (ps_store s) c0 o /\ v = status_of o) ->
  own (mkPsystem (ps_inner s) (ps_store s) calls (ps_lingers s) (ps_taken s)).
Proof.
  intros [Orec Otask Ores Odist] Hold.
  assert (Heq : forall c c0 o, pc_handle c = pc_handle c0 -> pc_input c = pc_input c0 ->
    has_offset (ps_store s) c0 o -> has_offset (ps_store s) c o).
  { unfold has_offset, in_task. by intros c c0 o -> ->. }
  split; simpl; try done.
  - intros id c b (c0 & Hc0 & Hh & Hi & _)%Hold Hb. specialize (Orec _ _ _ Hc0 Hb).
    unfold in_task in *. by rewrite Hh, Hi.
  - intros id c v (c0 & Hc0 & Hh & Hi & Hv)%Hold Hr.
    destruct (Hv _ Hr) as [Hr0|(o & Ho & ->)]; [destruct (Ores _ _ _ Hc0 Hr0) as (o & Ho & ->)|]; eauto.
  - intros i j c d (c0 & Hc0 & -> & _)%Hold (d0 & Hd0 & -> & _)%Hold. eauto.
Qed.

Lemma own_initial a : own (ps_initial a).
Proof. by split. Qed.

Lemma own_step s s' : live s -> own s -> pstep s s' -> own s'.
Proof.
  intros L O Hstep. destruct (lv_calls _ L) as (b & I & _). destruct Hstep as
    [id data handle s inner h Hid Hlid Hp|id data handle token s inner h Hid Hlid Hp|data e s inner h Hp
    |id token s inner h Hid Hf|id token e s inner h Hid Hf|outstanding s inner h Hf|e s inner h Hf
    |tid t answer s h Ht Ha Hn Hc|id c r s Hid Hres Hpk|id s].
  - destruct (try_push_pushed _ _ _ _ _ _ _ I Hp) as [Hpu _].
    destruct s. exact (own_pushed _ _ _ _ _ _ Hpu _ _ _ id L O Hid Hlid).
  - destruct (try_push_pushed _ _ _ _ _ _ _ I Hp) as [Hpu _].
    destruct s. exact (own_pushed _ _ _ _ _ _ Hpu _ _ _ id L O Hid Hlid).
  - destruct (try_push_pushed _ _ _ _ _ _ _ I Hp) as [Hpu _].
    destruct s as [inner0 h0 calls lingers taken].
    destruct (fresh_call calls lingers) as (id & Hid & Hlid).
    exact (own_pushed _ _ _ _ _ _ Hpu _ _ _ id L O Hid Hlid).
  - by eapply own_flush.
  - pose proof (own_flush _ _ _ _ _ (delete id (ps_lingers s)) L O Hf) as O'.
    refine (own_calls _ (alter (return_with (Err e)) id (ps_calls s)) O' _). simpl. intros id' c Hc.
    destruct (decide (id = id')) as [<-|Hne]; [|rewrite lookup_alter_ne in Hc by done; eauto 6].
    rewrite lookup_alter_eq in Hc. destruct (ps_calls s !! id) as [c0|]; [|done]. simpl in Hc.
    injection Hc as <-. exists c0. simpl. destruct (pc_result c0); naive_solver.
  - revert Hf. unfold BatchProducer_flush.
    destruct (ProducerInner_flush None (ps_inner s) (ps_store s)) as [[[[]|e|p] inner1] h1] eqn:Hf; [|done..].
    intros [= <- <- <-]. pose proof (own_flush _ _ _ _ _ (ps_lingers s) L O Hf) as [Orec Otask Ores Odist].
    by split.
  - revert Hf. unfold BatchProducer_flush.
    destruct (ProducerInner_flush None (ps_inner s) (ps_store s)) as [[[[]|e'|p] inner1] h1] eqn:Hf; [done| |done].
    intros [= <- <- <-]. by eapply own_flush.
  - by eapply own_complete.
  - apply (own_calls s _ O). intros id' c' [[<- <-]|[_ Hc]]%lookup_insert_Some; [|eauto 6].
    exists c. simpl. rewrite Hres. split; [done|]. split; [done|]. split; [done|].
    intros v [= Hv]. right. by eapply own_received.
  - apply (own_calls s _ O). intros id' c' [_ Hc]%lookup_delete_Some. eauto 6.
Qed.

Lemma own_reachable a s : preachable a s -> own s.
Proof.
  induction 1 as [|s s' Hr IH Hstep]; [apply own_initial|].
  eapply own_step; [|done|done]. by eapply live_reachable.
Qed.
End own.

(** ** An execution: a record is pushed, flushed, written and acknowledged *)
Definition sample_call (r : option (outcome (ProducerError unit) Z)) : pcall unit ClientRecord nat Z :=
  mkPcall (sample_record 1) (mkResultHandle 0 0%nat) r.

Definition sample_pushed : psystem unit RecordAggregator ClientRecord nat RecordAggregatorStatusDeaggregator Z :=
  mkPsystem
    (mkProducerInner (Some (mkBatchBuilder
      (mkRecordAggregator 2 (mkAggregatorState 1 [sample_record 1])) 0)) 0 true [])
    (mkStore [None] []) (<[1%nat := sample_call None]> ∅) (<[1%nat := 0]> ∅) [].

Definition sample_flushed : psystem unit RecordAggregator ClientRecord nat RecordAggregatorStatusDeaggregator Z :=
  mkPsystem (mkProducerInner (Some (mkBatchBuilder (RecordAggregator_new 2) 1)) 1 false [])
    (mkStore [None; None] [mkFlushTask [sample_record 1] RecordDeaggregator 0 None])
    (ps_calls sample_pushed) (ps_lingers sample_pushed) ([] ++ [0%nat]).

Definition sample_written : psystem unit RecordAggregator ClientRecord nat RecordAggregatorStatusDeaggregator Z :=
  mkPsystem (ps_inner sample_flushed)
    (mkStore [Some (Ok (Ok (mkAggregatedStatus [7] RecordDeaggregator))); None]
       [mkFlushTask [sample_record 1] RecordDeaggregator 0 (Some (Ok [7]))])
    (ps_calls sample_pushed) (ps_lingers sample_pushed) (ps_taken sample_flushed).

Definition sample_acknowledged : psystem unit RecordAggregator ClientRecord nat RecordAggregatorStatusDeaggregator Z :=
  mkPsystem (ps_inner sample_written) (ps_store sample_written)
    (<[1%nat := sample_call (Some (Ok 7))]> (ps_calls sample_written))
    (ps_lingers sample_written) (ps_taken sample_written).

Lemma sample_pushed_reachable : preachable (RecordAggregator_new 2) sample_pushed.
Proof.
  eapply preach_step; [apply preach_initial|].
  apply (p_linger 1 (sample_record 1) (mkResultHandle 0 0%nat) 0); reflexivity.
Qed.

Lemma sample_flushed_reachable : preachable (RecordAggregator_new 2) sample_flushed.
Proof.
  eapply preach_step; [apply sample_pushed_reachable|]. apply (p_flush [0%nat]). reflexivity.
Qed.

Lemma sample_acknowledged_reachable : preachable (RecordAggregator_new 2) sample_acknowledged.
Proof.
  eapply (preach_step _ sample_written).
  - eapply preach_step; [apply sample_flushed_reachable|].
    apply (p_complete 0 (mkFlushTask [sample_record 1] RecordDeaggregator 0 None) (Ok [7]) sample_flushed);
      try reflexivity.
    by intros offsets [= <-].
  - apply (p_receive (DI:=RecordAggregator_StatusDeaggregator) 1 (sample_call None) (Ok (Ok (mkAggregatedStatus [7] RecordDeaggregator)))
             sample_written); reflexivity.
Qed.

#[local] Existing Instance AggregatorOk_total.

(** ** Properties *)

(** C13: no call of [produce] waits for nothing.  In every interleaving of
    produce calls, flushes, expiring lingers, answers of the client and
    cancellations, and for every aggregator that does not panic, a call that
    has not returned has its result published, or its batch is being written
    by a task, or its batch is the current one and a linger task will flush
    it. *)
Theorem no_produce_waits_forever {CE A Input Tag D Status}
    `{AI : Aggregator A Input Tag D, DI : StatusDeaggregator D Tag Status, !AggregatorTotal A Input Tag D}
    a (s : psystem CE A Input Tag D Status) id c :
  preachable a s -> ps_calls s !! id = Some c -> pc_result c = None ->
  (exists r, peek (receiver (pc_handle c)) (ps_store s) = Some r) \/
  (exists tid t, tasks (ps_store s) !! tid = Some t /\ task_cell t = receiver (pc_handle c) /\
     task_answer t = None) \/
  (exists b i, batch_builder (ps_inner s) = Some b /\ results b = receiver (pc_handle c) /\
     ps_lingers s !! i = Some (flush_clock (ps_inner s))).
Proof.
  intros Hr Hc _. apply live_reachable in Hr as L. destruct (lv_calls _ L) as (b & (Hb & Hst & _) & Hcalls).
  destruct (Hcalls _ _ Hc) as [Hle Hcur]. pose proof (st_cur _ _ Hst) as [Hlen _].
  destruct (decide (receiver (pc_handle c) = results b)) as [Heq|Hne].
  { right. right. destruct (lv_linger _ L (Hcur Heq)) as [i Hi]. by exists b, i. }
  destruct (lookup_lt_is_Some_2 (cells (ps_store s)) (receiver (pc_handle c))) as [x Hx]; [lia|].
  destruct x as [r|]; [left; exists r; unfold peek; by rewrite Hx|].
  right. left. destruct (st_open _ _ Hst (receiver (pc_handle c))) as (tid & t & Ht & Hcell); [lia|done|].
  exists tid, t. split; [done|]. split; [done|].
  destruct (st_task _ _ Hst _ _ Ht) as [_ Hct]. rewrite Hcell, Hx in Hct.
  unfold cell_of in Hct. destruct (task_answer t) as [ans|]; [|done]. by destruct (task_result t ans).
Qed.

Lemma no_produce_waits_forever_witness :
  (exists r, peek 0 (ps_store sample_flushed) = Some r) \/
  (exists tid t, tasks (ps_store sample_flushed) !! tid = Some t /\ task_cell t = 0%nat /\ task_answer t = None) \/
  (exists b i, batch_builder (ps_inner sample_flushed) = Some b /\ results b = 0%nat /\
     ps_lingers sample_flushed !! i = Some (flush_clock (ps_inner sample_flushed))).
Proof.
  apply (no_produce_waits_forever (RecordAggregator_new 2) sample_flushed 1 (sample_call None)
           sample_flushed_reachable); reflexivity.
Defined.

(** Every call of [produce] gets the offset of its own record.  When a call
    returns [Ok], its record stands at its tag in a batch that the client wrote,
    the client gave one offset per record, and the call returns the status of
    the offset at that position; and no two calls share a position of a
    batch. *)
Theorem produce_returns_own_offset {CE A D Status}
    `{AI : Aggregator A ClientRecord nat D, DI : StatusDeaggregator D nat Status}
    batch (status_of : Z -> Status) `{!AggregatorOk batch status_of}
    a (s : psystem CE A ClientRecord nat D Status) id c v :
  preachable a s -> ps_calls s !! id = Some c -> pc_result c = Some (Ok v) ->
  (exists o, has_offset (ps_store s) c o /\ v = status_of o) /\
  forall id' c', ps_calls s !! id' = Some c' -> pc_handle c' = pc_handle c -> id' = id.
Proof.
  intros Hr Hc Hv. pose proof (own_reachable a s Hr) as O. split.
  - by apply (ow_result _ O id).
  - intros id' c' Hc' Heq. by apply (ow_distinct _ O _ _ _ _ Hc' Hc).
Qed.

Lemma produce_returns_own_offset_witness :
  (exists o, has_offset (ps_store sample_acknowledged) (sample_call (Some (Ok 7))) o /\ 7 = o) /\
  forall id' c', ps_calls sample_acknowledged !! id' = Some c' ->
    pc_handle c' = mkResultHandle 0 0%nat -> id' = 1%nat.
Proof.
  apply (produce_returns_own_offset (fun a => agg_records (agg_state a)) (fun o => o)
           (RecordAggregator_new 2) sample_acknowledged 1 (sample_call (Some (Ok 7))) 7
           sample_acknowledged_reachable); reflexivity.
Defined.

(** C30: the producer never panics on its own account: in every reachable state
    the [unwrap] of the current batch, the [expect] of [flush] and the
    [assert!] against a second publication of a result hold. *)
Theorem producer_never_panics {CE A Input Tag D Status}
    `{AI : Aggregator A Input Tag D, DI : StatusDeaggregator D Tag Status, !AggregatorTotal A Input Tag D}
    a (s : psystem CE A Input Tag D Status) :
  preachable a s ->
  (forall data p, fst (fst (ProducerInner_try_push data (ps_inner s) (ps_store s))) <> Panic p) /\
  (forall token p, fst (fst (ProducerInner_flush token (ps_inner s) (ps_store s))) <> Panic p) /\
  (forall tid t answer, tasks (ps_store s) !! tid = Some t -> task_answer t = None ->
     exists h, complete_task tid t answer (ps_store s) = Ok h).
Proof.
  intros Hr. apply live_reachable in Hr as L. destruct (lv_calls _ L) as (b & I & _).
  split; [|split].
  - intros data. destruct (ProducerInner_try_push data (ps_inner s) (ps_store s)) as [[r inner] h] eqn:Hp.
    by destruct (try_push_pushed _ _ _ _ _ _ _ I Hp) as [_ Hnp].
  - intros token. destruct (ProducerInner_flush token (ps_inner s) (ps_store s)) as [[r inner] h] eqn:Hp.
    by destruct (ProducerInner_flush_inv _ _ _ _ _ _ _ I Hp) as [Hnp _].
  - intros tid t answer Ht Ha. destruct I as (_ & Hst & _).
    destruct (complete_task_inv _ _ _ _ answer Hst Ht Ha) as (h & Hc & _). eauto.
Qed.

Lemma producer_never_panics_witness :
  exists h, complete_task 0 (mkFlushTask [sample_record 1] RecordDeaggregator 0 None) (Ok [7])
              (ps_store sample_flushed) = Ok h.
Proof.
  apply (producer_never_panics (RecordAggregator_new 2) sample_flushed sample_flushed_reachable); reflexivity.
Defined.

(** A linger flushes its own batch and no other.  As long as fewer than
    2^64 batches were started, the token of a linger is the flush clock exactly
    when the batch of its call is the current one: then its expiry flushes that
    batch, like a manual flush; otherwise its expiry changes nothing. *)
Theorem linger_flushes_own_batch {CE A Input Tag D Status}
    `{AI : Aggregator A Input Tag D, DI : StatusDeaggregator D Tag Status, !AggregatorTotal A Input Tag D}
    a (s : psystem CE A Input Tag D Status) id token c :
  preachable a s -> zlen (cells (ps_store s)) <= 2 ^ 64 ->
  ps_lingers s !! id = Some token -> ps_calls s !! id = Some c ->
  exists b, batch_builder (ps_inner s) = Some b /\
    ProducerInner_flush (Some token) (ps_inner s) (ps_store s) =
      if decide (receiver (pc_handle c) = results b)
      then ProducerInner_flush None (ps_inner s) (ps_store s)
      else (Ok tt, ps_inner s, ps_store s).
Proof.
  intros Hr Hlen Hid Hc. apply live_reachable in Hr as L.
  destruct (lv_calls _ L) as (b & (Hb & Hst & Hclk) & Hcalls). exists b. split; [done|].
  destruct (Hcalls _ _ Hc) as [Hle _]. pose proof (st_cur _ _ Hst) as [Hcur _].
  pose proof (lv_token _ L _ _ _ Hid Hc) as ->. unfold ProducerInner_flush. rewrite Hclk.
  unfold wrap_unsigned, zlen in *. rewrite !Z.mod_small by lia.
  case_decide as Heq; case_match eqn:Hz; try done.
  - apply negb_true_iff, Z.eqb_neq in Hz. lia.
  - apply negb_false_iff, Z.eqb_eq in Hz. lia.
Qed.

Lemma linger_flushes_own_batch_witness :
  exists b, batch_builder (ps_inner sample_flushed) = Some b /\
    ProducerInner_flush (CE:=unit) (Some 0) (ps_inner sample_flushed) (ps_store sample_flushed) =
      if decide (0%nat = results b)
      then ProducerInner_flush None (ps_inner sample_flushed) (ps_store sample_flushed)
      else (Ok tt, ps_inner sample_flushed, ps_store sample_flushed).
Proof.
  apply (linger_flushes_own_batch (RecordAggregator_new 2) sample_flushed 1 0 (sample_call None)
           sample_flushed_reachable); [vm_compute; congruence|reflexivity..].
Defined.

(** [flush] waits for every write that it should: each task that still runs
    when [flush] has started its own, and that no other call of [flush] took
    before, is among the tasks it waits for. *)
Theorem flush_waits_for_running_writes {CE A Input Tag D Status}
    `{AI : Aggregator A Input Tag D, DI : StatusDeaggregator D Tag Status, !AggregatorTotal A Input Tag D}
    a (s : psystem CE A Input Tag D Status) outstanding inner h tid t :
  preachable a s -> BatchProducer_flush (ps_inner s) (ps_store s) = (Ok outstanding, inner, h) ->
  tasks h !! tid = Some t -> task_answer t = None -> tid ∉ ps_taken s ->
  tid ∈ outstanding.
Proof. intros Hr Hf. apply live_reachable in Hr. apply (live_manual_flush s _ _ _ Hr Hf). Qed.

Lemma flush_waits_for_running_writes_witness : 0%nat ∈ [0%nat].
Proof.
  apply (flush_waits_for_running_writes (RecordAggregator_new 2) sample_pushed [0%nat]
           (ps_inner sample_flushed) (ps_store sample_flushed) 0
           (mkFlushTask [sample_record 1] RecordDeaggregator 0 None) sample_pushed_reachable);
    [reflexivity..|apply not_elem_of_nil].
Defined.

(** A second [flush] does not wait for what the first one waits for: the
    writes that a call of [flush] took still run, and a call of [flush] that
    comes before they end has none of them among the tasks it waits for. *)
Theorem second_flush_does_not_wait {CE A Input Tag D Status}
    `{AI : Aggregator A Input Tag D, DI : StatusDeaggregator D Tag Status, !AggregatorTotal A Input Tag D}
    a (s : psystem CE A Input Tag D Status) out1 inner1 h1 out2 inner2 h2 tid t :
  preachable a s -> BatchProducer_flush (ps_inner s) (ps_store s) = (Ok out1, inner1, h1) ->
  BatchProducer_flush inner1 h1 = (Ok out2, inner2, h2) ->
  tid ∈ out1 -> tasks h1 !! tid = Some t -> task_answer t = None ->
  tasks h2 !! tid = Some t /\ tid ∉ out2.
Proof.
  intros Hr Hf1 Hf2 Hin Ht Ha. apply live_reachable in Hr as L.
  pose proof (live_manual_flush s _ _ _ L Hf1) as [L1 _].
  assert (Hp1 : pending_flushes inner1 = []).
  { revert Hf1. unfold BatchProducer_flush. by repeat case_match; intros [= <- <- <-]. }
  destruct (lv_calls _ L1) as (b & I & _). simpl in I. revert Hf2. unfold BatchProducer_flush.
  destruct (ProducerInner_flush None inner1 h1) as [[[u|e|p] inner3] h3] eqn:Hf; intros [= <- <- <-].
  destruct (ProducerInner_flush_inv _ _ _ _ _ _ _ I Hf) as [_ [(_ & _ & _ & tk & [=] & _)|(_ & b' & Hfl)]].
  destruct Hfl as [_ _ _ _ Honly Htasks]. split.
  - destruct Htasks as [(e & _ & ->)|(recs & d & _ & ->)]; [done|by apply lookup_app_l_Some].
  - intros [Hin2|[-> _]]%Honly; [rewrite Hp1 in Hin2; by apply not_elem_of_nil in Hin2|].
    apply lookup_lt_Some in Ht. lia.
Qed.

Lemma second_flush_does_not_wait_witness :
  tasks (ps_store sample_flushed ) !! 0%nat = Some (mkFlushTask [sample_record 1] RecordDeaggregator 0 None) /\
  0%nat ∉ @nil nat.
Proof.
  apply (second_flush_does_not_wait (RecordAggregator_new 2) sample_pushed [0%nat]
           (ps_inner sample_flushed) (ps_store sample_flushed) []
           (mkProducerInner (Some (mkBatchBuilder (RecordAggregator_new 2) 2)) 2 false [])
           (mkStore [None; Some (Ok (Ok (mkAggregatedStatus [] RecordDeaggregator))); None]
              [mkFlushTask [sample_record 1] RecordDeaggregator 0 None]) 0
           (mkFlushTask [sample_record 1] RecordDeaggregator 0 None) sample_pushed_reachable);
    [reflexivity..|apply list_elem_of_singleton; reflexivity|reflexivity|reflexivity].
Defined.
