(* ===== verification/ProducerDrop.v ===== *)
(** * The end of a producer (src/client/producer.rs)

    A [BatchProducer] can be dropped when no call borrows it; its
    [ProducerInner] goes when no linger task shares it any more.  [drop] tells
    the writes it knows of to abort, and the current batch gives up its cell.
    An aborted task ends at its [await], unless it comes to its end first;
    tasks that a call of [flush] took are not aborted. *)

From Stdlib Require Import ZArith Lia.
From stdpp Require Import base list numbers gmap fin_maps.
From S2P Require Import Prelude Bytes Aggregator Batch Producer.

Local Open Scope Z_scope.
Local Open Scope rust_scope.

Section producer_drop.
Context {CE A Input Tag D Status : Type}.
Context `{AI : Aggregator A Input Tag D, DI : StatusDeaggregator D Tag Status}.

(** The last reference is gone: no linger task and no call is left. *)
Definition unshared (s : psystem CE A Input Tag D Status) : Prop :=
  ps_lingers s = ∅ /\ map_Forall (fun _ c => is_Some (pc_result c)) (ps_calls s).

(** [ProducerInner::drop], and the drop of its fields: the tasks that are told
    to abort, and the store. *)
Definition ProducerInner_drop (self : ProducerInner A) (h : store CE D) : list nat * store CE D :=
  (pending_flushes self,
   match batch_builder self with
   | Some b => broadcast_drop (results b) h
   | None => h
   end).

(** The state after that: the store, and the aborted tasks whose future was
    dropped.  A task runs until it has its answer or is dropped. *)
Local Abbreviation dstate := (store CE D * gset nat)%type.

Definition runs (c : dstate) (tid : nat) (t : FlushTask CE D) : Prop :=
  tasks (fst c) !! tid = Some t /\ task_answer t = None /\ tid ∉ snd c.

(** The tasks after the producer is gone. *)
Inductive after_drop (aborted : list nat) : dstate -> dstate -> Prop :=
| a_abort tid t h gone :
    (** the future of an aborted task is dropped, and its cell with it *)
    tid ∈ aborted -> runs (h, gone) tid t ->
    after_drop aborted (h, gone) (broadcast_drop (task_cell t) h, {[tid]} ∪ gone)
| a_complete tid t answer h gone h' :
    runs (h, gone) tid t -> complete_task tid t answer h = Ok h' ->
    after_drop aborted (h, gone) (h', gone).

Inductive dropped (s : psystem CE A Input Tag D Status) (aborted : list nat) (h : store CE D) : Prop :=
| dropped_intro :
    unshared s -> ProducerInner_drop (ps_inner s) (ps_store s) = (aborted, h) -> dropped s aborted h.

(** ** What stays

    Results that were published are there for good; a task runs exactly as long
    as its cell is open, and no two tasks have the same cell. *)
Record later (h : store CE D) (c : dstate) : Prop := {
  lt_cells : forall i v, cells h !! i = Some (Some v) -> cells (fst c) !! i = Some (Some v);
  lt_open : forall tid t, tasks h !! tid = Some t -> cells (fst c) !! task_cell t = Some None -> runs c tid t;
  lt_runs : forall tid t, runs c tid t ->
    tasks h !! tid = Some t /\ cells (fst c) !! task_cell t = Some None;
  lt_unique : forall i j t u, tasks h !! i = Some t -> tasks h !! j = Some u ->
    task_cell t = task_cell u -> i = j;
}.

Lemma broadcast_drop_open i (h : store CE D) :
  cells h !! i = Some None -> broadcast_drop i h = set_cell i (Some (Err BroadcastDropped)) h.
Proof. intros Hi. unfold broadcast_drop. by rewrite Hi. Qed.

(** The end of one task, with its cell filled. *)
Lemma later_end h c c' tid t x :
  later h c -> runs c tid t ->
  cells (fst c') = <[task_cell t := Some x]> (cells (fst c)) ->
  (forall tid2 t2, runs c' tid2 t2 <-> runs c tid2 t2 /\ tid2 <> tid) ->
  later h c'.
Proof.
  intros [Hc Ho Hr Hu] Hrun Hcells Hruns. destruct (Hr _ _ Hrun) as [Ht Hop].
  split; [| | |done]; rewrite Hcells.
  - intros i v Hi. specialize (Hc _ _ Hi). rewrite list_lookup_insert_ne; [done|naive_solver].
  - intros tid2 t2 Ht2 Hop2. destruct (decide (task_cell t2 = task_cell t)) as [Heq|Hne].
    + rewrite Heq, list_lookup_insert_eq in Hop2 by (by eapply lookup_lt_Some). done.
    + rewrite list_lookup_insert_ne in Hop2 by done. apply Hruns. split; [by apply Ho|].
      intros ->. simplify_eq.
  - intros tid2 t2 [Hr2 Hne]%Hruns. destruct (Hr _ _ Hr2) as [Ht2 Hop2]. split; [done|].
    rewrite list_lookup_insert_ne; [done|]. intros Heq. by apply Hne, (Hu _ _ _ _ Ht2 Ht).
Qed.

(** [complete_task] on a task whose cell is open: it fills the cell. *)
Lemma complete_task_open tid t answer (h : store CE D) :
  cells h !! task_cell t = Some None -> exists v,
    complete_task tid t answer h =
    Ok (mkStore (<[task_cell t := Some v]> (cells h))
          (<[tid := mkFlushTask (task_batch t) (task_deagg t) (task_cell t) (Some answer)]> (tasks h))).
Proof.
  intros Hop. unfold complete_task. destruct (task_result t answer).
  - rewrite broadcast_open by done. by eexists.
  - rewrite broadcast_drop_open by done. by eexists.
  - rewrite broadcast_drop_open by done. by eexists.
Qed.

Lemma later_after_drop aborted h c1 c2 :
  later h c1 -> after_drop aborted c1 c2 -> later h c2.
Proof.
  intros Hl. destruct 1 as [tid t h1 gone _ Hr|tid t answer h1 gone h2 Hr Hc];
    destruct (lt_runs _ _ Hl _ _ Hr) as [Ht Hop]; simpl in Hop.
  - eapply (later_end _ _ _ tid t); [done|done|by rewrite broadcast_drop_open|].
    rewrite broadcast_drop_open by done. intros tid2 t2. unfold runs. simpl. set_solver.
  - destruct (complete_task_open tid t answer h1 Hop) as [v Hv]. rewrite Hv in Hc. injection Hc as <-.
    eapply (later_end _ _ _ tid t v); [done|done|done|]. intros tid2 t2. unfold runs. simpl.
    destruct (decide (tid2 = tid)) as [->|Hne]; [|rewrite list_lookup_insert_ne by done; tauto].
    rewrite list_lookup_insert_eq by (destruct Hr; by eapply lookup_lt_Some).
    split; [by intros ([= <-] & ? & _)|by intros [_ []]].
Qed.

Lemma later_rtc aborted h c1 c2 :
  later h c1 -> rtc (after_drop aborted) c1 c2 -> later h c2.
Proof. intros Hl Hr. induction Hr; eauto using later_after_drop. Qed.

Lemma later_here h c : later h c -> tasks (fst c) = tasks h -> later (fst c) c.
Proof.
  intros [Hc Ho Hs Hu] Heq. split; [done|by rewrite Heq|rewrite Heq; by apply Hs|by rewrite Heq].
Qed.

Context {AT : AggregatorTotal A Input Tag D}.

(** The store of a reachable state after [drop], before a task goes on. *)
Lemma later_dropped a (s : psystem CE A Input Tag D Status) aborted h :
  preachable a s -> dropped s aborted h ->
  later (ps_store s) (h, ∅) /\ tasks h = tasks (ps_store s) /\
  exists b, batch_builder (ps_inner s) = Some b /\ cells h !! results b = Some (Some (Err BroadcastDropped)).
Proof using AT.
  intros L%live_reachable [_ Hd]. destruct (lv_calls _ L) as (b & (Hb & Hst & _) & _).
  pose proof (st_cur _ _ Hst) as [Hlen Hop]. revert Hd. unfold ProducerInner_drop.
  rewrite Hb, broadcast_drop_open by done. intros [= _ <-]. split; [|split; [done|]].
  - assert (Hans : forall tid t, tasks (ps_store s) !! tid = Some t ->
      cells (ps_store s) !! task_cell t = Some None <-> task_answer t = None).
    { intros tid t Ht. destruct (st_task _ _ Hst _ _ Ht) as [_ ->]. unfold cell_of. repeat case_match; naive_solver. }
    assert (Hcur : forall tid t, tasks (ps_store s) !! tid = Some t -> task_cell t <> results b).
    { intros tid t Ht. destruct (st_task _ _ Hst _ _ Ht). lia. }
    split; simpl; [| | |apply (st_unique _ _ Hst)].
    + intros i v Hi. rewrite list_lookup_insert_ne; [done|naive_solver].
    + intros tid t Ht. rewrite list_lookup_insert_ne by (by apply not_eq_sym, (Hcur tid)).
      intros Ho. split_and!; [done|by apply (Hans tid)|set_solver].
    + intros tid t (Ht & Ha & _). split; [done|].
      rewrite list_lookup_insert_ne by (by apply not_eq_sym, (Hcur tid)). by apply (Hans tid).
  - exists b. split; [done|]. simpl. by rewrite list_lookup_insert_eq by lia.
Qed.

Lemma later_drop a (s : psystem CE A Input Tag D Status) aborted h c :
  preachable a s -> dropped s aborted h -> rtc (after_drop aborted) (h, ∅) c ->
  later (ps_store s) c /\
  exists b, batch_builder (ps_inner s) = Some b /\ cells (fst c) !! results b = Some (Some (Err BroadcastDropped)).
Proof using AT.
  intros Hr Hd Hrtc. destruct (later_dropped _ _ _ _ Hr Hd) as (Hl & Htasks & b & Hb & Hcell).
  split; [by eapply later_rtc|]. exists b. split; [done|].
  eapply (lt_cells h); [|done]. eapply later_rtc; [|done]. by apply (later_here (ps_store s) (h, ∅)).
Qed.
End producer_drop.

#[local] Existing Instance AggregatorOk_total.

(** ** Two runs to the end of a producer *)

Local Abbreviation sample_psystem :=
  (psystem unit RecordAggregator ClientRecord nat RecordAggregatorStatusDeaggregator Z).

(** The linger flushed the batch; its call was cancelled, the write runs. *)
Definition lingered : sample_psystem :=
  mkPsystem (mkProducerInner (Some (mkBatchBuilder (RecordAggregator_new 2) 1)) 1 false [0%nat])
    (mkStore [None; None] [mkFlushTask [sample_record 1] RecordDeaggregator 0 None]) ∅ ∅ [].

Lemma lingered_reachable : preachable (RecordAggregator_new 2) lingered.
Proof.
  pose (s := mkPsystem (ps_inner sample_pushed) (ps_store sample_pushed) (delete 1%nat (ps_calls sample_pushed))
               (ps_lingers sample_pushed) (ps_taken sample_pushed) : sample_psystem).
  apply (preach_step _ s); [apply (preach_step _ sample_pushed); [apply sample_pushed_reachable|apply (p_cancel 1)]|].
  exact (p_expired 1 0 s (ps_inner lingered) (ps_store lingered) eq_refl eq_refl).
Qed.

(** A call of [flush] took the write and was cancelled, as was the other call;
    the linger has expired. *)
Definition flush_cancelled : sample_psystem :=
  mkPsystem (ps_inner sample_flushed) (ps_store sample_flushed) ∅ ∅ [0%nat].

Lemma flush_cancelled_reachable : preachable (RecordAggregator_new 2) flush_cancelled.
Proof.
  pose (s := mkPsystem (ps_inner sample_flushed) (ps_store sample_flushed) (delete 1%nat (ps_calls sample_flushed))
               (ps_lingers sample_flushed) (ps_taken sample_flushed) : sample_psystem).
  apply (preach_step _ s); [apply (preach_step _ sample_flushed); [apply sample_flushed_reachable|apply (p_cancel 1)]|].
  exact (p_expired 1 0 s (ps_inner flush_cancelled) (ps_store flush_cancelled) eq_refl eq_refl).
Qed.

(** ** Properties *)

(** C31: dropping a producer, whatever happened before and for every aggregator
    that does not panic.  Results that were published stay; the cell of the
    current batch says that it was dropped; a write that still runs can publish
    its result, whatever the client answers (the assertion against a double
    publish holds); a cell of a write that is still open belongs to a write that
    runs; and every write that runs was told to abort, so that it can end at once
    with its cell dropped, or was taken by a call of [flush]. *)
Theorem producer_drop_ends_writes {CE A Input Tag D Status}
    `{AI : Aggregator A Input Tag D, DI : StatusDeaggregator D Tag Status, !AggregatorTotal A Input Tag D}
    a (s : psystem CE A Input Tag D Status) aborted h h' gone :
  preachable a s -> dropped s aborted h -> rtc (after_drop aborted) (h, ∅) (h', gone) ->
  (forall i v, cells (ps_store s) !! i = Some (Some v) -> cells h' !! i = Some (Some v)) /\
  (exists b, batch_builder (ps_inner s) = Some b /\
    cells h' !! results b = Some (Some (Err BroadcastDropped))) /\
  (forall tid t answer, runs (h', gone) tid t -> exists h2, complete_task tid t answer h' = Ok h2) /\
  (forall tid t, tasks (ps_store s) !! tid = Some t -> cells h' !! task_cell t = Some None ->
    runs (h', gone) tid t) /\
  (forall tid t, runs (h', gone) tid t ->
    (tid ∈ aborted /\ after_drop aborted (h', gone) (broadcast_drop (task_cell t) h', {[tid]} ∪ gone)) \/
    tid ∈ ps_taken s).
Proof.
  intros Hr Hd Hrtc. destruct (later_drop _ _ _ _ _ Hr Hd Hrtc) as [Hl Hcur].
  apply live_reachable in Hr as L. split_and!; [apply (lt_cells _ _ Hl)|done| |apply (lt_open _ _ Hl)|].
  - intros tid t answer Hrun. apply (lt_runs _ _ Hl) in Hrun as [_ Hop].
    destruct (complete_task_open tid t answer h' Hop) as [v ->]. by eexists.
  - intros tid t Hrun. destruct (lt_runs _ _ Hl _ _ Hrun) as [Ht _].
    pose proof (lv_pending _ L _ _ Ht (proj1 (proj2 Hrun))) as Hin. destruct Hd as [_ [= <- _]].
    apply elem_of_app in Hin as [Hin|Hin]; [left; split; [done|by apply a_abort]|by right].
Qed.

Lemma producer_drop_ends_writes_witness :
  cells (snd (ProducerInner_drop (ps_inner lingered) (ps_store lingered))) !! 1%nat =
    Some (Some (Err BroadcastDropped)) /\ 0%nat ∈ [0%nat].
Proof.
  destruct (producer_drop_ends_writes (RecordAggregator_new 2) lingered [0%nat]
    (snd (ProducerInner_drop (ps_inner lingered) (ps_store lingered)))
    (snd (ProducerInner_drop (ps_inner lingered) (ps_store lingered))) ∅ lingered_reachable)
    as (_ & (b & Hb & Hc) & _ & Ho & Hw).
  - split; [|reflexivity]. split; [reflexivity|apply map_Forall_empty].
  - apply rtc_refl.
  - injection Hb as <-. split; [exact Hc|].
    destruct (Hw 0%nat _ (Ho 0%nat _ eq_refl eq_refl)) as [[H _]|H]; [exact H|inversion H].
Defined.

(** The comment on [drop] says that in-progress flushes are aborted to avoid
    leaking tasks.  A write that a cancelled call of [flush] took is not: it
    goes on after the producer is gone, and its records are written. *)
Theorem cancelled_flush_leaks_write :
  exists (s : sample_psystem) h h' t,
    preachable (RecordAggregator_new 2) s /\ dropped s [] h /\ runs (h, ∅) 0 t /\
    rtc (after_drop []) (h, ∅) (h', ∅) /\ task_answer t = None /\
    tasks h' !! 0%nat = Some (mkFlushTask [sample_record 1] RecordDeaggregator 0 (Some (Ok [7]))).
Proof.
  eexists flush_cancelled, _, _, (mkFlushTask [sample_record 1] RecordDeaggregator 0 None). split; [apply flush_cancelled_reachable|].
  split; [split; [|reflexivity]; split; [reflexivity|apply map_Forall_empty]|].
  split; [split_and!; [reflexivity|reflexivity|set_solver]|]. split; [|split; [reflexivity|]].
  - apply rtc_once. apply (a_complete _ 0%nat (mkFlushTask [sample_record 1] RecordDeaggregator 0 None) (Ok [7]));
      [split_and!; [reflexivity|reflexivity|set_solver]|reflexivity].
  - reflexivity.
Qed.
