(* ===== verification/ProducerTests.v ===== *)
(** * The tests of the producer, replayed (src/client/producer.rs)

    The step relation of [Producer], as a function of what happens next; what
    the function does, the relation allows.  The tests are runs of it: their
    timings fix the order in which lingers expire and the client answers. *)

From Stdlib Require Import ZArith Lia.
From stdpp Require Import base list numbers gmap fin_maps.
From S2P Require Import Prelude Bytes Wire VecBuilder Varint Primitives PrimitiveLaws Codec RefCrates RawSnappy.
From S2P Require Import Versioned ErrorCode Frame ProtocolTests Aggregator Batch Producer.

Local Open Scope Z_scope.
Local Open Scope rust_scope.

(** ** The producer as a function of events *)
Section run.
Context {CE A Input Tag D Status : Type}.
Context `{AI : Aggregator A Input Tag D, DI : StatusDeaggregator D Tag Status}.

Local Abbreviation system := (psystem CE A Input Tag D Status).

(** [Answer]: the client answers a task; the number is that of the task. *)
Inductive event : Type :=
| Produce (id : nat) (data : Input)
| Expire (id : nat)
| ManualFlush
| Answer (tid : nat) (answer : outcome CE (list Z))
| Receive (id : nat)
| Cancel (id : nat).

(** One offset per record. *)
Definition answers_all (t : FlushTask CE D) (answer : outcome CE (list Z)) : bool :=
  match answer with
  | Ok offsets => Nat.eqb (length offsets) (length (task_batch t))
  | _ => true
  end.

(** What an event leads to, and the error that the call gets at once;
    [None]: the event cannot happen, or the code panics. *)
Definition pexec (e : event) (s : system) : option (system * option (ProducerError CE)) :=
  match e with
  | Produce id data =>
      match ps_calls s !! id, ps_lingers s !! id with
      | None, None =>
          match ProducerInner_try_push data (ps_inner s) (ps_store s) with
          | (Ok (JustWait handle), inner, h) =>
              Some (mkPsystem inner h (<[id := mkPcall data handle None]> (ps_calls s))
                      (ps_lingers s) (ps_taken s), None)
          | (Ok (Linger handle token), inner, h) =>
              Some (mkPsystem inner h (<[id := mkPcall data handle None]> (ps_calls s))
                      (<[id := token]> (ps_lingers s)) (ps_taken s), None)
          | (Err e, inner, h) =>
              Some (mkPsystem inner h (ps_calls s) (ps_lingers s) (ps_taken s), Some e)
          | (Panic _, _, _) => None
          end
      | _, _ => None
      end
  | Expire id =>
      match ps_lingers s !! id with
      | Some token =>
          match ProducerInner_flush (Some token) (ps_inner s) (ps_store s) with
          | (Ok _, inner, h) =>
              Some (mkPsystem inner h (ps_calls s) (delete id (ps_lingers s)) (ps_taken s), None)
          | (Err e, inner, h) =>
              Some (mkPsystem inner h (alter (return_with (Err e)) id (ps_calls s))
                      (delete id (ps_lingers s)) (ps_taken s), None)
          | (Panic _, _, _) => None
          end
      | None => None
      end
  | ManualFlush =>
      match BatchProducer_flush (ps_inner s) (ps_store s) with
      | (Ok outstanding, inner, h) =>
          Some (mkPsystem inner h (ps_calls s) (ps_lingers s) (ps_taken s ++ outstanding), None)
      | (Err e, inner, h) =>
          Some (mkPsystem inner h (ps_calls s) (ps_lingers s) (ps_taken s), Some e)
      | (Panic _, _, _) => None
      end
  | Answer tid answer =>
      match tasks (ps_store s) !! tid with
      | Some t =>
          match task_answer t, answers_all t answer, complete_task tid t answer (ps_store s) with
          | None, true, Ok h => Some (mkPsystem (ps_inner s) h (ps_calls s) (ps_lingers s) (ps_taken s), None)
          | _, _, _ => None
          end
      | None => None
      end
  | Receive id =>
      match ps_calls s !! id with
      | Some c =>
          match pc_result c, peek (receiver (pc_handle c)) (ps_store s) with
          | None, Some r =>
              Some (mkPsystem (ps_inner s) (ps_store s)
                      (<[id := return_with (let! status := handle_wait r in
                                            handle_result (pc_handle c) status) c]> (ps_calls s))
                      (ps_lingers s) (ps_taken s), None)
          | _, _ => None
          end
      | None => None
      end
  | Cancel id =>
      Some (mkPsystem (ps_inner s) (ps_store s) (delete id (ps_calls s)) (ps_lingers s) (ps_taken s), None)
  end.

(** Some events in a row, with the errors that came at once. *)
Fixpoint prun (es : list event) (s : system) : option (system * list (ProducerError CE)) :=
  match es with
  | [] => Some (s, [])
  | e :: es =>
      '(s, err) ← pexec e s; '(s, errs) ← prun es s;
      Some (s, match err with Some err => err :: errs | None => errs end)
  end.

Lemma pexec_sound e s s' err : pexec e s = Some (s', err) -> pstep s s'.
Proof.
  destruct e as [id data|id| |tid answer|id|id]; simpl.
  - destruct (ps_calls s !! id) eqn:Hc; [done|]. destruct (ps_lingers s !! id) eqn:Hl; [done|].
    destruct (ProducerInner_try_push data _ _) as [[[[handle|handle token]|e|p] inner] h] eqn:Hp;
      intros [= <- <-]; eauto using pstep.
  - destruct (ps_lingers s !! id) as [token|] eqn:Hl; [|done].
    destruct (ProducerInner_flush _ _ _) as [[[[]|e|p] inner] h] eqn:Hf; intros [= <- <-]; eauto using pstep.
  - destruct (BatchProducer_flush _ _) as [[[out|e|p] inner] h] eqn:Hf; intros [= <- <-]; eauto using pstep.
  - destruct (tasks (ps_store s) !! tid) as [t|] eqn:Ht; [|done]. destruct (task_answer t) eqn:Ha; [done|].
    destruct (answers_all t answer) eqn:Hl; [|done].
    destruct (complete_task tid t answer (ps_store s)) as [h| |] eqn:Hc; intros [= <- <-].
    eapply p_complete; [done..| |done]. intros offsets ->. by apply Nat.eqb_eq.
  - destruct (ps_calls s !! id) as [c|] eqn:Hc; [|done]. destruct (pc_result c) eqn:Hr; [done|].
    destruct (peek _ _) as [r|] eqn:Hp; intros [= <- <-]. by apply p_receive.
  - intros [= <- <-]. apply p_cancel.
Qed.

Lemma pexec_complete s s' : pstep s s' -> exists e err, pexec e s = Some (s', err).
Proof.
  destruct 1 as [id data handle s inner h Hc Hl Hp|id data handle token s inner h Hc Hl Hp|data e s inner h Hp
    |id token s inner h Hl Hf|id token e s inner h Hl Hf|out s inner h Hf|e s inner h Hf
    |tid t answer s h Ht Ha Hlen Hc|id c r s Hc Hr Hp|id s].
  - exists (Produce id data), None. simpl. by rewrite Hc, Hl, Hp.
  - exists (Produce id data), None. simpl. by rewrite Hc, Hl, Hp.
  - pose (id := fresh (dom (ps_calls s) ∪ dom (ps_lingers s))).
    exists (Produce id data), (Some e). simpl.
    assert (id ∉ dom (ps_calls s) ∪ dom (ps_lingers s)) as Hid by apply is_fresh.
    rewrite not_elem_of_union, !not_elem_of_dom in Hid. destruct Hid as [-> ->]. by rewrite Hp.
  - exists (Expire id), None. simpl. by rewrite Hl, Hf.
  - exists (Expire id), None. simpl. by rewrite Hl, Hf.
  - exists ManualFlush, None. simpl. by rewrite Hf.
  - exists ManualFlush, (Some e). simpl. by rewrite Hf.
  - exists (Answer tid answer), None. simpl. rewrite Ht, Ha.
    replace (answers_all t answer) with true; [by rewrite Hc|].
    destruct answer as [offsets|e|p]; simpl; [|done..]. by rewrite (Hlen _ eq_refl), Nat.eqb_refl.
  - exists (Receive id), None. simpl. by rewrite Hc, Hr, Hp.
  - by exists (Cancel id), None.
Qed.

Lemma prun_reachable a es s s' errs : preachable a s -> prun es s = Some (s', errs) -> preachable a s'.
Proof.
  revert s errs. induction es as [|e es IH]; intros s errs Hs; [by intros [= <- <-]|]. simpl.
  intros ([s1 err] & He & ([s2 errs'] & Hr & [= <- <-])%bind_Some)%bind_Some.
  eapply IH; [|exact Hr]. eapply preach_step; [exact Hs|]. by eapply pexec_sound.
Qed.
End run.
Arguments event : clear implicits.

(** ** [MockClient] *)

(** Its answer to a batch: the error or the panic it was made with, or the
    offsets after those of the batches it has got before. *)
Definition mock_produce (error : option unit) (panics : bool) (batch_sizes : list nat) (records : nat) :
    outcome unit (list Z) :=
  match error with
  | Some e => Err e
  | None =>
      if panics then Panic ExplicitPanic
      else
        let offset_base := fold_right Nat.add 0%nat batch_sizes in
        Ok (map (fun x => Z.of_nat (x + offset_base)) (seq 0 records))
  end.

(** The record of the tests. *)
Definition record : ClientRecord :=
  mkClientRecord (Some (replicate 4 (byte_of_Z 0))) (Some (replicate 6 (byte_of_Z 0))) [] (320 * 10 ^ 6).

(** An aggregator that has room for two of them. *)
Definition two_records : RecordAggregator := RecordAggregator_new (approximate_size record * 2).

(** What the calls have returned at the end of a run. *)
Definition result_of {A Input Tag D Status} (s : psystem unit A Input Tag D Status) (id : nat) :
    option (outcome (ProducerError unit) Status) :=
  ps_calls s !! id ≫= pc_result.

(** The sizes of the batches that the client has got. *)
Definition batch_sizes {A Input Tag D Status} (s : psystem unit A Input Tag D Status) : list nat :=
  map (fun t => length (task_batch t)) (filter (fun t => is_Some (task_answer t)) (tasks (ps_store s))).

(** A run from the start, with what holds at its end. *)
Definition run_test {A Input Tag D Status} `{Aggregator A Input Tag D, StatusDeaggregator D Tag Status}
    (a : A) (es : list (event unit Input))
    (k : psystem unit A Input Tag D Status -> list (ProducerError unit) -> Prop) : Prop :=
  match prun es (ps_initial a) with
  | Some (s, errs) => k s errs
  | None => False
  end.

(** ** The tests *)

(** The first two records fill a batch; the third is flushed when its linger
    expires. *)
Definition test_producer : Prop :=
  let es := [Produce 1 record; Produce 2 record; Produce 3 record; Answer 0 (mock_produce None false [] 2);
             Receive 1; Receive 2] in
  run_test (Status:=Z) two_records es (fun s _ =>
    result_of s 1 = Some (Ok 0) /\ result_of s 2 = Some (Ok 1) /\ result_of s 3 = None /\ batch_sizes s = [2%nat]) /\
  run_test (Status:=Z) two_records (es ++ [Expire 3; Answer 1 (mock_produce None false [2%nat] 1); Receive 3])
    (fun s _ => result_of s 3 = Some (Ok 2) /\ batch_sizes s = [2%nat; 1%nat]).

Definition test_manual_flush : Prop :=
  let aggregator := RecordAggregator_new (2 ^ 64 - 1) in
  run_test (Status:=Z) aggregator [Produce 1 record; Produce 2 record] (fun s _ =>
    result_of s 1 = None /\ result_of s 2 = None) /\
  run_test (Status:=Z) aggregator
    [Produce 1 record; Produce 2 record; ManualFlush; Answer 0 (mock_produce None false [] 2); Receive 1; Receive 2]
    (fun s _ => result_of s 1 = Some (Ok 0) /\ result_of s 2 = Some (Ok 1)).

(** [EmptyAgg] and [EmptyDeagg]: records vanish. *)
Inductive EmptyAgg : Type := empty_agg.
Inductive EmptyDeagg : Type := empty_deagg.
#[local] Instance EmptyAgg_Aggregator : Aggregator EmptyAgg ClientRecord unit EmptyDeagg := {|
  try_push _ a := (Ok (Aggregated tt), a);
  flush a := (Ok ([], empty_deagg), a);
|}.
#[local] Instance EmptyDeagg_StatusDeaggregator : StatusDeaggregator EmptyDeagg unit unit := fun _ _ _ => Ok tt.

Definition test_producer_empty_aggregator_with_linger : Prop :=
  let ids := seq 0 10 in
  run_test (Status:=unit) empty_agg
    (map (fun id => Produce id record) ids ++ [Expire 0] ++ map Receive ids)
    (fun s _ => map (result_of s) ids = replicate 10 (Some (Ok tt))).

Definition is_err {E B} (r : option (outcome E B)) : Prop :=
  match r with Some (Err _) => True | _ => False end.

Definition test_producer_client_error : Prop :=
  run_test (Status:=Z) two_records
    [Produce 1 record; Produce 2 record; Expire 1; Answer 0 (mock_produce (Some tt) false [] 2);
     Receive 1; Receive 2]
    (fun s _ => is_err (result_of s 1) /\ is_err (result_of s 2)).

(** [MockAggregator] and [MockDeaggregator]: errors are taken in turn; an error
    of a tag is there for the one call that has the tag. *)
Record MockAggregator : Type := mkMockAggregator {
  mock_inner : RecordAggregator;
  push_errors : list unit;
  flush_errors : list unit;
  deagg_errors : list (list (option unit));
}.
Record MockDeaggregator : Type := mkMockDeaggregator {
  mock_deagg : RecordAggregatorStatusDeaggregator;
  mock_errors : list (option unit);
}.

Definition mock_try_push (r : ClientRecord) (self : MockAggregator) :
    outcome unit (TryPush ClientRecord nat) * MockAggregator :=
  match push_errors self with
  | e :: es => (Err e, mkMockAggregator (mock_inner self) es (flush_errors self) (deagg_errors self))
  | [] =>
      let '(x, inner) := RecordAggregator_try_push r (mock_inner self) in
      (x, mkMockAggregator inner [] (flush_errors self) (deagg_errors self))
  end.

Definition mock_flush (self : MockAggregator) :
    outcome unit (list ClientRecord * MockDeaggregator) * MockAggregator :=
  match flush_errors self with
  | e :: es => (Err e, mkMockAggregator (mock_inner self) (push_errors self) es (deagg_errors self))
  | [] =>
      let '(x, inner) := RecordAggregator_flush (mock_inner self) in
      (let! (records, deagg) := x in Ok (records, mkMockDeaggregator deagg (default [] (head (deagg_errors self)))),
       mkMockAggregator inner (push_errors self) [] (tail (deagg_errors self)))
  end.

Definition mock_deaggregate (self : MockDeaggregator) (input : list Z) (tag : nat) : outcome unit Z :=
  match mock_errors self !! tag with
  | Some (Some e) => Err e
  | _ => RecordAggregator_deaggregate (mock_deagg self) input tag
  end.

#[local] Instance MockAggregator_Aggregator : Aggregator MockAggregator ClientRecord nat MockDeaggregator := {|
  try_push := mock_try_push;
  flush := mock_flush;
|}.
#[local] Instance MockDeaggregator_StatusDeaggregator : StatusDeaggregator MockDeaggregator nat Z :=
  mock_deaggregate.

Definition test_producer_aggregator_error_push : Prop :=
  run_test (Status:=Z) (mkMockAggregator two_records [tt] [] [])
    [Produce 1 record; Produce 2 record; Produce 3 record; Expire 2;
     Answer 0 (mock_produce None false [] 2); Receive 2; Receive 3]
    (fun s errs => errs = [AggregatorError tt] /\ result_of s 2 = Some (Ok 0)).

Definition test_producer_aggregator_error_flush : Prop :=
  run_test (Status:=Z) (mkMockAggregator two_records [] [tt] [])
    [Produce 1 record; Produce 2 record; Expire 1; Receive 2]
    (fun s _ => is_err (result_of s 1) /\ is_err (result_of s 2)).

Definition test_producer_aggregator_error_deagg : Prop :=
  run_test (Status:=Z) (mkMockAggregator two_records [] [] [[Some tt; None]])
    [Produce 1 record; Produce 2 record; Expire 1; Answer 0 (mock_produce None false [] 2); Receive 1; Receive 2]
    (fun s _ => result_of s 1 = Some (Err (AggregatorError tt)) /\ result_of s 2 = Some (Ok 1)).

(** The call that lingers is cancelled while the client is busy. *)
Definition test_producer_aggregator_cancel : Prop :=
  run_test (Status:=Z) two_records
    [Produce 1 record; Produce 2 record; Expire 1; Cancel 1; Answer 0 (mock_produce None false [] 2); Receive 2]
    (fun s _ => result_of s 2 = Some (Ok 1) /\ batch_sizes s = [2%nat]).

Definition test_producer_aggregator_panic : Prop :=
  run_test (Status:=Z) two_records
    [Produce 1 record; Produce 2 record; Expire 1; Answer 0 (mock_produce None true [] 2); Receive 1; Receive 2]
    (fun s _ => result_of s 1 = Some (Err FlushError) /\ result_of s 2 = Some (Err FlushError)).

Lemma producer_tests_pass :
  test_producer /\ test_manual_flush /\ test_producer_empty_aggregator_with_linger /\
  test_producer_client_error /\ test_producer_aggregator_error_push /\ test_producer_aggregator_error_flush /\
  test_producer_aggregator_error_deagg /\ test_producer_aggregator_cancel /\ test_producer_aggregator_panic.
Proof. passes. Qed.
