(* ===== verification/BroadcastTest.v ===== *)
(** * The test of the broadcast slot, replayed (src/client/producer/broadcast.rs)

    One task makes the calls of the test in their order: a call that does not
    wait is run to its end. *)

From Stdlib Require Import ZArith Lia.
From stdpp Require Import base list numbers gmap fin_maps.
From S2P Require Import Prelude Batch Broadcast ProtocolTests.

Local Open Scope Z_scope.
Local Open Scope rust_scope.

Section calls.
Context {T N Token : Type} `{!Notify N Token}.
Local Abbreviation slot := (channel (T:=T) (N:=N) (Token:=Token)).

(** The steps of [broadcast] or [drop] that follow; there are at most five. *)
Fixpoint sender_run (k : nat) (c : slot) : slot :=
  match k with
  | O => c
  | S k =>
      let '(s, data, n) := sender_step (ch_sender c) (ch_data c) (ch_notify c) in
      sender_run k (mkChannel s data n (ch_receiving c))
  end.

(** [broadcast.broadcast(r)] and [std::mem::drop(broadcast)]. *)
Definition slot_broadcast (r : T) (c : slot) : slot :=
  sender_run 5 (mkChannel (Publishing r) (ch_data c) (ch_notify c) (ch_receiving c)).
Definition slot_drop (c : slot) : slot :=
  sender_run 5 (mkChannel Dropping (ch_data c) (ch_notify c) (ch_receiving c)).

(** [receiver.peek()], with the lock free. *)
Definition slot_peek (c : slot) : option (outcome BroadcastError T) := ch_data c.

(** [receiver.receive().await]: the call is polled until it returns; [None]:
    it waits. *)
Fixpoint receive_poll (k : nat) (c : slot) (r : receiving (T:=T) (Token:=Token)) :
    option (outcome BroadcastError T) :=
  match r, k with
  | Returned v, _ => Some v
  | _, O => None
  | _, S k =>
      match receive_step (ch_sender c) (ch_data c) (ch_notify c) r with
      | Some r => receive_poll k c r
      | None => None
      end
  end.
Definition slot_receive (c : slot) : option (outcome BroadcastError T) :=
  receive_poll 3 c (receive_start (ch_notify c)).

(** The runs are runs of the slot. *)
Lemma sender_run_reachable k c : rtc chstep c (sender_run k c).
Proof.
  revert c. induction k as [|k IH]; intros c; simpl; [apply rtc_refl|].
  destruct (sender_step _ _ _) as [[s data] n] eqn:Hs. eapply rtc_l; [by apply ch_send|apply IH].
Qed.

Lemma broadcast_reachable r c : ch_sender c = Holding -> rtc chstep c (slot_broadcast r c).
Proof.
  intros Hc. destruct c as [s data n m]. simpl in Hc. subst s.
  eapply rtc_l; [apply ch_broadcast|apply sender_run_reachable].
Qed.

Lemma drop_reachable c : ch_sender c = Holding -> rtc chstep c (slot_drop c).
Proof.
  intros Hc. destruct c as [s data n m]. simpl in Hc. subst s.
  eapply rtc_l; [apply ch_abandon|apply sender_run_reachable].
Qed.
End calls.

(** A call that times out is dropped; it leaves the slot as it was. *)
Definition test_broadcast_once : Prop :=
  let fresh := ch_initial (T:=Z) (N:=nat) (Token:=nat) 0%nat in
  ch_sender (slot_broadcast 1 fresh) = Gone /\
  slot_peek fresh = None /\ slot_receive fresh = None /\
  (let c := slot_broadcast 2 fresh in
   slot_peek c = Some (Ok 2) /\ slot_peek c = Some (Ok 2) /\ slot_receive c = Some (Ok 2) /\ slot_receive c = Some (Ok 2)) /\
  (let c := slot_broadcast 4 fresh in slot_receive c = Some (Ok 4) /\ slot_receive c = Some (Ok 4)) /\
  (let c := slot_drop fresh in
   slot_receive c = Some (Err BroadcastDropped) /\ slot_receive c = Some (Err BroadcastDropped)).

Lemma broadcast_test_passes : test_broadcast_once.
Proof. passes. Qed.
