(* ===== verification/Partition.v ===== *)
(** * Requests and responses of a partition client (src/client/partition.rs, src/client/error.rs)

    How [PartitionClient] builds its requests, checks the responses, and
    converts between the records of the client API and those of the protocol.
    Timestamps are values of the [chrono] crate; its functions are parameters
    ([Chrono]) with their documented behaviour as laws ([ChronoOk]).  A
    [DateTime<Utc>] and a [TimeDelta] are numbers of nanoseconds. *)

From Stdlib Require Import ZArith Lia Sorted.
From stdpp Require Import base list numbers.
From S2P Require Import Prelude Bytes Wire VecBuilder Varint Primitives PrimitiveLaws Record.
From S2P Require Import Codec RecordBatch ApiKey ErrorCode Versioned Header ApiVersionsMsg DataMessages.
From S2P Require Import Frame Support Messenger Io Backoff Transport Session Connection Aggregator.

Local Open Scope Z_scope.
Local Open Scope rust_scope.

(** ** Errors of the client *)
Module ClientErrors.

Inductive RequestContext : Type :=
| CtxTopic (topic : rstring)
| CtxPartition (topic : rstring) (partition : Z)
| CtxFetch (topic_name : rstring) (partition_id offset : Z).

Inductive ServerErrorResponse : Type :=
| LeaderForward (broker new_leader : Z)
| PartitionFetchState (high_watermark : Z) (last_stable_offset : option Z).

(** What the text of an [InvalidResponse] says. *)
Inductive InvalidReason : Type :=
| ExpectedOneTopic (got : Z)
| ExpectedOnePartition (got : Z)
| WrongTopic (expected got : rstring)
| WrongPartition (expected got : Z)
| TimestampOverflow (first_timestamp delta : Z)
| InvalidTimestamp (millis : Z)
| AmbiguousTimestamp (millis : Z)
| ExpectedOneOffset (got : Z)
| NullOffsets
| LeaderIsNull
| ControllerNotFound (controller_id : Z)
| LeaderNotFound (leader : Z)
| PartitionNotFound (partition : Z) (topic : rstring).

(** [client::error::Error]. *)
Inductive Error : Type :=
| Connection (e : ConnectionErrors.Error)
| Request (e : RequestError)
| InvalidResponse (reason : InvalidReason)
| ServerError (protocol_error : Errors.Error) (error_message : option rstring)
    (request : RequestContext) (response : option ServerErrorResponse) (is_virtual : bool)
| RetryFailed (e : BackoffError Error)
| Timeout.

End ClientErrors.
Import ClientErrors.

Inductive UnknownTopicHandling : Type := UnknownTopicError | UnknownTopicRetry.

Inductive Compression : Type :=
| Compression_NoCompression
| Compression_Gzip
| Compression_Lz4
| Compression_Snappy
| Compression_Zstd.

Inductive OffsetAt : Type := Earliest | Latest.

(** ** The chrono crate *)
Inductive LocalResult : Type :=
| LocalNone
| LocalSingle (t : Z)
| LocalAmbiguous (a b : Z).

Class Chrono : Type := {
  timestamp_millis : Z -> Z;
  num_milliseconds : Z -> Z;
  timestamp_millis_opt : Z -> LocalResult;
  (** the values of [DateTime<Utc>] *)
  datetime_valid : Z -> bool;
}.

Definition nanos_per_milli : Z := 10 ^ 6.

(** Milliseconds since the epoch are rounded down, the whole milliseconds of a
    duration towards zero.  The valid times are an interval that starts at a
    whole millisecond and covers some 262,000 years on either side. *)
Class ChronoOk `{Chrono} : Prop := {
  timestamp_millis_law : forall t, datetime_valid t = true -> timestamp_millis t = t / nanos_per_milli;
  num_milliseconds_law : forall d, num_milliseconds d = Z.quot d nanos_per_milli;
  timestamp_millis_opt_law : forall ms, datetime_valid (ms * nanos_per_milli) = true ->
    timestamp_millis_opt ms = LocalSingle (ms * nanos_per_milli);
  datetime_interval : forall a b c, datetime_valid a = true -> datetime_valid c = true ->
    a <= b <= c -> datetime_valid b = true;
  datetime_floor : forall t, datetime_valid t = true ->
    datetime_valid (t / nanos_per_milli * nanos_per_milli) = true;
  datetime_range : forall t, datetime_valid t = true -> - 2 ^ 62 <= t / nanos_per_milli < 2 ^ 62;
}.

(** ** [BTreeMap<String, Vec<u8>>] as the list of its entries *)
Fixpoint rstring_compare (a b : rstring) : comparison :=
  match a, b with
  | [], [] => Eq
  | [], _ => Lt
  | _, [] => Gt
  | x :: a, y :: b =>
      match Z.compare (byte_to_Z x) (byte_to_Z y) with
      | Eq => rstring_compare a b
      | c => c
      end
  end.

Fixpoint btree_insert (k : rstring) (v : list byte) (m : list (rstring * list byte)) :
    list (rstring * list byte) :=
  match m with
  | [] => [(k, v)]
  | (k', v') :: m' =>
      match rstring_compare k k' with
      | Lt => (k, v) :: m
      | Eq => (k, v) :: m'
      | Gt => (k', v') :: btree_insert k v m'
      end
  end.

(** [collect()] into a map. *)
Definition btree_collect (l : list (rstring * list byte)) : list (rstring * list byte) :=
  fold_left (fun m '(k, v) => btree_insert k v m) l [].

(** Collects the results of a function that can fail. *)
Fixpoint try_map {E X Y} (f : X -> outcome E Y) (l : list X) : outcome E (list Y) :=
  match l with
  | [] => Ok []
  | x :: l => let! y := f x in let! ys := try_map f l in Ok (y :: ys)
  end.

Section partition.
Context `{Chrono} {prof : Profile}.

(** ** Produce *)
Definition batch_compression (c : Compression) : RecordBatchCompression :=
  match c with
  | Compression_NoCompression => NoCompression
  | Compression_Gzip => Gzip
  | Compression_Lz4 => Lz4
  | Compression_Snappy => Snappy
  | Compression_Zstd => Zstd
  end.

(** The closure of [build_produce_request]. *)
Definition protocol_record (first : Z) (i : nat) (r : ClientRecord) : Record_ :=
  mkRecord (num_milliseconds (record_timestamp r - first)) (wrap_signed 32 (Z.of_nat i))
    (record_key r) (record_value r)
    (map (fun '(k, v) => mkRecordHeader k v) (record_headers r)).

(** [build_produce_request]: the batch. *)
Definition produce_batch (records : list ClientRecord) (compression : Compression) :
    outcome Error RecordBatch :=
  let n := wrap_signed 32 (zlen records) in
  match records with
  | [] => Panic ExpectFailed
  | first :: _ =>
      let first_timestamp := record_timestamp first in
      let max_timestamp := fold_left (fun m r => Z.max m (record_timestamp r)) records first_timestamp in
      let! last_offset_delta := arith_signed 32 (n - 1) in
      Ok (mkRecordBatch 0 0 last_offset_delta (timestamp_millis first_timestamp)
            (timestamp_millis max_timestamp) (-1) (-1) (-1)
            (RecordList (imap (protocol_record first_timestamp) records))
            (batch_compression compression) false CreateTime)
  end.

Definition build_produce_request (partition : Z) (topic : rstring) (records : list ClientRecord)
    (compression : Compression) : outcome Error ProduceRequest :=
  let! batch := produce_batch records compression in
  Ok (mkProduceRequest (mkNullableString None) (mkInt16 (-1)) (mkInt32 30000)
        [mkProduceRequestTopicData (mkString_ topic)
           [mkProduceRequestPartitionData (mkInt32 partition) (mkRecords [batch])]]).

Definition exactly_one_topic {A} (l : list A) : outcome Error A :=
  omap_err (fun n => InvalidResponse (ExpectedOneTopic n)) (exactly_one l).
Definition exactly_one_partition {A} (l : list A) : outcome Error A :=
  omap_err (fun n => InvalidResponse (ExpectedOnePartition n)) (exactly_one l).

(** The checks that a response is for the topic and the partition asked for. *)
Definition check_topic (expected got : rstring) : outcome Error unit :=
  if decide (got = expected) then Ok tt else Err (InvalidResponse (WrongTopic expected got)).
Definition check_partition (expected got : Z) : outcome Error unit :=
  if got =? expected then Ok tt else Err (InvalidResponse (WrongPartition expected got)).

(** [process_produce_response]. *)
Definition process_produce_response (partition : Z) (topic : rstring) (num_records : Z)
    (response : ProduceResponse) : outcome Error (list Z) :=
  let! response := exactly_one_topic (produce_responses response) in
  let! _ := check_topic topic (string_ (prr_name response)) in
  let! response := exactly_one_partition (partition_responses response) in
  let! _ := check_partition partition (int32 (prr_index response)) in
  match prr_error response with
  | Some e => Err (ServerError e None (CtxPartition topic partition) None false)
  | None => try_map (fun x => arith_signed 64 (x + int64 (prr_base_offset response))) (seqZ 0 num_records)
  end.

(** ** Fetch *)

(** [i32::saturating_sub(1)]. *)
Definition saturating_pred (z : Z) : Z := Z.max (- 2 ^ 31) (z - 1).

(** [build_fetch_request]; [bytes] is a range. *)
Definition build_fetch_request (offset bytes_start bytes_end max_wait_ms partition : Z) (topic : rstring) :
    FetchRequest :=
  mkFetchRequest NORMAL_CONSUMER (mkInt32 max_wait_ms) (mkInt32 bytes_start)
    (Some (mkInt32 (saturating_pred bytes_end))) (Some ReadCommitted)
    [mkFetchRequestTopic (mkString_ topic)
       [mkFetchRequestPartition (mkInt32 partition) (mkInt64 offset) (mkInt32 (saturating_pred bytes_end))]].

(** [process_fetch_response]. *)
Definition process_fetch_response (partition : Z) (topic : rstring) (response : FetchResponse)
    (request_offset : Z) : outcome Error FetchResponsePartition :=
  let! response_topic := exactly_one_topic (fetch_responses response) in
  let! _ := check_topic topic (string_ (frs_topic response_topic)) in
  let! response_partition := exactly_one_partition (frs_partitions response_topic) in
  let! _ := check_partition partition (int32 (frs_partition_index response_partition)) in
  match frs_error_code response_partition with
  | Some err =>
      Err (ServerError err None (CtxFetch topic partition request_offset)
             (Some (PartitionFetchState (int64 (high_watermark response_partition))
                      (option_map int64 (last_stable_offset response_partition)))) false)
  | None => Ok response_partition
  end.

(** The body of the inner loop of [extract_records]; [None]: [continue]. *)
Definition extract_record (base_offset first_timestamp request_offset : Z) (record : Record_) :
    outcome Error (option RecordAndOffset) :=
  let! offset := arith_signed 64 (base_offset + offset_delta record) in
  if offset <? request_offset then Ok None
  else
    match signed_try_from 64 (first_timestamp + timestamp_delta record) with
    | None => Err (InvalidResponse (TimestampOverflow first_timestamp (timestamp_delta record)))
    | Some timestamp_millis =>
        match timestamp_millis_opt timestamp_millis with
        | LocalNone => Err (InvalidResponse (InvalidTimestamp timestamp_millis))
        | LocalAmbiguous _ _ => Err (InvalidResponse (AmbiguousTimestamp timestamp_millis))
        | LocalSingle timestamp =>
            Ok (Some (mkRecordAndOffset
              (mkClientRecord (key record) (value record)
                 (btree_collect (map (fun h => (header_key h, header_value h)) (headers record)))
                 timestamp) offset))
        end
    end.

Definition extract_batch (request_offset : Z) (batch : RecordBatch) : outcome Error (list RecordAndOffset) :=
  match records batch with
  | ControlBatch _ => Ok []
  | RecordList protocol_records =>
      let! l := try_map (extract_record (base_offset batch) (first_timestamp batch) request_offset)
                  protocol_records in
      Ok (omap id l)
  end.

(** [extract_records]. *)
Definition extract_records (partition_records : list RecordBatch) (request_offset : Z) :
    outcome Error (list RecordAndOffset) :=
  let! l := try_map (extract_batch request_offset) partition_records in
  Ok (concat l).

(** ** Offsets and deletion *)

(** [build_list_offsets_request]. *)
Definition build_list_offsets_request (partition : Z) (topic : rstring) (at_ : OffsetAt) : ListOffsetsRequest :=
  let timestamp := match at_ with Earliest => -2 | Latest => -1 end in
  mkListOffsetsRequest NORMAL_CONSUMER (Some ReadCommitted)
    [mkListOffsetsRequestTopic (mkString_ topic)
       [mkListOffsetsRequestPartition (mkInt32 partition) (mkInt64 timestamp) (Some (mkInt32 1))]].

(** [process_list_offsets_response]. *)
Definition process_list_offsets_response (partition : Z) (topic : rstring) (response : ListOffsetsResponse) :
    outcome Error ListOffsetsResponsePartition :=
  let! response_topic := exactly_one_topic (los_topics response) in
  let! _ := check_topic topic (string_ (los_name response_topic)) in
  let! response_partition := exactly_one_partition (los_partitions response_topic) in
  let! _ := check_partition partition (int32 (los_partition_index response_partition)) in
  match los_error_code response_partition with
  | Some err => Err (ServerError err None (CtxPartition topic partition) None false)
  | None => Ok response_partition
  end.

(** [extract_offset]. *)
Definition extract_offset (partition : ListOffsetsResponsePartition) : outcome Error Z :=
  match old_style_offsets partition, los_offset partition with
  | Some offsets, None =>
      match array_0 offsets with
      | Some [o] => Ok (int64 o)
      | Some offsets => Err (InvalidResponse (ExpectedOneOffset (zlen offsets)))
      | None => Err (InvalidResponse NullOffsets)
      end
  | None, Some offset => Ok (int64 offset)
  | _, _ => Panic Unreachable
  end.

(** [build_delete_records_request]. *)
Definition build_delete_records_request (offset timeout_ms : Z) (topic : rstring) (partition : Z) :
    DeleteRecordsRequest :=
  mkDeleteRecordsRequest
    [mkDeleteRequestTopic (mkString_ topic)
       [mkDeleteRequestPartition (mkInt32 partition) (mkInt64 offset) None] None]
    (mkInt32 timeout_ms) None.

(** [process_delete_records_response]. *)
Definition process_delete_records_response (topic : rstring) (partition : Z)
    (response : DeleteRecordsResponse) : outcome Error DeleteResponsePartition :=
  let! response_topic := exactly_one_topic (ds_topics response) in
  let! _ := check_topic topic (string_ (dst_name response_topic)) in
  let! response_partition := exactly_one_partition (dst_partitions response_topic) in
  let! _ := check_partition partition (int32 (dsp_partition_index response_partition)) in
  match dsp_error response_partition with
  | Some err => Err (ServerError err None (CtxPartition topic partition) None false)
  | None => Ok response_partition
  end.
End partition.

(** ** Retries *)

(** What the closure of [maybe_retry] decides about an error: whether the
    attempt is repeated, and whether the cached broker is invalidated. *)
Definition retry_decision (unknown_topic_handling : UnknownTopicHandling) (error : Error) : bool * bool :=
  match error with
  | Request (Poisoned _ | ReqIO _) | Connection _ => (true, true)
  | ServerError (Errors.InvalidReplicationFactor | Errors.LeaderNotAvailable | Errors.OffsetNotAvailable)
      _ _ _ _ => (true, false)
  | ServerError Errors.NotLeaderOrFollower _ _ _ _ => (true, true)
  | ServerError Errors.UnknownTopicOrPartition _ _ _ _ =>
      (match unknown_topic_handling with UnknownTopicRetry => true | UnknownTopicError => false end, true)
  | _ => (false, false)
  end.

(** ** A reference instance of chrono *)
#[export] Instance ref_chrono : Chrono := {|
  timestamp_millis t := t / nanos_per_milli;
  num_milliseconds d := Z.quot d nanos_per_milli;
  timestamp_millis_opt ms :=
    if (-8334601228800 * 10 ^ 3 <=? ms) && (ms <? 8210266876800 * 10 ^ 3)
    then LocalSingle (ms * nanos_per_milli) else LocalNone;
  datetime_valid t := (-8334601228800 * 10 ^ 9 <=? t) && (t <? 8210266876800 * 10 ^ 9);
|}.

#[export] Instance ref_chrono_ok : ChronoOk.
Proof.
  split; unfold ref_chrono, timestamp_millis, num_milliseconds, timestamp_millis_opt, datetime_valid,
    nanos_per_milli; try done.
  - intros ms Hv%andb_true_iff. case_match eqn:Hb; [done|].
    apply andb_false_iff in Hb. rewrite Z.leb_le, Z.ltb_lt in Hv. rewrite Z.leb_gt, Z.ltb_ge in Hb. lia.
  - intros a b c. rewrite !andb_true_iff, !Z.leb_le, !Z.ltb_lt. lia.
  - intros t. rewrite !andb_true_iff, !Z.leb_le, !Z.ltb_lt.
    pose proof (Z.div_mod t (10 ^ 6) ltac:(lia)). pose proof (Z.mod_pos_bound t (10 ^ 6) ltac:(lia)).
    intros. split; [|lia]. simpl in *. lia.
  - intros t. rewrite !andb_true_iff, !Z.leb_le, !Z.ltb_lt. intros.
    pose proof (Z.div_mod t (10 ^ 6) ltac:(lia)). pose proof (Z.mod_pos_bound t (10 ^ 6) ltac:(lia)).
    simpl in *. lia.
Qed.

(** ** Lemmas *)

(** The entries of a map: keys in ascending order. *)
Definition key_before (a b : rstring * list byte) : Prop := rstring_compare (fst b) (fst a) = Gt.

Lemma btree_insert_last k v m :
  Forall (fun e => rstring_compare k (fst e) = Gt) m -> btree_insert k v m = m ++ [(k, v)].
Proof. induction 1 as [|[k' v'] m Hk _ IH]; [done|]. simpl in *. by rewrite Hk, IH. Qed.

Lemma btree_collect_sorted l : StronglySorted key_before l -> btree_collect l = l.
Proof.
  unfold btree_collect. intros Hs.
  assert (Hgen : forall m, Forall (fun e => Forall (key_before e) l) m ->
    fold_left (fun m '(k, v) => btree_insert k v m) l m = m ++ l).
  { induction Hs as [|[k v] l Hs IH Hk]; intros m Hm; simpl; [by rewrite app_nil_r|].
    rewrite btree_insert_last.
    - rewrite IH; [by rewrite <-app_assoc|]. apply Forall_app. split; [|by constructor].
      eapply list.Forall_impl; [exact Hm|]. intros e He. by inversion He.
    - eapply list.Forall_impl; [exact Hm|]. intros e He. by inversion He. }
  by rewrite Hgen.
Qed.

Lemma try_map_err {E X Y} (f : X -> outcome E Y) l e :
  try_map f l = Err e -> exists x, x ∈ l /\ f x = Err e.
Proof.
  induction l as [|x l IH]; simpl; [done|]. destruct (f x) as [y|e0|p] eqn:Hx; simpl; [|..|done].
  - destruct (try_map f l) as [ys|e0|p]; simpl; [done| |done]. intros [= ->].
    destruct IH as (z & Hz & Hf); [done|]. exists z. split; [by right|done].
  - intros [= ->]. exists x. split; [by left|done].
Qed.

Lemma try_map_ok {E X Y} (f : X -> outcome E Y) l ys :
  try_map f l = Ok ys <-> Forall2 (fun x y => f x = Ok y) l ys.
Proof.
  revert ys. induction l as [|x l IH]; intros ys; simpl.
  { split; [intros [= <-]; constructor|]. by inversion 1. }
  split.
  - intros (y & Hy & (ys' & Hys & [= <-])%obind_ok)%obind_ok. constructor; [done|]. by apply IH.
  - inversion 1 as [|? y ? ys' Hy Hys]; subst. apply obind_ok. exists y. split; [done|].
    apply obind_ok. exists ys'. split; [by apply IH|done].
Qed.

Lemma arith_signed_ok {prof : Profile} {E} w z : in_signed w z -> arith_signed (E:=E) w z = Ok z.
Proof. intros Hz. unfold arith_signed. by rewrite (proj2 (in_signed_b_true w z) Hz). Qed.

(** The millisecond that a record is stored with, relative to the first
    record of its batch. *)
Definition stored_millis (first t : Z) : Z :=
  first / nanos_per_milli + Z.quot (t - first) nanos_per_milli.

Lemma quot_sub_floor t f :
  Z.quot (t - f) nanos_per_milli =
    if f <=? t then (t - f) / nanos_per_milli else - ((f - t) / nanos_per_milli).
Proof.
  unfold nanos_per_milli. destruct (Z.leb_spec f t).
  - by rewrite Z.quot_div_nonneg by lia.
  - replace (t - f) with (- (f - t)) by lia. rewrite Z.quot_opp_l by lia.
    by rewrite Z.quot_div_nonneg by lia.
Qed.

Lemma stored_millis_bounds f t :
  t / nanos_per_milli - 1 <= stored_millis f t <= t / nanos_per_milli + 1 /\
  Z.min (f / nanos_per_milli) (t / nanos_per_milli) <= stored_millis f t
    <= Z.max (f / nanos_per_milli) (t / nanos_per_milli) /\
  (f mod nanos_per_milli = 0 -> f <= t -> stored_millis f t = t / nanos_per_milli).
Proof.
  unfold stored_millis. rewrite quot_sub_floor. unfold nanos_per_milli.
  destruct (Z.leb_spec f t); Z.to_euclidean_division_equations; lia.
Qed.

Section round_trip.
Context `{ChronoOk} {prof : Profile}.

(** A record of the client API as Rust's types make it. *)
Definition client_record_wf (r : ClientRecord) : Prop :=
  datetime_valid (record_timestamp r) = true /\ Forall (fun e => rstring_wf (fst e)) (record_headers r) /\
  StronglySorted key_before (record_headers r).

(** What a consumer gets for a record that was stored at an offset. *)
Definition fetched (first base request_offset : Z) (i : nat) (r : ClientRecord) : option RecordAndOffset :=
  let offset := base + Z.of_nat i in
  if offset <? request_offset then None
  else Some (mkRecordAndOffset
    (mkClientRecord (record_key r) (record_value r) (record_headers r)
       (stored_millis first (record_timestamp r) * nanos_per_milli)) offset).

Lemma stored_millis_valid f t :
  datetime_valid f = true -> datetime_valid t = true ->
  in_signed 64 (stored_millis f t) /\
  timestamp_millis_opt (stored_millis f t) = LocalSingle (stored_millis f t * nanos_per_milli).
Proof.
  intros Hf Ht. destruct (stored_millis_bounds f t) as (_ & Hb & _).
  pose proof (datetime_range _ Hf). pose proof (datetime_range _ Ht).
  split; [unfold in_signed; lia|]. apply timestamp_millis_opt_law.
  set (m := stored_millis f t) in *. set (F := f / nanos_per_milli) in *. set (T := t / nanos_per_milli) in *.
  pose proof (datetime_floor _ Hf) as HF. pose proof (datetime_floor _ Ht) as HT. fold F in HF. fold T in HT.
  unfold nanos_per_milli in *.
  destruct (Z.le_gt_cases F T).
  - apply (datetime_interval (F * 10 ^ 6) _ (T * 10 ^ 6) HF HT). lia.
  - apply (datetime_interval (T * 10 ^ 6) _ (F * 10 ^ 6) HT HF). lia.
Qed.

Lemma extract_protocol_record first base req i r :
  datetime_valid first = true -> client_record_wf r -> Z.of_nat i < 2 ^ 31 ->
  in_signed 64 (base + Z.of_nat i) ->
  extract_record base (timestamp_millis first) req (protocol_record first i r)
  = Ok (fetched first base req i r).
Proof.
  intros Hf (Hv & Hu & Hs) Hi Hb. unfold extract_record, protocol_record, fetched.
  cbn [offset_delta timestamp_delta key value headers].
  rewrite (wrap_signed_id 32) by (unfold in_signed; lia). rewrite arith_signed_ok by done. cbn [obind].
  destruct (base + Z.of_nat i <? req); [done|].
  rewrite timestamp_millis_law, num_milliseconds_law by done. fold (stored_millis first (record_timestamp r)).
  destruct (stored_millis_valid first (record_timestamp r) Hf Hv) as [Hr Hopt].
  unfold signed_try_from. rewrite (proj2 (in_signed_b_true _ _) Hr), Hopt. do 4 f_equal.
  rewrite map_map, (map_ext _ (fun e => e)) by by intros []. rewrite map_id. by apply btree_collect_sorted.
Qed.

Lemma extract_protocol_records first base req rs k :
  datetime_valid first = true -> Forall client_record_wf rs -> Z.of_nat k + zlen rs <= 2 ^ 31 ->
  - 2 ^ 63 <= base + Z.of_nat k -> base + Z.of_nat k + zlen rs <= 2 ^ 63 ->
  try_map (extract_record base (timestamp_millis first) req) (imap (fun i => protocol_record first (k + i)) rs)
  = Ok (imap (fun i => fetched first base req (k + i)) rs).
Proof.
  intros Hf Hrs. revert k. induction Hrs as [|r rs Hr Hrs IH]; intros k Hk Hlo Hhi; [done|].
  rewrite zlen_cons in Hk, Hhi. pose proof (zlen_nonneg rs). simpl.
  rewrite Nat.add_0_r, extract_protocol_record by (try done; unfold in_signed; lia). cbn [obind].
  rewrite (imap_ext _ (fun i => protocol_record first (S k + i)%nat))
    by (intros i x _; simpl; f_equal; lia).
  rewrite IH by lia. simpl. do 2 f_equal.
  apply imap_ext. intros i x _. simpl. f_equal. lia.
Qed.

Definition at_offset (base : Z) (b : RecordBatch) : RecordBatch :=
  mkRecordBatch base (partition_leader_epoch b) (last_offset_delta b) (first_timestamp b)
    (max_timestamp b) (producer_id b) (producer_epoch b) (base_sequence b) (records b)
    (compression b) (is_transactional b) (timestamp_type b).

Lemma protocol_record_wf first i r :
  datetime_valid first = true -> client_record_wf r -> Z.of_nat i < 2 ^ 31 ->
  wf (protocol_record first i r).
Proof.
  intros Hf (Hv & Hu & _) Hi. unfold protocol_record. split; [|split]; simpl.
  - rewrite num_milliseconds_law. destruct (stored_millis_bounds first (record_timestamp r)) as (_ & Hb & _).
    unfold stored_millis in Hb. pose proof (datetime_range _ Hf). pose proof (datetime_range _ Hv).
    unfold in_signed. lia.
  - apply wrap_signed_range. lia.
  - apply Forall_map. eapply list.Forall_impl; [exact Hu|]. by intros [].
Qed.

(** The largest timestamp of a batch is that of one of its records. *)
Lemma max_timestamp_in l : forall r0, exists r, (r = r0 \/ In r l) /\
  fold_left (fun m r => Z.max m (record_timestamp r)) l (record_timestamp r0) = record_timestamp r.
Proof.
  induction l as [|x l IHl]; intros r0; [exists r0; auto|]. simpl.
  destruct (Z.max_spec (record_timestamp r0) (record_timestamp x)) as [[_ ->]|[_ ->]].
  - destruct (IHl x) as (r & Hin & Hr). exists r. naive_solver.
  - destruct (IHl r0) as (r & Hin & Hr). exists r. naive_solver.
Qed.

(** The batch of a produce request is well formed. *)
Lemma produce_batch_ok first rs c :
  Forall client_record_wf (first :: rs) -> zlen (first :: rs) < 2 ^ 31 ->
  exists b, produce_batch (first :: rs) c = Ok b /\
    records b = RecordList (imap (protocol_record (record_timestamp first)) (first :: rs)) /\
    first_timestamp b = timestamp_millis (record_timestamp first) /\
    forall base, in_signed 64 base -> wf (at_offset base b).
Proof.
  intros Hwf Hlen. pose proof (Forall_inv Hwf) as [Hv0 _].
  assert (Hrec : Forall wf (imap (protocol_record (record_timestamp first)) (first :: rs))).
  { apply Forall_lookup. intros i x (r & Hr & ->)%list_lookup_imap_Some. apply protocol_record_wf; [done| |].
    - by eapply Forall_lookup_1.
    - apply lookup_lt_Some in Hr. unfold zlen in Hlen. lia. }
  destruct (max_timestamp_in (first :: rs) first) as (rm & Hin & Hmax).
  assert (Hvm : datetime_valid (record_timestamp rm) = true).
  { rewrite Forall_forall in Hwf. apply Hwf. simpl in *. naive_solver. }
  pose proof (datetime_range _ Hv0). pose proof (datetime_range _ Hvm).
  pose proof (zlen_nonneg rs). rewrite zlen_cons in Hlen. unfold produce_batch.
  rewrite zlen_cons, (wrap_signed_id 32), arith_signed_ok by (unfold in_signed; lia). cbn [obind].
  eexists. split; [done|]. split; [done|]. split; [done|]. intros base Hbase.
  rewrite Hmax, !timestamp_millis_law by done.
  split; [done|]. split; [unfold in_signed; simpl; lia|].
  do 6 (split; [unfold in_signed; simpl; lia|]). exact Hrec.
Qed.

(** Consuming a stored batch. *)
Lemma extract_stored first rs b base req :
  Forall client_record_wf (first :: rs) -> zlen (first :: rs) < 2 ^ 31 ->
  - 2 ^ 63 <= base -> base + zlen (first :: rs) <= 2 ^ 63 ->
  records b = RecordList (imap (protocol_record (record_timestamp first)) (first :: rs)) ->
  first_timestamp b = timestamp_millis (record_timestamp first) ->
  extract_records [at_offset base b] req
  = Ok (omap id (imap (fetched (record_timestamp first) base req) (first :: rs))).
Proof.
  intros Hwf Hlen Hlo Hhi Hrec Hts. pose proof (Forall_inv Hwf) as [Hv0 _].
  pose proof (extract_protocol_records (record_timestamp first) base req (first :: rs) 0 Hv0 Hwf) as Hx.
  assert (Hb : extract_batch req (at_offset base b)
    = Ok (omap id (imap (fetched (record_timestamp first) base req) (first :: rs)))).
  { unfold extract_batch. change (records (at_offset base b)) with (records b). rewrite Hrec.
    change (base_offset (at_offset base b)) with base.
    change (first_timestamp (at_offset base b)) with (first_timestamp b). rewrite Hts.
    setoid_rewrite Hx; [done|simpl Z.of_nat; lia..]. }
  unfold extract_records. cbn [try_map]. rewrite Hb. cbn [obind concat]. by rewrite app_nil_r.
Qed.
End round_trip.
