(* ===== verification/PartitionProps.v ===== *)
(** * Properties of the partition client

    What a producer sends comes back to a consumer, responses are checked, and
    offsets are the ones asked for (src/client/partition.rs). *)

From Stdlib Require Import ZArith Lia Sorted.
From stdpp Require Import base list numbers.
From S2P Require Import Prelude Bytes Wire VecBuilder Varint Primitives PrimitiveLaws Record.
From S2P Require Import Codec RecordBatch RefCrates ApiKey ErrorCode Versioned Header ApiVersionsMsg.
From S2P Require Import DataMessages Frame Support Messenger Aggregator Partition.
Import ClientErrors.

Local Open Scope Z_scope.
Local Open Scope rust_scope.

(** ** Lemmas *)
Lemma exactly_one_topic_ok {A} (l : list A) x : exactly_one_topic l = Ok x <-> l = [x].
Proof.
  unfold exactly_one_topic. rewrite omap_err_ok, exactly_one_spec.
  destruct l as [|y [|z l]]; naive_solver.
Qed.

Lemma exactly_one_partition_ok {A} (l : list A) x : exactly_one_partition l = Ok x <-> l = [x].
Proof.
  unfold exactly_one_partition. rewrite omap_err_ok, exactly_one_spec.
  destruct l as [|y [|z l]]; naive_solver.
Qed.

Lemma check_topic_ok a b u : check_topic a b = Ok u <-> b = a.
Proof. unfold check_topic. destruct u. case_decide; naive_solver. Qed.

Lemma check_partition_ok a b u : check_partition a b = Ok u <-> b = a.
Proof. unfold check_partition. destruct u. destruct (Z.eqb_spec b a); naive_solver. Qed.

(** Takes a successful [process_...] apart. *)
Ltac invert_process H :=
  repeat match type of H with
  | obind _ _ = Ok _ =>
      let x := fresh "x" in let Hx := fresh "Hx" in
      apply obind_ok in H as (x & Hx & H);
      first [apply exactly_one_topic_ok in Hx | apply exactly_one_partition_ok in Hx
            | apply check_topic_ok in Hx | apply check_partition_ok in Hx | idtac]
  end.

Lemma try_map_length {E X Y} (f : X -> outcome E Y) l ys : try_map f l = Ok ys -> length ys = length l.
Proof. intros Hf%try_map_ok. symmetry. by eapply Forall2_length. Qed.

Section extract.
Context `{Chrono} {prof : Profile}.

Lemma extract_record_some base first req r x :
  extract_record base first req r = Ok (Some x) -> req <= rao_offset x.
Proof.
  unfold extract_record. intros (offset & _ & Hx)%obind_ok.
  destruct (Z.ltb_spec offset req); [done|]. repeat case_match; try done. by injection Hx as <-.
Qed.

(** A record at or after the offset asked for is not skipped. *)
Lemma extract_record_kept base first req r o :
  in_signed 64 (base + offset_delta r) -> req <= base + offset_delta r ->
  extract_record base first req r = Ok o ->
  exists x, o = Some x /\ rao_offset x = base + offset_delta r /\
    record_key (rao_record x) = key r /\ record_value (rao_record x) = value r.
Proof.
  intros Hs Hreq. unfold extract_record. rewrite arith_signed_ok by done. cbn [obind].
  rewrite (proj2 (Z.ltb_ge _ _)) by done. repeat case_match; intros [= <-]. by eexists.
Qed.

Lemma extract_records_in l req out :
  extract_records l req = Ok out ->
  Forall (fun x => req <= rao_offset x) out /\
  forall b rs r, b ∈ l -> records b = RecordList rs -> r ∈ rs ->
    in_signed 64 (base_offset b + offset_delta r) -> req <= base_offset b + offset_delta r ->
    exists x, x ∈ out /\ rao_offset x = base_offset b + offset_delta r /\
      record_key (rao_record x) = key r /\ record_value (rao_record x) = value r.
Proof.
  unfold extract_records. intros (ll & Hll%try_map_ok & [= <-])%obind_ok. induction Hll as [|b0 o l ll Hb _ [IH1 IH2]].
  { split; [constructor|]. by intros b rs r []%not_elem_of_nil. }
  simpl concat. unfold extract_batch in Hb. split.
  - apply Forall_app. split; [|done]. destruct (records b0) as [c|rs]; [by injection Hb as <-|].
    apply obind_ok in Hb as (os & Hos%try_map_ok & [= <-]). apply Forall_forall. intros x Hx%list_elem_of_In.
    apply list_elem_of_omap in Hx as (y & Hy & Hyx). unfold id in Hyx. subst y.
    apply list_elem_of_lookup in Hy as [i Hi]. destruct (Forall2_lookup_r _ _ _ _ _ Hos Hi) as (r & _ & Hr).
    by eapply extract_record_some.
  - intros b rs r [->|Hin]%elem_of_cons Hrs Hr Hs Hreq.
    + rewrite Hrs in Hb. apply obind_ok in Hb as (os & Hos%try_map_ok & [= <-]).
      apply list_elem_of_lookup in Hr as [i Hi]. destruct (Forall2_lookup_l _ _ _ _ _ Hos Hi) as (y & Hy & Hx).
      destruct (extract_record_kept _ _ _ _ _ Hs Hreq Hx) as (x & -> & Ho & Hk & Hv).
      exists x. split; [|done]. apply elem_of_app. left. apply list_elem_of_omap. exists (Some x).
      split; [|done]. by eapply list_elem_of_lookup_2.
    + destruct (IH2 _ _ _ Hin Hrs Hr Hs Hreq) as (x & Hx & ?). exists x. split; [|done].
      apply elem_of_app. by right.
Qed.
End extract.

(** The style of the offsets in a response that was read. *)
Definition offset_style (p : ListOffsetsResponsePartition) : Prop :=
  (exists o, old_style_offsets p = Some o) <-> los_offset p = None.

Lemma read_when_some {E A} b (r : reader E A) s o s' :
  read_when b r s = Ok (o, s') -> (b = true <-> exists x, o = Some x).
Proof. unfold read_when. destruct b; intros H; invert_read; naive_solver. Qed.

Lemma read_vec_forall {T} `{ReadVersionedType T} (P : T -> Prop) version s l s' :
  (forall s x s', read_versioned (A:=T) version s = Ok (x, s') -> P x) ->
  read_vec version s = Ok (l, s') -> Forall P l.
Proof.
  intros Hp. unfold read_vec. intros (o & s1 & Ho & [= <- <-])%rbind_ok.
  unfold read_versioned_array in Ho. apply rbind_ok in Ho as (len & s2 & _ & Ho).
  destruct (int32 len =? -1); [injection Ho as <- <-; constructor|].
  destruct (int32 len <? -1); [done|].
  apply rbind_ok in Ho as (n & s3 & _ & (res & s4 & Hres & [= <- <-])%rbind_ok).
  by eapply read_many_forall.
Qed.

Lemma ListOffsets_style version s resp s' :
  read_versioned (A:=ListOffsetsResponse) version s = Ok (resp, s') ->
  Forall (fun t => Forall offset_style (los_partitions t)) (los_topics resp).
Proof.
  unfold read_versioned, ListOffsetsResponse_ReadVersioned, ListOffsetsResponse_read_versioned.
  intros (u & s1 & _ & (th & s2 & _ & (ts & s3 & Hts & [= <- <-])%rbind_ok)%rbind_ok)%rbind_ok. simpl.
  revert Hts. apply read_vec_forall. clear. intros s t s'.
  unfold read_versioned, ListOffsetsResponseTopic_ReadVersioned, ListOffsetsResponseTopic_read_versioned.
  intros (u & s1 & _ & (n & s2 & _ & (ps & s3 & Hps & [= <- <-])%rbind_ok)%rbind_ok)%rbind_ok. simpl.
  revert Hps. apply read_vec_forall. clear. intros s p s'.
  unfold read_versioned, ListOffsetsResponsePartition_ReadVersioned, ListOffsetsResponsePartition_read_versioned.
  intros (u & s1 & _ & (i & s2 & _ & (e & s3 & _ & (o & s4 & Ho & (ts & s5 & _ & (off & s6 & Hoff
    & [= <- <-])%rbind_ok)%rbind_ok)%rbind_ok)%rbind_ok)%rbind_ok)%rbind_ok.
  unfold offset_style. simpl. apply read_when_some in Ho, Hoff. rewrite <-Ho.
  destruct (Z.ltb_spec (vnum version) 1), (Z.leb_spec 1 (vnum version)); try lia; destruct off; naive_solver.
Qed.

(** How far the stored time of a record is from its own one. *)
Lemma stored_time_distance f t :
  let stored := stored_millis f t * nanos_per_milli in
  t - 2 * nanos_per_milli < stored < t + nanos_per_milli /\ (f <= t -> stored <= t) /\
  (f mod nanos_per_milli = 0 -> f <= t -> stored = t / nanos_per_milli * nanos_per_milli).
Proof.
  cbv zeta. unfold stored_millis. rewrite quot_sub_floor. unfold nanos_per_milli.
  destruct (Z.leb_spec f t); Z.to_euclidean_division_equations; lia.
Qed.

(** ** Properties *)

(** C11: what a producer sends, a consumer gets.  For records as Rust's types
    make them: the batch that [build_produce_request] makes of them can be
    stored by the broker at any offset; the bytes of the stored batch are read
    back by [Records::read], and [extract_records] gives for the offsets from
    the one asked for the records with their key, value and headers, at
    consecutive offsets.  The time of a record becomes a whole millisecond that
    is less than two milliseconds before and less than one after it; it is not
    after it for a record that is not older than the first of the batch, and if
    the first one lies on a millisecond it is that of the record, rounded
    down. *)
Theorem produce_fetch_round_trip `{VarIntCrateOk, CodecsOk, ChronoOk} {prof : Profile}
    first rs compression base request_offset :
  Forall client_record_wf (first :: rs) -> zlen (first :: rs) < 2 ^ 31 ->
  - 2 ^ 63 <= base -> base + zlen (first :: rs) <= 2 ^ 63 ->
  exists b, produce_batch (first :: rs) compression = Ok b /\
    (forall bs s, write (mkRecords [at_offset base b]) = Ok bs ->
       exists stored, read (bs +> s) = Ok (stored, s) /\
         extract_records (records_0 stored) request_offset
         = Ok (omap id (imap (fetched (record_timestamp first) base request_offset) (first :: rs)))) /\
    Forall (fun r =>
      let t := record_timestamp r in
      let stored := stored_millis (record_timestamp first) t * nanos_per_milli in
      t - 2 * nanos_per_milli < stored < t + nanos_per_milli /\ (record_timestamp first <= t -> stored <= t) /\
      (record_timestamp first mod nanos_per_milli = 0 -> record_timestamp first <= t ->
       stored = t / nanos_per_milli * nanos_per_milli)) (first :: rs).
Proof.
  intros Hwf Hlen Hlo Hhi. destruct (produce_batch_ok first rs compression Hwf Hlen) as (b & Hb & Hr & Hts & Hwfb).
  exists b. split; [done|]. split.
  - intros bs s Hw. exists (mkRecords [at_offset base b]). split.
    + apply read_write; [|done]. constructor; [|constructor]. apply Hwfb.
      pose proof (zlen_nonneg rs). rewrite zlen_cons in Hhi. unfold in_signed. lia.
    + by apply extract_stored.
  - apply Forall_true. intros r. apply stored_time_distance.
Qed.

#[local] Existing Instance debug_profile.

Definition sample_client_record (n : Z) : ClientRecord :=
  mkClientRecord None (Some [byte_of_Z n]) [([byte_of_Z 107], [byte_of_Z n])] (n * nanos_per_milli).

Lemma sample_client_record_wf n : 0 <= n < 100 -> client_record_wf (sample_client_record n).
Proof.
  intros Hn. split; [|split].
  - unfold datetime_valid, ref_chrono, nanos_per_milli. cbn [record_timestamp sample_client_record].
    unfold nanos_per_milli. rewrite andb_true_iff, Z.leb_le, Z.ltb_lt. lia.
  - repeat constructor.
  - repeat constructor.
Qed.

Lemma produce_fetch_round_trip_witness :
  exists b, produce_batch [sample_client_record 1; sample_client_record 2] Compression_Lz4 = Ok b /\
    exists bs stored, write (mkRecords [at_offset 7 b]) = Ok bs /\ read (bs +> cursor []) = Ok (stored, cursor []) /\
      extract_records (records_0 stored) 8 = Ok [mkRecordAndOffset (sample_client_record 2) 8].
Proof.
  destruct (produce_fetch_round_trip (sample_client_record 1) [sample_client_record 2] Compression_Lz4 7 8)
    as (b & Hb & Hr & _).
  { repeat constructor; apply sample_client_record_wf; lia. }
  { reflexivity. }
  { vm_compute; congruence. }
  { vm_compute; congruence. }
  exists b. split; [exact Hb|]. vm_compute in Hb. injection Hb as <-.
  eexists. destruct (Hr _ (cursor []) eq_refl) as (stored & H1 & H2).
  exists stored. split; [reflexivity|]. split; [exact H1|exact H2].
Defined.

(** The offsets of a successful produce call.  There is one per record, so
    that the producer can hand each caller its own, and they are the base
    offset of the response and the ones after it. *)
Theorem produced_offsets_consecutive {prof : Profile} partition topic num_records response offsets :
  process_produce_response partition topic num_records response = Ok offsets -> 0 <= num_records ->
  zlen offsets = num_records /\
  exists t p, produce_responses response = [t] /\ string_ (prr_name t) = topic /\
    partition_responses t = [p] /\ int32 (prr_index p) = partition /\ prr_error p = None /\
    (in_signed 64 (int64 (prr_base_offset p)) -> int64 (prr_base_offset p) + num_records <= 2 ^ 63 ->
     offsets = seqZ (int64 (prr_base_offset p)) num_records).
Proof.
  unfold process_produce_response. intros Hp Hn. invert_process Hp.
  destruct (prr_error x1) eqn:He; [done|]. split.
  - apply try_map_length in Hp. unfold zlen. rewrite Hp, length_seqZ. lia.
  - exists x, x1. repeat (split; [done|]). intros Hs Hfit.
    apply try_map_ok in Hp. apply list_eq. intros i.
    destruct (decide (Z.of_nat i < num_records)) as [Hi|Hi].
    + rewrite lookup_seqZ_lt by done.
      destruct (Forall2_lookup_l _ _ _ i _ Hp (lookup_seqZ_lt 0 num_records i Hi)) as (y & -> & Hy).
      unfold in_signed in Hs. rewrite arith_signed_ok in Hy by (unfold in_signed; lia). injection Hy as <-.
      f_equal. lia.
    + rewrite lookup_seqZ_ge by lia. apply lookup_ge_None_2. apply Forall2_length in Hp.
      rewrite length_seqZ in Hp. lia.
Qed.

Definition sample_produce_response : ProduceResponse :=
  mkProduceResponse
    [mkProduceResponseResponse (mkString_ [byte_of_Z 116])
       [mkProduceResponsePartitionResponse (mkInt32 3) None (mkInt64 41) None None]] None.

Lemma produced_offsets_consecutive_witness : zlen [41; 42] = 2.
Proof.
  apply (produced_offsets_consecutive 3 [byte_of_Z 116] 2 sample_produce_response [41; 42]);
    [reflexivity|lia].
Defined.

(** C32: a fetch returns what was asked for and loses nothing: every record of
    the result is at or after the offset asked for, and every record of a data
    batch of the response at or after it is in the result, with its offset, key
    and value. *)
Theorem fetched_records_complete `{Chrono} {prof : Profile} batches request_offset out :
  extract_records batches request_offset = Ok out ->
  Forall (fun x => request_offset <= rao_offset x) out /\
  forall b rs r, b ∈ batches -> records b = RecordList rs -> r ∈ rs ->
    in_signed 64 (base_offset b + offset_delta r) -> request_offset <= base_offset b + offset_delta r ->
    exists x, x ∈ out /\ rao_offset x = base_offset b + offset_delta r /\
      record_key (rao_record x) = key r /\ record_value (rao_record x) = value r.
Proof. apply extract_records_in. Qed.

Definition sample_fetched_batch (base : Z) : RecordBatch :=
  mkRecordBatch base 0 0 0 0 (-1) (-1) (-1) (RecordList [mkRecord 0 1 None None []]) NoCompression false CreateTime.

Lemma fetched_records_complete_witness : Forall (fun x => 3 <= rao_offset x) [mkRecordAndOffset (mkClientRecord None None [] 0) 6].
Proof. apply (fetched_records_complete [sample_fetched_batch 5] 3). reflexivity. Defined.

(** A batch whose base offset is at the end of the [i64] range makes
    [extract_records] panic in a build with overflow checks, because the offset
    of a record is added without a check, unlike its timestamp; without the
    checks the record gets a negative offset and is skipped. *)
Theorem extract_offset_overflow `{Chrono} base delta request_offset rest :
  2 ^ 63 <= base + delta -> in_signed 64 base -> in_signed 32 delta -> 0 <= request_offset ->
  let batch := mkRecordBatch base 0 0 0 0 (-1) (-1) (-1) (RecordList [mkRecord 0 delta None None []])
                 NoCompression false CreateTime in
  wf batch /\
  extract_records (prof:=debug_profile) (batch :: rest) request_offset = Panic ArithOverflow /\
  extract_records (prof:=release_profile) [batch] request_offset = Ok [].
Proof.
  intros Hov Hb Hd Hreq batch. pose proof Hb as Hb0. pose proof Hd as Hd0. unfold in_signed in Hb0, Hd0.
  assert (Hrange : in_signed_b 64 (base + delta) = false).
  { apply not_true_is_false. rewrite in_signed_b_true. unfold in_signed. lia. }
  split; [|split].
  - split; [done|]. split; [done|]. do 6 (split; [done|]). constructor; [|constructor].
    split; [done|]. split; [done|constructor].
  - unfold extract_records, extract_batch, extract_record, arith_signed. simpl try_map.
    rewrite Hrange. done.
  - unfold extract_records, extract_batch, extract_record, arith_signed. simpl try_map.
    rewrite Hrange. unfold overflow_checks, release_profile. cbn [obind].
    rewrite (proj2 (Z.ltb_lt _ _)); [done|]. unfold wrap_signed.
    rewrite <-(Z.mod_add _ (-1)) by lia. rewrite Z.mod_small; lia.
Qed.

Lemma extract_offset_overflow_witness :
  extract_records (prof:=debug_profile) [sample_fetched_batch (2 ^ 63 - 1)] 0 = Panic ArithOverflow.
Proof.
  apply (extract_offset_overflow (2 ^ 63 - 1) 1 0 []); unfold in_signed; lia.
Defined.

(** A response is only used if it answers the request: when processing a
    produce, fetch, offset or deletion response succeeds, it has exactly one
    topic, which is the one asked for, in it exactly one partition, which is the
    one asked for, and that partition has no error. *)
Theorem responses_are_checked {prof : Profile} partition topic :
  (forall n r offsets, process_produce_response partition topic n r = Ok offsets ->
     exists t p, produce_responses r = [t] /\ string_ (prr_name t) = topic /\
       partition_responses t = [p] /\ int32 (prr_index p) = partition /\ prr_error p = None) /\
  (forall r offset p, process_fetch_response partition topic r offset = Ok p ->
     exists t, fetch_responses r = [t] /\ string_ (frs_topic t) = topic /\
       frs_partitions t = [p] /\ int32 (frs_partition_index p) = partition /\ frs_error_code p = None) /\
  (forall r p, process_list_offsets_response partition topic r = Ok p ->
     exists t, los_topics r = [t] /\ string_ (los_name t) = topic /\
       los_partitions t = [p] /\ int32 (los_partition_index p) = partition /\ los_error_code p = None) /\
  (forall r p, process_delete_records_response topic partition r = Ok p ->
     exists t, ds_topics r = [t] /\ string_ (dst_name t) = topic /\
       dst_partitions t = [p] /\ int32 (dsp_partition_index p) = partition /\ dsp_error p = None).
Proof.
  split; [|split; [|split]].
  - intros n r offsets Hp. unfold process_produce_response in Hp. invert_process Hp.
    destruct (prr_error _) eqn:He; [done|]. eauto 10.
  - intros r offset p Hp. unfold process_fetch_response in Hp. invert_process Hp.
    destruct (frs_error_code _) eqn:He; [done|]. injection Hp as <-. eauto 10.
  - intros r p Hp. unfold process_list_offsets_response in Hp. invert_process Hp.
    destruct (los_error_code _) eqn:He; [done|]. injection Hp as <-. eauto 10.
  - intros r p Hp. unfold process_delete_records_response in Hp. invert_process Hp.
    destruct (dsp_error _) eqn:He; [done|]. injection Hp as <-. eauto 10.
Qed.

(** The [unreachable!] of [extract_offset] is: a response that was read, at
    whatever version, has its offset in exactly one of the two styles, so that
    extracting the offset returns it or an error. *)
Theorem extract_offset_reachable version s resp s' partition topic p :
  read_versioned (A:=ListOffsetsResponse) version s = Ok (resp, s') ->
  process_list_offsets_response partition topic resp = Ok p ->
  forall q, extract_offset p <> Panic q.
Proof.
  intros Hr Hp q. apply ListOffsets_style in Hr. unfold process_list_offsets_response in Hp. invert_process Hp.
  rewrite Hx in Hr. apply Forall_inv in Hr. rewrite Hx1 in Hr. apply Forall_inv in Hr.
  destruct (los_error_code _); [done|]. injection Hp as <-.
  unfold offset_style in Hr. unfold extract_offset.
  destruct (old_style_offsets x1) as [[[[|o [|o' l]]|]]|], (los_offset x1); try done; naive_solver.
Qed.

Definition sample_list_offsets : list byte :=
  map byte_of_Z [0; 0; 0; 1; 0; 1; 116; 0; 0; 0; 1; 0; 0; 0; 3; 0; 0; 0; 0; 0; 0; 0; 0; 0; 0; 0; 0; 0; 0; 0; 0; 0; 9].

Lemma extract_offset_reachable_witness :
  extract_offset (mkListOffsetsResponsePartition (mkInt32 3) None None (Some (mkInt64 0)) (Some (mkInt64 9)))
  <> Panic Unreachable.
Proof.
  apply (extract_offset_reachable (V 1) (cursor sample_list_offsets)
    (mkListOffsetsResponse None [mkListOffsetsResponseTopic (mkString_ [byte_of_Z 116])
       [mkListOffsetsResponsePartition (mkInt32 3) None None (Some (mkInt64 0)) (Some (mkInt64 9))]])
    (cursor []) 3 [byte_of_Z 116]); reflexivity.
Defined.

(** A record can be stored a millisecond too early.  The first
    timestamp of a batch and the distance of a record from it are rounded
    separately: when the fractions of a millisecond add up to one or more, the
    record is stored one millisecond early, and the batch announces a maximal
    timestamp that none of its records has. *)
Theorem stored_timestamp_one_early `{ChronoOk} {prof : Profile} r1 r2 compression :
  datetime_valid (record_timestamp r1) = true -> datetime_valid (record_timestamp r2) = true ->
  record_timestamp r1 <= record_timestamp r2 ->
  nanos_per_milli <= record_timestamp r1 mod nanos_per_milli
                     + (record_timestamp r2 - record_timestamp r1) mod nanos_per_milli ->
  exists b x1 x2, produce_batch [r1; r2] compression = Ok b /\ records b = RecordList [x1; x2] /\
    first_timestamp b + timestamp_delta x2 = timestamp_millis (record_timestamp r2) - 1 /\
    max_timestamp b = timestamp_millis (record_timestamp r2) /\
    first_timestamp b + timestamp_delta x1 < max_timestamp b.
Proof.
  intros Hv1 Hv2 Hle Hfrac. unfold produce_batch. rewrite zlen_cons, zlen_cons, zlen_nil.
  rewrite (wrap_signed_id 32), arith_signed_ok by (unfold in_signed; lia). cbn [obind].
  eexists _, _, _. split; [done|]. split; [done|]. simpl. rewrite Z.max_id, Z.max_r by done.
  rewrite !timestamp_millis_law, !num_milliseconds_law, Z.sub_diag, quot_sub_floor by done.
  rewrite (proj2 (Z.leb_le _ _)) by done. unfold nanos_per_milli in *.
  repeat match goal with |- _ /\ _ => split end; Z.to_euclidean_division_equations; lia.
Qed.

Lemma stored_timestamp_one_early_witness :
  exists b x1 x2,
    produce_batch [mkClientRecord None None [] 900000; mkClientRecord None None [] 1100000]
      Compression_NoCompression = Ok b /\ records b = RecordList [x1; x2] /\
    first_timestamp b + timestamp_delta x2 = 0 /\ max_timestamp b = 1 /\
    first_timestamp b + timestamp_delta x1 < max_timestamp b.
Proof.
  destruct (stored_timestamp_one_early (mkClientRecord None None [] 900000)
    (mkClientRecord None None [] 1100000) Compression_NoCompression) as (b & x1 & x2 & Hb);
    [reflexivity|reflexivity|vm_compute; congruence|vm_compute; congruence|].
  exists b, x1, x2. exact Hb.
Defined.
