(* ===== verification/Retry.v ===== *)
(** * Requests to a cached broker, with retries

    The controller client and the partition client send their requests in the
    same way: they take the connection from their cache, send the request,
    wait if the broker throttles, and check the response ([broker_attempt]).
    The two functions [maybe_retry] (src/client/controller.rs and
    src/client/partition.rs) differ only in what they decide about an error;
    the rest is written once here, for every implementation of the trait. *)

From Stdlib Require Import ZArith Lia.
From stdpp Require Import base list numbers gmap.
From S2P Require Import Prelude Bytes Wire VecBuilder Varint Primitives PrimitiveLaws ApiKey.
From S2P Require Import ErrorCode Versioned Support MetadataCache Messenger Io Backoff Deadline.
From S2P Require Import Topology Transport Session BrokerCache Connection Aggregator Partition.
Import ClientErrors.

Local Open Scope Z_scope.
Local Open Scope rust_scope.

(** What an attempt fails with: the error and the generation of the connection
    it used, if it got one. *)
Abbreviation attempt_error := (ErrorOrThrottle (Error * option Z)).

(** The decisions of [maybe_retry] in controller.rs. *)
Definition controller_decision (error : Error) : bool * bool :=
  match error with
  | Request (Poisoned _ | ReqIO _) | Connection _ => (true, true)
  | ServerError Errors.NotController _ _ _ _ => (true, true)
  | _ => (false, false)
  end.

Section retry.
Context {N : Type} `{!Network N}.
Variable fuel : nat.
Local Abbreviation World := (World (N:=N)).

Section cache.
Context {R E : Type} `{!BrokerCache World R E}.

(** The closure of [maybe_retry]. *)
Definition retry_closure {T} (decision : Error -> bool * bool) (f : io World attempt_error T) :
    io World (BackoffError Error) (ControlFlow (Error + T) (ErrorOrThrottle Error)) :=
  do! r <- io_try f in
  match r with
  | inr v => io_ret (Break (inr v))
  | inl (Throttle throttle) => io_ret (Continue (Throttle throttle))
  | inl (EtError (error, cache_gen)) =>
      let '(retry, invalidate) := decision error in
      do! _ <- match cache_gen with
               | Some cache_gen => if invalidate then io_put (bc_invalidate cache_gen) else io_ret tt
               | None => io_ret tt
               end in
      if retry then io_ret (Continue (EtError error)) else io_ret (Break (inl error))
  end.

(** [maybe_retry]. *)
Definition maybe_retry {T} (decision : Error -> bool * bool) (backoff_config : BackoffConfig)
    (f : io World attempt_error T) : io World Error T :=
  io_flatten (io_map_err RetryFailed
    (retry_with_backoff fuel (retry_closure decision f) (Backoff_new (R:=Empty_set) backoff_config))).
End cache.

(** The closure that the operations pass to [maybe_retry]. *)
Definition broker_attempt {Req Resp T}
    `{RequestBody Req Resp, WriteVersionedType Req, ReadVersionedType Resp}
    (get : io World Error (MessengerTransport * Z)) (req : Req)
    (throttle_time_ms : Resp -> option Int32) (process : Resp -> outcome Error T) :
    io World attempt_error T :=
  do! (broker, gen) <- io_map_err (fun e => EtError (e, None)) get in
  do! response <- io_map_err (fun e => EtError (Request e, Some gen)) (request broker req) in
  do! _ <- io_lift (maybe_throttle (throttle_time_ms response)) in
  io_map_err (fun e => EtError (e, Some gen)) (io_lift (process response)).
End retry.

(** ** Lemmas *)
Section lemmas.
Context {N : Type} `{!Network N}.
Variable fuel : nat.
Local Abbreviation World := (World (N:=N)).
Implicit Types w : World.

Section cache.
Context {R E : Type} `{!BrokerCache World R E}.

Lemma retry_closure_keeps {T} P decision (f : io World attempt_error T) :
  keeps P f -> (forall g w, P w -> P (bc_invalidate g w)) -> keeps P (retry_closure decision f).
Proof.
  intros Hf Hinv. apply keeps_bind; [by apply keeps_try|].
  intros [[[e g]|t]|v]; [|apply keeps_lift..].
  destruct (decision e) as [retry inv]. apply keeps_bind; [|intros; case_match; apply keeps_lift].
  destruct g; [|apply keeps_lift]. destruct inv; [|apply keeps_lift]. apply keeps_put. eauto.
Qed.

(** What the world's generator and sleeping leave alone. *)
Definition net_independent (P : World -> Prop) : Prop := forall w n, P w -> P (set_net n w).

Lemma maybe_retry_keeps {T} P decision config (f : io World attempt_error T) :
  net_independent P -> keeps P f -> (forall g w, P w -> P (bc_invalidate g w)) ->
  keeps P (maybe_retry fuel decision config f).
Proof.
  intros Hn Hf Hinv. apply keeps_flatten, keeps_map_err, keeps_retry; [by apply retry_closure_keeps| |].
  - intros lo hi w x w' Hw. unfold gen_range; simpl.
    destruct (gen_range lo hi (w_net w)) as [[y n]|]; [|done]. intros [= <- <-]. by apply Hn.
  - intros d w Hw. by apply Hn.
Qed.

Lemma retry_closure_split {T} decision (f : io World attempt_error T) w r w' :
  retry_closure decision f w = Some (r, w') ->
  match r with
  | Ok (Break (inr v)) => f w = Some (Ok v, w')
  | Ok (Break (inl e)) => fst (decision e) = false /\
      exists g w1, f w = Some (Err (EtError (e, g)), w1)
  | Ok (Continue (EtError e)) => fst (decision e) = true /\
      exists g w1, f w = Some (Err (EtError (e, g)), w1) /\
        w' = match g with
             | Some g => if snd (decision e) then bc_invalidate g w1 else w1
             | None => w1
             end
  | Ok (Continue (Throttle t)) => f w = Some (Err (Throttle t), w')
  | Err _ => False
  | Panic p => f w = Some (Panic p, w')
  end.
Proof.
  unfold retry_closure. unfold io_bind at 1, io_try.
  destruct (f w) as [[[v|[[e g]|t]|p] w1]|] eqn:Hf; [..|done]; try (by intros [= <- <-]).
  destruct (decision e) as [retry inv] eqn:Hd. unfold io_bind, io_lift, io_put.
  destruct g as [g|]; [destruct inv|]; destruct retry; intros [= <- <-]; rewrite Hd; eauto 10.
Qed.
End cache.

(** What a computation can fail with. *)
Definition fails_with {E A} (P : E -> Prop) (m : io World E A) : Prop :=
  forall w e w', m w = Some (Err e, w') -> P e.

Lemma fails_lift {E A} (P : E -> Prop) (r : outcome E A) :
  (forall e, r = Err e -> P e) -> fails_with P (io_lift r).
Proof. intros Hr w e w' [= -> ->]. eauto. Qed.

Lemma fails_bind {E A B} (P : E -> Prop) (m : io World E A) (k : A -> io World E B) :
  fails_with P m -> (forall a, fails_with P (k a)) -> fails_with P (io_bind m k).
Proof.
  intros Hm Hk w e w'. unfold io_bind. destruct (m w) as [[[a|e0|p] w1]|] eqn:Hw; try done.
  - apply Hk.
  - intros [= -> ->]. by eapply Hm.
Qed.

Lemma fails_map_err {E F A} (P : F -> Prop) (f : E -> F) (m : io World E A) :
  (forall e, P (f e)) -> fails_with P (io_map_err f m).
Proof. intros Hf w e w'. unfold io_map_err. destruct (m w) as [[[a|e0|p] w1]|]; intros [= <- <-]; eauto. Qed.

(** The error of a single attempt: [maybe_retry] alone says that retries failed. *)
Definition attempted (e : Error) : Prop := forall x, e <> RetryFailed x.

(** The parts of an attempt. *)
Lemma broker_attempt_split {Req Resp T}
    `{RequestBody Req Resp, WriteVersionedType Req, ReadVersionedType Resp}
    (get : io World Error (MessengerTransport * Z)) (req : Req)
    (throttle_time_ms : Resp -> option Int32) (process : Resp -> outcome Error T) w r w' :
  broker_attempt get req throttle_time_ms process w = Some (r, w') ->
  (exists e, get w = Some (Err e, w') /\ r = Err (EtError (e, None))) \/
  (exists p, get w = Some (Panic p, w') /\ r = Panic p) \/
  (exists b g w1, get w = Some (Ok (b, g), w1) /\
     ((exists e, request (Resp:=Resp) b req w1 = Some (Err e, w') /\
         r = Err (EtError (Request e, Some g))) \/
      (exists p, request (Resp:=Resp) b req w1 = Some (Panic p, w') /\ r = Panic p) \/
      (exists resp, request (Resp:=Resp) b req w1 = Some (Ok resp, w') /\
         ((exists t, maybe_throttle (E:=Error * option Z) (throttle_time_ms resp) = Err (Throttle t) /\
             r = Err (Throttle t)) \/
          (maybe_throttle (E:=Error * option Z) (throttle_time_ms resp) = Ok tt /\
             r = omap_err (fun e => EtError (e, Some g)) (process resp)))))).
Proof.
  unfold broker_attempt. unfold io_bind at 1, io_map_err at 1.
  destruct (get w) as [[[[b g]|e|p] w1]|]; simpl; [|by intros [= <- <-]; eauto..|done].
  unfold io_bind at 1, io_map_err at 1. intros Hrun. right. right. exists b, g, w1. split; [done|]. revert Hrun.
  destruct (request b req w1) as [[[resp|e|p] w2]|]; simpl; [|by intros [= <- <-]; eauto..|done].
  unfold io_bind, io_lift. destruct (maybe_throttle (throttle_time_ms resp)) as [[]|[e|t]|p] eqn:Ht.
  - unfold io_map_err. intros [= <- <-]. eauto 10.
  - by apply maybe_throttle_not_error in Ht.
  - intros [= <- <-]. eauto 10.
  - by apply maybe_throttle_no_panic in Ht.
Qed.

Lemma broker_attempt_attempted {Req Resp T}
    `{RequestBody Req Resp, WriteVersionedType Req, ReadVersionedType Resp}
    (get : io World Error (MessengerTransport * Z)) (req : Req)
    (throttle_time_ms : Resp -> option Int32) (process : Resp -> outcome Error T) w e g w' :
  fails_with attempted get -> (forall resp e, process resp = Err e -> attempted e) ->
  broker_attempt get req throttle_time_ms process w = Some (Err (EtError (e, g)), w') -> attempted e.
Proof.
  intros Hget Hp [(e0 & Hg & [= -> ->])|[(p & _ & [=])|(b & g0 & w1 & _ & Hf)]]%broker_attempt_split;
    [by eapply Hget|].
  destruct Hf as [(e1 & _ & [= -> ->])|[(p & _ & [=])|(resp & _ & [(t & _ & [=])|(_ & Hr)])]]; [done|].
  destruct (process resp) eqn:Hpr; simpl in Hr; try done. injection Hr as -> ->. by eapply Hp.
Qed.

Lemma broker_attempt_ok {Req Resp T}
    `{RequestBody Req Resp, WriteVersionedType Req, ReadVersionedType Resp}
    (get : io World Error (MessengerTransport * Z)) (req : Req)
    (throttle_time_ms : Resp -> option Int32) (process : Resp -> outcome Error T) w v w' :
  broker_attempt get req throttle_time_ms process w = Some (Ok v, w') ->
  exists b g w1 resp, get w = Some (Ok (b, g), w1) /\ request (Resp:=Resp) b req w1 = Some (Ok resp, w') /\
    maybe_throttle (E:=Error * option Z) (throttle_time_ms resp) = Ok tt /\ process resp = Ok v.
Proof.
  intros [(e & _ & [=])|[(p & _ & [=])|(b & g & w1 & Hget & Hreq)]]%broker_attempt_split.
  destruct Hreq as [(e & _ & [=])|[(p & _ & [=])|(resp & Hreq & [(t & _ & [=])|(Ht & Hv)])]].
  symmetry in Hv. apply omap_err_ok in Hv. by exists b, g, w1, resp.
Qed.
End lemmas.

(** ** Properties *)
Section properties.
Context {N : Type} `{!Network N}.
Variable fuel : nat.
Local Abbreviation World := (World (N:=N)).
Implicit Types w : World.

(** What [maybe_retry] returns.  A value is the result of an attempt.  An
    error is one that the decision does not retry, as the last attempt gave
    it; or, only with a configured deadline, the failure of the retries with
    the last error, which would have been retried. *)
Lemma maybe_retry_split {R E} `{!BrokerCache World R E} {T} decision config
    (f : io World attempt_error T) w r w' :
  maybe_retry fuel decision config f w = Some (r, w') ->
  match r with
  | Ok v => exists w1, f w1 = Some (Ok v, w')
  | Err e =>
      (fst (decision e) = false /\ exists g w1 w2, f w1 = Some (Err (EtError (e, g)), w2)) \/
      (config_deadline config <> None /\
       exists d e0 g w1 w2, e = RetryFailed (DeadlineExceded d e0) /\ fst (decision e0) = true /\
         f w1 = Some (Err (EtError (e0, g)), w2))
  | Panic _ => True
  end.
Proof.
  unfold maybe_retry, io_flatten, io_map_err. unfold io_bind at 1.
  destruct (retry_with_backoff _ _ _ w) as [[o w1]|] eqn:Hr; [|done].
  intros Hres. apply retry_split in Hr as (l & self1 & w2 & Hfs%failures_deadline & Hf).
  destruct Hf as [b w3 Hdo|e w3 Hdo|p w3 Hdo|e w3 self2 w4 d dur Hdo Hnext Hd Hs|? ? p ? ? ?|? ? ? ? ? p ? ? ? ?];
    simpl in Hres; try (by injection Hres as <- _);
    apply retry_closure_split in Hdo.
  - destruct b as [e|v]; injection Hres as <- <-; [|by eauto]. left.
    destruct Hdo as (Hdec & g & w4 & Hf). split; [done|]. eauto.
  - done.
  - injection Hres as <- <-. right. split.
    + apply next_deadline in Hnext. rewrite Hnext, Hfs in Hd. simpl in Hd. by destruct (config_deadline config).
    + destruct Hdo as (Hdec & g & w5 & Hf & _). by eauto 10.
Qed.

Lemma retry_closure_defined {R E} `{!BrokerCache World R E} {T} decision (f : io World attempt_error T) w x :
  f w = Some x -> exists y, retry_closure decision f w = Some y.
Proof.
  intros Hf. unfold retry_closure. unfold io_bind at 1, io_try. rewrite Hf.
  destruct x as [[v|[[e g]|t]|p] w1]; [by eexists| |by eexists..].
  destruct (decision e) as [[] []], g; unfold io_bind, io_put, io_lift; by eexists.
Qed.

(** With a deadline [maybe_retry] returns, if its attempts do and the broker
    throttles at most [k] times: the errors that are retried are bounded. *)
Lemma maybe_retry_ends {R E} `{!BrokerCache World R E} `{!NetworkOk N} {T} decision config
    (f : io World attempt_error T) lo hi dur d k w :
  config_ok (E:=Error) config lo hi dur d ->
  (forall w, exists x, f w = Some x) ->
  (forall l self1 w1, failures (retry_closure decision f) (Backoff_new (R:=Empty_set) config) w l self1 w1 ->
     (throttles l <= k)%nat) ->
  exists x, maybe_retry (S (Z.to_nat (retry_bound (as_secs_f64 (config_init_backoff config)) d) + k))
              decision config f w = Some x.
Proof.
  intros Hok Hf Hk. pose proof Hok as (_ & _ & Hvd & _ & _ & _ & _ & _ & Hdur & Hb).
  destruct (retry_ends (retry_closure decision f) lo hi d dur Hvd Hdur k (Backoff_new (R:=Empty_set) config) w)
    as (l & self1 & w1 & r & w' & _ & _ & _ & Hr); [by apply new_counting with (dur:=dur)|done| |done|].
  { intros w0. destruct (Hf w0) as [x Hx]. by eapply retry_closure_defined. }
  change (as_secs_f64 (config_init_backoff config)) with (init_backoff (Backoff_new (R:=Empty_set) config)).
  unfold maybe_retry, io_flatten, io_map_err. unfold io_bind at 1. rewrite Hr.
  destruct r as [[e|v]|e|p]; by eexists.
Qed.

Section fresh.
Context `{!BrokerCache World MessengerTransport Error}
  `{!BrokerCacheOk World MessengerTransport Error}.
Hypothesis cell_of_client : forall w w', same_client w w' -> bc_cell w' = bc_cell w.

(** An attempt that fails had the connection of its generation, or none. *)
Lemma attempt_error_cell {Req Resp T}
    `{RequestBody Req Resp, WriteVersionedType Req, ReadVersionedType Resp}
    (req : Req) (throttle_time_ms : Resp -> option Int32) (process : Resp -> outcome Error T) w e g w1 :
  broker_attempt bc_get req throttle_time_ms process w = Some (Err (EtError (e, g)), w1) ->
  match g with
  | Some g => exists b, bc_cell w1 = (Some b, g)
  | None => fst (bc_cell w1) = None
  end.
Proof using cell_of_client.
  intros [(e0 & Hget & [= -> ->])|[(p & _ & [=])|(b & g0 & w2 & Hget & Hf)]]%broker_attempt_split.
  - by rewrite (bc_get_err _ _ _ Hget).
  - assert (Hsame : forall r, request (Resp:=Resp) b req w2 = Some (r, w1) -> bc_cell w1 = (Some b, g0)).
    { intros r Hreq. rewrite (cell_of_client w2 w1); [by apply (bc_get_ok w)|].
      exact (request_keeps w2 b req w2 (reflexivity w2) r w1 Hreq). }
    destruct Hf as [(e1 & Hreq & [= -> ->])|[(p & _ & [=])|(resp & Hreq & Hf)]]; [by eauto|].
    destruct Hf as [(t & _ & [=])|(_ & Hp)].
    destruct (process resp); simpl in Hp; try done. injection Hp as -> ->. by eauto.
Qed.

(** When an attempt fails with an error for which [maybe_retry] drops the
    connection, the cache is empty before the next attempt. *)
Lemma retry_drops_connection {Req Resp T}
    `{RequestBody Req Resp, WriteVersionedType Req, ReadVersionedType Resp} decision
    (req : Req) (throttle_time_ms : Resp -> option Int32) (process : Resp -> outcome Error T) w e g w1 :
  broker_attempt bc_get req throttle_time_ms process w = Some (Err (EtError (e, g)), w1) ->
  decision e = (true, true) ->
  exists w', retry_closure decision (broker_attempt bc_get req throttle_time_ms process) w
               = Some (Ok (Continue (EtError e)), w') /\ fst (bc_cell w') = None.
Proof using cell_of_client.
  intros Hf Hd. pose proof (attempt_error_cell _ _ _ _ _ _ _ Hf) as Hc.
  unfold retry_closure. unfold io_bind at 1, io_try. rewrite Hf, Hd. unfold io_bind, io_put, io_lift.
  destruct g as [g|]; eexists; (split; [done|]); [|done].
  destruct Hc as [b Hc]. rewrite bc_invalidate_spec, Hc. simpl. by rewrite Z.eqb_refl.
Qed.
End fresh.
End properties.
