(* ===== verification/Controller.v ===== *)
(** * The controller client (src/client/controller.rs)

    Creates and deletes topics through the broker that is the cluster's
    controller, whose connection it caches.  The cache is [w_controller]; the
    immutable fields are the connector and the backoff configuration. *)

From Stdlib Require Import ZArith Lia.
From stdpp Require Import base list numbers gmap.
From S2P Require Import Prelude Bytes Wire VecBuilder Varint Primitives PrimitiveLaws ApiKey.
From S2P Require Import ErrorCode Versioned ApiVersionsMsg TopicMessages Support MetadataCache Messenger.
From S2P Require Import Io Backoff Topology Transport Session BrokerCache Connection Aggregator.
From S2P Require Import Partition Retry.
Import ClientErrors.

Local Open Scope Z_scope.
Local Open Scope rust_scope.

Section controller.
Context {N : Type} `{!Network N} {rsasl : Rsasl} {prof : Profile}.
Variable fuel : nat.
Local Abbreviation World := (World (N:=N)).

Record ControllerClient : Type := mkControllerClient {
  cc_brokers : BrokerConnector (N:=N);
  cc_backoff_config : BackoffConfig;
}.

Section client.
Variable self : ControllerClient.

(** [ControllerClient::get_controller_id]. *)
Definition get_controller_id : io World Error Z :=
  do! (metadata, _) <- io_map_err Connection
                         (request_metadata fuel (cc_brokers self) ArbitraryBroker (Some [])) in
  do! controller_id <- io_lift (ok_or (InvalidResponse LeaderIsNull) (controller_id metadata)) in
  io_ret (int32 controller_id).

(** [BrokerCache::get] of the controller client. *)
Definition controller_get : io World Error (MessengerTransport * Z) :=
  do! current_broker <- io_get w_controller in
  match cell_broker current_broker with
  | Some broker => io_ret (broker, cell_gen current_broker)
  | None =>
      do! controller_id <- get_controller_id in
      do! b <- io_map_err Connection (connector_connect fuel (cc_brokers self) controller_id) in
      do! broker <- io_lift (ok_or (InvalidResponse (ControllerNotFound controller_id)) b) in
      do! _ <- io_put (set_controller (mkBrokerCell (Some broker) (cell_gen current_broker))) in
      do! gen <- io_lift (bump (cell_gen current_broker)) in
      do! _ <- io_put (set_controller (mkBrokerCell (Some broker) gen)) in
      io_ret (broker, gen)
  end.

(** [BrokerCache::invalidate] of the controller client. *)
Definition controller_invalidate (gen : Z) (w : World) : World :=
  set_controller (cell_invalidate gen (w_controller w)) w.

#[export] Instance controller_cache : BrokerCache World MessengerTransport Error := {|
  bc_get := controller_get;
  bc_invalidate := controller_invalidate;
|}.

(** The checks of the response of [create_topic]. *)
Definition process_create_response (response : CreateTopicsResponse) : outcome Error unit :=
  let! topic := exactly_one_topic (ctresp_topics response) in
  match cts_error topic with
  | None => Ok tt
  | Some protocol_error =>
      Err (ServerError protocol_error (cts_error_message topic ≫= nullable_string)
             (CtxTopic (string_ (cts_name topic))) None false)
  end.

Definition create_topic_request (name : rstring) (num_partitions replication_factor timeout_ms : Z) :
    CreateTopicsRequest :=
  mkCreateTopicsRequest
    [mkCreateTopicRequest (mkString_ name) (mkInt32 num_partitions) (mkInt16 replication_factor) [] [] None]
    (mkInt32 timeout_ms) None None.

(** [ControllerClient::create_topic]. *)
Definition create_topic (name : rstring) (num_partitions replication_factor timeout_ms : Z) :
    io World Error unit :=
  do! _ <- maybe_retry fuel controller_decision (cc_backoff_config self)
             (broker_attempt bc_get
                (create_topic_request name num_partitions replication_factor timeout_ms)
                ctresp_throttle_time_ms process_create_response) in
  do! _ <- io_try (refresh_metadata fuel (cc_brokers self)) in
  io_ret tt.

(** The checks of the response of [delete_topic]. *)
Definition process_delete_response (response : DeleteTopicsResponse) : outcome Error unit :=
  let! topic := exactly_one_topic (dt_responses response) in
  match dtt_error topic with
  | None => Ok tt
  | Some protocol_error =>
      Err (ServerError protocol_error (dtt_error_message topic ≫= compact_nullable_string)
             (CtxTopic (string_ (dtt_name topic))) None false)
  end.

Definition delete_topic_request (name : rstring) (timeout_ms : Z) : DeleteTopicsRequest :=
  mkDeleteTopicsRequest (mkArray (Some [mkString_ name])) (mkInt32 timeout_ms) None.

(** [ControllerClient::delete_topic]. *)
Definition delete_topic (name : rstring) (timeout_ms : Z) : io World Error unit :=
  do! _ <- maybe_retry fuel controller_decision (cc_backoff_config self)
             (broker_attempt bc_get (delete_topic_request name timeout_ms)
                dtresp_throttle_time_ms process_delete_response) in
  do! _ <- io_try (refresh_metadata fuel (cc_brokers self)) in
  io_ret tt.
End client.
End controller.

(** ** Lemmas *)
Section lemmas.
Context {N : Type} `{!Network N} `{!NetworkOk N} {rsasl : Rsasl} {prof : Profile}.
Variable fuel : nat.
Local Abbreviation World := (World (N:=N)).
Implicit Types w : World.

Lemma connector_connect_keeps (c : BrokerConnector) id w0 :
  keeps (same_client w0) (connector_connect fuel c id).
Proof using Type.
  apply keeps_bind; [apply keeps_get|]. intros [b|]; [|apply keeps_lift].
  apply keeps_bind; [apply representation_connect_keeps|]. intros. apply keeps_lift.
Qed.

Context (self : ControllerClient (N:=N)).

(** The lookup of a controller, step by step. *)
Lemma controller_get_miss w r w' :
  cell_broker (w_controller w) = None -> controller_get fuel self w = Some (r, w') ->
  (w_controller w' = w_controller w /\ forall x, r <> Ok x) \/
  (exists m id w1 br w2 b g,
     request_metadata fuel (cc_brokers self) ArbitraryBroker (Some []) w = Some (Ok (m, None), w1) /\
     controller_id m = Some id /\ w_topology w1 !! int32 id = Some br /\
     representation_connect fuel (cc_brokers self) (TopologyBroker br) w1 = Some (Ok b, w2) /\
     w_controller w2 = w_controller w /\
     bump (E:=Error) (cell_gen (w_controller w)) = Ok g /\
     r = Ok (b, g) /\ w' = set_controller (mkBrokerCell (Some b) g) w2) \/
  (exists b p, w_controller w' = mkBrokerCell (Some b) (cell_gen (w_controller w)) /\
     r = Panic p /\ bump (E:=Error) (cell_gen (w_controller w)) = Panic p).
Proof.
  intros Hnone. unfold controller_get, get_controller_id. unfold io_bind at 1, io_get. rewrite Hnone.
  unfold io_bind at 1. unfold io_bind at 1. unfold io_map_err at 1.
  destruct (request_metadata _ _ _ _ w) as [[o w1]|] eqn:Hmeta; [|done].
  pose proof (request_metadata_branches _ _ _ _ _ _ _ Hmeta) as (Hctl & _ & Hspec).
  destruct o as [[m g]|e|p]; simpl; [|intros [= <- <-]; left; split; [congruence|intros ? [=]]..].
  destruct g as [g|]; [by destruct Hspec|].
  unfold io_bind at 1, io_lift at 1. destruct (controller_id m) as [id|] eqn:Hid; simpl;
    [|intros [= <- <-]; left; split; [congruence|intros ? [=]]].
  unfold io_bind at 1, io_map_err.
  destruct (connector_connect _ _ _ w1) as [[o w2]|] eqn:Hconn; [|done].
  pose proof (connector_connect_keeps _ _ w1 w1 (reflexivity w1) _ _ Hconn) as (_ & _ & _ & Hc2 & _).
  destruct o as [[b|]|e|p]; simpl; [| |intros [= <- <-]; left; split; [congruence|intros ? [=]]..].
  - unfold io_put, io_lift. destruct (bump (cell_gen (w_controller w))) as [g|e|p] eqn:Hbump.
    + intros [= <- <-]. right. left. revert Hconn. unfold connector_connect, io_bind, io_get, get_broker.
      destruct (w_topology w1 !! int32 id) as [br|] eqn:Hbr; [|done].
      destruct (representation_connect _ _ _ w1) as [[[b'|?|?] w3]|] eqn:Hrep; try done.
      intros [= -> ->]. exists m, id, w1, br, w2, b, g. repeat split; try done. congruence.
    + unfold bump, arith_unsigned in Hbump. by repeat case_match.
    + intros [= <- <-]. right. right. exists b, p. done.
  - intros [= <- <-]. left. split; [congruence|intros ? [=]].
Qed.

(** What the controller client does as a cache. *)
#[export] Instance controller_cache_ok :
  BrokerCacheOk World MessengerTransport Error (BrokerCache0:=controller_cache fuel self).
Proof.
  refine {| bc_cell := fun w => (cell_broker (w_controller w), cell_gen (w_controller w)) |}.
  - intros w b g [= Hb Hg]. unfold bc_get; simpl. unfold controller_get, io_bind, io_get.
    by rewrite Hb, Hg.
  - intros w b g w' Hget. unfold bc_get in Hget; simpl in Hget.
    destruct (cell_broker (w_controller w)) as [c|] eqn:Hb.
    + revert Hget. unfold controller_get, io_bind, io_get. rewrite Hb. intros [= -> <- <-]. by rewrite Hb.
    + destruct (controller_get_miss _ _ _ Hb Hget)
        as [[_ Hr]|[(m & id & w1 & br & w2 & c & g' & _ & _ & _ & _ & _ & _ & [= -> ->] & ->)|(c & p & _ & [=] & _)]];
        [by edestruct Hr|done].
  - intros w e w' Hget. unfold bc_get in Hget; simpl in Hget.
    destruct (cell_broker (w_controller w)) as [c|] eqn:Hb.
    + revert Hget. unfold controller_get, io_bind, io_get. by rewrite Hb.
    + destruct (controller_get_miss _ _ _ Hb Hget)
        as [[-> _]|[(m & id & w1 & br & w2 & c & g' & _ & _ & _ & _ & _ & _ & [=] & _)|(c & p & _ & [=] & _)]].
      by rewrite Hb.
  - intros w g r w' [= Hb Hg] Hroom Hget. pose proof (bump_room (E:=Error) g 1 Hroom ltac:(lia)) as Hbump.
    rewrite <-Hg in Hbump.
    destruct (controller_get_miss _ _ _ Hb Hget)
      as [[-> Hr]|[(m & id & w1 & br & w2 & c & g' & _ & _ & _ & _ & _ & Hn & -> & _)|(c & p & _ & _ & Hp)]];
      [|congruence|congruence].
    rewrite Hb, Hg. destruct r as [x|e|p]; [by destruct (Hr x)|done..].
  - intros gen w. unfold bc_invalidate; simpl. unfold cell_invalidate.
    destruct (Z.eqb_spec (cell_gen (w_controller w)) gen) as [<-|]; done.
Defined.
End lemmas.

(** ** Properties *)
Section properties.
Context {N : Type} `{!Network N} `{!NetworkOk N} {rsasl : Rsasl} {prof : Profile}.
Variable fuel : nat.
Local Abbreviation World := (World (N:=N)).
Implicit Types w : World.
Context (self : ControllerClient (N:=N)).

(** A new connection of the controller client goes to the controller: the
    broker that a metadata response, requested for it and not cached, names as
    controller, at the address that the topology has for it after that
    response. *)
Theorem controller_connection_sound w b g w' :
  cell_broker (w_controller w) = None ->
  controller_get fuel self w = Some (Ok (b, g), w') ->
  exists m id w1 br w2,
    request_metadata fuel (cc_brokers self) ArbitraryBroker (Some []) w = Some (Ok (m, None), w1) /\
    controller_id m = Some id /\
    w_topology w1 = topology_update (brokers m) (w_topology w) /\
    w_topology w1 !! int32 id = Some br /\
    representation_connect fuel (cc_brokers self) (TopologyBroker br) w1 = Some (Ok b, w2) /\
    w' = set_controller (mkBrokerCell (Some b) g) w2 /\
    bump (E:=Error) (cell_gen (w_controller w)) = Ok g.
Proof.
  intros Hnone [[_ Hr]|[(m & id & w1 & br & w2 & b' & g' & Hm & Hid & Hbr & Hc & _ & Hg & [= -> ->] & ->)
    |(c & p & _ & [=] & _)]]%controller_get_miss; [by edestruct Hr| |done].
  pose proof (request_metadata_branches _ _ _ _ _ _ _ Hm) as (_ & _ & _ & Ht & _).
  exists m, id, w1, br, w2. repeat split; done.
Qed.

(** The errors of an attempt are not those of [maybe_retry]. *)
Lemma controller_get_attempted : fails_with attempted (controller_get fuel self).
Proof using Type.
  apply fails_bind; [by intros ? ? ? [=]|]. intros cur. destruct (cell_broker cur); [by apply fails_lift|].
  apply fails_bind.
  { apply fails_bind; [by apply fails_map_err|]. intros [m g].
    apply fails_bind; [|by intros; apply fails_lift]. apply fails_lift. intros e. by destruct (controller_id m); intros [= <-]. }
  intros id. apply fails_bind; [by apply fails_map_err|]. intros b.
  apply fails_bind; [apply fails_lift; intros e; by destruct b; intros [= <-]|]. intros broker.
  apply fails_bind; [by intros ? ? ? [=]|]. intros _.
  apply fails_bind; [apply fails_lift; intros e; unfold bump, arith_unsigned; by repeat case_match|].
  intros g. apply fails_bind; [by intros ? ? ? [=]|]. intros _. by apply fails_lift.
Qed.

(** The common part of the two operations. *)
Lemma admin_outcome {Req Resp} `{RequestBody Req Resp, WriteVersionedType Req, ReadVersionedType Resp}
    (req : Req) (throttle_time_ms : Resp -> option Int32) (process : Resp -> outcome Error unit) w r w' :
  (forall resp e, process resp = Err e -> attempted e) ->
  (do! _ <- maybe_retry (BrokerCache0:=controller_cache fuel self) fuel controller_decision
              (cc_backoff_config self)
              (broker_attempt (controller_get fuel self) req throttle_time_ms process) in
   do! _ <- io_try (refresh_metadata fuel (cc_brokers self)) in
   io_ret tt) w = Some (r, w') ->
  match r with
  | Ok _ => exists b w1 w2 resp o,
      request (Resp:=Resp) b req w1 = Some (Ok resp, w2) /\ process resp = Ok tt /\
      maybe_throttle (E:=Error * option Z) (throttle_time_ms resp) = Ok tt /\
      refresh_metadata fuel (cc_brokers self) w2 = Some (o, w')
  | Err e => (fst (controller_decision e) = false /\ attempted e) \/
      (config_deadline (cc_backoff_config self) <> None /\
       exists d e0, e = RetryFailed (DeadlineExceded d e0) /\ fst (controller_decision e0) = true)
  | Panic _ => True
  end.
Proof.
  intros Hproc. unfold io_bind at 1. destruct (maybe_retry _ _ _ _ w) as [[o w1]|] eqn:Hr; [|done].
  apply maybe_retry_split in Hr. destruct o as [[]|e|p].
  - destruct Hr as (w0 & (b & g & w2 & resp & _ & Hreq & Ht & Hp)%broker_attempt_ok).
    unfold io_bind, io_try. destruct (refresh_metadata _ _ w1) as [[o w3]|] eqn:Hf; [|done].
    destruct o; intros [= <- <-]; [by eauto 10..|done].
  - intros [= <- <-]. destruct Hr as [(Hd & g & w2 & w3 & Hf)|(Hc & d & e0 & g & w2 & w3 & -> & Hd & _)].
    + left. split; [done|]. by eapply broker_attempt_attempted, Hf; [apply controller_get_attempted|].
    + right. by eauto.
  - by intros [= <- <-].
Qed.

Lemma process_create_attempted resp e : process_create_response resp = Err e -> attempted e.
Proof using Type.
  unfold process_create_response, exactly_one_topic. rewrite exactly_one_spec.
  destruct (ctresp_topics resp) as [|t [|]]; simpl; try (by intros [= <-]).
  by destruct (cts_error t); intros [= <-].
Qed.

(** C29: what creating a topic returns.  It succeeds only after a broker
    answered this request, without throttling, with a single topic and no
    error, and after a refresh of the metadata, whatever its result.  An error
    is that of an attempt, and never one that the client retries (a broken
    connection, or a broker that is not the controller); only if a deadline is
    configured can it be the failure of the retries, with the last of these. *)
Theorem create_topic_outcome name num_partitions replication_factor timeout_ms w r w' :
  create_topic fuel self name num_partitions replication_factor timeout_ms w = Some (r, w') ->
  match r with
  | Ok _ => exists b w1 w2 resp topic o,
      request (Resp:=CreateTopicsResponse) b
        (create_topic_request name num_partitions replication_factor timeout_ms) w1 = Some (Ok resp, w2) /\
      ctresp_topics resp = [topic] /\ cts_error topic = None /\
      maybe_throttle (E:=Error * option Z) (ctresp_throttle_time_ms resp) = Ok tt /\
      refresh_metadata fuel (cc_brokers self) w2 = Some (o, w')
  | Err e => (fst (controller_decision e) = false /\ attempted e) \/
      (config_deadline (cc_backoff_config self) <> None /\
       exists d e0, e = RetryFailed (DeadlineExceded d e0) /\ fst (controller_decision e0) = true)
  | Panic _ => True
  end.
Proof.
  intros Hr%admin_outcome; [|by apply process_create_attempted]. destruct r as [[]|e|p]; [|done..].
  destruct Hr as (b & w1 & w2 & resp & o & Hreq & Hp & Ht & Hf). revert Hp.
  unfold process_create_response, exactly_one_topic. rewrite exactly_one_spec.
  destruct (ctresp_topics resp) as [|topic [|]] eqn:Htop; simpl; try done.
  destruct (cts_error topic) eqn:He; [done|]. intros _. by exists b, w1, w2, resp, topic, o.
Qed.
End properties.

(** ** Concrete runs *)
Import RefNetwork.

Definition sample_controller_client : ControllerClient (N:=Net) :=
  mkControllerClient sample_connector BackoffConfig_default.

Definition with_ranges (ranges : version_map) : MessengerTransport (N:=Net) :=
  set_version_ranges ranges sample_messenger.

(** The controller answers that topic "t" was created; the metadata is
    refreshed afterwards. *)
Definition sample_create_world : RefWorld :=
  set_controller (mkBrokerCell (Some (with_ranges [(ApiKeys.CreateTopics, mkApiVersionRange (V 0) (V 0))])) 1)
    (set_arbitrary (mkBrokerCell (Some sample_cached) 1)
      (world (mkNet [] [] [reply_bytes (to_be_bytes 4 1 ++ to_be_bytes 2 1 ++ [byte_of_Z 116] ++ to_be_bytes 2 0);
                           metadata_reply 1] []) [0])).

Definition sample_create :=
  create_topic (rsasl:=ref_rsasl) (prof:=debug_profile) 3 sample_controller_client (ascii_string [116]) 1 1 5000
    sample_create_world.

Lemma create_topic_outcome_witness :
  exists w', sample_create = Some (Ok tt, w') /\ sent_ok sample_create = Some 2%nat /\
  exists b w1 w2 resp topic o,
    request (Resp:=CreateTopicsResponse) b (create_topic_request (ascii_string [116]) 1 1 5000) w1
      = Some (Ok resp, w2) /\
    ctresp_topics resp = [topic] /\ cts_error topic = None /\
    maybe_throttle (E:=Error * option Z) (ctresp_throttle_time_ms resp) = Ok tt /\
    refresh_metadata (rsasl:=ref_rsasl) (prof:=debug_profile) 3 sample_connector w2 = Some (o, w').
Proof.
  assert (Hlen : sent_ok sample_create = Some 2%nat) by (vm_compute; reflexivity).
  destruct sample_create as [[[[]|e|p] w']|] eqn:Hr; try discriminate Hlen.
  exists w'. split; [reflexivity|]. split; [exact Hlen|].
  apply (create_topic_outcome (rsasl:=ref_rsasl) (prof:=debug_profile) 3 sample_controller_client
    (ascii_string [116]) 1 1 5000 sample_create_world (Ok tt) w' Hr).
Defined.

(** Version 1 of the metadata response, with broker 1 as controller. *)
Definition controller_metadata_reply : Reply :=
  reply_bytes (to_be_bytes 4 1 ++ to_be_bytes 4 1 ++ to_be_bytes 2 1 ++ [byte_of_Z 104] ++ to_be_bytes 4 9092
    ++ to_be_bytes 2 (-1) ++ to_be_bytes 4 1 ++ to_be_bytes 4 0).

Definition sample_controller_world : RefWorld :=
  set_arbitrary (mkBrokerCell (Some (with_ranges [(ApiKeys.Metadata, mkApiVersionRange (V 1) (V 1))])) 1)
    (world (mkNet [] [Ok 7] [controller_metadata_reply; reply_of (V 3) metadata_versions] []) [0]).

Definition sample_controller_get :=
  controller_get (rsasl:=ref_rsasl) (prof:=debug_profile) 3 sample_controller_client sample_controller_world.

Lemma controller_connection_sound_witness :
  exists b g w', sample_controller_get = Some (Ok (b, g), w') /\
  exists m id w1 br w2,
    request_metadata (rsasl:=ref_rsasl) (prof:=debug_profile) 3 sample_connector ArbitraryBroker (Some [])
      sample_controller_world = Some (Ok (m, None), w1) /\
    controller_id m = Some id /\
    w_topology w1 = topology_update (brokers m) (w_topology sample_controller_world) /\
    w_topology w1 !! int32 id = Some br /\
    representation_connect (rsasl:=ref_rsasl) (prof:=debug_profile) 3 sample_connector (TopologyBroker br) w1
      = Some (Ok b, w2) /\
    w' = set_controller (mkBrokerCell (Some b) g) w2 /\
    bump (prof:=debug_profile) (E:=Error) (cell_gen (w_controller sample_controller_world)) = Ok g.
Proof.
  assert (Hlen : sent_ok sample_controller_get = Some 2%nat) by (vm_compute; reflexivity).
  destruct sample_controller_get as [[[[b g]|e|p] w']|] eqn:Hr; try discriminate Hlen.
  exists b, g, w'. split; [reflexivity|].
  apply (controller_connection_sound (rsasl:=ref_rsasl) (prof:=debug_profile) 3 sample_controller_client
    sample_controller_world b g w' eq_refl Hr).
Defined.
