(* ===== verification/PartitionClient.v ===== *)
(** * The partition client (src/client/partition.rs)

    [PartitionClient] finds the leader of its partition, caches a connection to
    it, and runs its operations there with retries.  The cache is [w_leader];
    building requests and checking responses is in [Partition]. *)

From Stdlib Require Import ZArith Lia.
From stdpp Require Import base list numbers gmap.
From S2P Require Import Prelude Bytes Wire VecBuilder Varint Primitives PrimitiveLaws Record.
From S2P Require Import Codec RecordBatch RefCrates ApiKey ErrorCode Versioned ApiVersionsMsg DataMessages TopicMessages.
From S2P Require Import Support MetadataCache Messenger Io Backoff Topology Transport.
From S2P Require Import Session BrokerCache Connection Aggregator Partition PartitionProps Retry Controller.
Import ClientErrors.

Local Open Scope Z_scope.
Local Open Scope rust_scope.

(** The checks of [get_leader] on a metadata response. *)
Definition leader_of (self_topic : rstring) (self_partition : Z) (metadata : MetadataResponse) :
    outcome Error Z :=
  let! topic := exactly_one_topic (mresp_topics metadata) in
  let! _ := check_topic self_topic (string_ (mt_name topic)) in
  match mt_error topic with
  | Some e => Err (ServerError e None (CtxTopic self_topic) None false)
  | None =>
      match List.find (fun p => int32 (mp_partition_index p) =? self_partition) (mt_partitions topic) with
      | None => Err (InvalidResponse (PartitionNotFound self_partition self_topic))
      | Some partition =>
          match mp_error partition with
          | Some e => Err (ServerError e None (CtxPartition self_topic self_partition) None false)
          | None =>
              if int32 (leader_id partition) =? -1 then
                Err (ServerError Errors.LeaderNotAvailable None
                       (CtxPartition self_topic self_partition) None true)
              else Ok (int32 (leader_id partition))
          end
      end
  end.

Section client.
Context {N : Type} `{!Network N} {rsasl : Rsasl} {prof : Profile}.
Variable fuel : nat.
Local Abbreviation World := (World (N:=N)).

Record PartitionClient : Type := mkPartitionClient {
  topic : rstring;
  partition : Z;
  pc_brokers : BrokerConnector (N:=N);
  pc_backoff_config : BackoffConfig;
  unknown_topic_handling : UnknownTopicHandling;
}.

Section leader.
Variable self : PartitionClient.

(** [PartitionClient::get_leader]. *)
Definition get_leader (metadata_mode : MetadataLookupMode (MessengerTransport (N:=N))) :
    io World Error (Z * option Z) :=
  do! (metadata, gen) <- io_map_err Connection
        (request_metadata fuel (pc_brokers self) metadata_mode (Some [topic self])) in
  do! leader <- io_lift (leader_of (topic self) (partition self) metadata) in
  io_ret (leader, gen).

(** [if let Some(gen) = gen { self.brokers.invalidate_metadata_cache(.., gen) }]. *)
Definition invalidate_metadata {E} (gen : option Z) : io World E unit :=
  match gen with
  | Some gen => io_put (invalidate_metadata_cache gen)
  | None => io_ret tt
  end.

(** [BrokerCache::get] of the partition client. *)
Definition leader_get : io World Error (MessengerTransport * Z) :=
  do! current_broker <- io_get w_leader in
  match broker current_broker with
  | Some b => io_ret (b, gen_broker current_broker)
  | None =>
      do! (leader, gen_leader_from_arbitrary) <- get_leader CachedArbitrary in
      do! c <- io_try (connector_connect fuel (pc_brokers self) leader) in
      do! broker <- match c with
                    | inr (Some c) => io_ret c
                    | inr None =>
                        do! _ <- invalidate_metadata gen_leader_from_arbitrary in
                        io_err (InvalidResponse (LeaderNotFound leader))
                    | inl e =>
                        do! _ <- invalidate_metadata gen_leader_from_arbitrary in
                        io_err (Connection e)
                    end in
      do! (leader_self, gen_leader_from_self) <- get_leader (SpecificBroker broker) in
      if negb (leader =? leader_self) then
        do! _ <- invalidate_metadata gen_leader_from_self in
        io_err (ServerError Errors.NotLeaderOrFollower None
                  (CtxPartition (topic self) (partition self))
                  (Some (LeaderForward leader leader_self)) true)
      else
        do! gen <- io_lift (bump (gen_broker current_broker)) in
        do! _ <- io_put (set_leader (mkCurrentBroker (Some broker) gen
                                       gen_leader_from_arbitrary gen_leader_from_self)) in
        io_ret (broker, gen)
  end.

(** [BrokerCache::invalidate] of the partition client. *)
Definition leader_invalidate (gen : Z) (w : World) : World :=
  let current_broker := w_leader w in
  if negb (gen_broker current_broker =? gen) then w
  else
    let w := match gen_leader_from_arbitrary current_broker with
             | Some gen => invalidate_metadata_cache gen w
             | None => w
             end in
    let w := match gen_leader_from_self current_broker with
             | Some gen => invalidate_metadata_cache gen w
             | None => w
             end in
    set_leader (mkCurrentBroker None (gen_broker current_broker)
                  (gen_leader_from_arbitrary current_broker) (gen_leader_from_self current_broker)) w.

#[export] Instance leader_cache : BrokerCache World MessengerTransport Error := {|
  bc_get := leader_get;
  bc_invalidate := leader_invalidate;
|}.
End leader.

(** [PartitionClient::new]: the leader is looked up at once; errors invalidate
    nothing, as they come without a generation. *)
Definition PartitionClient_new (topic : rstring) (partition : Z) (brokers : BrokerConnector (N:=N))
    (unknown_topic_handling : UnknownTopicHandling) (backoff_config : BackoffConfig) :
    io World Error PartitionClient :=
  let p := mkPartitionClient topic partition brokers backoff_config unknown_topic_handling in
  do! _ <- io_put (set_leader (mkCurrentBroker None BrokerCacheGeneration_START None None)) in
  do! _ <- maybe_retry (BrokerCache0:=arbitrary_cache fuel brokers) fuel
             (retry_decision unknown_topic_handling) backoff_config
             (do! _ <- io_map_err (fun e => EtError (e, None)) (leader_get p) in
              io_ret tt) in
  io_ret p.

(** ** Operations *)
Context {VC : VarIntCrate} {CC : Codecs} {CH : Chrono}.
Variable self : PartitionClient.

(** The call of [maybe_retry] of an operation. *)
Definition on_leader {Req Resp T}
    `{RequestBody Req Resp, WriteVersionedType Req, ReadVersionedType Resp} (req : Req)
    (throttle_time_ms : Resp -> option Int32) (process : Resp -> outcome Error T) : io World Error T :=
  maybe_retry (BrokerCache0:=leader_cache self) fuel (retry_decision (unknown_topic_handling self))
    (pc_backoff_config self) (broker_attempt (leader_get self) req throttle_time_ms process).

(** [PartitionClient::produce]. *)
Definition produce (records : list ClientRecord) (compression : Compression) :
    io World Error (list Z) :=
  match records with
  | [] => io_ret []
  | _ =>
      let n := wrap_signed 64 (zlen records) in
      do! request <- io_lift (build_produce_request (partition self) (topic self) records compression) in
      on_leader request produce_throttle_time_ms
        (process_produce_response (partition self) (topic self) n)
  end.

(** [PartitionClient::fetch_records]. *)
Definition client_fetch_records (offset bytes_start bytes_end max_wait_ms : Z) :
    io World Error (list RecordAndOffset * Z) :=
  do! partition <- on_leader
        (build_fetch_request offset bytes_start bytes_end max_wait_ms (partition self) (topic self))
        fetch_throttle_time_ms
        (fun response => process_fetch_response (partition self) (topic self) response offset) in
  do! records <- io_lift (extract_records (records_0 (frs_records partition)) offset) in
  io_ret (records, int64 (high_watermark partition)).

(** [PartitionClient::get_offset]. *)
Definition client_get_offset (at_ : OffsetAt) : io World Error Z :=
  do! partition <- on_leader (build_list_offsets_request (partition self) (topic self) at_)
        lo_throttle_time_ms (process_list_offsets_response (partition self) (topic self)) in
  io_lift (extract_offset partition).

(** [PartitionClient::delete_records]. *)
Definition delete_records (offset timeout_ms : Z) : io World Error unit :=
  do! _ <- on_leader (build_delete_records_request offset timeout_ms (topic self) (partition self))
        (fun response => Some (ds_throttle_time_ms response))
        (process_delete_records_response (topic self) (partition self)) in
  io_ret tt.
End client.

(** ** Lemmas *)
Section lemmas.
Context {N : Type} `{!Network N} {rsasl : Rsasl} {prof : Profile}.
Variable fuel : nat.
Local Abbreviation World := (World (N:=N)).
Implicit Types w : World.
Context (self : PartitionClient (N:=N)).

Lemma get_leader_split mode w r w' :
  get_leader fuel self mode w = Some (r, w') ->
  exists o, request_metadata fuel (pc_brokers self) mode (Some [topic self]) w = Some (o, w') /\
    r = match o with
        | Ok (m, g) => obind (leader_of (topic self) (partition self) m) (fun l => Ok (l, g))
        | Err e => Err (Connection e)
        | Panic p => Panic p
        end.
Proof.
  unfold get_leader. unfold io_bind at 1, io_map_err.
  destruct (request_metadata _ _ _ _ w) as [[o w1]|]; [|done].
  destruct o as [[m g]|e|p]; simpl; [|intros [= <- <-]; by eauto..].
  unfold io_bind, io_lift. intros Hr. exists (Ok (m, g)).
  destruct (leader_of _ _ m); injection Hr as <- <-; done.
Qed.

Lemma get_leader_keeps mode w r w' :
  get_leader fuel self mode w = Some (r, w') ->
  w_leader w' = w_leader w /\ w_controller w' = w_controller w /\
  w_metadata w' = after_lookup mode (Some [topic self]) (w_metadata w).
Proof.
  intros (o & Hm & _)%get_leader_split. apply request_metadata_branches in Hm as (Hc & Hl & Hm).
  destruct o as [[m [g|]]|e|p]; [|by destruct Hm as (_ & _ & Hm)|by destruct Hm|].
  - destruct Hm as (_ & _ & ->). done.
  - by destruct Hm as [_ [Hm|([=] & _)]].
Qed.

(** A broker that was asked itself gives no generation. *)
Lemma get_leader_specific b l g w w' :
  get_leader fuel self (SpecificBroker b) w = Some (Ok (l, g), w') -> g = None.
Proof.
  intros (o & Hm & Hr)%get_leader_split. apply request_metadata_branches in Hm as (_ & _ & Hm).
  destruct o as [[m [g'|]]|e|p]; [by destruct Hm|..|done|done].
  destruct (leader_of _ _ m); simpl in Hr; congruence.
Qed.

Lemma invalidate_metadata_eq {E} g w :
  invalidate_metadata (E:=E) g w =
    Some (Ok tt, match g with Some g => invalidate_metadata_cache g w | None => w end).
Proof. by destruct g. Qed.

Definition not_leader_error (l l' : Z) : Error :=
  ServerError Errors.NotLeaderOrFollower None (CtxPartition (topic self) (partition self))
    (Some (LeaderForward l l')) true.

(** The lookup of the leader, step by step. *)
Inductive leader_lookup w : outcome Error (MessengerTransport * Z) -> World -> Prop :=
| lookup_no_leader o w1 :
    get_leader fuel self CachedArbitrary w = Some (o, w1) -> (forall x, o <> Ok x) ->
    leader_lookup w match o with Err e => Err e | Panic p => Panic p | Ok _ => Panic Unreachable end w1
| lookup_unreachable l g w1 c w2 :
    get_leader fuel self CachedArbitrary w = Some (Ok (l, g), w1) ->
    connector_connect fuel (pc_brokers self) l w1 = Some (c, w2) -> (forall b, c <> Ok (Some b)) ->
    leader_lookup w
      match c with
      | Ok _ => Err (InvalidResponse (LeaderNotFound l))
      | Err e => Err (Connection e)
      | Panic p => Panic p
      end
      match c with
      | Panic _ => w2
      | _ => match g with Some g => invalidate_metadata_cache g w2 | None => w2 end
      end
| lookup_no_answer l g w1 b w2 o w3 :
    get_leader fuel self CachedArbitrary w = Some (Ok (l, g), w1) ->
    connector_connect fuel (pc_brokers self) l w1 = Some (Ok (Some b), w2) ->
    get_leader fuel self (SpecificBroker b) w2 = Some (o, w3) -> (forall x, o <> Ok x) ->
    leader_lookup w match o with Err e => Err e | Panic p => Panic p | Ok _ => Panic Unreachable end w3
| lookup_mismatch l g w1 b w2 l' w3 :
    get_leader fuel self CachedArbitrary w = Some (Ok (l, g), w1) ->
    connector_connect fuel (pc_brokers self) l w1 = Some (Ok (Some b), w2) ->
    get_leader fuel self (SpecificBroker b) w2 = Some (Ok (l', None), w3) -> l <> l' ->
    leader_lookup w (Err (not_leader_error l l')) w3
| lookup_found l g w1 b w2 w3 gen :
    get_leader fuel self CachedArbitrary w = Some (Ok (l, g), w1) ->
    connector_connect fuel (pc_brokers self) l w1 = Some (Ok (Some b), w2) ->
    get_leader fuel self (SpecificBroker b) w2 = Some (Ok (l, None), w3) ->
    bump (E:=Error) (gen_broker (w_leader w)) = Ok gen ->
    leader_lookup w (Ok (b, gen)) (set_leader (mkCurrentBroker (Some b) gen g None) w3)
| lookup_overflow l g w1 b w2 w3 p :
    get_leader fuel self CachedArbitrary w = Some (Ok (l, g), w1) ->
    connector_connect fuel (pc_brokers self) l w1 = Some (Ok (Some b), w2) ->
    get_leader fuel self (SpecificBroker b) w2 = Some (Ok (l, None), w3) ->
    bump (E:=Error) (gen_broker (w_leader w)) = Panic p ->
    leader_lookup w (Panic p) w3.

Lemma leader_get_miss w r w' :
  broker (w_leader w) = None -> leader_get fuel self w = Some (r, w') -> leader_lookup w r w'.
Proof.
  intros Hnone. unfold leader_get. unfold io_bind at 1, io_get. rewrite Hnone. unfold io_bind at 1.
  destruct (get_leader _ _ CachedArbitrary w) as [[[[l g]|e|p] w1]|] eqn:Hl; [..|done].
  2,3: intros [= <- <-]; eapply lookup_no_leader in Hl; [exact Hl|intros ? [=]].
  unfold io_bind at 1, io_try.
  destruct (connector_connect _ _ _ w1) as [[c w2]|] eqn:Hc; [|done].
  destruct c as [[b|]|e|p].
  - unfold io_bind at 1, io_lift at 1. unfold io_bind at 1.
    destruct (get_leader _ _ (SpecificBroker b) w2) as [[[[l' g']|e|p] w3]|] eqn:Hs; [..|done].
    2,3: intros [= <- <-]; eapply lookup_no_answer in Hs; [exact Hs|done|done|intros ? [=]].
    pose proof (get_leader_specific _ _ _ _ _ Hs) as ->.
    destruct (Z.eqb_spec l l') as [<-|Hne]; simpl; [|intros [= <- <-]; by eapply lookup_mismatch].
    unfold io_bind at 1, io_lift at 1. destruct (bump _) as [gen|e|p] eqn:Hbump; intros [= <- <-].
    + by eapply lookup_found.
    + unfold bump, arith_unsigned in Hbump. by repeat case_match.
    + by eapply lookup_overflow.
  - unfold io_bind. rewrite invalidate_metadata_eq. intros [= <- <-].
    eapply lookup_unreachable in Hc; [exact Hc|done|intros ? [=]].
  - unfold io_bind. rewrite invalidate_metadata_eq. intros [= <- <-].
    eapply lookup_unreachable in Hc; [exact Hc|done|intros ? [=]].
  - intros [= <- <-]. eapply lookup_unreachable in Hc; [exact Hc|done|intros ? [=]].
Qed.

(** Only a found leader is written to the cache. *)
Lemma leader_lookup_cell w r w' :
  leader_lookup w r w' ->
  (w_leader w' = w_leader w /\ forall x, r <> Ok x) \/
  (exists b g, r = Ok (b, g) /\ broker (w_leader w') = Some b /\ gen_broker (w_leader w') = g /\
     bump (E:=Error) (gen_broker (w_leader w)) = Ok g).
Proof.
  assert (Hcon : forall l w1 c w2, connector_connect fuel (pc_brokers self) l w1 = Some (c, w2) ->
    w_leader w2 = w_leader w1).
  { intros l w1 c w2 H. by apply (connector_connect_keeps fuel _ l w1 w1 (reflexivity w1)) in H as (_ & _ & _ & _ & H). }
  destruct 1 as [o w1 Hl%get_leader_keeps Ho|l g w1 c w2 Hl%get_leader_keeps Hc%Hcon Hb
    |l g w1 b w2 o w3 Hl%get_leader_keeps Hc%Hcon Hs%get_leader_keeps Ho
    |l g w1 b w2 l' w3 Hl%get_leader_keeps Hc%Hcon Hs%get_leader_keeps Hne|l g w1 b w2 w3 gen Hl Hc Hs Hb
    |l g w1 b w2 w3 p Hl%get_leader_keeps Hc%Hcon Hs%get_leader_keeps Hb];
    [left; split..|right; by eauto 10|left; split].
  - by destruct Hl.
  - destruct o; [by edestruct Ho|done|done].
  - destruct Hl as [<- _]. rewrite <-Hc. destruct c; [destruct g; done..|done].
  - destruct c; done.
  - destruct Hl as [<- _], Hs as [Hs _]. congruence.
  - destruct o; [by edestruct Ho|done|done].
  - destruct Hl as [<- _], Hs as [Hs _]. congruence.
  - done.
  - destruct Hl as [<- _], Hs as [Hs _]. congruence.
  - done.
Qed.

(** What the partition client does as a cache. *)
#[export] Instance leader_cache_ok :
  BrokerCacheOk World MessengerTransport Error (BrokerCache0:=leader_cache fuel self).
Proof.
  refine {| bc_cell := fun w => (broker (w_leader w), gen_broker (w_leader w)) |}.
  - intros w b g [= Hb Hg]. unfold bc_get; simpl. unfold leader_get, io_bind, io_get. by rewrite Hb, Hg.
  - intros w b g w' Hget. unfold bc_get in Hget; simpl in Hget. destruct (broker (w_leader w)) as [c|] eqn:Hb.
    + revert Hget. unfold leader_get, io_bind, io_get. rewrite Hb. intros [= -> <- <-]. by rewrite Hb.
    + apply leader_get_miss, leader_lookup_cell in Hget as [[_ Hr]|(c & g' & [= -> ->] & -> & -> & _)];
        [by edestruct Hr|done..].
  - intros w e w' Hget. unfold bc_get in Hget; simpl in Hget. destruct (broker (w_leader w)) as [c|] eqn:Hb.
    + revert Hget. unfold leader_get, io_bind, io_get. by rewrite Hb.
    + apply leader_get_miss, leader_lookup_cell in Hget as [[-> _]|(c & g' & [=] & _)]; [|done]. by rewrite Hb.
  - intros w g r w' [= Hb Hg] Hroom Hget. pose proof (bump_room (E:=Error) g 1 Hroom ltac:(lia)) as Hbump.
    rewrite <-Hg in Hbump. unfold bc_get in Hget; simpl in Hget.
    apply leader_get_miss, leader_lookup_cell in Hget as [[-> Hr]|(c & g' & -> & _ & _ & Hn)]; [|congruence|done].
    rewrite Hb, Hg. destruct r as [x|e|p]; [by destruct (Hr x)|done..].
  - intros gen w. unfold bc_invalidate; simpl. unfold leader_invalidate.
    destruct (Z.eqb_spec (gen_broker (w_leader w)) gen) as [<-|]; [|done].
    by destruct (gen_leader_from_arbitrary _), (gen_leader_from_self _).
Defined.
End lemmas.

(** ** Properties *)
Section properties.
Context {N : Type} `{!Network N} {rsasl : Rsasl} {prof : Profile}.
Variable fuel : nat.
Local Abbreviation World := (World (N:=N)).
Implicit Types w : World.
Context (self : PartitionClient (N:=N)).

(** A response names a leader for the partition of the client. *)
Definition names_leader (m : MetadataResponse) (l : Z) : Prop :=
  exists t p, mresp_topics m = [t] /\ string_ (mt_name t) = topic self /\ mt_error t = None /\
    p ∈ mt_partitions t /\ int32 (mp_partition_index p) = partition self /\ mp_error p = None /\
    int32 (leader_id p) = l /\ l <> -1.

Lemma leader_of_names m l : leader_of (topic self) (partition self) m = Ok l -> names_leader m l.
Proof.
  unfold leader_of, exactly_one_topic. rewrite exactly_one_spec.
  destruct (mresp_topics m) as [|t [|]] eqn:Ht; simpl; try done. unfold check_topic.
  case_decide as Hn; [|done]. simpl. destruct (mt_error t) eqn:He; [done|].
  destruct (List.find _ _) as [p|] eqn:Hf; [|done]. apply List.find_some in Hf as [Hin Hp%Z.eqb_eq].
  destruct (mp_error p) eqn:Hpe; [done|]. destruct (Z.eqb_spec (int32 (leader_id p)) (-1)); [done|].
  intros [= <-]. exists t, p. repeat split; try done. by apply list_elem_of_In.
Qed.

Lemma get_leader_names mode w l g w' :
  get_leader fuel self mode w = Some (Ok (l, g), w') ->
  exists m, request_metadata fuel (pc_brokers self) mode (Some [topic self]) w = Some (Ok (m, g), w') /\
    names_leader m l.
Proof.
  intros (o & Hm & Hr)%get_leader_split. destruct o as [[m g']|e|p]; try done.
  destruct (leader_of _ _ m) as [l'| |] eqn:Hl; simpl in Hr; try done. injection Hr as -> ->.
  exists m. split; [done|]. by apply leader_of_names.
Qed.

(** C16: a new connection of the partition client goes to the leader: the
    broker that a metadata response (cached or fresh) names as leader of the
    partition, at the address that the topology has for it, and which itself,
    asked over that connection, says that it is the leader. *)
Theorem leader_connection_sound w b g w' :
  broker (w_leader w) = None -> leader_get fuel self w = Some (Ok (b, g), w') ->
  exists l m1 g1 w1 br w2 m2 w3,
    request_metadata fuel (pc_brokers self) CachedArbitrary (Some [topic self]) w = Some (Ok (m1, g1), w1) /\
    names_leader m1 l /\ w_topology w1 !! l = Some br /\
    representation_connect fuel (pc_brokers self) (TopologyBroker br) w1 = Some (Ok b, w2) /\
    request_metadata fuel (pc_brokers self) (SpecificBroker b) (Some [topic self]) w2 = Some (Ok (m2, None), w3) /\
    names_leader m2 l /\ bump (E:=Error) (gen_broker (w_leader w)) = Ok g /\
    w' = set_leader (mkCurrentBroker (Some b) g g1 None) w3.
Proof.
  intros Hnone Hget. apply leader_get_miss in Hget; [|done].
  inversion Hget as [o ? ? Ho Heq|? ? ? c ? ? ? Hb Heq|? ? ? ? ? o ? ? ? ? Ho Heq|
    |l g1 w1 b' w2 w3 g' Hl Hc Hs Hbump Heq Hw|]; subst; try (by destruct o; [edestruct Ho|..]); try (by destruct c).
  apply get_leader_names in Hl as (m1 & Hm1 & Hn1), Hs as (m2 & Hm2 & Hn2).
  revert Hc. unfold connector_connect, io_bind, io_get, get_broker.
  destruct (w_topology w1 !! l) as [br|] eqn:Hbr; [|done].
  destruct (representation_connect _ _ _ w1) as [[[b0|?|?] w4]|] eqn:Hrep; try done. intros [= -> ->].
  by exists l, m1, g1, w1, br, w2, m2, w3.
Qed.

(** Looking up in a cache that has what is asked for. *)
Lemma cache_hit_same topics c m g : fst (cache_get topics c) = Some (m, g) -> snd (cache_get topics c) = c.
Proof. unfold cache_get. by destruct (cache_lookup topics c). Qed.

Lemma get_leader_hit m g w l :
  fst (cache_get (Some [topic self]) (w_metadata w)) = Some (m, g) ->
  leader_of (topic self) (partition self) m = Ok l ->
  get_leader fuel self CachedArbitrary w = Some (Ok (l, Some g), w).
Proof.
  intros Hhit Hl. unfold get_leader, request_metadata, lookup_cached, io_map_err, io_bind, io_lift.
  pose proof (cache_hit_same _ _ _ _ Hhit) as Hc.
  destruct (cache_get (Some [topic self]) (w_metadata w)) as [o c]. simpl in *. subst o c. simpl.
  rewrite Hl. by destruct w.
Qed.

(** An unreachable leader is looked up again.  If the cached metadata
    names a leader that cannot be connected to, the lookup fails with the error
    of the connection and the metadata is dropped from the cache. *)
Theorem unreachable_leader_invalidates m g l w e w2 :
  broker (w_leader w) = None ->
  fst (cache_get (Some [topic self]) (w_metadata w)) = Some (m, g) ->
  leader_of (topic self) (partition self) m = Ok l ->
  connector_connect fuel (pc_brokers self) l w = Some (Err e, w2) ->
  exists w', leader_get fuel self w = Some (Err (Connection e), w') /\ cache_entry (w_metadata w') = None.
Proof.
  intros Hnone Hhit Hl Hc. unfold leader_get. unfold io_bind at 1, io_get. rewrite Hnone.
  rewrite (io_bind_ok _ _ _ _ _ (get_leader_hit _ _ _ _ Hhit Hl)).
  unfold io_bind, io_try. rewrite Hc. rewrite invalidate_metadata_eq.
  eexists. split; [reflexivity|]. unfold invalidate_metadata_cache; simpl.
  apply (connector_connect_keeps fuel _ l w w (reflexivity w)) in Hc as (_ & _ & -> & _).
  assert (Hg : cache_gen (w_metadata w) = g).
  { revert Hhit. unfold cache_get, cache_lookup. destruct (cache_entry (w_metadata w)); simpl; [|done].
    destruct (negb _); simpl; [done|]. by intros [= _ <-]. }
  unfold cache_invalidate. by rewrite Hg, Z.eqb_refl.
Qed.

(** C39: cached metadata that names a former leader is never dropped for it.
    When the broker it names says that another one leads, the lookup fails with
    an error that is retried, but the cache keeps the response that was wrong
    (only the generation of the second response is invalidated, and that
    response never has one), so that the next attempt starts from the same
    state and asks the same broker again. *)
Theorem stale_leader_stays_cached m g w l l' w' {Req Resp T}
    `{RequestBody Req Resp, WriteVersionedType Req, ReadVersionedType Resp} (req : Req)
    (throttle_time_ms : Resp -> option Int32) (process : Resp -> outcome Error T) :
  broker (w_leader w) = None ->
  fst (cache_get (Some [topic self]) (w_metadata w)) = Some (m, g) ->
  leader_get fuel self w = Some (Err (not_leader_error self l l'), w') ->
  retry_closure (BrokerCache0:=leader_cache fuel self) (retry_decision (unknown_topic_handling self))
    (broker_attempt (leader_get fuel self) req throttle_time_ms process) w
    = Some (Ok (Continue (EtError (not_leader_error self l l'))), w') /\
  broker (w_leader w') = None /\
  fst (cache_get (Some [topic self]) (w_metadata w')) = Some (m, g).
Proof.
  intros Hnone Hhit Hget. split; [|].
  { unfold retry_closure, broker_attempt, io_bind, io_try, io_map_err. by rewrite Hget. }
  pose proof Hget as Hcell. apply leader_get_miss, leader_lookup_cell in Hcell as [[Hc _]|(b & ? & [=] & _)]; [|done].
  rewrite Hc. split; [done|]. apply leader_get_miss in Hget; [|done].
  assert (Hno : forall mode w0 w1, get_leader fuel self mode w0 <> Some (Err (not_leader_error self l l'), w1)).
  { intros mode w0 w1 (o & _ & Hr)%get_leader_split. destruct o as [[m0 g0]|e|p]; try done.
    revert Hr. unfold leader_of, exactly_one_topic, check_topic. rewrite exactly_one_spec.
    destruct (mresp_topics m0) as [|t [|]]; simpl; try done.
    by repeat (case_match || case_decide); simpl. }
  inversion Hget as [o w1 Hl Ho Heq|? ? ? c ? ? ? Hb Heq|? ? ? ? ? o w3 ? ? Hs Ho Heq
    |l0 g1 w1 b w2 l1 w3 Hl Hcon Hs Hne Heq Hw| |]; subst.
  - destruct o; try done. injection Heq as ->. by apply Hno in Hl.
  - by destruct c.
  - destruct o; try done. injection Heq as ->. by apply Hno in Hs.
  - apply get_leader_keeps in Hl as (_ & _ & Hl), Hs as (_ & _ & Hs).
    apply (connector_connect_keeps fuel _ _ w1 w1 (reflexivity w1)) in Hcon as (_ & _ & Hcon & _).
    rewrite Hs, Hcon, Hl. simpl. by rewrite (cache_hit_same _ _ _ _ Hhit).
Qed.

(** A lookup does not fill the cache either: a response for a single topic is
    not cached, so an empty cache stays empty. *)
Theorem lookup_does_not_cache mode w r w' :
  get_leader fuel self mode w = Some (r, w') ->
  cache_entry (w_metadata w) = None -> w_metadata w' = w_metadata w.
Proof.
  intros (_ & _ & ->)%get_leader_keeps Hnone. destruct mode; simpl; try done.
  unfold cache_get, cache_lookup. by rewrite Hnone.
Qed.
End properties.

Section operations.
Context {N : Type} `{!Network N} {rsasl : Rsasl} {prof : Profile}.
Context {VC : VarIntCrate} {CC : Codecs} {CH : Chrono}.
Variable fuel : nat.
Local Abbreviation World := (World (N:=N)).
Implicit Types w : World.
Context (self : PartitionClient (N:=N)).

(** The errors that an operation reports: that of an attempt, if it is not
    retried; or, only with a configured deadline, the failure of the retries. *)
Definition reported_error (e : Error) : Prop :=
  (fst (retry_decision (unknown_topic_handling self) e) = false /\ attempted e) \/
  (config_deadline (pc_backoff_config self) <> None /\
   exists d e0, e = RetryFailed (DeadlineExceded d e0) /\
     fst (retry_decision (unknown_topic_handling self) e0) = true).

Lemma leader_of_attempted m e : leader_of (topic self) (partition self) m = Err e -> attempted e.
Proof.
  unfold leader_of, exactly_one_topic, check_topic. rewrite exactly_one_spec.
  destruct (mresp_topics m) as [|t [|]]; simpl; try (by intros [= <-]).
  repeat (case_match || case_decide); simpl; by intros [= <-].
Qed.

Lemma get_leader_attempted mode : fails_with attempted (get_leader fuel self mode).
Proof.
  intros w e w' (o & _ & Hr)%get_leader_split. destruct o as [[m g]|e0|p]; [|by injection Hr as ->|done].
  destruct (leader_of _ _ m) as [l|e0|p] eqn:Hl; simpl in Hr; try done. injection Hr as ->.
  by eapply leader_of_attempted.
Qed.

Lemma leader_get_attempted : fails_with attempted (leader_get fuel self).
Proof.
  intros w e w' Hget. destruct (broker (w_leader w)) as [b|] eqn:Hb.
  { revert Hget. unfold leader_get, io_bind, io_get. by rewrite Hb. }
  apply leader_get_miss in Hget; [|done].
  inversion Hget as [o w1 Hl Ho Heq|? ? ? c ? ? ? ? Heq|? ? ? ? ? o w3 ? ? Hs Ho Heq|? ? ? ? ? ? ? ? ? ? ? Heq| |];
    subst; [| | |done].
  - destruct o; try done. injection Heq as ->. by eapply get_leader_attempted.
  - by destruct c; try done; injection Heq as <-.
  - destruct o; try done. injection Heq as ->. by eapply get_leader_attempted.
Qed.

Lemma on_leader_split {Req Resp T}
    `{RequestBody Req Resp, WriteVersionedType Req, ReadVersionedType Resp} (req : Req)
    (throttle_time_ms : Resp -> option Int32) (process : Resp -> outcome Error T) w r w' :
  (forall resp e, process resp = Err e -> attempted e) ->
  on_leader fuel self req throttle_time_ms process w = Some (r, w') ->
  match r with
  | Ok v => exists b w1 resp, request (Resp:=Resp) b req w1 = Some (Ok resp, w') /\
      maybe_throttle (E:=Error * option Z) (throttle_time_ms resp) = Ok tt /\ process resp = Ok v
  | Err e => reported_error e
  | Panic _ => True
  end.
Proof.
  intros Hproc Hr%maybe_retry_split. destruct r as [v|e|p]; [|..|done].
  - destruct Hr as (w1 & (b & g & w2 & resp & _ & Hreq & Ht & Hp)%broker_attempt_ok). by exists b, w2, resp.
  - destruct Hr as [(Hd & g & w1 & w2 & Hf)|(Hc & d & e0 & g & w1 & w2 & -> & Hd & _)]; [left|right; by eauto].
    split; [done|]. by eapply broker_attempt_attempted, Hf; [apply leader_get_attempted|].
Qed.

Lemma process_produce_attempted n resp e :
  process_produce_response (partition self) (topic self) n resp = Err e -> attempted e.
Proof.
  unfold process_produce_response, exactly_one_topic, exactly_one_partition, check_topic, check_partition.
  rewrite exactly_one_spec. destruct (produce_responses resp) as [|t [|]]; simpl; try (by intros [= <-]).
  case_decide; [|by intros [= <-]]. simpl. rewrite exactly_one_spec.
  destruct (partition_responses t) as [|q [|]]; simpl; try (by intros [= <-]).
  destruct (_ =? _); [|by intros [= <-]]. simpl. destruct (prr_error q); [by intros [= <-]|].
  intros Herr. apply try_map_err in Herr as (x & _ & Herr). revert Herr. unfold arith_signed. by repeat case_match.
Qed.

Lemma process_fetch_attempted offset resp e :
  process_fetch_response (partition self) (topic self) resp offset = Err e -> attempted e.
Proof.
  unfold process_fetch_response, exactly_one_topic, exactly_one_partition, check_topic, check_partition.
  rewrite exactly_one_spec. destruct (fetch_responses resp) as [|t [|]]; simpl; try (by intros [= <-]).
  case_decide; [|by intros [= <-]]. simpl. rewrite exactly_one_spec.
  destruct (frs_partitions t) as [|q [|]]; simpl; try (by intros [= <-]).
  repeat case_match; simpl; by intros [= <-].
Qed.

(** The result of [produce]. *)
Lemma produce_result records compression w r w' :
  zlen records < 2 ^ 63 ->
  produce fuel self records compression w = Some (r, w') ->
  (records = [] /\ r = Ok [] /\ w' = w) \/
  (records <> [] /\
   match r with
   | Ok offsets => zlen offsets = zlen records /\
       exists req b w1 resp t p,
         build_produce_request (partition self) (topic self) records compression = Ok req /\
         request (Resp:=ProduceResponse) b req w1 = Some (Ok resp, w') /\
         produce_responses resp = [t] /\ string_ (prr_name t) = topic self /\
         partition_responses t = [p] /\ int32 (prr_index p) = partition self /\ prr_error p = None /\
         (in_signed 64 (int64 (prr_base_offset p)) ->
          int64 (prr_base_offset p) + zlen records <= 2 ^ 63 ->
          offsets = seqZ (int64 (prr_base_offset p)) (zlen records))
   | Err e => reported_error e
   | Panic _ => True
   end).
Proof.
  intros Hlen. unfold produce. destruct records as [|x records]; [intros [= <- <-]; by left|].
  unfold io_bind, io_lift. intros Hr. right. split; [done|]. revert Hr.
  pose proof (zlen_nonneg (x :: records)) as Hn.
  rewrite wrap_signed_id by (try lia; unfold in_signed; simpl in *; lia).
  destruct (build_produce_request _ _ _ _) as [req|e|p] eqn:Hb; [| |by intros [= <- <-]].
  - intros Hr%on_leader_split; [|by apply process_produce_attempted]. destruct r as [offsets|e|p]; [|done|done].
    destruct Hr as (b & w1 & resp & Hreq & _ & Hp).
    destruct (produced_offsets_consecutive _ _ _ _ _ Hp Hn) as (Hl & t & q & Ht & Hname & Hq & Hi & He & Ho).
    split; [done|]. by exists req, b, w1, resp, t, q.
  - exfalso. revert Hb. unfold build_produce_request, produce_batch, arith_signed.
    simpl. repeat case_match; done.
Qed.

(** C17: what producing records returns.  No record, no request.  Otherwise a
    success comes from a broker's answer to the request made of these records:
    there is one offset for each of them, and they are the base offset of the
    answer and the ones after it.  An error is that of an attempt, one that is
    not retried; or the failure of the retries, if a deadline is configured. *)
Theorem produce_outcome records compression w r w' :
  zlen records < 2 ^ 63 ->
  produce fuel self records compression w = Some (r, w') ->
  (records = [] /\ r = Ok [] /\ w' = w) \/
  (records <> [] /\
   match r with
   | Ok offsets => zlen offsets = zlen records /\
       exists req b w1 resp t p,
         build_produce_request (partition self) (topic self) records compression = Ok req /\
         request (Resp:=ProduceResponse) b req w1 = Some (Ok resp, w') /\
         produce_responses resp = [t] /\ string_ (prr_name t) = topic self /\
         partition_responses t = [p] /\ int32 (prr_index p) = partition self /\ prr_error p = None /\
         (in_signed 64 (int64 (prr_base_offset p)) ->
          int64 (prr_base_offset p) + zlen records <= 2 ^ 63 ->
          offsets = seqZ (int64 (prr_base_offset p)) (zlen records))
   | Err e => reported_error e
   | Panic _ => True
   end).
Proof. apply produce_result. Qed.

(** C27: a produce request that the broker stored but answered with a throttle
    time is sent again: the answer is dropped before its offsets are looked at,
    and the client sleeps and makes the same attempt with the same request once
    more.  A broker that stored the records gets them a second time. *)
Theorem throttled_produce_sent_again req n w b g w1 resp w2 offsets t :
  leader_get fuel self w = Some (Ok (b, g), w1) ->
  request (Resp:=ProduceResponse) b req w1 = Some (Ok resp, w2) ->
  process_produce_response (partition self) (topic self) n resp = Ok offsets ->
  maybe_throttle (E:=Error * option Z) (produce_throttle_time_ms resp) = Err (Throttle t) ->
  let attempt := broker_attempt (leader_get fuel self) req produce_throttle_time_ms
    (process_produce_response (partition self) (topic self) n) in
  attempt w = Some (Err (Throttle t), w2) /\
  forall fuel' config,
    maybe_retry (BrokerCache0:=leader_cache fuel self) (S fuel') (retry_decision (unknown_topic_handling self))
      config attempt w =
    maybe_retry (BrokerCache0:=leader_cache fuel self) fuel' (retry_decision (unknown_topic_handling self))
      config attempt (sleep_for (from_millis t) w2).
Proof.
  intros Hget Hreq _ Ht attempt.
  assert (attempt w = Some (Err (Throttle t), w2)) as Hatt.
  { unfold attempt, broker_attempt, io_map_err, io_bind, io_lift. rewrite Hget. cbn. rewrite Hreq. cbn. by rewrite Ht. }
  split; [done|]. intros fuel' config. unfold maybe_retry, io_flatten, io_map_err, io_bind.
  rewrite (retry_throttled _ _ _ _ t w2); [done|].
  unfold retry_closure. unfold io_bind at 1, io_try. by rewrite Hatt.
Qed.

(** What fetching records returns. *)
Lemma fetch_result offset bytes_start bytes_end max_wait_ms w r w' :
  client_fetch_records fuel self offset bytes_start bytes_end max_wait_ms w = Some (r, w') ->
  match r with
  | Ok (rs, hw) => exists b w1 resp t p,
      request (Resp:=FetchResponse) b
        (build_fetch_request offset bytes_start bytes_end max_wait_ms (partition self) (topic self)) w1
        = Some (Ok resp, w') /\
      fetch_responses resp = [t] /\ string_ (frs_topic t) = topic self /\ frs_partitions t = [p] /\
      int32 (frs_partition_index p) = partition self /\ frs_error_code p = None /\
      extract_records (records_0 (frs_records p)) offset = Ok rs /\ hw = int64 (high_watermark p)
  | Err e => reported_error e \/
      exists p, extract_records (records_0 (frs_records p)) offset = Err e
  | Panic _ => True
  end.
Proof.
  unfold client_fetch_records. unfold io_bind at 1.
  destruct (on_leader _ _ _ _ _ w) as [[o w1]|] eqn:Hl; [|done]. apply on_leader_split in Hl; [|intros resp; by apply process_fetch_attempted].
  destruct o as [part|e|p]; [|intros [= <- <-]; by left|by intros [= <- <-]].
  destruct Hl as (b & w2 & resp & Hreq & _ & Hp). unfold io_bind, io_lift.
  destruct (extract_records _ offset) as [rs|e|p] eqn:Hx; intros [= <- <-]; [|by eauto|done].
  revert Hp. unfold process_fetch_response, exactly_one_topic, exactly_one_partition, check_topic, check_partition.
  rewrite exactly_one_spec. destruct (fetch_responses resp) as [|t [|]] eqn:Ht; simpl; try done.
  case_decide as Hn; [|done]. simpl. rewrite exactly_one_spec.
  destruct (frs_partitions t) as [|q [|]] eqn:Hq; simpl; try done.
  destruct (Z.eqb_spec (int32 (frs_partition_index q)) (partition self)); [|done]. simpl.
  destruct (frs_error_code q) eqn:He; [done|]. intros [= ->]. by exists b, w2, resp, t, part.
Qed.

(** C21: what fetching records returns: the records that [extract_records] takes
    from the batches of a broker's answer for this partition, with the high
    watermark of the same answer.  The records are extracted once, outside of
    the retries, so a malformed timestamp is an error at once. *)
Theorem fetch_outcome offset bytes_start bytes_end max_wait_ms w r w' :
  client_fetch_records fuel self offset bytes_start bytes_end max_wait_ms w = Some (r, w') ->
  match r with
  | Ok (rs, hw) => exists b w1 resp t p,
      request (Resp:=FetchResponse) b
        (build_fetch_request offset bytes_start bytes_end max_wait_ms (partition self) (topic self)) w1
        = Some (Ok resp, w') /\
      fetch_responses resp = [t] /\ string_ (frs_topic t) = topic self /\ frs_partitions t = [p] /\
      int32 (frs_partition_index p) = partition self /\ frs_error_code p = None /\
      extract_records (records_0 (frs_records p)) offset = Ok rs /\ hw = int64 (high_watermark p)
  | Err e => reported_error e \/
      exists p, extract_records (records_0 (frs_records p)) offset = Err e
  | Panic _ => True
  end.
Proof. apply fetch_result. Qed.
End operations.

(** ** Concrete runs *)
Import RefNetwork.

Definition sample_partition_client : PartitionClient (N:=Net) :=
  mkPartitionClient (ascii_string [116]) 0 sample_connector BackoffConfig_default UnknownTopicError.

(** Cached metadata in which broker 1 at "h:9092" leads partition 0 of "t". *)
Definition sample_leader_metadata : MetadataResponse :=
  mkMetadataResponse None [mkMetadataResponseBroker (mkInt32 1) (mkString_ (ascii_string [104])) (mkInt32 9092) None]
    None None
    [mkMetadataResponseTopic None (mkString_ (ascii_string [116])) None
       [mkMetadataResponsePartition None (mkInt32 0) (mkInt32 1) (mkArray None) (mkArray None)]].

Definition leader_world (tcp : list (outcome ErrorKind Z)) (replies : list Reply) : RefWorld :=
  set_metadata (mkMetadataCache (Some sample_leader_metadata) 1)
    (set_topology (topology_update (brokers sample_leader_metadata) ∅) (world (mkNet [] tcp replies []) [])).

Definition sample_leader_get (w : RefWorld) :=
  leader_get (rsasl:=ref_rsasl) (prof:=debug_profile) 3 sample_partition_client w.

(** Broker 1 confirms that it is the leader. *)
Definition confirming_world : RefWorld :=
  leader_world [Ok 7] [reply_of (V 3) metadata_versions; metadata_reply 1].

Lemma leader_connection_sound_witness :
  exists b g w', sample_leader_get confirming_world = Some (Ok (b, g), w') /\
  exists l m1 g1 w1 br w2 m2 w3,
    request_metadata (rsasl:=ref_rsasl) (prof:=debug_profile) 3 sample_connector CachedArbitrary
      (Some [ascii_string [116]]) confirming_world = Some (Ok (m1, g1), w1) /\
    names_leader sample_partition_client m1 l /\ w_topology w1 !! l = Some br /\
    representation_connect (rsasl:=ref_rsasl) (prof:=debug_profile) 3 sample_connector (TopologyBroker br) w1
      = Some (Ok b, w2) /\
    request_metadata (rsasl:=ref_rsasl) (prof:=debug_profile) 3 sample_connector (SpecificBroker b)
      (Some [ascii_string [116]]) w2 = Some (Ok (m2, None), w3) /\
    names_leader sample_partition_client m2 l /\
    bump (prof:=debug_profile) (E:=Error) (gen_broker (w_leader confirming_world)) = Ok g /\
    w' = set_leader (mkCurrentBroker (Some b) g g1 None) w3.
Proof.
  assert (Hlen : sent_ok (sample_leader_get confirming_world) = Some 2%nat) by (vm_compute; reflexivity).
  destruct (sample_leader_get confirming_world) as [[[[b g]|e|p] w']|] eqn:Hr; try discriminate Hlen.
  exists b, g, w'. split; [reflexivity|].
  apply (leader_connection_sound (rsasl:=ref_rsasl) (prof:=debug_profile) 3 sample_partition_client
    confirming_world b g w' eq_refl Hr).
Defined.

(** Nothing listens at the address of broker 1. *)
Definition unreachable_world : RefWorld := leader_world [Err OtherIo] [].

Lemma unreachable_leader_invalidates_witness :
  exists e w', sample_leader_get unreachable_world = Some (Err (Connection e), w') /\
    cache_entry (w_metadata w') = None.
Proof.
  assert (Hc : exists e w2, connector_connect (rsasl:=ref_rsasl) (prof:=debug_profile) 3 sample_connector 1
    unreachable_world = Some (Err e, w2)) by (eexists _, _; vm_compute; reflexivity).
  destruct Hc as (e & w2 & Hc). exists e.
  apply (unreachable_leader_invalidates (rsasl:=ref_rsasl) (prof:=debug_profile) 3 sample_partition_client
    sample_leader_metadata 1 1 unreachable_world e w2).
  - reflexivity.
  - vm_compute. reflexivity.
  - vm_compute. reflexivity.
  - exact Hc.
Defined.

(** Broker 1 says that broker 2 is the leader. *)
Definition moved_world : RefWorld :=
  leader_world [Ok 7] [reply_of (V 3) metadata_versions; metadata_reply 2].
Definition sample_offset_request : ListOffsetsRequest :=
  build_list_offsets_request 0 (ascii_string [116]) Latest.
Definition is_not_leader {A} (r : option (outcome Error A * RefWorld)) : bool :=
  match r with
  | Some (Err (ServerError Errors.NotLeaderOrFollower None (CtxPartition t 0) (Some (LeaderForward 1 2)) true), _) =>
      bool_decide (t = ascii_string [116])
  | _ => false
  end.

Lemma is_not_leader_spec {A} (r : option (outcome Error A * RefWorld)) :
  is_not_leader r = true -> exists w', r = Some (Err (not_leader_error sample_partition_client 1 2), w').
Proof.
  unfold is_not_leader. intros H. repeat case_match; try done. apply bool_decide_eq_true in H. subst.
  by eexists.
Qed.

Lemma stale_leader_stays_cached_witness :
  exists w', retry_closure (BrokerCache0:=leader_cache (rsasl:=ref_rsasl) (prof:=debug_profile) 3 sample_partition_client)
    (retry_decision UnknownTopicError)
    (broker_attempt sample_leader_get sample_offset_request lo_throttle_time_ms
       (process_list_offsets_response 0 (ascii_string [116]))) moved_world
    = Some (Ok (Continue (EtError (not_leader_error sample_partition_client 1 2))), w') /\
  broker (w_leader w') = None /\
  fst (cache_get (Some [ascii_string [116]]) (w_metadata w')) = Some (sample_leader_metadata, 1).
Proof.
  assert (Hn : is_not_leader (sample_leader_get moved_world) = true) by (vm_compute; reflexivity).
  apply is_not_leader_spec in Hn as (w' & Hr). exists w'.
  apply (stale_leader_stays_cached (rsasl:=ref_rsasl) (prof:=debug_profile) 3 sample_partition_client
    sample_leader_metadata 1 moved_world 1 2 w' sample_offset_request lo_throttle_time_ms
    (process_list_offsets_response 0 (ascii_string [116]))).
  - reflexivity.
  - vm_compute. reflexivity.
  - exact Hr.
Defined.

(** The leader stores the record of the request at offset 41. *)
Definition sample_produce_world : RefWorld :=
  set_leader (mkCurrentBroker (Some (with_ranges [(ApiKeys.Produce, mkApiVersionRange (V 3) (V 3))])) 1 None None)
    (world (mkNet [] [] [reply_bytes (to_be_bytes 4 1 ++ to_be_bytes 2 1 ++ [byte_of_Z 116] ++ to_be_bytes 4 1
       ++ to_be_bytes 4 0 ++ to_be_bytes 2 0 ++ to_be_bytes 8 41 ++ to_be_bytes 8 (-1) ++ to_be_bytes 4 0)] []) [0]).
Definition sample_client_record : ClientRecord := mkClientRecord None (Some [byte_of_Z 1]) [] (5 * nanos_per_milli).
Definition sample_client_produce :=
  produce (rsasl:=ref_rsasl) (prof:=debug_profile) (VC:=ref_varint) (CC:=ref_codecs) (CH:=ref_chrono)
    3 sample_partition_client [sample_client_record] Compression_NoCompression sample_produce_world.

Lemma produce_outcome_witness :
  exists offsets w', sample_client_produce = Some (Ok offsets, w') /\ offsets = [41] /\ zlen offsets = 1.
Proof.
  assert (Hlen : (match sample_client_produce with Some (Ok [41], _) => true | _ => false end) = true)
    by (vm_compute; reflexivity).
  destruct sample_client_produce as [[[offsets|e|p] w']|] eqn:Hr; try discriminate Hlen.
  exists offsets, w'. split; [reflexivity|].
  split; [destruct offsets as [|z [|]]; try discriminate Hlen; by repeat case_match|].
  destruct (produce_outcome (rsasl:=ref_rsasl) (prof:=debug_profile) (VC:=ref_varint) (CC:=ref_codecs)
    (CH:=ref_chrono) 3 sample_partition_client [sample_client_record] Compression_NoCompression
    sample_produce_world (Ok offsets) w' ltac:(vm_compute; reflexivity) Hr) as [[? _]|[_ [Hz _]]];
    [discriminate|exact Hz].
Defined.

(** The leader stores the record, and throttles the client for 7 ms. *)
Definition produce_connection : MessengerTransport (N:=Net) :=
  with_ranges [(ApiKeys.Produce, mkApiVersionRange (V 3) (V 3))].
Definition throttled_world : RefWorld :=
  set_leader (mkCurrentBroker (Some produce_connection) 1 None None)
    (world (mkNet [] [] [reply_bytes (to_be_bytes 4 1 ++ to_be_bytes 2 1 ++ [byte_of_Z 116] ++ to_be_bytes 4 1
       ++ to_be_bytes 4 0 ++ to_be_bytes 2 0 ++ to_be_bytes 8 41 ++ to_be_bytes 8 (-1) ++ to_be_bytes 4 7)] []) [0]).
Definition throttled_request : ProduceRequest :=
  match build_produce_request (H:=ref_chrono) (prof:=debug_profile) 0 (ascii_string [116]) [sample_client_record]
          Compression_NoCompression with
  | Ok req => req
  | _ => mkProduceRequest (mkNullableString None) (mkInt16 0) (mkInt32 0) []
  end.
Definition sample_throttled_answer :=
  request (Resp:=ProduceResponse) produce_connection throttled_request throttled_world.

Definition stored_at_41 (r : outcome Error (list Z)) : bool := match r with Ok [41] => true | _ => false end.
Definition throttled_7 {E} (r : outcome (ErrorOrThrottle E) unit) : bool :=
  match r with Err (Throttle 7) => true | _ => false end.

Lemma stored_at_41_ok r : stored_at_41 r = true -> r = Ok [41].
Proof. unfold stored_at_41. intros. by repeat case_match. Qed.
Lemma throttled_7_ms {E} (r : outcome (ErrorOrThrottle E) unit) : throttled_7 r = true -> r = Err (Throttle 7).
Proof. unfold throttled_7. intros. by repeat case_match. Qed.

Lemma throttled_produce_sent_again_witness :
  exists w2, broker_attempt sample_leader_get throttled_request produce_throttle_time_ms
    (process_produce_response (prof:=debug_profile) 0 (ascii_string [116]) 1) throttled_world = Some (Err (Throttle 7), w2).
Proof.
  assert (Hc : match sample_throttled_answer with
               | Some (Ok resp, _) =>
                   stored_at_41 (process_produce_response (prof:=debug_profile) 0 (ascii_string [116]) 1 resp)
                   && throttled_7 (maybe_throttle (E:=Error * option Z) (produce_throttle_time_ms resp))
               | _ => false
               end = true) by (vm_compute; reflexivity).
  destruct sample_throttled_answer as [[[resp|e|p] w2]|] eqn:Hr; try discriminate Hc.
  apply andb_prop in Hc as [Hp Ht].
  exists w2. apply (throttled_produce_sent_again (rsasl:=ref_rsasl) (prof:=debug_profile) (VC:=ref_varint) (CC:=ref_codecs)
    3 sample_partition_client throttled_request 1 throttled_world produce_connection 1 throttled_world resp w2 [41] 7).
  - reflexivity.
  - exact Hr.
  - exact (stored_at_41_ok _ Hp).
  - exact (throttled_7_ms _ Ht).
Defined.

#[local] Existing Instance debug_profile.

(** The leader answers a fetch with no records and high watermark 5. *)
Definition sample_fetch_world : RefWorld :=
  set_leader (mkCurrentBroker (Some (with_ranges [(ApiKeys.Fetch, mkApiVersionRange (V 4) (V 4))])) 1 None None)
    (world (mkNet [] [] [reply_bytes (to_be_bytes 4 0 ++ to_be_bytes 4 1 ++ to_be_bytes 2 1 ++ [byte_of_Z 116]
       ++ to_be_bytes 4 1 ++ to_be_bytes 4 0 ++ to_be_bytes 2 0 ++ to_be_bytes 8 5 ++ to_be_bytes 8 5
       ++ to_be_bytes 4 0 ++ to_be_bytes 4 0)] []) [0]).
Definition sample_client_fetch :=
  client_fetch_records (rsasl:=ref_rsasl) (prof:=debug_profile) (VC:=ref_varint) (CC:=ref_codecs) (CH:=ref_chrono)
    3 sample_partition_client 5 1 1000 100 sample_fetch_world.

Lemma fetch_outcome_witness :
  exists rs hw w', sample_client_fetch = Some (Ok (rs, hw), w') /\
  exists b w1 resp t p,
    request (Resp:=FetchResponse) b (build_fetch_request 5 1 1000 100 0 (ascii_string [116])) w1
      = Some (Ok resp, w') /\
    fetch_responses resp = [t] /\ string_ (frs_topic t) = ascii_string [116] /\ frs_partitions t = [p] /\
    int32 (frs_partition_index p) = 0 /\ frs_error_code p = None /\
    extract_records (records_0 (frs_records p)) 5 = Ok rs /\ hw = int64 (high_watermark p).
Proof.
  assert (Hlen : sent_ok sample_client_fetch = Some 1%nat) by (vm_compute; reflexivity).
  destruct sample_client_fetch as [[[[rs hw]|e|p] w']|] eqn:Hr; try discriminate Hlen.
  exists rs, hw, w'. split; [reflexivity|].
  apply (fetch_outcome (rsasl:=ref_rsasl) (prof:=debug_profile) (VC:=ref_varint) (CC:=ref_codecs)
    (CH:=ref_chrono) 3 sample_partition_client 5 1 1000 100 sample_fetch_world (Ok (rs, hw)) w' Hr).
Defined.
