(* ===== verification/CacheRefinement.v ===== *)
(** * The three caches of a broker connection

    [BrokerConnector], [ControllerClient] and [PartitionClient] implement the
    trait [BrokerCache], and the two functions [maybe_retry] decide after which
    errors a connection is dropped.  Here the lemmas of [BrokerCache] and [Retry]
    are put together for these implementations: what a sequence of calls of
    several tasks sees, and that a connection is not used again after an error
    that speaks against it. *)

From Stdlib Require Import ZArith Lia.
From stdpp Require Import base list numbers gmap.
From S2P Require Import Prelude Bytes Wire VecBuilder Varint Primitives PrimitiveLaws Record.
From S2P Require Import Codec RecordBatch RefCrates ApiKey ErrorCode Versioned ApiVersionsMsg DataMessages TopicMessages.
From S2P Require Import Support MetadataCache Messenger Io Backoff Topology Transport.
From S2P Require Import Session BrokerCache Connection Aggregator Partition PartitionProps Retry Controller PartitionClient.
Import ClientErrors.

Local Open Scope Z_scope.

(** The errors that speak against the connection of an attempt: it is broken,
    or its broker answers that it is not the one to ask. *)
Inductive connection_fault (wrong_broker : Errors.Error) : Error -> Prop :=
| fault_poisoned e : connection_fault wrong_broker (Request (Poisoned e))
| fault_io e : connection_fault wrong_broker (Request (ReqIO e))
| fault_connection e : connection_fault wrong_broker (Connection e)
| fault_wrong_broker message request response is_virtual :
    connection_fault wrong_broker (ServerError wrong_broker message request response is_virtual).

Section caches.
Context {N : Type} `{!Network N} `{!NetworkOk N} {rsasl : Rsasl} {prof : Profile}.
Variable fuel : nat.
Local Abbreviation World := (World (N:=N)).
Implicit Types w : World.

Definition broker_cell (c : BrokerCell (N:=N)) : cell MessengerTransport := (cell_broker c, cell_gen c).
Definition leader_cell (c : CurrentBroker (N:=N)) : cell MessengerTransport := (broker c, gen_broker c).

(** C15: the three caches of broker connections behave as one cell that holds
    a connection and a generation.  Whatever the order in which tasks get and
    invalidate, the connector's, the controller client's and the partition
    client's cache make the steps of the cell [cell_step], as long as the
    [usize] of the generation has room for the calls.  So two connections that
    are handed out with the same generation are the same one, and after a caller
    invalidated with the generation it got, everyone gets a newer one. *)
Theorem broker_caches_refine :
  (forall (self : BrokerConnector (N:=N)) w evs w',
     cache_run (BrokerCache0:=arbitrary_cache fuel self) w evs w' ->
     gen_room (cell_gen (w_arbitrary w)) (zlen evs) ->
     cell_run (broker_cell (w_arbitrary w)) evs (broker_cell (w_arbitrary w')) /\
     one_connection evs /\ broken_never_again evs) /\
  (forall (self : ControllerClient (N:=N)) w evs w',
     cache_run (BrokerCache0:=controller_cache fuel self) w evs w' ->
     gen_room (cell_gen (w_controller w)) (zlen evs) ->
     cell_run (broker_cell (w_controller w)) evs (broker_cell (w_controller w')) /\
     one_connection evs /\ broken_never_again evs) /\
  (forall (self : PartitionClient (N:=N)) w evs w',
     cache_run (BrokerCache0:=leader_cache fuel self) w evs w' ->
     gen_room (gen_broker (w_leader w)) (zlen evs) ->
     cell_run (leader_cell (w_leader w)) evs (leader_cell (w_leader w')) /\
     one_connection evs /\ broken_never_again evs).
Proof.
  split; [|split]; intros self w evs w' Hrun Hroom;
    (pose proof (cache_run_refines _ _ _ Hrun Hroom) as Hcell;
     split; [exact Hcell|by eapply cell_run_sound]).
Qed.

Lemma controller_fault e :
  connection_fault Errors.NotController e -> controller_decision e = (true, true).
Proof. by destruct 1. Qed.

Lemma leader_fault h e :
  connection_fault Errors.NotLeaderOrFollower e -> retry_decision h e = (true, true).
Proof. by destruct 1. Qed.

(** C22: a retry starts with a new connection.  When an attempt of the
    controller client fails with a poisoned or broken connection, a connection
    that cannot be made, or an answer that the broker is not the controller, the
    attempt is repeated and the cached connection is gone before that; the same
    holds for the partition client and a broker that is not the leader, and
    there also, where unknown topics are retried, for an unknown topic. *)
Theorem retry_uses_fresh_connection {Req Resp T}
    `{RequestBody Req Resp, WriteVersionedType Req, ReadVersionedType Resp}
    (req : Req) (throttle_time_ms : Resp -> option Int32) (process : Resp -> outcome Error T) w e g w1 :
  (forall self : ControllerClient (N:=N),
     broker_attempt (controller_get fuel self) req throttle_time_ms process w
       = Some (Err (EtError (e, g)), w1) ->
     connection_fault Errors.NotController e ->
     exists w', retry_closure (BrokerCache0:=controller_cache fuel self) controller_decision
         (broker_attempt (controller_get fuel self) req throttle_time_ms process) w
         = Some (Ok (Continue (EtError e)), w') /\
       cell_broker (w_controller w') = None) /\
  (forall self : PartitionClient (N:=N),
     broker_attempt (leader_get fuel self) req throttle_time_ms process w
       = Some (Err (EtError (e, g)), w1) ->
     connection_fault Errors.NotLeaderOrFollower e \/
       (unknown_topic_handling self = UnknownTopicRetry /\
        exists m r rs v, e = ServerError Errors.UnknownTopicOrPartition m r rs v) ->
     exists w', retry_closure (BrokerCache0:=leader_cache fuel self)
         (retry_decision (unknown_topic_handling self))
         (broker_attempt (leader_get fuel self) req throttle_time_ms process) w
         = Some (Ok (Continue (EtError e)), w') /\
       broker (w_leader w') = None).
Proof.
  split; intros self Hf Hfault.
  - destruct (retry_drops_connection (BrokerCacheOk0:=controller_cache_ok fuel self)
      ltac:(by intros ? ? (_ & _ & _ & Hc & _); simpl; rewrite Hc)
      controller_decision req throttle_time_ms process w e g w1 Hf (controller_fault _ Hfault))
      as (w' & Hr & Hc). by exists w'.
  - assert (Hd : retry_decision (unknown_topic_handling self) e = (true, true)).
    { destruct Hfault as [Hfault|(-> & m & r & rs & v & ->)]; [by apply leader_fault|done]. }
    destruct (retry_drops_connection (BrokerCacheOk0:=leader_cache_ok fuel self)
      ltac:(by intros ? ? (_ & _ & _ & _ & Hc); simpl; rewrite Hc)
      _ req throttle_time_ms process w e g w1 Hf Hd) as (w' & Hr & Hc). by exists w'.
Qed.
End caches.

(** ** Concrete runs *)
Import RefNetwork.

(** The connection of the connector is dropped and made again. *)
Lemma broker_caches_refine_witness :
  exists b w', arbitrary_get (rsasl:=ref_rsasl) (prof:=debug_profile) 6 sample_connector
      (arbitrary_invalidate 4 sample_reconnect_world) = Some (Ok (b, 5), w') /\
    cell_run (Some sample_cached, 4) [Invalidated 4; Got b 5] (broker_cell (w_arbitrary w')) /\
    one_connection [Invalidated 4; Got b 5] /\ broken_never_again [Invalidated 4; Got b 5].
Proof.
  set (w0 := arbitrary_invalidate 4 sample_reconnect_world).
  assert (Hok : match arbitrary_get (rsasl:=ref_rsasl) (prof:=debug_profile) 6 sample_connector w0 with
                | Some (Ok (_, g), _) => g =? 5
                | _ => false
                end = true) by (vm_compute; reflexivity).
  destruct (arbitrary_get 6 sample_connector w0) as [[[[b g]|e|p] w']|] eqn:Hr; try discriminate Hok.
  apply Z.eqb_eq in Hok. subst g. exists b, w'. split; [reflexivity|].
  apply (proj1 (broker_caches_refine (rsasl:=ref_rsasl) (prof:=debug_profile) 6) sample_connector
    sample_reconnect_world [Invalidated 4; Got b 5] w').
  - apply run_invalidated. eapply run_got; [exact Hr|]. apply run_nil.
  - done.
Defined.

(** The connection breaks while the topic is created. *)
Definition sample_create_broken : RefWorld := set_net (mkNet [] [] [Broken] []) sample_create_world.
Definition sample_create_attempt : io RefWorld attempt_error unit :=
  broker_attempt (controller_get (rsasl:=ref_rsasl) (prof:=debug_profile) 3 sample_controller_client)
    (create_topic_request (ascii_string [116]) 1 1 5000) ctresp_throttle_time_ms process_create_response.
Definition is_broken_pipe (e : Error) : bool :=
  match e with Request (Poisoned _ | ReqIO _) => true | _ => false end.

Lemma is_broken_pipe_fault wrong e : is_broken_pipe e = true -> connection_fault wrong e.
Proof. destruct e as [|[]| | | |]; try discriminate; constructor. Qed.

Lemma retry_uses_fresh_connection_witness :
  exists e g w1 w', sample_create_attempt sample_create_broken = Some (Err (EtError (e, g)), w1) /\
    retry_closure (BrokerCache0:=controller_cache (rsasl:=ref_rsasl) (prof:=debug_profile) 3 sample_controller_client)
      controller_decision sample_create_attempt sample_create_broken = Some (Ok (Continue (EtError e)), w') /\
    cell_broker (w_controller w') = None.
Proof.
  assert (Hc : (match sample_create_attempt sample_create_broken with
                | Some (Err (EtError (e, _)), _) => is_broken_pipe e
                | _ => false
                end) = true) by (vm_compute; reflexivity).
  destruct (sample_create_attempt sample_create_broken) as [[[x|[[e g]|t]|p] w1]|] eqn:Hr; try discriminate Hc.
  exists e, g, w1.
  destruct (proj1 (retry_uses_fresh_connection (rsasl:=ref_rsasl) (prof:=debug_profile) 3
    (create_topic_request (ascii_string [116]) 1 1 5000) ctresp_throttle_time_ms process_create_response
    sample_create_broken e g w1) sample_controller_client Hr (is_broken_pipe_fault _ _ Hc)) as (w' & H1 & H2).
  exists w'. split; [reflexivity|]. split; [exact H1|exact H2].
Defined.
