(* ===== verification/BatchProducer.v ===== *)
(** * The producer on a partition client (src/client/producer.rs)

    [BatchProducerBuilder] and the trait [ProducerClient], which
    [PartitionClient] implements.  The system of [Producer] lets the client
    answer anything with one offset per record; here the tasks get their
    answers from a client that runs in a world, one call at a time. *)

From Stdlib Require Import ZArith Lia.
From stdpp Require Import base list numbers gmap fin_maps.
From S2P Require Import Prelude Bytes Wire VecBuilder Varint Primitives PrimitiveLaws Record.
From S2P Require Import Codec RecordBatch RefCrates ApiKey ErrorCode Versioned ApiVersionsMsg DataMessages TopicMessages.
From S2P Require Import Support MetadataCache Messenger Io Backoff Topology Transport.
From S2P Require Import Session BrokerCache Connection Aggregator Batch Producer Partition PartitionProps.
From S2P Require Import Retry Controller PartitionClient.

Local Open Scope Z_scope.
Local Open Scope rust_scope.

(** The trait [ProducerClient], and what the producer relies on: a vector has
    fewer than 2^63 elements. *)
Class ProducerClient (W CE : Type) : Type :=
  client_produce : list ClientRecord -> Compression -> io W CE (list Z).

Class ProducerClientOk {W CE : Type} (client : ProducerClient W CE) : Prop :=
  one_offset_each : forall records compression w offsets w',
    zlen records < 2 ^ 63 -> client records compression w = Some (Ok offsets, w') ->
    length offsets = length records.

Section builder.
Context {W CE A Input Tag D Status : Type}.
Context `{AI : Aggregator A Input Tag D, DI : StatusDeaggregator D Tag Status}.

Record BatchProducerBuilder : Type := mkBatchProducerBuilder {
  bpb_client : ProducerClient W CE;
  bpb_linger : Z;
  bpb_compression : Compression;
}.

(** [BatchProducerBuilder::new_with_client]. *)
Definition BatchProducerBuilder_new (client : ProducerClient W CE) : BatchProducerBuilder :=
  mkBatchProducerBuilder client (from_millis 5) Compression_NoCompression.

Definition with_linger (linger : Z) (self : BatchProducerBuilder) : BatchProducerBuilder :=
  mkBatchProducerBuilder (bpb_client self) linger (bpb_compression self).

Definition with_compression (compression : Compression) (self : BatchProducerBuilder) :
    BatchProducerBuilder :=
  mkBatchProducerBuilder (bpb_client self) (bpb_linger self) compression.

(** [BatchProducer]: the client and the compression are those of its
    [ProducerInner], whose other fields are the system of [Producer]. *)
Record BatchProducer : Type := mkBatchProducer {
  linger : Z;
  client : ProducerClient W CE;
  compression : Compression;
  producer_inner : psystem CE A Input Tag D Status;
}.

(** [BatchProducerBuilder::build]. *)
Definition BatchProducer_build (aggregator : A) (self : BatchProducerBuilder) : BatchProducer :=
  mkBatchProducer (bpb_linger self) (bpb_client self) (bpb_compression self) (ps_initial aggregator).

(** ** The system *)

(** The task of a batch calls the client; everything else is as in
    [Producer]. *)
Inductive run_step (p : BatchProducer) :
    psystem CE A Input Tag D Status * W -> psystem CE A Input Tag D Status * W -> Prop :=
| run_task tid t answer s h w w' :
    tasks (ps_store s) !! tid = Some t -> task_answer t = None -> zlen (task_batch t) < 2 ^ 63 ->
    client p (task_batch t) (compression p) w = Some (answer, w') ->
    complete_task tid t answer (ps_store s) = Ok h ->
    run_step p (s, w) (mkPsystem (ps_inner s) h (ps_calls s) (ps_lingers s) (ps_taken s), w')
| run_other s s' w w' :
    pstep s s' ->
    (forall tid t r, tasks (ps_store s') !! tid = Some t -> task_answer t = Some r ->
       exists tid', tasks (ps_store s) !! tid' = Some t) ->
    run_step p (s, w) (s', w').

Inductive running (p : BatchProducer) : psystem CE A Input Tag D Status -> W -> Prop :=
| running_start w : running p (producer_inner p) w
| running_step s w s' w' : running p s w -> run_step p (s, w) (s', w') -> running p s' w'.

(** Each answer of a task is an answer of the client for its batch. *)
Definition answers_of_client (p : BatchProducer) (s : psystem CE A Input Tag D Status) : Prop :=
  forall tid t r, tasks (ps_store s) !! tid = Some t -> task_answer t = Some r ->
  exists w w', zlen (task_batch t) < 2 ^ 63 /\ client p (task_batch t) (compression p) w = Some (r, w').

Lemma complete_task_tasks tid (t : FlushTask CE D) answer h h' :
  complete_task tid t answer h = Ok h' ->
  tasks h' = <[tid := mkFlushTask (task_batch t) (task_deagg t) (task_cell t) (Some answer)]> (tasks h).
Proof.
  unfold complete_task, task_result, broadcast, broadcast_drop.
  destruct answer; simpl; repeat case_match; intros; simplify_eq; done.
Qed.

Lemma running_answers (a : A) b s w :
  running (BatchProducer_build a b) s w -> answers_of_client (BatchProducer_build a b) s.
Proof.
  induction 1 as [w|s w s' w' _ IH Hs].
  { intros tid t r Ht. simpl in Ht. done. }
  inversion Hs as [tid t answer ? h ? ? Ht Ha Hl Hc Hcomp|? ? ? ? _ Hold]; subst.
  - intros tid' t' r. simpl. rewrite (complete_task_tasks _ _ _ _ _ Hcomp).
    destruct (decide (tid' = tid)) as [->|Hne].
    + rewrite list_lookup_insert_eq by by eapply lookup_lt_Some. intros [= <-] [= <-]. simpl. eauto.
    + rewrite list_lookup_insert_ne by done. apply IH.
  - intros tid t r Ht Hr. destruct (Hold tid t r Ht Hr) as [tid' Ht']. by eapply IH.
Qed.

(** The producer on a client is the producer of [Producer]. *)
Lemma running_reachable (a : A) b s w :
  ProducerClientOk (bpb_client b) -> running (BatchProducer_build a b) s w -> preachable a s.
Proof.
  intros Hok. induction 1 as [w|s w s' w' _ IH Hs]; [constructor|].
  inversion Hs as [tid t answer ? h ? ? Ht Ha Hl Hc Hcomp|? ? ? ? Hp _]; subst.
  - eapply preach_step; [exact IH|]. eapply p_complete; [done..| |done].
    intros offsets ->. by eapply Hok.
  - by eapply preach_step.
Qed.
End builder.

(** ** On a partition client *)
Section partition.
Context {N : Type} `{!Network N} {rsasl : Rsasl} {prof : Profile} {VC : VarIntCrate}.
Context {CC : Codecs} {CH : Chrono}.
Context (fuel : nat) (self : PartitionClient (N:=N)).

(** [impl ProducerClient for PartitionClient]. *)
#[export] Instance partition_producer_client : ProducerClient (World (N:=N)) ClientErrors.Error :=
  produce fuel self.

#[export] Instance partition_producer_client_ok : ProducerClientOk partition_producer_client.
Proof.
  intros records compression w offsets w' Hlen Hp. unfold partition_producer_client in Hp.
  destruct (produce_result _ _ _ _ _ _ _ Hlen Hp) as [(-> & [= ->] & _)|[_ [Hz _]]]; [done|].
  unfold zlen in Hz. lia.
Qed.

(** C8: a produced record is where the producer says. When a call of a producer
    on a partition client returns an offset, in any interleaving of calls,
    lingers, flushes and cancellations, the record of the call was in a batch
    of which a request for this partition was made, a broker answered that
    request without an error, and the offset is the base offset of the answer
    plus the position of the record in the batch. *)
Theorem produced_where_returned a b s w id c v :
  bpb_client b = partition_producer_client ->
  running (A:=RecordAggregator) (Status:=Z) (BatchProducer_build a b) s w ->
  ps_calls s !! id = Some c -> pc_result c = Some (Ok v) ->
  exists batch req conn w1 resp w2 t p,
    batch !! handle_tag (pc_handle c) = Some (pc_input c) /\
    build_produce_request (partition self) (topic self) batch (bpb_compression b) = Ok req /\
    request (Resp:=ProduceResponse) conn req w1 = Some (Ok resp, w2) /\
    produce_responses resp = [t] /\ string_ (prr_name t) = topic self /\
    partition_responses t = [p] /\ int32 (prr_index p) = partition self /\ prr_error p = None /\
    (in_signed 64 (int64 (prr_base_offset p)) -> int64 (prr_base_offset p) + zlen batch <= 2 ^ 63 ->
     v = int64 (prr_base_offset p) + Z.of_nat (handle_tag (pc_handle c))).
Proof.
  intros Hb Hrun Hc Hv.
  assert (Hreach : preachable a s).
  { eapply running_reachable; [rewrite Hb; apply partition_producer_client_ok|done]. }
  destruct (ow_result _ (own_reachable (batch:=fun a => agg_records (agg_state a))
    (status_of:=fun o => o) a s Hreach) id c v Hc Hv)
    as (o & (t & offsets & ((tid & Ht) & _ & Hin) & Hans & _ & Ho) & ->).
  destruct (running_answers _ _ _ _ Hrun tid t _ Ht Hans) as (w1 & w2 & Hlen & Hp).
  simpl in Hp. rewrite Hb in Hp. unfold partition_producer_client in Hp.
  destruct (produce_result _ _ _ _ _ _ _ Hlen Hp) as [(Hnil & _)|[_ [Hz H]]]; [by rewrite Hnil in Hin|].
  destruct H as (req & conn & w1' & resp & tr & pr & Hreq & Hresp & Htr & Hname & Hpr & Hidx & Herr & Hoff).
  exists (task_batch t), req, conn, w1', resp, w2, tr, pr. do 8 (split; [done|]).
  intros Hs Hmax. rewrite (Hoff Hs Hmax) in Ho. by apply lookup_seqZ in Ho as [-> _].
Qed.
End partition.

(** ** A run on the reference network *)
Import ClientErrors RefNetwork.

Definition sample_producer_client : ProducerClient RefWorld Error :=
  partition_producer_client (rsasl:=ref_rsasl) (prof:=debug_profile) (VC:=ref_varint) (CC:=ref_codecs)
    (CH:=ref_chrono) 3 sample_partition_client.

Abbreviation sample_psystem :=
  (psystem Error RecordAggregator ClientRecord nat RecordAggregatorStatusDeaggregator Z).

Definition sample_producer :=
  BatchProducer_build (Input:=ClientRecord) (Tag:=nat) (D:=RecordAggregatorStatusDeaggregator) (Status:=Z)
    (RecordAggregator_new 100) (BatchProducerBuilder_new sample_producer_client).

Definition batch_call (r : option (outcome (ProducerError Error) Z)) : pcall Error ClientRecord nat Z :=
  mkPcall sample_client_record (mkResultHandle 0 0%nat) r.

Definition batch_pushed : sample_psystem :=
  mkPsystem
    (mkProducerInner (Some (mkBatchBuilder (mkRecordAggregator 100
       (mkAggregatorState (approximate_size sample_client_record) [sample_client_record])) 0)) 0 true [])
    (mkStore [None] []) (<[1%nat := batch_call None]> ∅) (<[1%nat := 0]> ∅) [].

Definition batch_flushed : sample_psystem :=
  mkPsystem (mkProducerInner (Some (mkBatchBuilder (RecordAggregator_new 100) 1)) 1 false [])
    (mkStore [None; None] [mkFlushTask [sample_client_record] RecordDeaggregator 0 None])
    (ps_calls batch_pushed) (ps_lingers batch_pushed) [0%nat].

Definition batch_written : sample_psystem :=
  mkPsystem (ps_inner batch_flushed)
    (mkStore [Some (Ok (Ok (mkAggregatedStatus [41] RecordDeaggregator))); None]
       [mkFlushTask [sample_client_record] RecordDeaggregator 0 (Some (Ok [41]))])
    (ps_calls batch_pushed) (ps_lingers batch_pushed) [0%nat].

Definition batch_returned : sample_psystem :=
  mkPsystem (ps_inner batch_written) (ps_store batch_written)
    (<[1%nat := batch_call (Some (Ok 41))]> (ps_calls batch_written)) (ps_lingers batch_written) [0%nat].

Lemma batch_returned_running : exists w, running sample_producer batch_returned w.
Proof.
  assert (Hp : exists w', sample_client_produce = Some (Ok [41], w')).
  { assert (Hlen : (match sample_client_produce with Some (Ok [41], _) => true | _ => false end) = true)
      by (vm_compute; reflexivity).
    destruct sample_client_produce as [[[offsets|e|p] w']|]; try discriminate Hlen.
    exists w'. do 3 f_equal. destruct offsets as [|z [|]]; try discriminate Hlen; by repeat case_match. }
  destruct Hp as [w' Hp]. exists w'.
  eapply running_step; [eapply running_step; [eapply running_step; [eapply running_step;
    [apply (running_start _ sample_produce_world)|]|]|]|].
  - apply (run_other _ _ batch_pushed _ sample_produce_world).
    + by apply (p_linger 1 sample_client_record (mkResultHandle 0 0%nat) 0).
    + intros tid t r Ht. done.
  - apply (run_other _ _ batch_flushed _ sample_produce_world).
    + by apply (p_flush [0%nat]).
    + intros [|tid] t r Ht Hr; [|done]. by injection Ht as <-.
  - eapply (run_task _ 0 (mkFlushTask [sample_client_record] RecordDeaggregator 0 None) (Ok [41]) batch_flushed);
      [reflexivity|reflexivity|vm_compute; reflexivity|exact Hp|reflexivity].
  - apply (run_other _ batch_written batch_returned).
    + by apply (p_receive (DI:=RecordAggregator_StatusDeaggregator) 1 (batch_call None)
        (Ok (Ok (mkAggregatedStatus [41] RecordDeaggregator))) batch_written).
    + eauto.
Qed.

Lemma produced_where_returned_witness :
  exists (batch : list ClientRecord) resp t p,
    batch !! 0%nat = Some sample_client_record /\ produce_responses resp = [t] /\
    partition_responses t = [p] /\ int32 (prr_index p) = partition sample_partition_client /\
    prr_error p = None.
Proof.
  destruct batch_returned_running as [w Hw].
  destruct (produced_where_returned (rsasl:=ref_rsasl) (prof:=debug_profile) (VC:=ref_varint)
    (CC:=ref_codecs) (CH:=ref_chrono) 3 sample_partition_client (RecordAggregator_new 100)
    (BatchProducerBuilder_new sample_producer_client) batch_returned w 1 (batch_call (Some (Ok 41))) 41
    eq_refl Hw eq_refl eq_refl)
    as (batch & req & conn & w1 & resp & w2 & t & p & Hb & _ & _ & Ht & _ & Hp & Hi & He & _).
  by exists batch, resp, t, p.
Defined.
