(* ===== verification/Client.v ===== *)
(** * The client and its builder (src/client/mod.rs, src/topic.rs, src/build_info.rs)

    [ClientBuilder] collects the configuration and connects to the cluster;
    [Client] lists topics and makes the specialised clients. *)

From Stdlib Require Import ZArith Lia.
From stdpp Require Import base list numbers gmap.
From S2P Require Import Prelude Bytes Wire VecBuilder Varint Primitives PrimitiveLaws ApiKey.
From S2P Require Import ErrorCode Versioned ApiVersionsMsg TopicMessages Support MetadataCache Messenger.
From S2P Require Import Io Backoff Topology Transport Session BrokerCache Connection Aggregator.
From S2P Require Import Partition Retry Controller PartitionClient.
Import ClientErrors.

Local Open Scope Z_scope.
Local Open Scope rust_scope.

(** [DEFAULT_CLIENT_ID]: the name of the crate. *)
Definition DEFAULT_CLIENT_ID : rstring := CARGO_PKG_NAME.

(** [Topic]; the set of partitions is ordered in the source. *)
Record Topic : Type := mkTopic {
  topic_name : rstring;
  topic_partitions : gset Z;
}.

Section client.
Context {N : Type} `{!Network N} {rsasl : Rsasl} {prof : Profile}.
Variable fuel : nat.
Local Abbreviation World := (World (N:=N)).

Record ClientBuilder : Type := mkClientBuilder {
  cb_bootstrap_brokers : list rstring;
  cb_client_id : option rstring;
  cb_max_message_size : Z;
  cb_socks5_proxy : option rstring;
  cb_tls_config : TlsConfig (N:=N);
  cb_sasl_config : option SaslConfig;
  cb_backoff_config : BackoffConfig;
}.

Record Client : Type := mkClient {
  client_brokers : BrokerConnector (N:=N);
  client_backoff_config : BackoffConfig;
}.

(** [ClientBuilder::new] and the setters. *)
Definition ClientBuilder_new (bootstrap_brokers : list rstring) : ClientBuilder :=
  mkClientBuilder bootstrap_brokers None (100 * 1024 * 1024) None None None BackoffConfig_default.

Definition with_client_id (x : rstring) (b : ClientBuilder) : ClientBuilder :=
  mkClientBuilder (cb_bootstrap_brokers b) (Some x) (cb_max_message_size b) (cb_socks5_proxy b)
    (cb_tls_config b) (cb_sasl_config b) (cb_backoff_config b).
Definition with_max_message_size (x : Z) (b : ClientBuilder) : ClientBuilder :=
  mkClientBuilder (cb_bootstrap_brokers b) (cb_client_id b) x (cb_socks5_proxy b)
    (cb_tls_config b) (cb_sasl_config b) (cb_backoff_config b).
Definition with_backoff_config (x : BackoffConfig) (b : ClientBuilder) : ClientBuilder :=
  mkClientBuilder (cb_bootstrap_brokers b) (cb_client_id b) (cb_max_message_size b) (cb_socks5_proxy b)
    (cb_tls_config b) (cb_sasl_config b) x.
Definition with_socks5_proxy (x : rstring) (b : ClientBuilder) : ClientBuilder :=
  mkClientBuilder (cb_bootstrap_brokers b) (cb_client_id b) (cb_max_message_size b) (Some x)
    (cb_tls_config b) (cb_sasl_config b) (cb_backoff_config b).
Definition with_tls_config (x : ClientConfig (N:=N)) (b : ClientBuilder) : ClientBuilder :=
  mkClientBuilder (cb_bootstrap_brokers b) (cb_client_id b) (cb_max_message_size b) (cb_socks5_proxy b)
    (Some x) (cb_sasl_config b) (cb_backoff_config b).
Definition with_sasl_config (x : SaslConfig) (b : ClientBuilder) : ClientBuilder :=
  mkClientBuilder (cb_bootstrap_brokers b) (cb_client_id b) (cb_max_message_size b) (cb_socks5_proxy b)
    (cb_tls_config b) (Some x) (cb_backoff_config b).

(** [BrokerConnector::new]: the immutable fields, and the initial state. *)
Definition connector_of (self : ClientBuilder) : BrokerConnector (N:=N) :=
  mkBrokerConnector (cb_bootstrap_brokers self) (default DEFAULT_CLIENT_ID (cb_client_id self))
    (cb_tls_config self) (cb_socks5_proxy self) (cb_sasl_config self) (cb_max_message_size self)
    (cb_backoff_config self).

Definition connector_init (w : World) : World :=
  set_topology ∅ (set_arbitrary (mkBrokerCell None BrokerCacheGeneration_START) (set_metadata MetadataCache_default w)).

(** [ClientBuilder::build]. *)
Definition build (self : ClientBuilder) : io World Error Client :=
  let brokers := connector_of self in
  do! _ <- io_put connector_init in
  do! _ <- io_map_err Connection (refresh_metadata fuel brokers) in
  io_ret (mkClient brokers (cb_backoff_config self)).

(** [Client::controller_client]. *)
Definition controller_client (self : Client) : io World Error (ControllerClient (N:=N)) :=
  do! _ <- io_put (set_controller (mkBrokerCell None 0)) in
  io_ret (mkControllerClient (client_brokers self) (client_backoff_config self)).

(** [Client::partition_client]. *)
Definition partition_client (self : Client) (topic : rstring) (partition : Z)
    (unknown_topic_handling : UnknownTopicHandling) : io World Error (PartitionClient (N:=N)) :=
  PartitionClient_new fuel topic partition (client_brokers self) unknown_topic_handling
    (client_backoff_config self).

(** The topics of a response that [list_topics] returns. *)
Definition is_external (t : MetadataResponseTopic) : bool :=
  match is_internal t with
  | Some b => negb (boolean b)
  | None => true
  end.

Definition external_topics (topics : list MetadataResponseTopic) : list Topic :=
  map (fun t => mkTopic (string_ (mt_name t))
                  (list_to_set (map (fun p => int32 (mp_partition_index p)) (mt_partitions t))))
      (List.filter is_external topics).

(** [Client::list_topics]. *)
Definition list_topics (self : Client) : io World Error (list Topic) :=
  do! (response, _) <- io_map_err Connection (request_metadata fuel (client_brokers self) ArbitraryBroker None) in
  io_ret (external_topics (mresp_topics response)).
End client.

(** ** Properties *)
Section properties.
Context {N : Type} `{!Network N} {rsasl : Rsasl} {prof : Profile}.
Variable fuel : nat.
Local Abbreviation World := (World (N:=N)).
Implicit Types w : World.

(** A client that was built has the metadata of the cluster.  It asked a
    broker for all topics; the brokers of the answer are its topology and the
    answer is cached, so that later lookups that accept cached metadata are
    answered without a request. *)
Theorem built_client_has_metadata (b : ClientBuilder (N:=N)) w c w' :
  build fuel b w = Some (Ok c, w') ->
  exists m, request_metadata fuel (connector_of b) ArbitraryBroker None (connector_init w)
      = Some (Ok (m, None), w') /\
    client_brokers c = connector_of b /\
    w_topology w' = topology_update (brokers m) ∅ /\ w_metadata w' = mkMetadataCache (Some m) 1 /\
    request_metadata fuel (client_brokers c) CachedArbitrary None w' = Some (Ok (m, Some 1), w').
Proof.
  unfold build, refresh_metadata, io_bind, io_map_err, io_put.
  destruct (request_metadata _ _ _ _ (connector_init w)) as [[o w1]|] eqn:Hm; [|done].
  pose proof (request_metadata_branches _ _ _ _ _ _ _ Hm) as (_ & _ & Hs).
  destruct o as [[m [g|]]|e|p]; simpl; try done; [by destruct Hs|].
  intros [= <- <-]. destruct Hs as (_ & Ht & Hc). exists m. simpl in Hc.
  rewrite update_in_range in Hc by (by vm_compute). injection Hc as Hc. symmetry in Hc.
  repeat split; try done. unfold request_metadata, lookup_cached, io_bind. rewrite Hc. unfold cache_get, cache_lookup. simpl.
  unfold io_lift. do 2 f_equal. destruct w1. simpl in *. by subst.
Qed.

(** Listing topics asks a broker, never the cache; the result has the
    topics of the answer that are not internal, with the partitions of each,
    and the answer replaces the cached metadata, so that a topic that the
    listing shows can be looked up there. *)
Theorem list_topics_fresh (c : Client (N:=N)) w ts w' :
  list_topics fuel c w = Some (Ok ts, w') ->
  exists m, request_metadata fuel (client_brokers c) ArbitraryBroker None w = Some (Ok (m, None), w') /\
    cache_update (E:=ConnectionErrors.Error) m (w_metadata w) = (Ok tt, w_metadata w') /\
    (forall t, In t ts <-> exists x, In x (mresp_topics m) /\
       match is_internal x with Some b => boolean b = false | None => True end /\
       topic_name t = string_ (mt_name x) /\
       forall p, p ∈ topic_partitions t <->
         exists q, In q (mt_partitions x) /\ int32 (mp_partition_index q) = p).
Proof.
  unfold list_topics, io_bind, io_map_err.
  destruct (request_metadata _ _ _ _ w) as [[o w1]|] eqn:Hm; [|done].
  pose proof (request_metadata_branches _ _ _ _ _ _ _ Hm) as (_ & _ & Hs).
  destruct o as [[m [g|]]|e|p]; simpl; try done; [by destruct Hs|].
  intros [= <- <-]. destruct Hs as (_ & _ & Hc). exists m. split; [done|]. split; [done|].
  intros t. unfold external_topics. rewrite in_map_iff.
  assert (Hext : forall x, is_external x = true <->
    match is_internal x with Some b => boolean b = false | None => True end).
  { intros x. unfold is_external. destruct (is_internal x) as [[[]]|]; done. }
  assert (Hset : forall (x : MetadataResponseTopic) p,
    p ∈ (list_to_set (map (fun q => int32 (mp_partition_index q)) (mt_partitions x)) : gset Z) <->
    exists q, In q (mt_partitions x) /\ int32 (mp_partition_index q) = p).
  { intros x p. rewrite elem_of_list_to_set, list_elem_of_In, in_map_iff. naive_solver. }
  split.
  - intros (x & <- & [Hin Hx]%filter_In). exists x. split; [done|]. split; [by apply Hext|]. split; [done|].
    intros p. apply Hset.
  - intros (x & Hin & Hx & Hn & Hp). exists x. split; [|by apply filter_In; split; [|apply Hext]].
    destruct t as [n ps]. simpl in *. rewrite Hn. f_equal. apply set_eq. intros p. by rewrite Hp, Hset.
Qed.
End properties.

(** ** Concrete runs *)
Import RefNetwork.
#[local] Existing Instance debug_profile.

Definition sample_builder : ClientBuilder (N:=Net) := ClientBuilder_new [ascii_string [98]].
Definition sample_build := build (rsasl:=ref_rsasl) 6 sample_builder sample_metadata_world.

Lemma built_client_has_metadata_witness :
  exists c w', sample_build = Some (Ok c, w') /\ sent_ok sample_build = Some 2%nat /\
  exists m, request_metadata (rsasl:=ref_rsasl) 6 (connector_of sample_builder) ArbitraryBroker None
      (connector_init sample_metadata_world) = Some (Ok (m, None), w') /\
    client_brokers c = connector_of sample_builder /\
    w_topology w' = topology_update (brokers m) ∅ /\ w_metadata w' = mkMetadataCache (Some m) 1 /\
    request_metadata (rsasl:=ref_rsasl) 6 (client_brokers c) CachedArbitrary None w' = Some (Ok (m, Some 1), w').
Proof.
  assert (Hlen : sent_ok sample_build = Some 2%nat) by (vm_compute; reflexivity).
  destruct sample_build as [[[c|e|p] w']|] eqn:Hr; try discriminate Hlen.
  exists c, w'. split; [reflexivity|]. split; [exact Hlen|].
  apply (built_client_has_metadata (rsasl:=ref_rsasl) (prof:=debug_profile) 6 sample_builder sample_metadata_world c w' Hr).
Defined.

Definition sample_client : Client (N:=Net) := mkClient sample_connector BackoffConfig_default.
Definition sample_list := list_topics (rsasl:=ref_rsasl) 6 sample_client sample_metadata_world.

Lemma list_topics_fresh_witness :
  exists ts w' m, sample_list = Some (Ok ts, w') /\
    request_metadata (rsasl:=ref_rsasl) 6 sample_connector ArbitraryBroker None sample_metadata_world
      = Some (Ok (m, None), w') /\
    cache_update (E:=ConnectionErrors.Error) m MetadataCache_default = (Ok tt, w_metadata w').
Proof.
  assert (Hlen : sent_ok sample_list = Some 2%nat) by (vm_compute; reflexivity).
  destruct sample_list as [[[ts|e|p] w']|] eqn:Hr; try discriminate Hlen.
  destruct (list_topics_fresh (rsasl:=ref_rsasl) (prof:=debug_profile) 6 sample_client sample_metadata_world ts w' Hr)
    as (m & Hm & Hc & _).
  exists ts, w', m. split; [reflexivity|]. split; [exact Hm|exact Hc].
Defined.
