(* ===== verification/FuzzTarget.v ===== *)
(** * The fuzz targets (src/fuzz/fuzz_targets)

    [protocol_reader] turns its input into a response frame for one of six
    requests and runs that request on a messenger whose stream holds nothing
    but the frame; [record_batch_body_reader] parses its input as the body of a
    record batch.  A target fails when it panics, and the driver panics when
    the request is not answered in time.

    The driver and the reader task of the messenger run on one thread.  How far
    the reader gets before the request is registered is up to the scheduler:
    the driver takes it as an argument. *)

From Stdlib Require Import ZArith Lia.
From stdpp Require Import base list numbers gmap.
From S2P Require Import Prelude Bytes Wire VecBuilder Varint Primitives PrimitiveLaws Record.
From S2P Require Import Codec RecordBatch RefCrates ApiKey ErrorCode Versioned Header ApiVersionsMsg.
From S2P Require Import DataMessages TopicMessages Schema SchemaLaws Frame Support Messenger Client.

Local Open Scope Z_scope.
Local Open Scope rust_scope.

(** [Box<dyn std::error::Error>], by what is boxed. *)
Inductive FuzzError : Type :=
| FuzzRead (e : ReadError)
| FuzzRequest (e : RequestError)
| FuzzNotImplemented (api_key : ApiKeys.ApiKey).

(** ** The reader task of the messenger on the mock transport

    Its position in the data, the state it shares with the request, what it has
    sent, and whether it is still running. *)
Record ReaderTask : Type := mkReaderTask {
  task_state : MessengerState;
  task_data : src;
  task_sent : list delivery;
  task_running : bool;
}.

(** One iteration of its loop; a message is never above the limit, so that the
    skipping loop is not entered and needs no fuel.  The step itself has no
    error: it ends with a state or panics. *)
Definition task_iter {E} (max_message_size : Z) (t : ReaderTask) : outcome E ReaderTask :=
  if task_running t then
    match read_message 0 max_message_size (task_data t) with
    | Some (r, data) =>
        match reader_step r (task_state t) with
        | Ok (st, ds, go) => Ok (mkReaderTask st data (task_sent t ++ ds) go)
        | Err _ => Panic Unreachable
        | Panic p => Panic p
        end
    | None => Ok t
    end
  else Ok t.

Fixpoint task_iters {E} (n : nat) (max_message_size : Z) (t : ReaderTask) : outcome E ReaderTask :=
  match n with
  | O => Ok t
  | S n => let! t := task_iter max_message_size t in task_iters n max_message_size t
  end.

(** What a request receives on its channel. *)
Fixpoint received (chan : nat) (sent : list delivery) : option (outcome RequestError Response) :=
  match sent with
  | [] => None
  | (c, r) :: sent => if Nat.eqb c chan then Some r else received chan sent
  end.

(** ** The driver *)

(** [send_recv]: the frame is written by the crate itself; the request is then
    made under a timeout that must not expire. *)
Definition send_recv {Req Resp} `{RequestBody Req Resp, WriteVersionedType Req, ReadVersionedType Resp}
    (before : nat) (request : Req) (message : list byte) (api_key : ApiKeys.ApiKey)
    (api_version : ApiVersion) : outcome FuzzError unit :=
  let message_size := zlen message in
  let! transport_data := match write_message message with
                         | Ok bs => Ok bs
                         | Err _ => Panic ExpectFailed
                         | Panic p => Panic p
                         end in
  let! range := ApiVersionRange_new api_version api_version in
  let ranges := [(api_key, range)] in
  let task := mkReaderTask (RequestMap ∅) (cursor transport_data) [] true in
  let! p := omap_err FuzzRequest (prepare_request (Resp:=Resp) ranges DEFAULT_CLIENT_ID 0 request) in
  let! task := task_iters before message_size task in
  let! st := omap_err FuzzRequest
    (register 0 (mkActiveRequest 0 (use_tagged_fields_in_response p)) (task_state task)) in
  let task := mkReaderTask st (task_data task) (task_sent task) (task_running task) in
  (** the sink accepts everything *)
  let! _ := match write_message (prepared_buf p) with
            | Ok _ => Ok tt
            | Err e => let '(_, e, _) := poison (WriteMessageError e) st in Err (FuzzRequest (Poisoned e))
            | Panic p => Panic p
            end in
  let! task := task_iters (S (S (length transport_data))) message_size task in
  match received 0 (task_sent task) with
  | Some r =>
      let! response := omap_err FuzzRequest r in
      let! _ := omap_err FuzzRequest
        (finish_response (Resp:=Resp) (API_KEY (Req:=Req) (Resp:=Resp)) (body_api_version p) response) in
      Ok tt
  | None => Panic ExpectFailed
  end.

Section driver.
Context `{VarIntCrate, Codecs} {prof : Profile}.

(** [driver]. *)
Definition driver (before : nat) (data : list byte) : outcome FuzzError unit :=
  let! (api_key, cursor) := omap_err FuzzRead (read (A:=Int16) (cursor data)) in
  let api_key := ApiKey_from_Int16 api_key in
  let! (api_version, cursor) := omap_err FuzzRead (read (A:=Int16) cursor) in
  let api_version := mkApiVersion api_version in
  let message := src_data cursor in
  match api_key with
  | ApiKeys.ApiVersions =>
      send_recv (Resp:=ApiVersionsResponse) before
        (mkApiVersionsRequest (Some (mkCompactString [])) (Some (mkCompactString []))
           (Some TaggedFields_default)) message api_key api_version
  | ApiKeys.CreateTopics =>
      send_recv (Resp:=CreateTopicsResponse) before
        (mkCreateTopicsRequest [] (mkInt32 0) None None) message api_key api_version
  | ApiKeys.Fetch =>
      send_recv (Resp:=FetchResponse) before
        (mkFetchRequest (mkInt32 0) (mkInt32 0) (mkInt32 0) None None []) message api_key api_version
  | ApiKeys.ListOffsets =>
      send_recv (Resp:=ListOffsetsResponse) before
        (mkListOffsetsRequest (mkInt32 0) None []) message api_key api_version
  | ApiKeys.Metadata =>
      send_recv (Resp:=MetadataResponse) before
        (mkMetadataRequest None None) message api_key api_version
  | ApiKeys.Produce =>
      send_recv (Resp:=ProduceResponse) before
        (mkProduceRequest (mkNullableString None) (mkInt16 0) (mkInt32 0) []) message api_key api_version
  | _ => Err (FuzzNotImplemented api_key)
  end.

(** [fuzz_target!] of record_batch_body_reader.rs: the result is dropped. *)
Definition record_batch_body_target (data : list byte) : outcome ReadError unit :=
  match RecordBatchBody_read (cursor data) with
  | Panic p => Panic p
  | _ => Ok tt
  end.
End driver.

(** ** The reader task on a stream that holds one frame *)
Lemma reader_step_ok r st : (forall q, r <> Panic q) -> exists x, reader_step r st = Ok x.
Proof.
  intros Hr. pose proof (reader_step_no_panic r st) as Hn.
  destruct (reader_step r st) as [x|[]|p] eqn:Hs; [by eexists| |by destruct (Hn p)].
  exfalso. unfold reader_step in Hs. by repeat case_match.
Qed.

Lemma read_frame message bs :
  write_message message = Ok bs ->
  read_message 0 (zlen message) (cursor bs) = Some (Ok message, cursor []).
Proof.
  intros Hw. pose proof (read_message_frame 0 (zlen message) message bs (cursor []) Hw) as H.
  rewrite src_app_cursor in H. rewrite H. by destruct (Z.ltb_spec (zlen message) (zlen message)); [lia|].
Qed.

Lemma read_end limit : read_message 0 limit (cursor []) = Some (Err (FrameReadIO UnexpectedEof), cursor []).
Proof. done. Qed.

(** Where the task can be: in front of the frame, after it, or stopped with the
    state poisoned. *)
Section one_frame.
Context (message bs : list byte).
Hypothesis Hw : write_message message = Ok bs.

Definition waiting (m : gmap Z ActiveRequest) (t : ReaderTask) : Prop :=
  task_running t = true /\ task_sent t = [] /\ task_state t = RequestMap m.

Definition in_frame (t : ReaderTask) : Prop := task_data t = cursor bs \/ task_data t = cursor [].

(** Before the request is registered nothing is sent. *)
Definition unregistered (t : ReaderTask) : Prop :=
  in_frame t /\ (waiting ∅ t \/ exists e, task_state t = Poison e /\ task_running t = false).

Lemma unregistered_iter {E} t :
  unregistered t -> exists t', task_iter (E:=E) (zlen message) t = Ok t' /\ unregistered t'.
Proof.
  intros [Hf [(Hr & Hs & Hm)|(e & He & Hr)]]; unfold task_iter; rewrite Hr; [|eexists; split; [done|by split; [|eauto]]].
  destruct Hf as [Hf|Hf]; rewrite Hf.
  - rewrite (read_frame _ _ Hw). destruct (reader_step_ok (Ok message) (task_state t)) as [[[st ds] go] Hst]; [done|].
    rewrite Hst. eexists. split; [done|]. rewrite Hm in Hst. unfold reader_step in Hst.
    assert (st = RequestMap ∅ /\ ds = [] /\ go = true) as (-> & -> & ->).
    { repeat case_match; simplify_eq; try done; by rewrite lookup_empty in *. }
    split; [by right|]. left. unfold waiting. simpl. by rewrite Hs.
  - rewrite read_end. rewrite Hm. simpl. eexists. split; [done|]. split; [by right|]. right. by eexists.
Qed.

Lemma unregistered_iters {E} n t :
  unregistered t -> exists t', task_iters (E:=E) n (zlen message) t = Ok t' /\ unregistered t'.
Proof.
  revert t. induction n as [|n IH]; intros t Ht; simpl; [by eexists|].
  destruct (unregistered_iter (E:=E) t Ht) as (t1 & -> & Ht1). simpl. by apply IH.
Qed.

(** Once it is registered, the request is answered within two iterations. *)
Definition answered (t : ReaderTask) : Prop :=
  exists r, received 0 (task_sent t) = Some r /\ forall p, r <> Panic p.

Lemma received_app chan sent ds r : received chan sent = Some r -> received chan (sent ++ ds) = Some r.
Proof. induction sent as [|[c x] sent IH]; simpl; [done|]. by destruct (Nat.eqb c chan). Qed.

Lemma answered_iter {E} t :
  in_frame t -> answered t -> exists t', task_iter (E:=E) (zlen message) t = Ok t' /\ in_frame t' /\ answered t'.
Proof.
  intros Hf (r & Hr & Hp). unfold task_iter. destruct (task_running t); [|by exists t; repeat split; [|exists r]].
  assert (exists o, read_message 0 (zlen message) (task_data t) = Some (o, cursor []) /\
    forall q, o <> Panic q) as (o & -> & Ho).
  { destruct Hf as [->| ->]; [rewrite (read_frame _ _ Hw)|rewrite read_end]; by eexists. }
  destruct (reader_step_ok o (task_state t) Ho) as [[[st ds] go] ->]. eexists. split; [done|].
  split; [by right|]. exists r. split; [by apply received_app|done].
Qed.

Lemma registered_iter {E} tagged t :
  in_frame t -> waiting {[0 := mkActiveRequest 0 tagged]} t ->
  exists t', task_iter (E:=E) (zlen message) t = Ok t' /\ task_data t' = cursor [] /\
    (answered t' \/ task_data t = cursor bs /\ waiting {[0 := mkActiveRequest 0 tagged]} t').
Proof.
  intros Hf (Hr & Hs & Hm). unfold task_iter. rewrite Hr. destruct Hf as [Hf|Hf]; rewrite Hf.
  - rewrite (read_frame _ _ Hw).
    destruct (reader_step_ok (Ok message) (task_state t)) as [[[st ds] go] Hst]; [done|].
    rewrite Hst. eexists. split; [done|]. split; [done|]. rewrite Hm in Hst. unfold reader_step in Hst.
    unfold answered, waiting. simpl. rewrite Hs. simpl.
    repeat case_match; simplify_eq; try by right.
    all: match goal with H : {[_ := _]} !! _ = Some _ |- _ => apply lookup_singleton_Some in H as [_ <-] end.
    all: left; by eexists.
  - rewrite read_end, Hm. simpl. rewrite map_to_list_singleton. simpl. eexists. split; [done|].
    split; [done|]. left. unfold answered. rewrite Hs. simpl. by eexists.
Qed.

Lemma answered_iters {E} n t :
  in_frame t -> answered t -> exists t', task_iters (E:=E) n (zlen message) t = Ok t' /\ answered t'.
Proof.
  revert t. induction n as [|n IH]; intros t Hf Ha; simpl; [by eexists|].
  destruct (answered_iter (E:=E) t Hf Ha) as (t1 & -> & Hf1 & Ha1). simpl. by apply IH.
Qed.

Lemma registered_answered {E} n tagged t :
  in_frame t -> waiting {[0 := mkActiveRequest 0 tagged]} t ->
  exists t', task_iters (E:=E) (S (S n)) (zlen message) t = Ok t' /\ answered t'.
Proof.
  intros Hf Hm. cbn [task_iters].
  destruct (registered_iter (E:=E) tagged t Hf Hm) as (t1 & -> & Hd1 & H1). cbn [obind].
  assert (in_frame t1) as Hf1 by (by right).
  destruct H1 as [Ha|[_ Hm1]]; [by apply (answered_iters (S n))|].
  destruct (registered_iter (E:=E) tagged t1 Hf1 Hm1) as (t2 & -> & Hd2 & H2). cbn [obind].
  apply answered_iters; [by right|]. destruct H2 as [Ha|[He _]]; [done|].
  exfalso. rewrite Hd1 in He. apply write_message_ok in Hw as (lb & _ & -> & Hl & _).
  injection He as He. by destruct lb.
Qed.
End one_frame.

(** ** No input makes a target fail *)
Lemma finish_no_panic {Resp} `{ReadVersionedType Resp} key version resp p :
  no_panic (read_versioned (A:=Resp) version) -> finish_response (Resp:=Resp) key version resp <> Panic p.
Proof.
  intros Hn. unfold finish_response. specialize (Hn (resp_data resp)).
  destruct (read_versioned version (resp_data resp)) as [[b rest]|e|q]; simpl; [|done|by destruct (Hn q)].
  by case_match.
Qed.

Lemma version_self v r w : match_versions (mkApiVersionRange v v) r = Some w -> w = v /\ in_range r v.
Proof.
  intros Hm. pose proof (match_versions_some _ _ _ Hm) as (H1 & H2 & H3). simpl in *. unfold in_range.
  assert (vnum w = vnum v) as Hv by lia. split; [|lia].
  destruct w as [[w]], v as [[v]]. unfold vnum in Hv. simpl in Hv. by subst.
Qed.

Lemma write_message_total msg : zlen msg < 2 ^ 31 -> exists bs, write_message msg = Ok bs.
Proof.
  intros Hlen. unfold write_message. pose proof (zlen_nonneg msg).
  assert (signed_try_from 32 (zlen msg) = Some (zlen msg)) as ->
    by (apply signed_try_from_some; unfold in_signed; split; [done|lia]).
  by eexists.
Qed.

Section target.
Context {Req Resp : Type} `{RequestBody Req Resp, WriteVersionedType Req, ReadVersionedType Resp}.
Let key := API_KEY (Req:=Req) (Resp:=Resp).
Let ranges (version : ApiVersion) : version_map := [(key, mkApiVersionRange version version)].

Lemma prepared_version version (request : Req) p :
  prepare_request (Resp:=Resp) (ranges version) DEFAULT_CLIENT_ID 0 request = Ok p ->
  body_api_version p = version /\ in_range (API_VERSION_RANGE (Req:=Req) (Resp:=Resp)) version.
Proof.
  unfold prepare_request. intros (v & Hv & Hp)%obind_ok. apply ok_or_ok in Hv.
  unfold ranges, key in Hv. simpl in Hv. rewrite decide_True in Hv by done. simpl in Hv.
  apply version_self in Hv as [-> Hr]. apply obind_ok in Hp as (h & _ & Hp).
  by apply obind_ok in Hp as (b & _ & [= <-]).
Qed.

Lemma prepare_no_panic version (request : Req) q :
  (in_range (API_VERSION_RANGE (Req:=Req) (Resp:=Resp)) version ->
     forall q, write_versioned version request <> Panic q) ->
  prepare_request (Resp:=Resp) (ranges version) DEFAULT_CLIENT_ID 0 request <> Panic q.
Proof.
  intros Hbody. unfold prepare_request, ranges, key. simpl. rewrite decide_True by done. simpl.
  destruct (match_versions _ _) as [v|] eqn:Hm; [|done]. apply version_self in Hm as [-> Hr]. simpl.
  assert (exists bs, (match write_versioned
      (if version_le (FIRST_TAGGED_FIELD_IN_REQUEST_VERSION (Req:=Req) (Resp:=Resp)) version then V 2 else V 1)
      (mkRequestHeader (API_KEY (Req:=Req) (Resp:=Resp)) version (mkInt32 0)
         (Some (mkNullableString (Some DEFAULT_CLIENT_ID))) (Some TaggedFields_default)) with
      | Ok bs => Ok bs | Err _ => Panic ExpectFailed | Panic p => Panic p end : outcome RequestError _) = Ok bs)
    as [bs ->] by (destruct (version_le _ _); eexists; vm_compute; reflexivity).
  simpl. specialize (Hbody Hr). destruct (write_versioned version request) as [b|e|p]; [done|done|].
  by destruct (Hbody p).
Qed.

Lemma send_recv_no_panic before (request : Req) message version p :
  zlen message < 2 ^ 31 ->
  (in_range (API_VERSION_RANGE (Req:=Req) (Resp:=Resp)) version ->
     no_panic (read_versioned (A:=Resp) version)) ->
  (forall q, prepare_request (Resp:=Resp) (ranges version) DEFAULT_CLIENT_ID 0 request <> Panic q) ->
  send_recv (Resp:=Resp) before request message key version <> Panic p.
Proof.
  intros Hlen Hread Hprep. unfold send_recv.
  destruct (write_message_total message Hlen) as [bs Hw]. rewrite Hw. cbn [obind].
  unfold ApiVersionRange_new. rewrite Z.leb_refl. cbn [oassert obind]. fold (ranges version).
  destruct (prepare_request (ranges version) DEFAULT_CLIENT_ID 0 request) as [pr|e|q] eqn:Hpr;
    [|done|by destruct (Hprep q)].
  destruct (prepared_version _ _ _ Hpr) as [Hver Hrange]. cbn [omap_err obind].
  destruct (unregistered_iters message bs Hw (E:=FuzzError) before
    (mkReaderTask (RequestMap ∅) (cursor bs) [] true)) as (t & -> & Hf & Ht).
  { split; [by left|by left]. }
  cbn [obind]. destruct Ht as [(Hrun & Hs & ->)|(e & -> & Hrun)]; [|done].
  cbn [register omap_err obind].
  destruct (write_message (prepared_buf pr)) as [fr|e|q] eqn:Hfr; [|done|].
  2: { unfold write_message in Hfr. by destruct (signed_try_from 32 _). }
  cbn [obind].
  edestruct (registered_answered message bs Hw (E:=FuzzError) (length bs)
    (use_tagged_fields_in_response pr)) as (t' & -> & r & Hr & Hnp).
  3: { cbn [obind]. rewrite Hr. destruct r as [resp|e|q]; [|done|by destruct (Hnp q)]. cbn [omap_err obind].
       pose proof (finish_no_panic (Resp:=Resp) key (body_api_version pr) resp) as Hfin.
       rewrite Hver in Hfin |- *. specialize (fun q => Hfin q (Hread Hrange)).
       destruct (finish_response _ version resp) as [b|e|q]; [done|done|by destruct (Hfin q)]. }
  - exact Hf.
  - split; [done|]. split; [done|]. simpl. by rewrite insert_empty.
Qed.
End target.

(** Decides a closed write at each version of a range. *)
Ltac each_write :=
  let version := fresh "version" in let Hv := fresh "Hv" in
  intros version Hv; unfold in_range in Hv; cbn in Hv; each_version version Hv; intros q; vm_compute; discriminate.

Section never_fails.
Context {VC : VarIntCrate} {VO : VarIntCrateOk} {CC : Codecs} {CO : CodecsOk} {prof : Profile}.

Lemma fuzz_requests_no_panic :
  (forall version, in_range (API_VERSION_RANGE (Req:=ApiVersionsRequest)) version -> forall q,
     write_versioned version (mkApiVersionsRequest (Some (mkCompactString [])) (Some (mkCompactString []))
       (Some TaggedFields_default)) <> Panic q) /\
  (forall version, in_range (API_VERSION_RANGE (Req:=CreateTopicsRequest)) version -> forall q,
     write_versioned version (mkCreateTopicsRequest [] (mkInt32 0) None None) <> Panic q) /\
  (forall version, in_range (API_VERSION_RANGE (Req:=FetchRequest)) version -> forall q,
     write_versioned version (mkFetchRequest (mkInt32 0) (mkInt32 0) (mkInt32 0) None None []) <> Panic q) /\
  (forall version, in_range (API_VERSION_RANGE (Req:=ListOffsetsRequest)) version -> forall q,
     write_versioned version (mkListOffsetsRequest (mkInt32 0) None []) <> Panic q) /\
  (forall version, in_range (API_VERSION_RANGE (Req:=MetadataRequest)) version -> forall q,
     write_versioned version (mkMetadataRequest None None) <> Panic q) /\
  (forall version, in_range (API_VERSION_RANGE (Req:=ProduceRequest)) version -> forall q,
     write_versioned version (mkProduceRequest (mkNullableString None) (mkInt16 0) (mkInt32 0) []) <> Panic q).
Proof.
  split; [each_write|]. split; [each_write|]. split; [each_write|]. split; [each_write|].
  split; [each_write|each_write].
Qed.

(** The six requests of the driver. *)
Lemma supported_no_panic {Req Resp} `{RequestBody Req Resp, WriteVersionedType Req, ReadVersionedType Resp}
    lo hi `{!NoPanicVersioned Resp lo hi} before (request : Req) message key version p :
  key = API_KEY (Req:=Req) (Resp:=Resp) ->
  lo <= vnum (range_min (API_VERSION_RANGE (Req:=Req) (Resp:=Resp))) ->
  vnum (range_max (API_VERSION_RANGE (Req:=Req) (Resp:=Resp))) <= hi ->
  (forall version, in_range (API_VERSION_RANGE (Req:=Req) (Resp:=Resp)) version -> forall q,
     write_versioned version request <> Panic q) ->
  zlen message < 2 ^ 31 ->
  send_recv (Resp:=Resp) before request message key version <> Panic p.
Proof.
  intros -> Hlo Hhi Hw Hlen. apply send_recv_no_panic; [done| |].
  - intros Hr. apply (read_versioned_no_panic (lo:=lo) (hi:=hi)). unfold in_range in Hr. lia.
  - intros q. apply prepare_no_panic. intros Hr. by apply Hw.
Qed.

(** C20: neither fuzz target can fail, whatever its input of less than 2^31
    bytes and however the reader task of the messenger is scheduled: neither
    panics, and the request that the driver makes is always answered, with a
    response or an error, so that only the clock could make its timeout fire. *)
Theorem fuzz_targets_never_fail before data p :
  zlen data < 2 ^ 31 ->
  driver before data <> Panic p /\ record_batch_body_target data <> Panic p.
Proof.
  intros Hlen. split.
  - unfold driver.
    destruct (read (A:=Int16) (cursor data)) as [[k s1]|e|q] eqn:H1; [|done|by apply read_no_panic in H1].
    cbn [omap_err obind].
    destruct (read (A:=Int16) s1) as [[v s2]|e|q] eqn:H2; [|done|by apply read_no_panic in H2].
    cbn [omap_err obind].
    assert (zlen (src_data s2) < 2 ^ 31) as Hm.
    { apply read_streaming in H1 as (b1 & H1 & _). apply read_streaming in H2 as (b2 & -> & _).
      assert (data = b1 ++ b2 ++ src_data s2) as -> by (by injection H1).
      rewrite !zlen_app in Hlen. pose proof (zlen_nonneg b1). pose proof (zlen_nonneg b2). lia. }
    destruct fuzz_requests_no_panic as (? & ? & ? & ? & ? & ?).
    destruct (ApiKey_from_Int16 k); try done.
    all: first
      [ apply (supported_no_panic 0 7 (Req:=ProduceRequest) (Resp:=ProduceResponse))
      | apply (supported_no_panic 4 4 (Req:=FetchRequest) (Resp:=FetchResponse))
      | apply (supported_no_panic 0 3 (Req:=ListOffsetsRequest) (Resp:=ListOffsetsResponse))
      | apply (supported_no_panic 0 4 (Req:=MetadataRequest) (Resp:=MetadataResponse))
      | apply (supported_no_panic 0 3 (Req:=ApiVersionsRequest) (Resp:=ApiVersionsResponse))
      | apply (supported_no_panic 0 5 (Req:=CreateTopicsRequest) (Resp:=CreateTopicsResponse)) ];
      first [done|vm_compute; discriminate].
  - unfold record_batch_body_target. pose proof (body_no_panic (cursor data)) as Hn.
    destruct (RecordBatchBody_read (cursor data)) as [x|e|q]; [done|done|by destruct (Hn q)].
Qed.
End never_fails.

(** An ApiVersions response at version 0 that is taken apart completely, and
    the same one when the reader is first. *)
Lemma fuzz_targets_never_fail_witness :
  driver (prof:=debug_profile) 0 (map byte_of_Z [0; 18; 0; 0; 0; 0; 0; 0; 0; 0; 0; 0; 0; 0]) = Ok tt /\
  driver (prof:=debug_profile) 1 (map byte_of_Z [0; 18; 0; 0; 0; 0; 0; 0; 0; 0; 0; 0; 0; 0]) =
    Err (FuzzRequest (Poisoned (ReadFramedMessageError (FrameReadIO UnexpectedEof)))) /\
  driver (prof:=debug_profile) 0 (map byte_of_Z [0; 18; 0; 0; 0; 0]) <> Panic ExpectFailed.
Proof.
  split; [vm_compute; reflexivity|]. split; [vm_compute; reflexivity|].
  apply (fuzz_targets_never_fail (prof:=debug_profile) 0 (map byte_of_Z [0; 18; 0; 0; 0; 0])).
  vm_compute. reflexivity.
Defined.
