(* ===== verification/MessengerTests.v ===== *)
(** * The tests of the messenger, replayed (src/messenger.rs)

    The simulated broker of the tests is a network of [Session] whose
    exchanges are not assumed but made of the code of this development: the
    request is registered and framed, the simulator plays its script, and the
    reader task of the messenger takes the frames that came back.  The
    schedule is the one in which a request is registered before the reader
    runs; the test that cancels a request in the middle of a write is about
    other schedules, those of [WriteSide], and is in [CancelTest]. *)

From Stdlib Require Import ZArith Lia String.
From stdpp Require Import base list numbers gmap fin_maps.
From S2P Require Import Prelude Bytes Wire VecBuilder Varint Primitives PrimitiveLaws Record.
From S2P Require Import Codec RecordBatch RefCrates RawSnappy ApiKey ErrorCode Versioned Header ApiVersionsMsg.
From S2P Require Import DataMessages TopicMessages Frame Support MetadataCache Messenger MessengerSystem Io Backoff.
From S2P Require Import Topology Transport Session Client FuzzTarget ProtocolTests.

Local Open Scope Z_scope.
Local Open Scope rust_scope.
Local Open Scope test_scope.

(** ** [MessageSimulator] *)
Module Simulator.
Inductive Message : Type :=
| Send (data : list byte)
| Consume
| NegativeSize
| HangUp.

(** What the simulator does with requests to consume: the bytes it sends, the
    number of times the reader finds something (a frame, or the end of the
    stream), and the rest of its script.  Writing to the stream succeeds. *)
Fixpoint simulate (requests : nat) (script : list Message) : list byte * nat * list Message :=
  match script with
  | [] => ([], 0%nat, [])
  | Consume :: rest =>
      match requests with
      | O => ([], 0%nat, script)
      | S requests => simulate requests rest
      end
  | Send data :: rest =>
      let '(bs, k, rest) := simulate requests rest in
      (match write_message data with Ok frame => frame | _ => [] end ++ bs, S k, rest)
  | NegativeSize :: rest =>
      let '(bs, k, rest) := simulate requests rest in
      (match write (mkInt32 (-1)) with Ok buf => buf | _ => [] end ++ bs, S k, rest)
  | HangUp :: _ => ([], 1%nat, [])
  end.

(** The script that is left, the reader task, and the sleeps so far. *)
Record Net : Type := mkNet {
  sim_script : list Message;
  sim_task : ReaderTask;
  sim_slept : list Z;
}.

#[export] Instance sim_timer : Timer Net := {|
  thread_rng := fun lo hi n => if f64_lt lo hi && f64_valid lo then Some (lo, n) else None;
  sleep_for d n := mkNet (sim_script n) (sim_task n) (sim_slept n ++ [d]);
  slept := sim_slept;
|}.

#[export] Instance sim_sockets : Sockets Net := {|
  TcpStream := unit;
  TlsStream := unit;
  ClientConfig := unit;
  ServerName := unit;
  tcp_connect _ := io_lift (Ok tt);
  socks5_connect s _ := io_lift (Ok s);
  server_name_try_from _ := Some tt;
  tls_connect _ _ s := io_lift (Ok s);
|}.

(** [request_with_version_ranges] from the registration to the response; the
    channel has the number of the request.  [None]: there is no response. *)
Definition sim_exchange (size correlation_id : Z) (buf : list byte) (tagged : bool) :
    io Net RequestError Response := fun n =>
  let chan := Z.to_nat correlation_id in
  let task := sim_task n in
  match register correlation_id (mkActiveRequest chan tagged) (task_state task), write_message buf with
  | Ok st, Ok _ =>
      let '(bs, k, script) := simulate 1 (sim_script n) in
      let task := mkReaderTask st (cursor (src_data (task_data task) ++ bs)) [] (task_running task) in
      match task_iters (E:=RequestError) k size task with
      | Ok task =>
          match received chan (task_sent task) with
          | Some r => Some (r, mkNet script task (sim_slept n))
          | None => None
          end
      | Err e => Some (Err e, n)
      | Panic p => Some (Panic p, n)
      end
  | Ok st, Err e =>
      let '(st, e, _) := poison (WriteMessageError e) st in
      Some (Err (Poisoned e), mkNet (sim_script n)
              (mkReaderTask st (task_data task) (task_sent task) (task_running task)) (sim_slept n))
  | Err e, _ => Some (Err e, n)
  | Panic p, _ | _, Panic p => Some (Panic p, n)
  end.

#[export] Instance sim_network : Network Net := {|
  shuffle A l n := (l, n);
  exchange _ := sim_exchange;
|}.

(** [MessageSimulator::new], with everything that was pushed, and
    [Messenger::new] on its stream. *)
Definition sim_world (script : list Message) : World (N:=Net) :=
  mkWorld (mkNet script (mkReaderTask (RequestMap ∅) (cursor []) [] true) []) [0] ∅
    (mkBrokerCell None 0) MetadataCache_default (mkBrokerCell None 0) (mkCurrentBroker None 0 None None).

Definition messenger : MessengerTransport (N:=Net) :=
  mkMessengerTransport (Plain (tt : TcpStream (N:=Net))) 1000 DEFAULT_CLIENT_ID 0 [].

(** What [Session] relies on holds here. *)
Lemma task_iters_told k size t t' :
  Forall (fun d => told (snd d)) (task_sent t) ->
  task_iters (E:=RequestError) k size t = Ok t' -> Forall (fun d => told (snd d)) (task_sent t').
Proof.
  revert t. induction k as [|k IH]; intros t Ht; simpl; [by intros [= <-]|].
  unfold task_iter. destruct (task_running t); [|by apply IH].
  destruct (read_message 0 size (task_data t)) as [[r data]|]; [|by apply IH].
  destruct (reader_step r (task_state t)) as [[[st ds] go]|?|?] eqn:Hs; [|done..].
  apply IH. simpl. apply Forall_app_2; [done|]. by eapply reader_told.
Qed.

Lemma received_told chan sent r :
  Forall (fun d => told (snd d)) sent -> received chan sent = Some r -> told r.
Proof.
  induction 1 as [|[c x] sent Hx _ IH]; simpl; [done|]. destruct (Nat.eqb c chan); [|done]. by intros [= <-].
Qed.

Lemma task_iters_no_panic k size t p : task_iters (E:=RequestError) k size t <> Panic p.
Proof.
  revert t. induction k as [|k IH]; intros t; simpl; [done|]. unfold task_iter.
  destruct (task_running t); [|apply IH].
  destruct (read_message 0 size (task_data t)) as [[r data]|] eqn:Hr; [|apply IH].
  destruct (reader_step_ok r (task_state t)) as [[[st ds] go] ->]; [|apply IH].
  intros q ->. by apply read_message_no_panic in Hr.
Qed.

Lemma task_iters_no_err k size t e : task_iters (E:=RequestError) k size t <> Err e.
Proof.
  revert t. induction k as [|k IH]; intros t; simpl; [done|]. unfold task_iter.
  destruct (task_running t); [|apply IH]. destruct (read_message _ _ _) as [[r data]|]; [|apply IH].
  destruct (reader_step r (task_state t)) as [[[st ds] go]|?|?]; [apply IH|done..].
Qed.

#[export] Instance sim_network_ok : NetworkOk Net.
Proof.
  split; [|done|].
  - split; [split|done|]; unfold gen_range; simpl.
    + intros lo hi n Hlt. by rewrite Hlt.
    + intros lo hi n x n'. destruct (f64_lt lo hi) eqn:Hlt, (f64_valid lo) eqn:Hv; simpl; try done.
      intros [= <- <-]. split; [|done]. apply f64_le_refl. by apply f64_lt_key in Hlt as (? & _).
    + intros lo hi n x n'. case_match; [|done]. by intros [= _ <-].
  - intros t size id buf tagged n r n'. simpl. unfold sim_exchange.
    destruct (register _ _ _) as [st|e|p] eqn:Hreg; unfold register in Hreg.
    + destruct (write_message buf) as [bs|e|p] eqn:Hw.
      * destruct (simulate 1 (sim_script n)) as [[bs' k] script].
        destruct (task_iters _ _ _) as [task|e|p] eqn:Ht;
          [|by apply task_iters_no_err in Ht|by apply task_iters_no_panic in Ht].
        destruct (received _ _) as [r'|] eqn:Hrec; [|done]. intros [= <- _].
        eapply received_told; [|done]. by eapply task_iters_told; [|done].
      * destruct (poison _ st) as [[st' e'] ds]. intros [= <- _]. left. eauto.
      * by apply write_message_no_panic in Hw.
    + destruct (task_state (sim_task n)); [done|]. injection Hreg as <-. intros [= <- _]. left. eauto.
    + by destruct (task_state (sim_task n)).
Qed.
End Simulator.
Import Simulator.

(** [sim.push(msg)]. *)
Definition sim_push (msg : list byte) : list Message := [Consume; Send msg].

(** What the tests push: the header of an answer, and an answer that announces
    a range for [Produce]. *)
Definition response_header (correlation_id : Z) : outcome WriteVersionedError (list byte) :=
  write_versioned (V 0) (mkResponseHeader (mkInt32 correlation_id) None).

Definition produce_range (error_code : option Errors.Error) (min max : Z) : ApiVersionsResponse :=
  mkApiVersionsResponse error_code [mkApiVersionsResponseApiKey ApiKeys.Produce (V min) (V max) None]
    None None.

Definition answer (correlation_id : Z) (response : ApiVersionsResponse) (version : Z) :
    outcome WriteVersionedError (list byte) :=
  response_header correlation_id ;+ write_versioned (V version) response.

(** [messenger.sync_versions().await] after everything was pushed: it sends at
    most four requests, and the scripts throttle none. *)
Definition synced (script : list Message) : outcome SyncVersionsError version_map :=
  match Messenger_sync_versions 10 messenger (sim_world script) with
  | Some (r, _) => let! m := r in Ok (version_ranges m)
  | None => Panic Unreachable
  end.

Definition max_version_of_request : Z :=
  vnum (range_max (API_VERSION_RANGE (Req:=ApiVersionsRequest) (Resp:=ApiVersionsResponse))).

Definition produce_1_5 : version_map := [(ApiKeys.Produce, mkApiVersionRange (V 1) (V 5))].

(** ** The tests *)

Definition test_match_versions : Prop :=
  match_versions (mkApiVersionRange (V 10) (V 20)) (mkApiVersionRange (V 10) (V 20)) = Some (V 20) /\
  match_versions (mkApiVersionRange (V 10) (V 15)) (mkApiVersionRange (V 13) (V 20)) = Some (V 15) /\
  match_versions (mkApiVersionRange (V 10) (V 15)) (mkApiVersionRange (V 15) (V 20)) = Some (V 15) /\
  match_versions (mkApiVersionRange (V 10) (V 14)) (mkApiVersionRange (V 15) (V 20)) = None.

Definition test_sync_versions_ok : Prop :=
  get msg := answer 0 (produce_range None 1 5) max_version_of_request in
  get ranges := synced (sim_push msg) in ranges = produce_1_5.

Definition test_sync_versions_ignores_error_code : Prop :=
  get msg := answer 0 (produce_range (Some Errors.CorruptMessage) 2 3) max_version_of_request in
  get msg2 := answer 1 (produce_range None 1 5) (max_version_of_request - 1) in
  get ranges := synced (sim_push msg ++ sim_push msg2) in ranges = produce_1_5.

Definition test_sync_versions_ignores_read_code : Prop :=
  get msg := response_header 0 in
  get msg2 := answer 1 (produce_range None 1 5) (max_version_of_request - 1) in
  get ranges := synced (sim_push (msg ++ [byte_of_Z 0]) ++ sim_push msg2) in ranges = produce_1_5.

Definition test_sync_versions_err_flipped_range : Prop :=
  get msg := answer 0 (produce_range None 2 1) max_version_of_request in
  fail err := synced (sim_push msg) in
  match err with FlippedVersionRange _ _ _ => True | _ => False end.

Definition test_sync_versions_ignores_garbage : Prop :=
  get msg := answer 0 (produce_range None 1 2) max_version_of_request in
  get msg2 := answer 1 (produce_range None 1 5) (max_version_of_request - 1) in
  get ranges := synced (sim_push (msg ++ [byte_of_Z 0]) ++ sim_push msg2) in ranges = produce_1_5.

(** [(min..=max).rev().enumerate()] *)
Definition test_sync_versions_err_no_working_version : Prop :=
  get msg0 := answer 0 (produce_range (Some Errors.CorruptMessage) 1 5) 3 in
  get msg1 := answer 1 (produce_range (Some Errors.CorruptMessage) 1 5) 2 in
  get msg2 := answer 2 (produce_range (Some Errors.CorruptMessage) 1 5) 1 in
  get msg3 := answer 3 (produce_range (Some Errors.CorruptMessage) 1 5) 0 in
  fail err := synced (sim_push msg0 ++ sim_push msg1 ++ sim_push msg2 ++ sim_push msg3) in
  err = NoWorkingVersion.

(** A messenger that knows one request. *)
Definition messenger_for (key : ApiKeys.ApiKey) (range : ApiVersionRange) : MessengerTransport :=
  set_version_ranges [(key, range)] messenger.

Definition list_offsets_messenger : MessengerTransport :=
  messenger_for ApiKeys.ListOffsets (API_VERSION_RANGE (Req:=ListOffsetsRequest) (Resp:=ListOffsetsResponse)).

(** A [ListOffsetsRequest] is made, and the world after it. *)
Definition list_offsets (w : World) (k : outcome RequestError ListOffsetsResponse -> World -> Prop) : Prop :=
  match request (Resp:=ListOffsetsResponse) list_offsets_messenger
          (mkListOffsetsRequest NORMAL_CONSUMER None []) w with
  | Some (r, w) => k r w
  | None => False
  end.

Definition is_poisoned {A} (r : outcome RequestError A) : Prop :=
  match r with Err (Poisoned _) => True | _ => False end.

Definition test_poison_hangup : Prop :=
  list_offsets (sim_world [HangUp]) (fun r _ => is_poisoned r).

Definition test_poison_negative_message_size : Prop :=
  list_offsets (sim_world [NegativeSize]) (fun r w =>
    is_poisoned r /\ list_offsets w (fun r _ => is_poisoned r)).

Definition test_broken_msg_header_does_not_poison : Prop :=
  let range := API_VERSION_RANGE (Req:=ApiVersionsRequest) (Resp:=ApiVersionsResponse) in
  let resp := mkApiVersionsResponse (Some Errors.CorruptMessage) [] (Some (mkInt32 1))
                (Some TaggedFields_default) in
  get msg := answer 0 resp max_version_of_request in
  match request (Resp:=ApiVersionsResponse) (messenger_for ApiKeys.ApiVersions range)
          (mkApiVersionsRequest (Some (mkCompactString [])) (Some (mkCompactString []))
             (Some TaggedFields_default))
          (sim_world (Send (ascii_bytes "foo") :: sim_push msg)) with
  | Some (r, _) => get actual := r in actual = resp
  | None => False
  end.

(** Version negotiation and poisoning on the stream of a simulated broker,
    as the tests of the messenger have them: the ranges of a good answer are
    taken over; an answer with an error code, one that cannot be read and one
    with bytes left over make the messenger try the next lower version; a range
    with its bounds swapped is an error, and so is running out of versions.  A
    broker that hangs up or sends a negative size poisons the messenger for
    this and all later requests; a frame that has no header does not. *)
Theorem messenger_negotiates_over_stream :
  test_match_versions /\ test_sync_versions_ok /\ test_sync_versions_ignores_error_code /\
  test_sync_versions_ignores_read_code /\ test_sync_versions_err_flipped_range /\
  test_sync_versions_ignores_garbage /\ test_sync_versions_err_no_working_version /\
  test_poison_hangup /\ test_poison_negative_message_size /\ test_broken_msg_header_does_not_poison.
Proof. passes. Qed.
