(* ===== verification/CancelTest.v ===== *)
(** * Cancelling a request in the middle of a write (src/messenger.rs)

    [test_cancel_request]: a network between the client and a simulated broker
    takes the bytes of a request one at a time and pauses; the caller is
    cancelled there and makes another request.  The run is made of the futures
    of [WriteSide], the messages of [Messenger] and the frames of [Frame]; the
    point at which the network pauses is a parameter, so that the test is one
    of the runs that the theorem covers. *)

From Stdlib Require Import ZArith Lia String.
From stdpp Require Import base list numbers gmap fin_maps.
From S2P Require Import Prelude Bytes Wire VecBuilder Varint Primitives PrimitiveLaws ApiKey.
From S2P Require Import ErrorCode Versioned Header ApiVersionsMsg Frame Support Messenger MessengerSystem.
From S2P Require Import WriteSide Client ProtocolTests.

Local Open Scope Z_scope.
Local Open Scope rust_scope.
Local Open Scope test_scope.

(** ** The two requests *)
Definition cancel_ranges : version_map :=
  [(ApiKeys.ApiVersions, mkApiVersionRange (V 0) (V 0))].

Definition cancel_request : ApiVersionsRequest :=
  mkApiVersionsRequest (Some (mkCompactString (ascii_bytes "foo")))
    (Some (mkCompactString (ascii_bytes "bar"))) (Some TaggedFields_default).

Definition cancel_message (correlation_id : Z) : outcome RequestError Prepared :=
  prepare_request (Resp:=ApiVersionsResponse) cancel_ranges DEFAULT_CLIENT_ID correlation_id cancel_request.

(** ** The network: [duplex(1)] takes one byte at a time *)
Definition one_by_one (n : nat) : list stream_answer := replicate n (Accepts 1).

(** A message is written until its end. *)
Definition send_to_end (answers : list stream_answer) (f : WriteFuture) (wire : list byte) :
    outcome RequestError (list byte) :=
  match write_poll answers f wire with
  | (Ready r, _, wire) => let! _ := r in Ok wire
  | (Pending, _, _) => Panic Unreachable
  end.

(** The first caller: its message is polled while the network takes [k] bytes,
    and then it is dropped.  The task that was spawned finishes the write. *)
Definition send_cancelled (k : nat) (msg : list byte) (answers : list stream_answer) :
    outcome RequestError (list byte) :=
  match safe_poll (write_poll (one_by_one k)) (CancellationSafeFuture_new (WriteStart msg)) [] with
  | Ok (Pending, fut, wire) =>
      match safe_drop fut with
      | Ok (Some f) => send_to_end answers f wire
      | _ => Panic Unreachable
      end
  | _ => Panic Unreachable
  end.

(** ** The broker: one round of its loop *)
Definition cancel_broker (correlation_id : Z) (s : src) (k : list byte -> src -> Prop) : Prop :=
  match read_message 0 1000 s with
  | None => False
  | Some (r, s) =>
      get data := r in
      get header_data := read_versioned (A:=RequestHeader) (V 1) (cursor data) in
      fst header_data = mkRequestHeader ApiKeys.ApiVersions (V 0) (mkInt32 correlation_id)
                          (Some (mkNullableString (Some DEFAULT_CLIENT_ID))) None /\
      get body_data := read_versioned (A:=ApiVersionsRequest) (V 0) (snd header_data) in
      fst body_data = mkApiVersionsRequest None None None /\
      src_data (snd body_data) = [] /\
      get hdr := write_versioned (V 0) (mkResponseHeader (mkInt32 correlation_id) None) in
      get msg := write_versioned
                   (range_min (API_VERSION_RANGE (Req:=ApiVersionsRequest) (Resp:=ApiVersionsResponse)))
                   (mkApiVersionsResponse (Some Errors.CorruptMessage) [] (Some (mkInt32 1))
                      (Some TaggedFields_default)) in
      get frame := write_message (hdr ++ msg) in
      k frame s
  end.

(** ** The test *)

(** The caller of the first request is dropped once [k] bytes are out, in its
    [Sending] phase, so its registration goes too; the second request is
    registered and written whole.  The reader task then finds two answers: the
    first has no call to go to, the second is the response of the second
    call. *)
Definition test_cancel_request_at (k : nat) : Prop :=
  get first := cancel_message 0 in
  get st := register 0 (mkActiveRequest 0 (use_tagged_fields_in_response first)) (RequestMap ∅) in
  get wire := send_cancelled k (prepared_buf first) (one_by_one 1000) in
  let st := cleanup 0 st in
  get second := cancel_message 1 in
  get st := register 1 (mkActiveRequest 1 (use_tagged_fields_in_response second)) st in
  get wire := send_to_end (one_by_one 1000) (WriteStart (prepared_buf second)) wire in
  cancel_broker 0 (cursor wire) (fun answer0 s =>
  cancel_broker 1 s (fun answer1 s =>
    src_data s = [] /\
    match read_messages 2 0 1000 (cursor (answer0 ++ answer1)) with
    | Some ([r0; r1], _) =>
        get step0 := reader_step r0 st in
        step0 = (st, [], true) /\
        get step1 := reader_step r1 st in
        match step1 with
        | (RequestMap map, [(1%nat, r)], true) =>
            map = ∅ /\
            get resp := r in
            get body := finish_response (Resp:=ApiVersionsResponse) ApiKeys.ApiVersions
                          (body_api_version second) resp in
            avresp_error_code body = Some Errors.CorruptMessage
        | _ => False
        end
    | _ => False
    end)).

(** The network pauses when [i == 3], after four bytes. *)
Definition test_cancel_request : Prop := test_cancel_request_at 4.

(** ** The test passes wherever the network pauses *)
Lemma cancel_points_pass : Forall test_cancel_request_at (seq 0 (S 21)).
Proof. repeat (apply Forall_cons_2; [passes|]). apply Forall_nil_2. Qed.

Lemma first_frame_length :
  match cancel_message 0 with
  | Ok p => match write_message (prepared_buf p) with Ok frame => length frame = 21%nat | _ => False end
  | _ => False
  end.
Proof. by vm_compute. Qed.

(** Up to the whole frame, every cut leaves both requests readable and the
    second one answered. *)
Theorem cancel_request_any_point k p frame :
  cancel_message 0 = Ok p -> write_message (prepared_buf p) = Ok frame -> (k <= length frame)%nat ->
  test_cancel_request_at k.
Proof.
  intros Hp Hframe Hk. pose proof first_frame_length as Hlen. rewrite Hp, Hframe in Hlen.
  eapply (proj1 (list.Forall_forall _ _) cancel_points_pass). apply list_elem_of_In, in_seq. lia.
Qed.

Theorem cancel_test_passes : test_cancel_request.
Proof. eapply (proj1 (list.Forall_forall _ _) cancel_points_pass). apply list_elem_of_In, in_seq. lia. Qed.
