(* ===== verification/Consumer.v ===== *)
(** * The consumer stream (src/client/consumer.rs)

    [StreamConsumer] fetches records and hands them out one by one.  The client
    it fetches from is the trait [FetchClient]; as its answers change over
    time, a run is given one client per fetch.  When there is none left, the
    fetch has not finished and the stream is pending.  Sleeping is not
    modelled, only that a fetch is told to. *)

From Stdlib Require Import ZArith Lia Sorted.
From stdpp Require Import base list numbers.
From S2P Require Import Prelude Bytes ErrorCode Support Aggregator Partition.
Import ClientErrors.

Local Open Scope Z_scope.
Local Open Scope rust_scope.

Inductive StartOffset : Type :=
| StartEarliest
| StartLatest
| StartAt (offset : Z).

(** The trait [FetchClient]; a range of sizes is its two ends. *)
Record FetchClient : Type := mkFetchClient {
  fetch_records : Z -> Z -> Z -> Z -> outcome Error (list RecordAndOffset * Z);
  get_offset : OffsetAt -> outcome Error Z;
}.

(** What the future of a fetch captures. *)
Record fetch_future : Type := mkFetchFuture {
  ff_backoff : option Z;
  ff_next_offset : option Z;
  ff_start_offset : StartOffset;
  ff_min_batch_size : Z;
  ff_max_batch_size : Z;
  ff_max_wait_ms : Z;
}.

Record StreamConsumer : Type := mkStreamConsumer {
  sc_min_batch_size : Z;
  sc_max_batch_size : Z;
  sc_max_wait_ms : Z;
  start_offset : StartOffset;
  next_offset : option Z;
  next_backoff : option Z;
  terminated : bool;
  last_high_watermark : Z;
  buffer : list RecordAndOffset;
  fetch_fut : option fetch_future;
}.

(** [StreamConsumerBuilder], with its defaults and setters. *)
Record StreamConsumerBuilder : Type := mkStreamConsumerBuilder {
  scb_start_offset : StartOffset;
  scb_max_wait_ms : Z;
  scb_min_batch_size : Z;
  scb_max_batch_size : Z;
}.

Definition StreamConsumerBuilder_new (start : StartOffset) : StreamConsumerBuilder :=
  mkStreamConsumerBuilder start 500 1 52428800.
Definition with_min_batch_size (self : StreamConsumerBuilder) (x : Z) : StreamConsumerBuilder :=
  mkStreamConsumerBuilder (scb_start_offset self) (scb_max_wait_ms self) x (scb_max_batch_size self).
Definition with_max_batch_size (self : StreamConsumerBuilder) (x : Z) : StreamConsumerBuilder :=
  mkStreamConsumerBuilder (scb_start_offset self) (scb_max_wait_ms self) (scb_min_batch_size self) x.
Definition with_max_wait_ms (self : StreamConsumerBuilder) (x : Z) : StreamConsumerBuilder :=
  mkStreamConsumerBuilder (scb_start_offset self) x (scb_min_batch_size self) (scb_max_batch_size self).

(** [StreamConsumerBuilder::build]. *)
Definition StreamConsumer_build (self : StreamConsumerBuilder) : StreamConsumer :=
  mkStreamConsumer (scb_min_batch_size self) (scb_max_batch_size self) (scb_max_wait_ms self)
    (scb_start_offset self) None None false (-1) [] None.

Record FetchResultOk : Type := mkFetchResultOk {
  records_and_offsets : list RecordAndOffset;
  watermark : Z;
  used_offset : Z;
}.

(** The body of the future, after the sleep. *)
Definition run_fetch (client : FetchClient) (fut : fetch_future) : outcome Error FetchResultOk :=
  let! offset :=
    match ff_next_offset fut with
    | Some x => Ok x
    | None =>
        match ff_start_offset fut with
        | StartEarliest => get_offset client Earliest
        | StartLatest => get_offset client Latest
        | StartAt x => Ok x
        end
    end in
  let! (records, watermark) :=
    fetch_records client offset (ff_min_batch_size fut) (ff_max_batch_size fut) (ff_max_wait_ms fut) in
  Ok (mkFetchResultOk records watermark offset).

(** [sort_by_key(|x| x.offset)], which is stable. *)
Fixpoint insert_by_offset (x : RecordAndOffset) (l : list RecordAndOffset) : list RecordAndOffset :=
  match l with
  | [] => [x]
  | y :: l' => if rao_offset x <? rao_offset y then x :: l else y :: insert_by_offset x l'
  end.

Definition sort_by_offset (l : list RecordAndOffset) : list RecordAndOffset :=
  fold_left (fun acc x => insert_by_offset x acc) l [].

(** [if self.fetch_fut.is_terminated()]. *)
Definition start_fetch (s : StreamConsumer) : StreamConsumer :=
  match fetch_fut s with
  | Some _ => s
  | None =>
      mkStreamConsumer (sc_min_batch_size s) (sc_max_batch_size s) (sc_max_wait_ms s) (start_offset s)
        (next_offset s) None (terminated s) (last_high_watermark s) (buffer s)
        (Some (mkFetchFuture (next_backoff s) (next_offset s) (start_offset s)
                 (sc_min_batch_size s) (sc_max_batch_size s) (sc_max_wait_ms s)))
  end.

(** A future that has finished is fused. *)
Definition clear_fetch (s : StreamConsumer) : StreamConsumer :=
  mkStreamConsumer (sc_min_batch_size s) (sc_max_batch_size s) (sc_max_wait_ms s) (start_offset s)
    (next_offset s) (next_backoff s) (terminated s) (last_high_watermark s) (buffer s) None.

Section consumer.
Context {prof : Profile}.

(** The match on the result of a fetch: the new state, and the error to report
    if the stream ends. *)
Definition handle_fetch (data : outcome Error FetchResultOk) (s : StreamConsumer) :
    outcome Empty_set (StreamConsumer * option Error) :=
  let with_next nx bo tm wm buf :=
    mkStreamConsumer (sc_min_batch_size s) (sc_max_batch_size s) (sc_max_wait_ms s) (start_offset s)
      nx bo tm wm buf (fetch_fut s) in
  match data with
  | Ok inner =>
      let sorted := sort_by_offset (records_and_offsets inner) in
      match list.last sorted with
      | Some x =>
          let! next := arith_signed 64 (rao_offset x + 1) in
          Ok (with_next (Some next) (next_backoff s) (terminated s) (watermark inner) (buffer s ++ sorted), None)
      | None =>
          Ok (with_next (Some (used_offset inner)) (next_backoff s) (terminated s) (watermark inner) (buffer s), None)
      end
  | Err e =>
      match e, start_offset s with
      | ServerError Errors.OffsetOutOfRange _ _ _ _, (StartEarliest | StartLatest) =>
          Ok (with_next None (Some 1) (terminated s) (last_high_watermark s) (buffer s), None)
      | e, _ =>
          Ok (with_next (next_offset s) (next_backoff s) true (last_high_watermark s) (buffer s), Some e)
      end
  | Panic p => Panic p
  end.

(** [StreamConsumer::poll_next]. *)
Fixpoint poll_next (clients : list FetchClient) (s : StreamConsumer) :
    outcome Empty_set (Poll (option (outcome Error (RecordAndOffset * Z))) * StreamConsumer * list FetchClient) :=
  if terminated s then Ok (Ready None, s, clients)
  else
    match buffer s with
    | x :: buf =>
        Ok (Ready (Some (Ok (x, last_high_watermark s))),
            mkStreamConsumer (sc_min_batch_size s) (sc_max_batch_size s) (sc_max_wait_ms s) (start_offset s)
              (next_offset s) (next_backoff s) (terminated s) (last_high_watermark s) buf (fetch_fut s),
            clients)
    | [] =>
        let s := start_fetch s in
        match clients, fetch_fut s with
        | client :: clients, Some fut =>
            let! (s, err) := handle_fetch (run_fetch client fut) (clear_fetch s) in
            match err with
            | None => poll_next clients s
            | Some e => Ok (Ready (Some (Err e)), s, clients)
            end
        | _, _ => Ok (Pending, s, clients)
        end
    end.
End consumer.

(** ** Lemmas *)
Lemma insert_by_offset_perm x l : insert_by_offset x l ≡ₚ x :: l.
Proof.
  induction l as [|y l IH]; simpl; [done|]. case_match; [done|]. rewrite IH. apply Permutation_swap.
Qed.

Definition offsets_le (x y : RecordAndOffset) : Prop := rao_offset x <= rao_offset y.
Definition offsets_lt (x y : RecordAndOffset) : Prop := rao_offset x < rao_offset y.

Lemma insert_by_offset_sorted x l :
  StronglySorted offsets_le l -> StronglySorted offsets_le (insert_by_offset x l).
Proof.
  induction 1 as [|y l Hs IH Hy]; simpl; [repeat constructor|].
  destruct (Z.ltb_spec (rao_offset x) (rao_offset y)).
  - constructor; [by constructor|]. constructor; [unfold offsets_le; lia|].
    eapply list.Forall_impl; [exact Hy|]. unfold offsets_le. intros. lia.
  - constructor; [done|]. rewrite insert_by_offset_perm. constructor; [unfold offsets_le; lia|done].
Qed.

Lemma sort_by_offset_spec l : sort_by_offset l ≡ₚ l /\ StronglySorted offsets_le (sort_by_offset l).
Proof.
  unfold sort_by_offset.
  enough (forall acc, StronglySorted offsets_le acc ->
    fold_left (fun acc x => insert_by_offset x acc) l acc ≡ₚ acc ++ l /\
    StronglySorted offsets_le (fold_left (fun acc x => insert_by_offset x acc) l acc)) as Hgen
    by (apply (Hgen []); constructor).
  induction l as [|x l IH]; intros acc Hacc; simpl; [by rewrite app_nil_r|].
  destruct (IH _ (insert_by_offset_sorted x acc Hacc)) as [Hp Hs]. split; [|done].
  rewrite Hp, insert_by_offset_perm. simpl. by rewrite Permutation_middle.
Qed.

(** Without duplicates the order is strict. *)
Lemma sorted_strict l :
  StronglySorted offsets_le l -> NoDup (map rao_offset l) -> StronglySorted offsets_lt l.
Proof.
  induction 1 as [|x l Hs IH Hx]; intros Hnd; [constructor|]. apply list.NoDup_cons in Hnd as [Hni Hnd].
  constructor; [by apply IH|]. apply Forall_forall. intros y Hy. rewrite Forall_forall in Hx.
  specialize (Hx y Hy). unfold offsets_le in Hx. unfold offsets_lt.
  assert (rao_offset x <> rao_offset y); [|lia]. intros Heq. apply Hni. rewrite Heq.
  apply list_elem_of_In, in_map, Hy.
Qed.

Lemma last_largest l x : StronglySorted offsets_lt l -> list.last l = Some x ->
  x ∈ l /\ Forall (fun y => rao_offset y <= rao_offset x) l.
Proof.
  induction 1 as [|y l Hs IH Hy]; [done|]. destruct l as [|z l]; simpl.
  { intros [= ->]. split; [left|]. repeat constructor. lia. }
  intros Hl. destruct (IH Hl) as [Hin Hall]. split; [by right|]. constructor; [|done].
  rewrite Forall_forall in Hy. apply list_elem_of_In in Hin. specialize (Hy _ Hin). unfold offsets_lt in Hy. lia.
Qed.

(** What a broker keeps to: a fetch returns records at or after the offset it
    was asked for, no two of them at the same offset, and none at the last
    [i64], after which there is no next one. *)
Definition good_client (c : FetchClient) : Prop :=
  forall offset a b w rs wm, fetch_records c offset a b w = Ok (rs, wm) ->
    NoDup (map rao_offset rs) /\
    Forall (fun r => offset <= rao_offset r /\ - 2 ^ 63 <= rao_offset r < 2 ^ 63 - 1) rs.

(** A run of the stream: the records it yields, with the polls that are
    pending in between. *)
Inductive stream_run {prof : Profile} : StreamConsumer -> list RecordAndOffset -> StreamConsumer -> Prop :=
| run_done s : stream_run s [] s
| run_item clients s x w s1 rest xs s2 :
    Forall good_client clients ->
    poll_next clients s = Ok (Ready (Some (Ok (x, w))), s1, rest) ->
    stream_run s1 xs s2 -> stream_run s (x :: xs) s2
| run_pending clients s s1 rest xs s2 :
    Forall good_client clients ->
    poll_next clients s = Ok (Pending, s1, rest) ->
    stream_run s1 xs s2 -> stream_run s xs s2.

Section order.
Context {prof : Profile}.

(** The stream started at [start] and the next record it yields is at [lo] or
    later. *)
Record consumer_inv (start lo : Z) (s : StreamConsumer) : Prop := {
  ci_start : start_offset s = StartAt start;
  ci_sorted : StronglySorted offsets_lt (buffer s);
  ci_lower : Forall (fun r => lo <= rao_offset r) (buffer s);
  ci_next : lo <= default start (next_offset s) /\
    Forall (fun r => rao_offset r < default start (next_offset s)) (buffer s);
  ci_fetch : forall f, fetch_fut s = Some f ->
    ff_next_offset f = next_offset s /\ ff_start_offset f = StartAt start;
}.

Lemma run_fetch_offset start lo s f client inner :
  consumer_inv start lo s -> fetch_fut s = Some f -> good_client client ->
  run_fetch client f = Ok inner ->
  used_offset inner = default start (next_offset s) /\
  NoDup (map rao_offset (records_and_offsets inner)) /\
  Forall (fun r => used_offset inner <= rao_offset r /\ - 2 ^ 63 <= rao_offset r < 2 ^ 63 - 1)
    (records_and_offsets inner).
Proof.
  intros I Hf Hc. destruct (ci_fetch _ _ _ I f Hf) as [Hn Hs]. unfold run_fetch. rewrite Hn, Hs.
  intros (offset & Ho & ((rs & wm) & Hr & [= <-])%obind_ok)%obind_ok. simpl.
  split; [|by eapply Hc]. destruct (next_offset s); simpl; by injection Ho as <-.
Qed.

Lemma inv_start_fetch start lo s : consumer_inv start lo s -> consumer_inv start lo (start_fetch s).
Proof.
  intros I. unfold start_fetch. destruct (fetch_fut s) eqn:Hf; [done|].
  destruct I as [Is Iso Il In If]. split; simpl; try done. by intros f [= <-].
Qed.

(** A finished fetch. *)
Lemma inv_handle_fetch start lo s f client s' err :
  consumer_inv start lo s -> buffer s = [] -> fetch_fut s = Some f -> good_client client ->
  handle_fetch (run_fetch client f) (clear_fetch s) = Ok (s', err) -> err = None ->
  consumer_inv start lo s'.
Proof.
  intros I Hbuf Hf Hc. destruct (run_fetch client f) as [inner|e|p] eqn:Hr; [| |done].
  - destruct (run_fetch_offset _ _ _ _ _ _ I Hf Hc Hr) as (Hu & Hnd & Hall).
    destruct I as [Is Iso Il [Inl Inu] If]. unfold handle_fetch. simpl. rewrite Hbuf. simpl.
    destruct (sort_by_offset_spec (records_and_offsets inner)) as [Hperm Hsort].
    assert (Hnd' : NoDup (map rao_offset (sort_by_offset (records_and_offsets inner)))).
    { by rewrite (Permutation_map rao_offset Hperm). }
    pose proof (sorted_strict _ Hsort Hnd') as Hlt.
    rewrite <-Hperm in Hall. destruct (list.last _) as [x|] eqn:Hl.
    + destruct (last_largest _ _ Hlt Hl) as [Hin Hmax].
      rewrite Forall_forall in Hall. pose proof (Hall x (proj1 (list_elem_of_In _ _) Hin)) as Hx.
      rewrite <-Forall_forall in Hall. rewrite arith_signed_ok by (unfold in_signed; lia). simpl.
      intros [= <- <-] _. split; simpl; try done.
      * eapply list.Forall_impl; [exact Hall|]. simpl. intros. lia.
      * split; [lia|]. eapply list.Forall_impl; [exact Hmax|]. simpl. intros. lia.
    + intros [= <- <-] _. split; simpl; [done|constructor|constructor|split; [lia|constructor]|done].
  - destruct I as [Is Iso Il In If]. unfold handle_fetch. simpl. rewrite Is, Hbuf.
    destruct e as [| | |pe| |]; try (intros [= <- <-]; done). destruct pe; intros [= <- <-]; done.
Qed.
(** Taking a record off the buffer. *)
Lemma inv_pop start lo s x buf :
  consumer_inv start lo s -> buffer s = x :: buf ->
  lo <= rao_offset x /\ consumer_inv start (rao_offset x + 1)
    (mkStreamConsumer (sc_min_batch_size s) (sc_max_batch_size s) (sc_max_wait_ms s) (start_offset s)
       (next_offset s) (next_backoff s) false (last_high_watermark s) buf (fetch_fut s)).
Proof.
  intros [Is Iso Il [Inl Inu] If] Hbuf. rewrite Hbuf in *.
  apply StronglySorted_inv in Iso as [Hs Hx]. inversion Il; inversion Inu; subst.
  split; [done|]. split; simpl; try done; [|split; [lia|done]].
  eapply list.Forall_impl; [exact Hx|]. unfold offsets_lt. simpl. intros. lia.
Qed.

Lemma poll_next_inv start lo clients : forall s r s' rest,
  consumer_inv start lo s -> Forall good_client clients -> poll_next clients s = Ok (r, s', rest) ->
  match r with
  | Pending => consumer_inv start lo s'
  | Ready (Some (Ok (x, _))) => lo <= rao_offset x /\ consumer_inv start (rao_offset x + 1) s'
  | Ready _ => True
  end.
Proof.
  induction clients as [|client clients IH]; intros s r s' rest I Hg; simpl;
    (destruct (terminated s); [by intros [= <- <- <-]|]); destruct (buffer s) as [|x buf] eqn:Hbuf.
  - intros [= <- <- <-]. by apply inv_start_fetch.
  - intros [= <- <- <-]. by apply (inv_pop _ _ _ _ _ I Hbuf).
  - pose proof (inv_start_fetch _ _ _ I) as I'. inversion Hg as [|? ? Hc Hg']; subst.
    destruct (fetch_fut (start_fetch s)) as [f|] eqn:Hf; [|intros [= <- <- <-]; exact I'].
    intros ((s1 & err) & Hh & Hk)%obind_ok.
    assert (Hbuf' : buffer (start_fetch s) = []) by (unfold start_fetch; destruct (fetch_fut s); done).
    destruct err as [e|]; [by injection Hk as <- <- <-|].
    eapply IH; [|exact Hg'|exact Hk]. by eapply inv_handle_fetch.
  - intros [= <- <- <-]. by apply (inv_pop _ _ _ _ _ I Hbuf).
Qed.

Lemma stream_run_order start lo s xs s' :
  stream_run s xs s' -> consumer_inv start lo s ->
  StronglySorted offsets_lt xs /\ Forall (fun r => lo <= rao_offset r) xs.
Proof.
  intros Hrun. revert lo. induction Hrun as [s|clients s x w s1 rest xs s2 Hg Hp Hr IH
    |clients s s1 rest xs s2 Hg Hp Hr IH]; intros lo I; [repeat constructor| |].
  - pose proof (poll_next_inv _ _ _ _ _ _ _ I Hg Hp) as [Hlo I1]. destruct (IH _ I1) as [Hs Hf].
    split; (constructor; [done|]); (eapply list.Forall_impl; [exact Hf|]); unfold offsets_lt; simpl; intros; lia.
  - pose proof (poll_next_inv _ _ _ _ _ _ _ I Hg Hp) as I1. by apply IH.
Qed.

(** Handing out the buffer. *)
Lemma stream_run_buffer s :
  terminated s = false ->
  stream_run s (buffer s)
    (mkStreamConsumer (sc_min_batch_size s) (sc_max_batch_size s) (sc_max_wait_ms s) (start_offset s)
       (next_offset s) (next_backoff s) false (last_high_watermark s) [] (fetch_fut s)).
Proof.
  destruct s as [a b c st nx bo tm wm buf ff]. simpl. intros ->.
  induction buf as [|x buf IH]; [constructor|].
  eapply (run_item []); [constructor|reflexivity|exact IH].
Qed.
End order.

(** ** Properties *)

(** A stream that starts at an offset yields records in strictly
    increasing order of their offsets, from the start on: no record is yielded
    twice or out of order, however the fetches are cut and whatever order their
    records come in, and pending polls in between change nothing. *)
Theorem consumer_in_order {prof : Profile} builder start xs s :
  scb_start_offset builder = StartAt start -> stream_run (StreamConsumer_build builder) xs s ->
  StronglySorted (fun x y => rao_offset x < rao_offset y) xs /\
  Forall (fun r => start <= rao_offset r) xs.
Proof.
  intros Hstart Hrun. eapply stream_run_order; [exact Hrun|].
  split; simpl; [done|constructor|constructor|split; [lia|constructor]|done].
Qed.

Definition sample_rao (n : Z) : RecordAndOffset := mkRecordAndOffset (sample_record n) n.

(** A client whose answer is out of order, and then has nothing more. *)
Definition sample_client : FetchClient :=
  mkFetchClient
    (fun offset _ _ _ => if offset =? 5 then Ok ([sample_rao 7; sample_rao 6], 8) else Ok ([], 8))
    (fun _ => Ok 5).

Lemma sample_client_good : good_client sample_client.
Proof.
  intros offset a b w rs wm. simpl. destruct (Z.eqb_spec offset 5) as [->|]; intros [= <- <-].
  - split; [|repeat constructor; simpl; lia]. simpl.
    repeat (apply list.NoDup_cons; split; [rewrite ?list_elem_of_singleton; try done; by apply not_elem_of_nil|]).
    by apply list.NoDup_nil.
  - split; [by apply list.NoDup_nil|constructor].
Qed.

#[local] Existing Instance debug_profile.

Definition sample_consumer (bo : option Z) (nx : option Z) (buf : list RecordAndOffset) : StreamConsumer :=
  mkStreamConsumer 1 52428800 500 (StartAt 5) nx bo false 8 buf None.

Lemma sample_stream :
  stream_run (StreamConsumer_build (StreamConsumerBuilder_new (StartAt 5))) [sample_rao 6; sample_rao 7] (sample_consumer None (Some 8) []).
Proof.
  eapply (run_item [sample_client]); [constructor; [apply sample_client_good|constructor]|reflexivity|].
  eapply (run_item []); [constructor|reflexivity|]. constructor.
Qed.

Lemma consumer_in_order_witness :
  StronglySorted (fun x y => rao_offset x < rao_offset y) [sample_rao 6; sample_rao 7].
Proof. exact (proj1 (consumer_in_order (StreamConsumerBuilder_new (StartAt 5)) 5 _ _ eq_refl sample_stream)). Defined.

(** Nothing of a fetch is lost.  When the buffer is empty and a fetch at
    the next offset returns records, the stream yields exactly these records,
    in the order of their offsets, and asks next for the offset after the last
    one. *)
Theorem consumer_delivers_fetch {prof : Profile} s client rs wm :
  terminated s = false -> buffer s = [] -> fetch_fut s = None -> good_client client -> rs <> [] ->
  (exists offset, (next_offset s = Some offset \/ next_offset s = None /\ start_offset s = StartAt offset) /\
     fetch_records client offset (sc_min_batch_size s) (sc_max_batch_size s) (sc_max_wait_ms s) = Ok (rs, wm)) ->
  exists out s', stream_run s out s' /\ out ≡ₚ rs /\
    StronglySorted (fun x y => rao_offset x < rao_offset y) out /\
    buffer s' = [] /\ last_high_watermark s' = wm /\
    exists x, list.last out = Some x /\ next_offset s' = Some (rao_offset x + 1).
Proof.
  intros Ht Hb Hf Hg Hne (offset & Hoff & Hfetch). destruct (Hg _ _ _ _ _ _ Hfetch) as [Hnd Hall].
  destruct (sort_by_offset_spec rs) as [Hperm Hsort]. set (out := sort_by_offset rs) in *.
  assert (Hlt : StronglySorted offsets_lt out).
  { apply sorted_strict; [done|]. by rewrite (Permutation_map rao_offset Hperm). }
  destruct out as [|y out'] eqn:Hout; [by apply Permutation_nil in Hperm|].
  destruct (list.last (y :: out')) as [x|] eqn:Hl; [|by apply last_None in Hl].
  destruct (last_largest _ _ Hlt Hl) as [Hin _]. rewrite <-Hperm in Hall. rewrite Forall_forall in Hall.
  pose proof (Hall x (proj1 (list_elem_of_In _ _) Hin)) as Hx.
  set (mk := fun buf => mkStreamConsumer (sc_min_batch_size s) (sc_max_batch_size s) (sc_max_wait_ms s)
    (start_offset s) (Some (rao_offset x + 1)) None false wm buf None).
  exists (y :: out'), (mk []). split; [|eauto 10].
  eapply (run_item [client] s y wm (mk out')); [by constructor| |exact (stream_run_buffer (mk out') eq_refl)].
  simpl. rewrite Ht, Hb. unfold start_fetch. rewrite Hf. simpl.
  assert (Hrun : run_fetch client (mkFetchFuture (next_backoff s) (next_offset s) (start_offset s)
    (sc_min_batch_size s) (sc_max_batch_size s) (sc_max_wait_ms s)) = Ok (mkFetchResultOk rs wm offset)).
  { unfold run_fetch. simpl. destruct Hoff as [->|[-> ->]]; simpl; by rewrite Hfetch. }
  rewrite Hrun. unfold handle_fetch. simpl. fold out. rewrite Hout, Hl.
  rewrite arith_signed_ok by (unfold in_signed; lia). simpl. by rewrite Ht, Hb.
Qed.

Lemma consumer_delivers_fetch_witness :
  exists out s', stream_run (StreamConsumer_build (StreamConsumerBuilder_new (StartAt 5))) out s' /\ out ≡ₚ [sample_rao 7; sample_rao 6] /\
    StronglySorted (fun x y => rao_offset x < rao_offset y) out /\
    buffer s' = [] /\ last_high_watermark s' = 8 /\
    exists x, list.last out = Some x /\ next_offset s' = Some (rao_offset x + 1).
Proof.
  apply (consumer_delivers_fetch (StreamConsumer_build (StreamConsumerBuilder_new (StartAt 5))) sample_client);
    [reflexivity|reflexivity|reflexivity|apply sample_client_good|discriminate|].
  exists 5. split; [right; split; reflexivity|reflexivity].
Defined.

(** A stream ends after its first error, which it reports once: every later
    poll is the end of the stream, whatever the client would answer.  An offset
    that is out of range is such an error only for a stream that was started at
    a given offset; a stream from the earliest or latest offset resolves its
    offset again after a pause. *)
Theorem consumer_error_once {prof : Profile} clients s e s' rest :
  poll_next clients s = Ok (Ready (Some (Err e)), s', rest) ->
  (forall later, poll_next later s' = Ok (Ready None, s', later)) /\
  (forall msg req resp virt, e = ServerError Errors.OffsetOutOfRange msg req resp virt ->
     exists offset, start_offset s' = StartAt offset).
Proof.
  revert s. induction clients as [|client clients IH]; intros s; simpl;
    (destruct (terminated s); [done|]); destruct (buffer s); try done.
  destruct (fetch_fut (start_fetch s)) as [f|] eqn:Hf; [|done].
  intros ((s1 & err) & Hh & Hk)%obind_ok. destruct err as [e'|]; [|by eapply IH].
  injection Hk as -> -> ->. revert Hh. set (s0 := clear_fetch (start_fetch s)).
  unfold handle_fetch. destruct (run_fetch client f) as [inner|e0|p]; [| |done].
  { destruct (list.last _); [intros (? & _ & [=])%obind_ok|done]. }
  intros Hh. split.
  - intros later. assert (terminated s' = true) as Hterm.
    { destruct e0 as [| | |pe| |]; try (by injection Hh as <- _).
      destruct pe; try (by injection Hh as <- _). destruct (start_offset s0); try done; by injection Hh as <- _. }
    destruct later; simpl; by rewrite Hterm.
  - intros msg req resp virt ->. destruct e0 as [| | |pe| |]; try done.
    destruct pe; try done. destruct (start_offset s0) as [| |o] eqn:Hs; try done.
    injection Hh as <- _. exists o. done.
Qed.

Definition failing_client : FetchClient :=
  mkFetchClient (fun _ _ _ _ => Err (ServerError Errors.OffsetOutOfRange None (CtxTopic []) None false))
    (fun _ => Ok 0).

Lemma consumer_error_once_witness :
  exists s', (forall later, poll_next later s' = Ok (Ready None, s', later)) /\
    exists offset, start_offset s' = StartAt offset.
Proof.
  eexists. split.
  - apply (consumer_error_once [failing_client] (StreamConsumer_build (StreamConsumerBuilder_new (StartAt 5)))
      (ServerError Errors.OffsetOutOfRange None (CtxTopic []) None false) _ []). reflexivity.
  - exists 5. reflexivity.
Defined.
