(* ===== verification/ClientTests.v ===== *)
(** * The tests of the client, replayed

    Unit tests of src/client/metadata_cache.rs, producer/aggregator.rs,
    src/record.rs, src/backoff.rs and client/consumer.rs, as propositions about
    the definitions of this development.  The test of the backoff uses the
    generator of the tests ([rand]'s [StepRng]), with the arithmetic by which
    that crate draws a double from a range. *)

From Stdlib Require Import ZArith Lia String SpecFloat.
From stdpp Require Import base list numbers gmap fin_maps.
From S2P Require Import Prelude Bytes Wire VecBuilder Varint Primitives PrimitiveLaws Record.
From S2P Require Import Codec RecordBatch RefCrates RawSnappy ApiKey ErrorCode Versioned TopicMessages.
From S2P Require Import Frame ProtocolTests Support MetadataCache Io Backoff Aggregator Partition Consumer.
Import ClientErrors.

Local Open Scope Z_scope.
Local Open Scope rust_scope.
Local Open Scope test_scope.

#[local] Existing Instance debug_profile.

(** ** src/client/metadata_cache.rs *)

Definition response_with_topics (topics : list string) : MetadataResponse :=
  mkMetadataResponse (Some (mkInt32 42)) [] None None
    (map (fun t => mkMetadataResponseTopic None (mkString_ (ascii_bytes t)) None []) topics).

(** The cache that [cache.update(m)] leaves; it does not overflow here. *)
Definition updated (m : MetadataResponse) (cache : MetadataCache) : MetadataCache :=
  snd (cache_update (prof:=debug_profile) (E:=Empty_set) m cache).

(** [cache.get(topics)]: its result, and the cache it leaves. *)
Definition cached (topics : option (list string)) (cache : MetadataCache)
    (k : option (MetadataResponse * Z) -> MetadataCache -> Prop) : Prop :=
  let '(r, cache) := cache_get (map ascii_bytes <$> topics) cache in k r cache.

Definition test_get : Prop :=
  cached None MetadataCache_default (fun r cache =>
    r = None /\
    let m := response_with_topics [] in
    cached None (updated m cache) (fun r _ => fst <$> r = Some m)).

Definition test_get_topic_subset_filtered : Prop :=
  let cache := updated (response_with_topics ["bananas"; "platanos"]%string) MetadataCache_default in
  cached (Some ["bananas"%string]) cache (fun r cache =>
    fst <$> r = Some (response_with_topics ["bananas"%string]) /\
    cached (Some []) cache (fun r cache =>
      fst <$> r = Some (response_with_topics []) /\
      cached None cache (fun r _ =>
        fst <$> r = Some (response_with_topics ["bananas"; "platanos"]%string)))).

Definition test_get_missing_topic_invalidate : Prop :=
  let cache := updated (response_with_topics ["bananas"; "platanos"]%string) MetadataCache_default in
  cached (Some ["bananas"%string]) cache (fun r cache =>
    fst <$> r <> None /\
    cached (Some ["goats"%string]) cache (fun r cache =>
      r = None /\ cached (Some ["bananas"%string]) cache (fun r _ => r = None))).

Definition test_explicit_invalidate : Prop :=
  let m := mkMetadataResponse None [] None None [] in
  cached None (updated m MetadataCache_default) (fun r cache =>
    match r with
    | Some (_, gen1) =>
        cached None (cache_invalidate gen1 cache) (fun r cache =>
          r = None /\
          cached None (updated m cache) (fun r cache =>
            match r with
            | Some (_, gen2) =>
                cached None (cache_invalidate gen1 cache) (fun r cache =>
                  fst <$> r <> None /\
                  cached None (cache_invalidate gen2 cache) (fun r _ => r = None))
            | None => False
            end))
    | None => False
    end).

(** ** src/record.rs and src/client/producer/aggregator.rs *)

Definition zeros (n : nat) : list byte := replicate n (byte_of_Z 0).

(** [Utc.timestamp_millis_opt(1337)] *)
Definition at_1337_ms : Z := 1337 * 10 ^ 6.

Definition test_approximate_size : Prop :=
  approximate_size (mkClientRecord (Some (zeros 23)) (Some (zeros 45))
    [(ascii_bytes "a", zeros 5); (ascii_bytes "b", zeros 7)] at_1337_ms) = 23 + 45 + 1 + 5 + 1 + 7.

(** [aggregator.try_push(r).unwrap().unwrap_tag()], [.unwrap_input()] and
    [aggregator.flush().unwrap()]. *)
Definition push_tag (r : ClientRecord) (a : RecordAggregator) (k : nat -> RecordAggregator -> Prop) : Prop :=
  let '(x, a) := RecordAggregator_try_push r a in
  get x := x in get tag := unwrap_tag (E:=Empty_set) x in k tag a.
Definition push_full (r : ClientRecord) (a : RecordAggregator) (k : RecordAggregator -> Prop) : Prop :=
  let '(x, a) := RecordAggregator_try_push r a in
  get x := x in get _ := unwrap_input (E:=Empty_set) x in k a.
Definition flushes (n : nat) (a : RecordAggregator)
    (k : RecordAggregatorStatusDeaggregator -> RecordAggregator -> Prop) : Prop :=
  let '(x, a) := RecordAggregator_flush a in
  get (records, deagg) := x in length records = n /\ k deagg a.

Definition test_record_aggregator : Prop :=
  let r1 := mkClientRecord (Some (zeros 45)) (Some (zeros 2)) [] at_1337_ms in
  let r2 := mkClientRecord (Some (zeros 45)) (Some (zeros 34)) [] at_1337_ms in
  (approximate_size r1 <? approximate_size r2) = true /\
  (approximate_size r2 <? approximate_size r2 * 2) = true /\
  push_tag r1 (RecordAggregator_new (approximate_size r1 * 2)) (fun t1 a =>
  push_tag r1 a (fun t2 a =>
  push_full r1 a (fun a =>
  push_full r1 a (fun a =>
  flushes 2 a (fun deagg a =>
    RecordAggregator_deaggregate deagg [10; 20] t1 = Ok 10 /\
    RecordAggregator_deaggregate deagg [10; 20] t2 = Ok 20 /\
  push_tag r1 a (fun t1 a =>
  flushes 1 a (fun deagg a =>
    RecordAggregator_deaggregate deagg [10] t1 = Ok 10 /\
  push_tag r1 a (fun t1 a =>
  push_tag r1 a (fun t2 a =>
  flushes 2 a (fun deagg a =>
    RecordAggregator_deaggregate deagg [10; 20] t1 = Ok 10 /\
    RecordAggregator_deaggregate deagg [10; 20] t2 = Ok 20 /\
  flushes 0 a (fun _ a =>
  push_tag r1 a (fun _ a =>
  push_full r2 a (fun a =>
  flushes 1 a (fun _ a =>
  push_tag r2 a (fun _ _ =>
  push_full r2 (RecordAggregator_new (approximate_size r1)) (fun _ => True)))))))))))))))).

Definition test_unwrap : Prop :=
  unwrap_input (E:=Empty_set) (T:=Z) (NoCapacity 42) = Ok 42 /\
  unwrap_input (E:=Empty_set) (I:=Z) (Aggregated 42) = Panic ExplicitPanic /\
  unwrap_tag (E:=Empty_set) (I:=Z) (Aggregated 42) = Ok 42 /\
  unwrap_tag (E:=Empty_set) (T:=Z) (NoCapacity 42) = Panic ExplicitPanic.

(** ** src/backoff.rs *)

(** [StepRng::new(v, 0)]: always the same 64 bits. *)
Record StepRng : Type := mkStepRng { step_v : Z }.

(** [rng.gen_range(lo..hi)] on doubles: 52 of the bits as a number in [0, 1),
    scaled to the range. *)
#[local] Instance StepRng_RngCore : RngCore StepRng := fun lo hi r =>
  let value0_1 := binary_normalize 53 1024 (step_v r / 2 ^ 12) (-52) false in
  let res := f64_add (f64_mul value0_1 (SFsub 53 1024 hi lo)) lo in
  if f64_lt res hi then Some (res, r) else None.

(** Nothing else happens in this test. *)
#[local] Instance quiet_timer : Timer unit := {|
  thread_rng := fun _ _ _ => None;
  sleep_for _ w := w;
  slept _ := [];
|}.

(** The next [n] results of [backoff.next()]. *)
Fixpoint nexts (n : nat) (b : Backoff StepRng) : option (list (option Z)) :=
  match n with
  | O => Some []
  | S n =>
      match Backoff_next (W:=unit) (E:=Empty_set) b tt with
      | Some (Ok (x, b), _) => cons x <$> nexts n b
      | _ => None
      end
  end.

(** [assert_fuzzy_eq]: seconds that differ by less than 0.0001. *)
Definition fuzzy_eq (a b : f64) : bool :=
  f64_lt (SFabs (SFsub 53 1024 b a)) (f64_div (f64_of_Z 1) (f64_of_Z 10000)).

Definition fuzzy_backoffs (b : Backoff StepRng) (expected : list f64) : Prop :=
  match nexts (length expected) b with
  | Some xs => forallb (fun '(x, e) => match x with
                                       | Some d => fuzzy_eq (as_secs_f64 d) e
                                       | None => false
                                       end) (zip xs expected) = true
  | None => False
  end.

(** The expected values for the middle of the range. *)
Fixpoint mid_values (n : nat) (value : f64) : list f64 :=
  match n with
  | O => []
  | S n =>
      value :: mid_values n
        (f64_min (f64_add (f64_of_Z 1)
                    (f64_div (SFsub 53 1024 (f64_mul value (f64_of_Z 3)) (f64_of_Z 1)) (f64_of_Z 2)))
           (f64_of_Z 500))
  end.

Definition test_backoff : Prop :=
  let config deadline := mkBackoffConfig (from_secs 1) (from_secs 500) (f64_of_Z 3) deadline in
  let backoff deadline v := Backoff_new_with_rng (config deadline) (Some (mkStepRng v)) in
  nexts 20 (backoff None 0) = Some (replicate 20 (Some (from_secs 1))) /\
  fuzzy_backoffs (backoff None (2 ^ 64 - 1))
    (map (fun i => f64_min (f64_mul (f64_of_Z (3 ^ Z.of_nat i)) (f64_of_Z 1)) (f64_of_Z 500)) (seq 0 20)) /\
  fuzzy_backoffs (backoff None ((2 ^ 64 - 1) / 2)) (mid_values 20 (f64_of_Z 1)) /\
  nexts 1 (backoff (Some (from_secs 1)) (2 ^ 64 - 1)) = Some [None].

(** ** src/client/consumer.rs *)

(** [MockFetch] with the records it has got so far; it answers when there is
    something to answer, so that its waiting is a poll that is pending. *)
Record MockFetch : Type := mkMockFetch {
  mock_buffer : list ClientRecord;
  mock_next_err : option ClientErrors.Error;
  mock_range : Z * Z;
}.

(** The records that fit, from an offset on. *)
Fixpoint mock_take (bytes_end buffered : Z) (l : list RecordAndOffset) : outcome ClientErrors.Error (list RecordAndOffset) :=
  match l with
  | [] => Ok []
  | x :: l =>
      let size := approximate_size (rao_record x) in
      if bytes_end <? size + buffered then
        let! _ := oassert (negb (buffered =? 0)) in Ok []
      else let! l := mock_take bytes_end (buffered + size) l in Ok (x :: l)
  end.

Definition mock_fetch_records (self : MockFetch) (start_offset _ bytes_end _ : Z) :
    outcome ClientErrors.Error (list RecordAndOffset * Z) :=
  match mock_next_err self with
  | Some err => Err err
  | None =>
      let enumerated := imap (fun i r => mkRecordAndOffset r (Z.of_nat i)) (mock_buffer self) in
      let! buffer := mock_take bytes_end 0 (drop (Z.to_nat start_offset) enumerated) in
      Ok (buffer, zlen (mock_buffer self) - 1)
  end.

Definition mock_get_offset (self : MockFetch) (at_ : OffsetAt) : outcome ClientErrors.Error Z :=
  match at_ with
  | Earliest => Ok (fst (mock_range self))
  | Latest => Ok (snd (mock_range self))
  end.

Definition mock_client (self : MockFetch) : FetchClient :=
  mkFetchClient (mock_fetch_records self) (mock_get_offset self).

(** A mock that has received [n] copies of the record of the tests. *)
Definition mock_record : ClientRecord :=
  mkClientRecord (Some (zeros 4)) (Some (zeros 6)) [] at_1337_ms.
Definition mock_with (n : nat) (range : Z * Z) : FetchClient :=
  mock_client (mkMockFetch (replicate n mock_record) None range).

(** [stream.next()] while the fetches that end are answered by [clients]: what
    it yields, and the stream. *)
Definition stream_next (clients : list FetchClient) (s : StreamConsumer)
    (k : Poll (option (outcome ClientErrors.Error (RecordAndOffset * Z))) -> StreamConsumer -> Prop) : Prop :=
  get (p, s, _) := poll_next clients s in k p s.

Definition assert_pending (clients : list FetchClient) (s : StreamConsumer) (k : StreamConsumer -> Prop) : Prop :=
  stream_next clients s (fun p s => p = Pending /\ k s).

(** The record at [offset] with the high watermark is yielded. *)
Definition assert_yields (clients : list FetchClient) (s : StreamConsumer) (offset high_watermark : Z)
    (k : StreamConsumer -> Prop) : Prop :=
  stream_next clients s (fun p s =>
    p = Ready (Some (Ok (mkRecordAndOffset mock_record offset, high_watermark))) /\ k s).

Definition test_consumer : Prop :=
  let stream := StreamConsumer_build (with_max_wait_ms (StreamConsumerBuilder_new (StartAt 2)) 10) in
  let mock n := mock_with n (0, 1000) in
  assert_pending [] stream (fun stream =>
  assert_pending [] stream (fun stream =>
  assert_yields [mock 3%nat] stream 2 2 (fun stream =>
  assert_yields [mock 6%nat] stream 3 5 (fun stream =>
  assert_yields [] stream 4 5 (fun stream =>
  assert_yields [] stream 5 5 (fun _ => True)))))).

(** The requests that time out return no records; the sizes of the batches are
    limited to two and three records. *)
Definition test_consumer_timeout : Prop :=
  let size := approximate_size mock_record in
  let stream := StreamConsumer_build (with_max_wait_ms (with_max_batch_size (with_min_batch_size
    (StreamConsumerBuilder_new (StartAt 0)) (size * 2)) (size * 3)) 5) in
  let mock n := mock_with n (0, 1000) in
  assert_pending [mock 0%nat; mock 0%nat] stream (fun stream =>
  assert_yields [mock 0%nat; mock 1%nat] stream 0 0 (fun stream =>
  assert_yields [mock 3%nat] stream 1 2 (fun stream =>
  assert_yields [] stream 2 2 (fun _ => True)))).

Definition out_of_range : ClientErrors.Error :=
  ServerError Errors.OffsetOutOfRange None (CtxPartition (ascii_bytes "foo") 1) None true.

(** A mock whose first fetch fails. *)
Definition mock_failing (range : Z * Z) : FetchClient :=
  mock_client (mkMockFetch [] (Some out_of_range) range).

Definition test_consumer_terminate : Prop :=
  let stream := StreamConsumer_build (StreamConsumerBuilder_new (StartAt 0)) in
  stream_next [mock_failing (0, 1000)] stream (fun p stream =>
    p = Ready (Some (Err out_of_range)) /\
    stream_next [] stream (fun p _ => p = Ready None)).

Definition test_consumer_earliest : Prop :=
  let stream := StreamConsumer_build (with_max_wait_ms (StreamConsumerBuilder_new StartEarliest) 10) in
  assert_pending [mock_failing (2, 1000)] stream (fun stream =>
  assert_pending [mock_with 2 (2, 1000)] stream (fun stream =>
  assert_yields [mock_with 3 (2, 1000)] stream 2 2 (fun _ => True))).

Definition test_consumer_latest : Prop :=
  let stream := StreamConsumer_build (with_max_wait_ms (StreamConsumerBuilder_new StartLatest) 10) in
  assert_pending [mock_failing (0, 2)] stream (fun stream =>
  assert_pending [mock_with 2 (0, 2)] stream (fun stream =>
  assert_yields [mock_with 3 (0, 2)] stream 2 2 (fun _ => True))).

(** ** The tests pass *)

Lemma cache_tests_pass :
  test_get /\ test_get_topic_subset_filtered /\ test_get_missing_topic_invalidate /\ test_explicit_invalidate.
Proof. vm_compute. repeat split; congruence. Qed.

Lemma aggregator_tests_pass : test_approximate_size /\ test_record_aggregator /\ test_unwrap.
Proof. passes. Qed.

Lemma backoff_test_passes : test_backoff.
Proof. passes. Qed.

Lemma consumer_tests_pass :
  test_consumer /\ test_consumer_timeout /\ test_consumer_terminate /\ test_consumer_earliest /\
  test_consumer_latest.
Proof. passes. Qed.
