(* ===== verification/ConsumerLog.v ===== *)
(** * The consumer reads the log (src/client/consumer.rs)

    The abstract view of a partition is its log: the records in the order of
    their offsets.  A stream that starts at an offset is a reader of the log
    from there on, without gaps and without repetitions, whatever the sizes and
    the order in which the broker hands out the records. *)

From Stdlib Require Import ZArith Lia Sorted.
From stdpp Require Import base list numbers.
From S2P Require Import Prelude Bytes ErrorCode Support Aggregator Partition Consumer.
Import ClientErrors.

Local Open Scope Z_scope.
Local Open Scope rust_scope.

Abbreviation log := (list RecordAndOffset).

(** The log from an offset on. *)
Definition log_from (o : Z) (l : log) : log := filter (fun r => o <= rao_offset r) l.

(** Offsets grow along the log, and leave room for a next one. *)
Record log_ok (l : log) : Prop := {
  log_sorted : StronglySorted offsets_lt l;
  log_range : Forall (fun r => - 2 ^ 63 <= rao_offset r < 2 ^ 63 - 1) l;
}.

(** It only depends on the offsets. *)
Lemma log_ok_offsets l :
  StronglySorted Z.lt (map rao_offset l) /\ Forall (fun o => - 2 ^ 63 <= o < 2 ^ 63 - 1) (map rao_offset l) ->
  log_ok l.
Proof.
  intros [Hs Hr]. split; [|by apply Forall_map in Hr]. clear Hr.
  induction l as [|x l IH]; [constructor|]. simpl map in Hs. apply StronglySorted_inv in Hs as [Hs Hx].
  constructor; [by apply IH|]. exact (proj1 (Forall_map _ _ _) Hx).
Qed.

(** A client that serves the log: an answered fetch holds the first records
    from the offset it was asked for on, any number of them, in any order. *)
Definition serves (l : log) (c : FetchClient) : Prop :=
  forall offset a b w rs wm, fetch_records c offset a b w = Ok (rs, wm) ->
  exists n, rs ≡ₚ take n (log_from offset l).

(** ** Lemmas on logs *)
Lemma sorted_app_inv (l1 l2 : log) :
  StronglySorted offsets_lt (l1 ++ l2) ->
  StronglySorted offsets_lt l1 /\ StronglySorted offsets_lt l2 /\
  (forall x y, x ∈ l1 -> y ∈ l2 -> offsets_lt x y).
Proof.
  induction l1 as [|x l1 IH]; simpl; [split; [constructor|]; split; [done|]; intros ? ? []%elem_of_nil|].
  intros [Hs Hx]%StronglySorted_inv. destruct (IH Hs) as (H1 & H2 & H3).
  apply Forall_app in Hx as [Hx1 Hx2]. split; [by constructor|]. split; [done|].
  intros a b [->|Ha]%elem_of_cons Hb; [|by apply H3]. by rewrite list.Forall_forall in Hx2; apply Hx2.
Qed.

Section filters.
Context (P : RecordAndOffset -> Prop) `{forall x, Decision (P x)}.
Lemma filter_all (l : log) : Forall P l -> filter P l = l.
Proof. induction 1; [done|]. rewrite filter_cons_True by done. by f_equal. Qed.
Lemma filter_none (l : log) : Forall (fun x => ~ P x) l -> filter P l = [].
Proof. induction 1; [done|]. by rewrite filter_cons_False. Qed.
End filters.

Lemma sorted_filter o (l : log) : StronglySorted offsets_lt l -> StronglySorted offsets_lt (log_from o l).
Proof.
  unfold log_from. induction 1 as [|x l Hs IH Hx]; [constructor|]. rewrite filter_cons.
  case_decide; [|done]. constructor; [done|]. rewrite list.Forall_forall in Hx |- *.
  intros y [_ Hy]%list_elem_of_filter. by apply Hx.
Qed.

(** Two sorted lists with the same records are the same list. *)
Lemma sorted_unique (l1 l2 : log) :
  StronglySorted offsets_lt l1 -> StronglySorted offsets_lt l2 -> l1 ≡ₚ l2 -> l1 = l2.
Proof.
  revert l2. induction l1 as [|x l1 IH]; intros l2 H1 H2 Hp.
  { by apply Permutation_nil in Hp as ->. }
  destruct l2 as [|y l2]; [by apply Permutation_sym, Permutation_nil in Hp|].
  apply StronglySorted_inv in H1 as [H1 Hx]. apply StronglySorted_inv in H2 as [H2 Hy].
  assert (x = y) as ->.
  { assert (In x (y :: l2)) as [|Hin] by (rewrite <-Hp; by left); [done|].
    assert (In y (x :: l1)) as [|Hin'] by (rewrite Hp; by left); [done|].
    rewrite List.Forall_forall in Hx, Hy. specialize (Hx y Hin'). specialize (Hy x Hin).
    unfold offsets_lt in *. lia. }
  f_equal. apply IH; [done|done|]. by apply Permutation_cons_inv in Hp.
Qed.

(** After the records up to [x], the log goes on from the offset after [x]. *)
Lemma log_from_next o (l : log) l1 l2 x :
  StronglySorted offsets_lt l -> log_from o l = l1 ++ l2 -> list.last l1 = Some x ->
  l2 = log_from (rao_offset x + 1) l.
Proof.
  intros Hs Heq Hl. pose proof (sorted_filter o l Hs) as Hf. rewrite Heq in Hf.
  destruct (sorted_app_inv _ _ Hf) as (Hs1 & _ & Hlt). destruct (last_largest _ _ Hs1 Hl) as [Hin Hmax].
  assert (o <= rao_offset x) as Ho.
  { assert (x ∈ log_from o l) as Hx by (rewrite Heq; apply elem_of_app; by left).
    unfold log_from in Hx. by apply list_elem_of_filter in Hx as [? _]. }
  assert (log_from (rao_offset x + 1) l = log_from (rao_offset x + 1) (log_from o l)) as ->.
  { unfold log_from. rewrite list_filter_filter. apply list_filter_iff. intros r. lia. }
  rewrite Heq. unfold log_from. rewrite list.filter_app.
  rewrite (filter_none _ l1), (filter_all _ l2); [done|..].
  - rewrite list.Forall_forall. intros y Hy. specialize (Hlt x y Hin Hy). unfold offsets_lt in Hlt. lia.
  - eapply list.Forall_impl; [exact Hmax|]. simpl. lia.
Qed.

(** A client that serves a log is one the order theorem is about. *)
Lemma serves_good l c : log_ok l -> serves l c -> good_client c.
Proof.
  intros [Hs Hr] Hc offset a b w rs wm Hf. destruct (Hc _ _ _ _ _ _ Hf) as [n Hp].
  assert (StronglySorted offsets_lt (take n (log_from offset l))) as Ht.
  { pose proof (sorted_filter offset l Hs) as H. rewrite <-(take_drop n (log_from offset l)) in H.
    by apply sorted_app_inv in H as [? _]. }
  split.
  - rewrite (Permutation_map rao_offset Hp). clear Hp Hf. induction Ht as [|x t _ IH Hx]; [constructor|].
    simpl. constructor; [|done]. intros (y & Heq & Hy)%list_elem_of_fmap.
    rewrite list.Forall_forall in Hx. specialize (Hx y Hy). unfold offsets_lt in Hx. lia.
  - rewrite Hp. rewrite list.Forall_forall in Hr |- *. intros x Hx.
    assert (x ∈ log_from offset l) as [? Hin]%list_elem_of_filter
      by (rewrite <-(take_drop n); apply elem_of_app; by left).
    split; [done|by apply Hr].
Qed.

(** ** The stream follows the log *)
Inductive log_run {prof : Profile} (l : log) : StreamConsumer -> list RecordAndOffset -> StreamConsumer -> Prop :=
| log_done s : log_run l s [] s
| log_item clients s x w s1 rest xs s2 :
    Forall (serves l) clients -> poll_next clients s = Ok (Ready (Some (Ok (x, w))), s1, rest) ->
    log_run l s1 xs s2 -> log_run l s (x :: xs) s2
| log_pending clients s s1 rest xs s2 :
    Forall (serves l) clients -> poll_next clients s = Ok (Pending, s1, rest) ->
    log_run l s1 xs s2 -> log_run l s xs s2.

Section follow.
Context {prof : Profile} (l : log) (start : Z).
Hypothesis Hlog : log_ok l.

(** What is still to come, [todo], is the buffer and then the log from the next
    offset on. *)
Record follows (todo : log) (s : StreamConsumer) : Prop := {
  fo_start : start_offset s = StartAt start;
  fo_log : todo = buffer s ++ log_from (default start (next_offset s)) l;
  fo_fetch : forall f, fetch_fut s = Some f ->
    ff_next_offset f = next_offset s /\ ff_start_offset f = StartAt start;
}.

Lemma follows_start_fetch todo s : follows todo s -> follows todo (start_fetch s).
Proof.
  intros [Fs Fl Ff]. unfold start_fetch. destruct (fetch_fut s) eqn:Hf; [by split; rewrite ?Hf|].
  split; simpl; [done|done|]. by intros f [= <-].
Qed.

Lemma follows_handle todo s f client s' :
  follows todo s -> buffer s = [] -> fetch_fut s = Some f -> serves l client ->
  handle_fetch (run_fetch client f) (clear_fetch s) = Ok (s', None) -> follows todo s'.
Proof.
  intros [Fs Fl Ff] Hbuf Hf Hc. destruct (Ff f Hf) as [Hn Hst]. rewrite Hbuf in Fl. simpl in Fl.
  destruct (run_fetch client f) as [inner|e|p] eqn:Hr; [| |done].
  2: { unfold handle_fetch. simpl. rewrite Fs. intros Hh. by repeat case_match. }
  unfold run_fetch in Hr. rewrite Hn, Hst in Hr.
  apply obind_ok in Hr as (o & Ho & Hr). apply obind_ok in Hr as ([rs wm] & Hfetch & [= <-]).
  assert (o = default start (next_offset s)) as -> by (by destruct (next_offset s); injection Ho).
  destruct (Hc _ _ _ _ _ _ Hfetch) as [n Hp]. set (o := default start (next_offset s)) in *.
  destruct (sort_by_offset_spec rs) as [Hperm Hsort].
  destruct (serves_good _ _ Hlog Hc _ _ _ _ _ _ Hfetch) as [Hnd Hall].
  assert (sort_by_offset rs = take n (log_from o l)) as Hsrt.
  { apply sorted_unique; [|by apply (sorted_app_inv _ (drop n (log_from o l))); rewrite take_drop;
      apply sorted_filter, Hlog|by rewrite Hperm].
    apply sorted_strict; [done|]. by rewrite (Permutation_map rao_offset Hperm). }
  unfold handle_fetch. simpl. rewrite Hsrt, Hbuf. simpl. destruct (list.last (take n (log_from o l))) as [x|] eqn:Hl.
  - intros (next & Hnext & [= <-])%obind_ok.
    assert (x ∈ rs) as Hx by (rewrite Hp; by apply last_Some_elem_of).
    rewrite list.Forall_forall in Hall. specialize (Hall x Hx).
    rewrite arith_signed_ok in Hnext by (unfold in_signed; lia). injection Hnext as <-.
    split; simpl; [done| |done].
    rewrite <-(log_from_next o l (take n (log_from o l)) (drop n (log_from o l)) x);
      [by rewrite take_drop|apply Hlog|by rewrite take_drop|done].
  - intros [= <-]. apply last_None in Hl. split; simpl; [done|done|done].
Qed.

Lemma follows_poll clients : forall todo s r s' rest,
  follows todo s -> Forall (serves l) clients -> poll_next clients s = Ok (r, s', rest) ->
  match r with
  | Pending => follows todo s'
  | Ready (Some (Ok (x, _))) => exists todo', todo = x :: todo' /\ follows todo' s'
  | Ready _ => True
  end.
Proof.
  assert (Hpop : forall todo s x buf tm, follows todo s -> buffer s = x :: buf ->
    exists todo', todo = x :: todo' /\ follows todo'
      (mkStreamConsumer (sc_min_batch_size s) (sc_max_batch_size s) (sc_max_wait_ms s) (start_offset s)
         (next_offset s) (next_backoff s) tm (last_high_watermark s) buf (fetch_fut s))).
  { intros todo s x buf tm [Fs -> Ff] Hb. rewrite Hb. simpl. eexists. split; [done|]. by split. }
  induction clients as [|client clients IH]; intros todo s r s' rest F Hg; simpl;
    (destruct (terminated s) eqn:Hterm; [by intros [= <- <- <-]|]); destruct (buffer s) as [|x buf] eqn:Hbuf.
  - intros [= <- <- <-]. by apply follows_start_fetch.
  - intros [= <- <- <-]. by apply Hpop.
  - pose proof (follows_start_fetch _ _ F) as F'. inversion Hg as [|? ? Hc Hg']; subst.
    destruct (fetch_fut (start_fetch s)) as [f|] eqn:Hf; [|intros [= <- <- <-]; exact F'].
    intros ((s1 & err) & Hh & Hk)%obind_ok. destruct err as [e|]; [by injection Hk as <- <- <-|].
    eapply IH; [|exact Hg'|exact Hk]. eapply follows_handle; [exact F'| |done|done|done].
    unfold start_fetch. by destruct (fetch_fut s).
  - intros [= <- <- <-]. by apply Hpop.
Qed.

Lemma log_run_follows s xs s' todo :
  log_run l s xs s' -> follows todo s -> exists rest, todo = xs ++ rest /\ follows rest s'.
Proof.
  intros Hrun. revert todo. induction Hrun as [s|clients s x w s1 rest xs s2 Hg Hp Hr IH
    |clients s s1 rest xs s2 Hg Hp Hr IH]; intros todo F; [by exists todo| |].
  - destruct (follows_poll _ _ _ _ _ _ F Hg Hp) as (todo' & -> & F').
    destruct (IH _ F') as (more & -> & Hm). by exists more.
  - exact (IH _ (follows_poll _ _ _ _ _ _ F Hg Hp)).
Qed.
End follow.

(** ** Nothing is left behind *)
Section complete.
Context {prof : Profile} (l : log) (start : Z) (client : FetchClient).
Hypothesis Hlog : log_ok l.
Hypothesis Hserves : serves l client.

(** The client answers, with at least one record where there is one. *)
Hypothesis Hgenerous : forall offset a b w, exists rs wm,
  fetch_records client offset a b w = Ok (rs, wm) /\ (rs = [] -> log_from offset l = []).

Definition idle (s : StreamConsumer) : Prop := terminated s = false /\ fetch_fut s = None.

Lemma idle_fetch todo s :
  follows l start todo s -> idle s -> buffer s = [] -> todo <> [] ->
  exists s1 x buf, buffer s1 = x :: buf /\ idle s1 /\ follows l start todo s1 /\
    poll_next [client] s = poll_next [] s1.
Proof.
  intros F [Ht Hff] Hb Hne. pose proof (follows_start_fetch _ _ _ _ F) as F'.
  assert (buffer (start_fetch s) = []) as Hb' by (unfold start_fetch; by rewrite Hff).
  assert (exists f, fetch_fut (start_fetch s) = Some f /\ ff_next_offset f = next_offset s /\
    ff_start_offset f = start_offset s) as (f & Hf & Hn & Hs) by (unfold start_fetch; rewrite Hff; by eexists).
  assert (exists rs wm, run_fetch client f = Ok (mkFetchResultOk rs wm (default start (next_offset s))) /\ rs <> [])
    as (rs & wm & Hr & Hrs).
  { unfold run_fetch. rewrite Hn, Hs, (fo_start _ _ _ _ F).
    destruct (Hgenerous (default start (next_offset s)) (ff_min_batch_size f) (ff_max_batch_size f)
      (ff_max_wait_ms f)) as (rs & wm & Hfetch & Hem).
    exists rs, wm. split; [destruct (next_offset s); simpl in *; by rewrite Hfetch|].
    intros ->. apply Hne. rewrite (fo_log _ _ _ _ F), Hb. by apply Hem. }
  assert (exists s1, handle_fetch (run_fetch client f) (clear_fetch (start_fetch s)) = Ok (s1, None) /\
    buffer s1 = sort_by_offset rs /\ idle s1) as (s1 & Hh & Hb1 & Hi).
  { pose proof (serves_good _ _ Hlog Hserves) as Hg.
    destruct (sort_by_offset_spec rs) as [Hp _]. rewrite Hr. unfold handle_fetch. simpl. rewrite Hb'.
    destruct (list.last (sort_by_offset rs)) as [x|] eqn:Hl.
    2: { apply last_None in Hl. rewrite Hl in Hp. by apply Permutation_nil in Hp. }
    assert (x ∈ rs) as Hx by (rewrite <-Hp; by apply last_Some_elem_of).
    unfold run_fetch in Hr. apply obind_ok in Hr as (o & _ & Hr). apply obind_ok in Hr as ([rs' wm'] & Hfetch & [= -> -> ->]).
    destruct (Hg _ _ _ _ _ _ Hfetch) as [_ Hall]. rewrite list.Forall_forall in Hall. specialize (Hall x Hx).
    rewrite arith_signed_ok by (unfold in_signed; lia). simpl. eexists. split; [done|]. split; [done|].
    split; [|done]. simpl. unfold start_fetch. by rewrite Hff. }
  destruct (sort_by_offset rs) as [|x buf] eqn:Hsort.
  { destruct (sort_by_offset_spec rs) as [Hp _]. rewrite Hsort in Hp. by apply Permutation_nil in Hp. }
  exists s1, x, buf. split; [done|]. split; [done|].
  split; [by eapply follows_handle|]. simpl. rewrite Ht, Hb, Hf, Hh. simpl. by destruct Hi as [-> _].
Qed.

Lemma follows_reads_all todo : forall s, follows l start todo s -> idle s -> exists s', log_run l s todo s'.
Proof.
  assert (Hpop : forall s x buf, buffer s = x :: buf -> idle s -> exists w s1,
    poll_next [] s = Ok (Ready (Some (Ok (x, w))), s1, []) /\ idle s1).
  { intros s x buf Hb [Ht Hf]. simpl. rewrite Ht, Hb. eexists _, _. split; [done|]. by split. }
  induction todo as [|y todo IH]; intros s F Hi; [eexists; constructor|].
  assert (exists x w s1 rest, poll_next [client] s = Ok (Ready (Some (Ok (x, w))), s1, rest) /\ idle s1)
    as (x & w & s1 & rest & Hp & Hi1).
  { destruct (buffer s) as [|x buf] eqn:Hb.
    - destruct (idle_fetch _ _ F Hi Hb) as (s1 & x & buf & Hb1 & Hi1 & _ & Heq); [done|].
      destruct (Hpop _ _ _ Hb1 Hi1) as (w & s2 & Hp & Hi2). rewrite Heq. by eauto 10.
    - destruct Hi as [Ht Hf]. simpl. rewrite Ht, Hb. eexists _, _, _, _. split; [done|]. by split. }
  assert (Forall (serves l) [client]) as Hg by (by repeat constructor).
  destruct (follows_poll l start Hlog _ _ _ _ _ _ F Hg Hp) as (todo' & [= <- <-] & F').
  destruct (IH s1 F' Hi1) as [s2 Hrun]. exists s2. by eapply log_item.
Qed.
End complete.

(** ** Properties *)

(** A stream is a reader of the log.  Started at an offset, it yields the
    records of the log from that offset on, one after the other, without a gap
    and without a repetition, whatever number of records the broker returns in
    a fetch and in whatever order; and if the broker answers every fetch, with
    at least one record where there is one, the stream can be read to the end
    of the log. *)
Theorem consumer_reads_log {prof : Profile} l builder start :
  log_ok l -> scb_start_offset builder = StartAt start ->
  (forall xs s, log_run l (StreamConsumer_build builder) xs s -> exists rest, log_from start l = xs ++ rest) /\
  (forall client, serves l client ->
     (forall offset a b w, exists rs wm,
        fetch_records client offset a b w = Ok (rs, wm) /\ (rs = [] -> log_from offset l = [])) ->
     exists s, log_run l (StreamConsumer_build builder) (log_from start l) s).
Proof.
  intros Hlog Hstart. assert (follows l start (log_from start l) (StreamConsumer_build builder)) as F.
  { by split. }
  split.
  - intros xs s Hrun. destruct (log_run_follows l start Hlog _ _ _ _ Hrun F) as (rest & Heq & _). eauto.
  - intros client Hs Hg. by apply (follows_reads_all l start client Hlog Hs Hg).
Qed.

Definition sample_log : log := [sample_rao 3; sample_rao 5; sample_rao 6; sample_rao 9].

(** A broker that returns one record at a time. *)
Definition one_by_one : FetchClient :=
  mkFetchClient (fun offset _ _ _ => Ok (take 1 (log_from offset sample_log), 10)) (fun _ => Ok 3).

Lemma sample_log_ok : log_ok sample_log.
Proof. split; repeat constructor; unfold offsets_lt; simpl; lia. Qed.

Lemma consumer_reads_log_witness :
  exists s, log_run (prof:=debug_profile) sample_log
    (StreamConsumer_build (StreamConsumerBuilder_new (StartAt 5))) [sample_rao 5; sample_rao 6; sample_rao 9] s.
Proof.
  apply (proj2 (consumer_reads_log (prof:=debug_profile) sample_log (StreamConsumerBuilder_new (StartAt 5)) 5
    sample_log_ok eq_refl) one_by_one).
  - intros offset a b w rs wm [= <- <-]. exists 1%nat. reflexivity.
  - intros offset a b w. exists (take 1 (log_from offset sample_log)), 10. split; [reflexivity|].
    destruct (log_from offset sample_log); [reflexivity|discriminate].
Defined.
