(* ===== verification/BrokerLog.v ===== *)
(** * The log of a partition, as a broker stores it

    A broker stores record batches.  Its log is read off the batches without
    the client's code: the records of the data batches, each at the base offset
    of its batch plus its delta, with the first timestamp of the batch plus its
    delta.  The lemmas say what [extract_records] (src/client/partition.rs)
    makes of such a log. *)

From Stdlib Require Import ZArith Lia Sorted.
From stdpp Require Import base list numbers sets.
From S2P Require Import Prelude Bytes Wire Primitives Record RecordBatch.
From S2P Require Import Aggregator Partition PartitionProps Consumer ConsumerLog.
Import ClientErrors.

Local Open Scope Z_scope.
Local Open Scope rust_scope.

(** ** Stored records *)
Record StoredRecord : Type := mkStoredRecord {
  st_offset : Z;
  st_key : option (list byte);
  st_value : option (list byte);
  st_headers : list RecordHeader;
  st_millis : Z;
}.

Definition stored_in (batch : RecordBatch) (r : Record_) : StoredRecord :=
  mkStoredRecord (base_offset batch + offset_delta r) (key r) (value r) (headers r)
    (first_timestamp batch + timestamp_delta r).

Definition batch_log (batch : RecordBatch) : list StoredRecord :=
  match records batch with
  | ControlBatch _ => []
  | RecordList rs => map (stored_in batch) rs
  end.

Definition broker_log (store : list RecordBatch) : list StoredRecord := concat (map batch_log store).

(** The part of the log from an offset on. *)
Definition stored_from (o : Z) (l : list StoredRecord) : list StoredRecord :=
  filter (fun e => o <= st_offset e) l.

(** The value of the last header with a key. *)
Definition last_header (k : rstring) (hs : list RecordHeader) : option (list byte) :=
  header_value <$> List.find (fun h => bool_decide (header_key h = k)) (rev hs).

(** What a consumer sees of a stored record: its offset, key and value, its
    time, and for each header key the last value, with the keys in order. *)
Record sees (x : RecordAndOffset) (e : StoredRecord) : Prop := {
  sees_offset : rao_offset x = st_offset e;
  sees_key : record_key (rao_record x) = st_key e;
  sees_value : record_value (rao_record x) = st_value e;
  sees_time : record_timestamp (rao_record x) = st_millis e * nanos_per_milli;
  sees_headers : forall k v, (k, v) ∈ record_headers (rao_record x) <-> last_header k (st_headers e) = Some v;
  sees_sorted : StronglySorted key_before (record_headers (rao_record x));
}.

(** ** Maps as lists of entries *)
Lemma rstring_compare_refl a : rstring_compare a a = Eq.
Proof. induction a as [|x a IH]; simpl; [done|]. by rewrite Z.compare_refl. Qed.

Lemma rstring_compare_eq a b : rstring_compare a b = Eq <-> a = b.
Proof.
  split; [|intros ->; apply rstring_compare_refl]. revert b. induction a as [|x a IH]; intros [|y b]; simpl; try done.
  destruct (Z.compare_spec (byte_to_Z x) (byte_to_Z y)) as [Heq| |]; try done.
  intros Hab%IH. subst. f_equal. by apply byte_to_Z_inj.
Qed.

Lemma rstring_compare_opp a b : rstring_compare b a = CompOpp (rstring_compare a b).
Proof.
  revert b. induction a as [|x a IH]; intros [|y b]; simpl; try done.
  rewrite (Z.compare_antisym (byte_to_Z x)). destruct (Z.compare _ _); simpl; [apply IH|done|done].
Qed.

Lemma rstring_compare_trans a b c :
  rstring_compare a b = Gt -> rstring_compare b c = Gt -> rstring_compare a c = Gt.
Proof.
  revert b c. induction a as [|x a IH]; intros [|y b] [|z c]; simpl; try done.
  destruct (Z.compare_spec (byte_to_Z x) (byte_to_Z y)), (Z.compare_spec (byte_to_Z y) (byte_to_Z z)),
    (Z.compare_spec (byte_to_Z x) (byte_to_Z z)); try done; try lia. apply IH.
Qed.

Lemma btree_insert_elem k v m k' v' :
  StronglySorted key_before m ->
  (k', v') ∈ btree_insert k v m <-> (k' = k /\ v' = v) \/ (k' <> k /\ (k', v') ∈ m).
Proof.
  induction 1 as [|[k0 v0] m Hs IH Hk]; simpl; [set_solver|].
  assert (Hgt : forall k1 v1, (k1, v1) ∈ m -> rstring_compare k1 k0 = Gt).
  { intros k1 v1 Hin. rewrite list.Forall_forall in Hk. by apply (Hk _ Hin). }
  destruct (rstring_compare k k0) eqn:Hc.
  - apply rstring_compare_eq in Hc as ->. rewrite !elem_of_cons.
    assert (forall v1, (k0, v1) ∉ m) by (intros v1 Hin; apply Hgt in Hin; by rewrite rstring_compare_refl in Hin).
    naive_solver.
  - assert (forall v1, (k, v1) ∉ (k0, v0) :: m).
    { intros v1 [[= -> _]|Hin]%elem_of_cons; [by rewrite rstring_compare_refl in Hc|].
      apply Hgt in Hin. congruence. }
    rewrite elem_of_cons. naive_solver.
  - rewrite !elem_of_cons, IH. assert (k <> k0) by (intros ->; by rewrite rstring_compare_refl in Hc). naive_solver.
Qed.

Lemma btree_insert_sorted k v m : StronglySorted key_before m -> StronglySorted key_before (btree_insert k v m).
Proof.
  induction 1 as [|[k0 v0] m Hs IH Hk]; simpl; [by repeat constructor|].
  destruct (rstring_compare k k0) eqn:Hc.
  - apply rstring_compare_eq in Hc as ->. by constructor.
  - assert (rstring_compare k0 k = Gt) as Hc' by (by rewrite rstring_compare_opp, Hc).
    constructor; [by constructor|]. constructor; [done|].
    eapply list.Forall_impl; [exact Hk|]. intros [k1 v1] Hk1. by eapply rstring_compare_trans.
  - constructor; [done|]. rewrite list.Forall_forall in Hk |- *. intros [k1 v1] Hin.
    apply btree_insert_elem in Hin as [[-> ->]|[_ Hin]]; [done|by apply Hk|done].
Qed.

Lemma btree_collect_snoc l k v : btree_collect (l ++ [(k, v)]) = btree_insert k v (btree_collect l).
Proof. unfold btree_collect. by rewrite fold_left_app. Qed.

(** The map of a record's headers. *)
Lemma collected_headers hs :
  let m := btree_collect (map (fun h => (header_key h, header_value h)) hs) in
  StronglySorted key_before m /\ forall k v, (k, v) ∈ m <-> last_header k hs = Some v.
Proof.
  simpl. induction hs as [|h hs [Hs IH]] using rev_ind.
  { split; [constructor|]. intros k v. unfold last_header. simpl. set_solver. }
  rewrite map_app. simpl. rewrite btree_collect_snoc. split; [by apply btree_insert_sorted|].
  intros k v. rewrite btree_insert_elem by done. unfold last_header. rewrite rev_app_distr. simpl.
  case_bool_decide as Hk; simpl.
  - subst. naive_solver.
  - rewrite IH. unfold last_header. naive_solver.
Qed.

(** ** What the client extracts *)
Section store.
Context `{Chrono} `{!ChronoOk} {prof : Profile}.

(** A log that a client can read: its offsets ascend and leave room for a next
    one, and its times are valid. *)
Record store_ok (store : list RecordBatch) : Prop := {
  store_sorted : StronglySorted Z.lt (map st_offset (broker_log store));
  store_range : Forall (fun e => - 2 ^ 63 <= st_offset e < 2 ^ 63 - 1) (broker_log store);
  store_times : Forall (fun e => datetime_valid (st_millis e * nanos_per_milli) = true) (broker_log store);
}.

Definition readable (e : StoredRecord) : Prop :=
  in_signed 64 (st_offset e) /\ datetime_valid (st_millis e * nanos_per_milli) = true.

Lemma extract_stored_record b o r :
  readable (stored_in b r) -> exists x,
    extract_record (base_offset b) (first_timestamp b) o r
      = Ok (if st_offset (stored_in b r) <? o then None else Some x) /\ sees x (stored_in b r).
Proof.
  intros [Ho Ht]. unfold stored_in in *. cbn [st_offset st_millis] in *.
  destruct (collected_headers (headers r)) as [Hs Hm].
  eexists (mkRecordAndOffset (mkClientRecord (key r) (value r) _ _) _). split.
  2: { split; cbn; try done. }
  unfold extract_record. rewrite arith_signed_ok by done. cbn [obind].
  destruct (_ <? o); [done|]. pose proof (datetime_range _ Ht) as Hr.
  rewrite Z.div_mul in Hr by (unfold nanos_per_milli; lia).
  rewrite (proj2 (signed_try_from_some 64 _ _)) by (split; [done|unfold in_signed; lia]). by rewrite timestamp_millis_opt_law.
Qed.

(** A client that asks from an offset on sees the log from there on. *)
Lemma extract_batch_log b o :
  Forall readable (batch_log b) ->
  exists l, extract_batch o b = Ok l /\ Forall2 sees l (stored_from o (batch_log b)).
Proof.
  unfold batch_log, extract_batch, stored_from. destruct (records b) as [c|rs]; [exists []; by split|].
  induction rs as [|r rs IH]; [exists []; by split|]. simpl. intros [Hr Hrs]%list.Forall_cons.
  destruct (IH Hrs) as (l & Hl & Hsees). apply obind_ok in Hl as (zs & Hzs & [= <-]).
  destruct (extract_stored_record b o r Hr) as (x & -> & Hx). cbn [obind]. rewrite Hzs. cbn [obind].
  eexists. split; [done|]. rewrite filter_cons.
  destruct (Z.ltb_spec (st_offset (stored_in b r)) o).
  - by rewrite decide_False by lia.
  - rewrite decide_True by lia. by constructor.
Qed.

Lemma stored_from_app o l1 l2 : stored_from o (l1 ++ l2) = stored_from o l1 ++ stored_from o l2.
Proof. unfold stored_from. by rewrite list.filter_app. Qed.

Lemma extract_log store o :
  Forall readable (broker_log store) ->
  exists l, extract_records store o = Ok l /\ Forall2 sees l (stored_from o (broker_log store)).
Proof.
  unfold extract_records, broker_log. induction store as [|b store IH]; [exists []; by split|].
  simpl. intros [Hb Hs]%Forall_app. destruct (extract_batch_log b o Hb) as (l & -> & Hl).
  destruct (IH Hs) as (l' & Hl' & Hsees). apply obind_ok in Hl' as (ls & Hls & [= <-]).
  cbn [obind]. rewrite Hls. cbn [obind]. eexists. split; [done|]. rewrite stored_from_app. by apply Forall2_app.
Qed.

Lemma store_ok_readable store : store_ok store -> Forall readable (broker_log store).
Proof.
  intros [_ Hr Ht]. rewrite list.Forall_forall in Hr, Ht |- *. intros e He. split; [|by apply Ht].
  specialize (Hr e He). unfold in_signed. lia.
Qed.

Lemma broker_log_app s1 s2 : broker_log (s1 ++ s2) = broker_log s1 ++ broker_log s2.
Proof. unfold broker_log. by rewrite map_app, concat_app. Qed.

(** The log as the consumer sees it. *)
Lemma sees_offsets l es : Forall2 sees l es -> map rao_offset l = map st_offset es.
Proof. induction 1 as [|x e l es Hx _ IH]; [done|]. simpl. by rewrite IH, (sees_offset _ _ Hx). Qed.

Lemma sees_from o l es : Forall2 sees l es -> Forall2 sees (log_from o l) (stored_from o es).
Proof.
  unfold log_from, stored_from. induction 1 as [|x e l es Hx _ IH]; [constructor|].
  rewrite !filter_cons, (sees_offset _ _ Hx). case_decide; [by constructor|done].
Qed.

Lemma stored_from_all es : Forall (fun e => - 2 ^ 63 <= st_offset e) es -> stored_from (- 2 ^ 63) es = es.
Proof. unfold stored_from. induction 1; [done|]. rewrite filter_cons_True by done. by f_equal. Qed.

Lemma store_log store :
  store_ok store -> exists l, extract_records store (- 2 ^ 63) = Ok l /\
    Forall2 sees l (broker_log store) /\ log_ok l.
Proof.
  intros Hok. destruct (extract_log store (- 2 ^ 63) (store_ok_readable _ Hok)) as (l & Hx & Hl).
  destruct Hok as [Hs Hr _]. rewrite stored_from_all in Hl.
  2: { eapply list.Forall_impl; [exact Hr|]. simpl. lia. }
  exists l. split; [done|]. split; [done|]. apply log_ok_offsets. rewrite (sees_offsets _ _ Hl). split; [done|].
  apply list.Forall_forall. intros o (e & -> & He)%list_elem_of_fmap.
  by apply (proj1 (list.Forall_forall _ _) Hr).
Qed.

(** Batches that hold nothing at or after an offset give nothing from there. *)
Lemma extract_before store o :
  Forall readable (broker_log store) -> Forall (fun e => st_offset e < o) (broker_log store) ->
  extract_records store o = Ok [].
Proof.
  intros Hr Ho. destruct (extract_log store o Hr) as (l & Hx & Hl).
  assert (stored_from o (broker_log store) = []) as Hnil.
  { clear - Ho. unfold stored_from. induction Ho as [|e es He _ IH]; [done|]. by rewrite filter_cons_False by lia. }
  rewrite Hnil in Hl. by apply Forall2_nil_inv_r in Hl as ->.
Qed.
End store.
