(* ===== verification/ConsumerClient.v ===== *)
(** * A consumer on a partition client (src/client/consumer.rs)

    The stream consumer fetches from a [PartitionClient]
    ([impl FetchClient for PartitionClient]).  Here the two run together in the
    world of the clients, and together with a broker that stores record batches
    they read its log. *)

From Stdlib Require Import ZArith Lia Sorted.
From stdpp Require Import base list numbers gmap.
From S2P Require Import Prelude Bytes Wire VecBuilder Varint Primitives PrimitiveLaws Record.
From S2P Require Import Codec RecordBatch RefCrates ApiKey ErrorCode Versioned Header DataMessages.
From S2P Require Import Support MetadataCache Messenger Io Backoff Topology Transport.
From S2P Require Import Session BrokerCache Connection Aggregator Partition PartitionProps Retry Controller.
From S2P Require Import PartitionClient Consumer ConsumerLog BrokerLog.
Import ClientErrors.

Local Open Scope Z_scope.
Local Open Scope rust_scope.

(** ** Extracting from a later offset on *)
Section store.
Context `{Chrono} {prof : Profile}.

(** All that the client extracts from a sequence of batches. *)
Definition log_of (store : list RecordBatch) (l : log) : Prop := extract_records store (- 2 ^ 63) = Ok l.

Lemma arith_signed_range {E} w z z' : 0 < w -> arith_signed (E:=E) w z = Ok z' -> in_signed w z'.
Proof.
  intros Hw. unfold arith_signed. destruct (in_signed_b w z) eqn:Hb.
  { intros [= <-]. by apply in_signed_b_true. }
  destruct overflow_checks; [done|]. intros [= <-]. by apply wrap_signed_range.
Qed.

(** Asking for a later offset only drops records. *)
Definition keep_from (o : Z) (x : RecordAndOffset) : option RecordAndOffset :=
  if o <=? rao_offset x then Some x else None.

Lemma extract_record_from base first o r z :
  extract_record base first (- 2 ^ 63) r = Ok z -> extract_record base first o r = Ok (z ≫= keep_from o).
Proof.
  unfold extract_record. intros (offset & Ho & Hz)%obind_ok. rewrite Ho. cbn [obind].
  apply arith_signed_range in Ho; [|lia].
  destruct (Z.ltb_spec offset (- 2 ^ 63)); [unfold in_signed in Ho; lia|].
  destruct (signed_try_from 64 _) as [t|]; [|done]. destruct (timestamp_millis_opt t) as [| |]; try done.
  injection Hz as <-. simpl. unfold keep_from. simpl.
  by destruct (Z.ltb_spec offset o), (Z.leb_spec o offset); try lia.
Qed.

Lemma log_from_cons o x (l : log) :
  log_from o (x :: l) = match keep_from o x with Some x => [x] | None => [] end ++ log_from o l.
Proof.
  unfold log_from, keep_from. rewrite filter_cons. destruct (Z.leb_spec o (rao_offset x)).
  - by rewrite decide_True.
  - by rewrite decide_False by lia.
Qed.

Lemma extract_batch_from o b l :
  extract_batch (- 2 ^ 63) b = Ok l -> extract_batch o b = Ok (log_from o l).
Proof.
  unfold extract_batch. destruct (records b) as [c|rs]; [by intros [= <-]|].
  intros (zs & Hzs%try_map_ok & [= <-])%obind_ok.
  assert (try_map (extract_record (base_offset b) (first_timestamp b) o) rs
    = Ok (map (fun z => z ≫= keep_from o) zs)) as ->.
  { apply try_map_ok. induction Hzs; constructor; [by apply extract_record_from|done]. }
  simpl. f_equal. clear Hzs. induction zs as [|[x|] zs IH]; simpl; [done| |done].
  rewrite log_from_cons. unfold omap in IH. rewrite <-IH. by destruct (keep_from o x).
Qed.

Lemma log_from_app o (l1 l2 : log) : log_from o (l1 ++ l2) = log_from o l1 ++ log_from o l2.
Proof. unfold log_from. by rewrite list.filter_app. Qed.

Lemma extract_records_app a b o :
  extract_records (a ++ b) o =
  let! x := extract_records a o in let! y := extract_records b o in Ok (x ++ y).
Proof.
  unfold extract_records. induction a as [|c a IH]; simpl; [by destruct (try_map _ b)|].
  destruct (extract_batch o c) as [x|e|p]; simpl; [|done|done].
  destruct (try_map _ (a ++ b)) as [l|e|p], (try_map _ a) as [l1|e1|p1]; simpl in *; try done;
    destruct (try_map _ b) as [l2|e2|p2]; simpl in *; try done; injection IH as ->; by rewrite ?app_assoc.
Qed.

Lemma extract_records_from o store l : log_of store l -> extract_records store o = Ok (log_from o l).
Proof.
  unfold log_of. revert l. induction store as [|b store IH]; intros l; [by intros [= <-]|].
  rewrite !(extract_records_app [b] store).
  intros (x & Hx & (y & Hy & [= <-])%obind_ok)%obind_ok. rewrite (IH _ Hy), log_from_app.
  unfold extract_records in Hx |- *. simpl in Hx |- *.
  destruct (extract_batch (- 2 ^ 63) b) as [bl|e|p] eqn:Hb; [|done|done].
  injection Hx as <-. rewrite (extract_batch_from o b bl Hb). simpl. by rewrite !app_nil_r.
Qed.

(** Consecutive batches that start no later than the batch with the offset
    asked for hold the first records from there on. *)
Lemma extract_slice o store before batches after l rs :
  log_of store l -> store = before ++ batches ++ after -> extract_records before o = Ok [] ->
  extract_records batches o = Ok rs -> exists n, rs = take n (log_from o l).
Proof.
  intros Hl%(extract_records_from o) -> Hb Hr. rewrite !extract_records_app, Hb, Hr in Hl. simpl in Hl.
  destruct (extract_records after o) as [y|e|p]; simpl in Hl; [|done|done]. injection Hl as <-.
  exists (length rs). by rewrite take_app_length.
Qed.
End store.

(** ** The stream in the world of its client *)
Section stream.
Context {N : Type} `{!Network N} {rsasl : Rsasl} {prof : Profile}.
Context {VC : VarIntCrate} {CC : Codecs} {CH : Chrono}.
Variable fuel : nat.
Variable self : PartitionClient (N:=N).
Local Abbreviation World := (World (N:=N)).

(** [impl FetchClient for PartitionClient]: the two methods forward to the
    client's own. *)
Definition FetchClient_fetch_records (offset bytes_start bytes_end max_wait_ms : Z) :
    io World Error (list RecordAndOffset * Z) :=
  client_fetch_records fuel self offset bytes_start bytes_end max_wait_ms.
Definition FetchClient_get_offset (at_ : OffsetAt) : io World Error Z := client_get_offset fuel self at_.

(** [if let Some(backoff) = next_backoff { tokio::time::sleep(backoff).await }];
    the backoff is in seconds. *)
Definition fetch_sleep (backoff : option Z) : io World Error unit :=
  match backoff with
  | Some secs => sleep (secs * 1000000000)
  | None => io_ret tt
  end.

Definition fetch_offset_io (fut : fetch_future) : io World Error Z :=
  match ff_next_offset fut with
  | Some x => io_ret x
  | None =>
      match ff_start_offset fut with
      | StartEarliest => FetchClient_get_offset Earliest
      | StartLatest => FetchClient_get_offset Latest
      | StartAt x => io_ret x
      end
  end.

(** The future of a fetch. *)
Definition run_fetch_io (fut : fetch_future) : io World Error FetchResultOk :=
  do! _ <- fetch_sleep (ff_backoff fut) in
  do! offset <- fetch_offset_io fut in
  do! (records, watermark) <- FetchClient_fetch_records offset (ff_min_batch_size fut)
        (ff_max_batch_size fut) (ff_max_wait_ms fut) in
  io_ret (mkFetchResultOk records watermark offset).

(** [stream.next().await]: the loop of [poll_next], where a pending fetch is
    waited for; [None]: the fetch does not end, or [n] fetches brought nothing. *)
Fixpoint consumer_next (n : nat) (s : StreamConsumer) :
    io World Empty_set (option (outcome Error (RecordAndOffset * Z)) * StreamConsumer) :=
  match n with
  | O => fun _ => None
  | S n =>
      if terminated s then io_ret (None, s)
      else
        match buffer s with
        | x :: buf =>
            io_ret (Some (Ok (x, last_high_watermark s)),
              mkStreamConsumer (sc_min_batch_size s) (sc_max_batch_size s) (sc_max_wait_ms s) (start_offset s)
                (next_offset s) (next_backoff s) (terminated s) (last_high_watermark s) buf (fetch_fut s))
        | [] =>
            let s := start_fetch s in
            match fetch_fut s with
            | Some fut =>
                do! r <- io_try (run_fetch_io fut) in
                do! (s, err) <- io_lift (handle_fetch (match r with inl e => Err e | inr x => Ok x end)
                                           (clear_fetch s)) in
                match err with
                | None => consumer_next n s
                | Some e => io_ret (Some (Err e), s)
                end
            | None => io_panic Unreachable
            end
        end
  end.

(** ** Refinement: the stream polls clients that answer as this one does *)
Definition answers (c : FetchClient) : Prop :=
  (forall offset a b w rs wm, fetch_records c offset a b w = Ok (rs, wm) ->
     exists w1 w2, client_fetch_records fuel self offset a b w w1 = Some (Ok (rs, wm), w2)) /\
  (forall at_ offset, get_offset c at_ = Ok offset ->
     exists w1 w2, client_get_offset fuel self at_ w1 = Some (Ok offset, w2)).

(** What the client answers in two worlds; no answer is an error of no account. *)
Definition snapshot (w0 w1 : World) : FetchClient :=
  mkFetchClient
    (fun offset a b w => match client_fetch_records fuel self offset a b w w1 with
                         | Some (r, _) => r
                         | None => Err (InvalidResponse (PartitionNotFound 0 []))
                         end)
    (fun at_ => match client_get_offset fuel self at_ w0 with
                | Some (r, _) => r
                | None => Err (InvalidResponse (PartitionNotFound 0 []))
                end).

Lemma snapshot_answers w0 w1 : answers (snapshot w0 w1).
Proof.
  split; simpl.
  - intros offset a b w rs wm. destruct (client_fetch_records _ _ _ _ _ _ w1) as [[r w2]|] eqn:Hr; [|done].
    intros ->. eauto.
  - intros at_ offset. destruct (client_get_offset _ _ _ w0) as [[r w2]|] eqn:Hr; [|done]. intros ->. eauto.
Qed.

Lemma fetch_sleep_ok backoff w : exists w0, fetch_sleep backoff w = Some (Ok tt, w0).
Proof. destruct backoff; by eexists. Qed.

Lemma run_fetch_refines fut w r w' :
  run_fetch_io fut w = Some (r, w') -> exists c, answers c /\ run_fetch c fut = r.
Proof.
  unfold run_fetch_io. destruct (fetch_sleep_ok (ff_backoff fut) w) as [w0 Hs].
  rewrite (io_bind_ok _ _ _ _ _ Hs). unfold io_bind at 1.
  destruct (fetch_offset_io fut w0) as [[o w1]|] eqn:Ho; [|done]. intros Hr.
  exists (snapshot w0 w1). split; [apply snapshot_answers|]. unfold run_fetch.
  assert ((match ff_next_offset fut with
           | Some x => Ok x
           | None => match ff_start_offset fut with
                     | StartEarliest => get_offset (snapshot w0 w1) Earliest
                     | StartLatest => get_offset (snapshot w0 w1) Latest
                     | StartAt x => Ok x
                     end
           end : outcome Error Z) = o) as ->.
  { unfold fetch_offset_io, FetchClient_get_offset in Ho. simpl.
    destruct (ff_next_offset fut); [by injection Ho as <- _|].
    destruct (ff_start_offset fut); [..|by injection Ho as <- _];
      destruct (client_get_offset _ _ _ w0) as [[? ?]|]; by simplify_eq. }
  destruct o as [o|e|p]; [|by injection Hr as <- _..]. simpl. revert Hr.
  unfold io_bind, FetchClient_fetch_records.
  destruct (client_fetch_records _ _ o _ _ _ w1) as [[[[rs wm]|e|p] w2]|]; [..|done]; by intros [= <- _].
Qed.

Lemma consumer_next_refines n : forall s item s' w w',
  consumer_next n s w = Some (Ok (item, s'), w') ->
  exists clients, Forall answers clients /\ poll_next clients s = Ok (Ready item, s', []).
Proof.
  induction n as [|n IH]; intros s item s' w w'; [done|]. cbn [consumer_next].
  destruct (terminated s) eqn:Ht.
  { intros [= <- <- _]. exists []. simpl. by rewrite Ht. }
  destruct (buffer s) as [|x buf] eqn:Hb.
  2: { intros [= <- <- _]. exists []. simpl. by rewrite Ht, Hb. }
  destruct (fetch_fut (start_fetch s)) as [fut|] eqn:Hf; [|done]. unfold io_bind at 1, io_try.
  destruct (run_fetch_io fut w) as [[r w1]|] eqn:Hr; [|done].
  destruct (run_fetch_refines _ _ _ _ Hr) as (c & Hc & Hrun).
  assert (forall s1 err, handle_fetch r (clear_fetch (start_fetch s)) = Ok (s1, err) ->
    (match err with None => consumer_next n s1 | Some e => io_ret (Some (Err e), s1) end) w1
      = Some (Ok (item, s'), w') ->
    exists clients, Forall answers clients /\ poll_next clients s = Ok (Ready item, s', [])) as Hstep.
  { intros s1 err Hh Hk. destruct err as [e|].
    - injection Hk as <- <- _. exists [c]. split; [by constructor|]. simpl. by rewrite Ht, Hb, Hf, Hrun, Hh.
    - destruct (IH _ _ _ _ _ Hk) as (clients & Hcl & Hp). exists (c :: clients).
      split; [by constructor|]. simpl. by rewrite Ht, Hb, Hf, Hrun, Hh. }
  destruct r as [x|e|p]; [| |done]; unfold io_bind, io_lift;
    destruct (handle_fetch _ _) as [[s1 err]|[]|q] eqn:Hh; try done; by apply Hstep.
Qed.

(** ** With a broker that stores batches *)

(** What a broker documents of a fetch that it does not refuse: the batches it
    returns are consecutive in what it stores for the partition, and no batch
    before them has a record at or after the offset asked for. *)
Definition broker_stores (store : list RecordBatch) : Prop :=
  forall b offset bytes_start bytes_end max_wait_ms w resp w' t p,
  request (Resp:=FetchResponse) b
    (build_fetch_request offset bytes_start bytes_end max_wait_ms (partition self) (topic self)) w
    = Some (Ok resp, w') ->
  fetch_responses resp = [t] -> frs_partitions t = [p] -> frs_error_code p = None ->
  exists before after, store = before ++ records_0 (frs_records p) ++ after /\
    Forall (fun e => st_offset e < offset) (broker_log before).

Lemma stores_serves `{!ChronoOk} store l c :
  broker_stores store -> Forall readable (broker_log store) -> log_of store l -> answers c -> serves l c.
Proof.
  intros Hb Hok Hl [Hc _] offset x y m rs wm Hf. destruct (Hc _ _ _ _ _ _ Hf) as (w1 & w2 & Hr).
  apply (fetch_result fuel self) in Hr. destruct Hr as (b & w3 & resp & t & p & Hreq & Ht & _ & Hp & _ & He & Hx & _).
  destruct (Hb _ _ _ _ _ _ _ _ _ _ Hreq Ht Hp He) as (before & after & Hstore & Hbefore).
  assert (extract_records before offset = Ok []) as Hnil.
  { apply extract_before; [|done]. rewrite Hstore, broker_log_app in Hok. by apply Forall_app in Hok as [? _]. }
  destruct (extract_slice offset store before _ after l rs Hl Hstore Hnil Hx) as [n ->]. by exists n.
Qed.

(** A run of the stream: what [next] returns, one item after the other. *)
Inductive client_run : StreamConsumer -> World -> list RecordAndOffset -> StreamConsumer -> World -> Prop :=
| client_done s w : client_run s w [] s w
| client_item n s w x hw s1 w1 xs s2 w2 :
    consumer_next n s w = Some (Ok (Some (Ok (x, hw)), s1), w1) ->
    client_run s1 w1 xs s2 w2 -> client_run s w (x :: xs) s2 w2.

(** The first [k] items. *)
Fixpoint collect (k n : nat) (s : StreamConsumer) (w : World) :
    option (list RecordAndOffset * StreamConsumer * World) :=
  match k with
  | O => Some ([], s, w)
  | S k =>
      match consumer_next n s w with
      | Some (Ok (Some (Ok (x, _)), s), w) =>
          '(xs, s, w) ← collect k n s w; Some (x :: xs, s, w)
      | _ => None
      end
  end.

Lemma collect_run k n : forall s w xs s' w', collect k n s w = Some (xs, s', w') -> client_run s w xs s' w'.
Proof.
  induction k as [|k IH]; intros s w xs s' w'; simpl; [intros [= <- <- <-]; constructor|].
  destruct (consumer_next n s w) as [[[[[[[x hw]|e|p]|] s1]|[]|q] w1]|] eqn:Hn; try done.
  intros (((ys & s2) & w2) & Hc & [= <- <- <-])%bind_Some. econstructor; [exact Hn|]. by apply IH.
Qed.

Lemma client_run_log `{!ChronoOk} store l s w xs s' w' :
  broker_stores store -> Forall readable (broker_log store) -> log_of store l ->
  client_run s w xs s' w' -> log_run l s xs s'.
Proof.
  intros Hb Hok Hl. induction 1 as [s w|n s w x hw s1 w1 xs s2 w2 Hn _ IH]; [constructor|].
  destruct (consumer_next_refines _ _ _ _ _ _ Hn) as (clients & Hc & Hp).
  eapply log_item; [|exact Hp|exact IH]. eapply list.Forall_impl; [exact Hc|].
  intros c Hc'. by eapply stores_serves.
Qed.

(** C10: a consumer on a partition client reads what the broker stores.  The
    records that the stream yields, starting at an offset, are the records of
    the broker's data batches from that offset on, one after the other: each has
    the offset, key, value and time of the stored record, and for each header
    key its last value.  There is no gap and no repetition, across any number of
    fetches, connections, leader changes and retries, as long as each fetch that
    a broker answers returns consecutive batches around the offset it was asked
    for, and the stored offsets ascend and the stored times are valid. *)
Theorem consumer_reads_broker_log `{!ChronoOk} store builder start w xs s w' :
  broker_stores store -> store_ok store -> scb_start_offset builder = StartAt start ->
  client_run (StreamConsumer_build builder) w xs s w' ->
  exists read rest, stored_from start (broker_log store) = read ++ rest /\ Forall2 sees xs read.
Proof.
  intros Hb Hok Hstart Hrun. destruct (store_log store Hok) as (l & Hl & Hsees & Hlok).
  apply (client_run_log store l) in Hrun; [|done|by apply store_ok_readable|done].
  assert (follows l start (log_from start l) (StreamConsumer_build builder)) as F by (by split).
  destruct (log_run_follows l start Hlok _ _ _ _ Hrun F) as (rest & Heq & _).
  pose proof (sees_from start _ _ Hsees) as Hfrom. rewrite Heq in Hfrom.
  apply Forall2_app_inv_l in Hfrom as (read & more & Hread & _ & ->). by exists read, more.
Qed.
End stream.

(** ** A concrete broker: its answer is always the same fetch response, with all
    the batches it stores *)
Module LogBroker.
Record Net : Type := mkNet { lb_slept : list Z }.

#[export] Instance lb_timer : Timer Net := {|
  thread_rng := fun lo hi n => if f64_lt lo hi && f64_valid lo then Some (lo, n) else None;
  sleep_for d n := mkNet (lb_slept n ++ [d]);
  slept := lb_slept;
|}.

#[export] Instance lb_sockets : Sockets Net := {|
  TcpStream := unit;
  TlsStream := unit;
  ClientConfig := unit;
  ServerName := unit;
  tcp_connect _ := io_lift (Ok tt);
  socks5_connect s _ := io_lift (Ok s);
  server_name_try_from _ := Some tt;
  tls_connect _ _ s := io_lift (Ok s);
|}.

#[local] Existing Instance debug_profile.

(** Records at the offsets 3 to 5 in one batch, a transaction marker, and one
    more record at 8. *)
Definition stored_record (delta : Z) : Record_ := mkRecord 0 delta None (Some [byte_of_Z delta]) [].
Definition stored_batch (base : Z) (deltas : list Z) (last_delta : Z) : RecordBatch :=
  mkRecordBatch base 0 last_delta 0 0 (-1) (-1) (-1) (RecordList (map stored_record deltas)) NoCompression
    false CreateTime.
Definition marker : RecordBatch :=
  mkRecordBatch 6 0 0 0 0 (-1) (-1) (-1) (ControlBatch Commit) NoCompression true CreateTime.
Definition stored : list RecordBatch := [stored_batch 3 [0; 1; 2] 2; marker; stored_batch 8 [0] 0].

Definition answer : list byte :=
  match write_many write stored with
  | Ok payload =>
      to_be_bytes 4 0 ++ to_be_bytes 4 1 ++ to_be_bytes 2 1 ++ [byte_of_Z 116] ++ to_be_bytes 4 1 ++
      to_be_bytes 4 0 ++ to_be_bytes 2 0 ++ to_be_bytes 8 9 ++ to_be_bytes 8 9 ++ to_be_bytes 4 0 ++
      to_be_bytes 4 (zlen payload) ++ payload
  | _ => []
  end.

Definition reply : Response :=
  mkResponse (mkResponseHeader (mkInt32 0) None) (cursor answer) (zlen answer).

#[export] Instance lb_network : Network Net := {|
  shuffle A l n := (l, n);
  exchange _ _ _ _ _ := io_lift (Ok reply);
|}.

Definition client : PartitionClient (N:=Net) :=
  mkPartitionClient (ascii_string [116]) 0
    (mkBrokerConnector [] CARGO_PKG_NAME None None None 1000 BackoffConfig_default) BackoffConfig_default
    UnknownTopicError.

Definition connection : MessengerTransport (N:=Net) :=
  mkMessengerTransport (Plain (tt : TcpStream (N:=Net))) 1000 CARGO_PKG_NAME 0
    [(ApiKeys.Fetch, mkApiVersionRange (V 4) (V 4))].
Definition world : World (N:=Net) :=
  mkWorld (mkNet []) [0] ∅ (mkBrokerCell None 0) MetadataCache_default (mkBrokerCell None 0)
    (mkCurrentBroker (Some connection) 1 None None).

(** There is one version of the fetch request. *)
Lemma fetch_version r v :
  match_versions r (API_VERSION_RANGE (Req:=FetchRequest) (Resp:=FetchResponse)) = Some v -> v = V 4.
Proof.
  intros (H1 & H2 & H3)%match_versions_some. cbn in H1, H2, H3. unfold vnum, V in *. cbn in *.
  destruct v as [[v]]. cbn in H3. f_equal. f_equal. lia.
Qed.

Lemma fetch_answer b req w resp w' :
  request (Resp:=FetchResponse) b req w = Some (Ok resp, w') ->
  finish_response ApiKeys.Fetch (V 4) reply = Ok resp.
Proof.
  unfold request, request_with_version_ranges. set (ranges := version_ranges b).
  destruct (version_get ranges _ ≫= _) as [v|] eqn:Hv; [|done].
  unfold io_bind at 1. unfold fetch_correlation_id at 1. unfold io_bind at 1, io_lift at 1.
  destruct (prepare_request _ _ _ req) as [pr|e|p] eqn:Hp; [|done|done].
  assert (body_api_version pr = V 4) as Hver.
  { unfold prepare_request in Hp. rewrite Hv in Hp. simpl in Hp.
    apply obind_ok in Hp as (hb & _ & Hp). apply obind_ok in Hp as (bb & _ & [= <-]). simpl.
    apply bind_Some in Hv as (r & _ & Hm). by apply fetch_version in Hm. }
  rewrite Hver. unfold io_bind, with_net, io_lift.
  change (exchange (stream b)) with (fun (_ _ : Z) (_ : list byte) (_ : bool) (n : Net) =>
    Some (Ok reply : outcome RequestError Response, n)).
  cbv beta iota. change (API_KEY (Req:=FetchRequest) (Resp:=FetchResponse)) with ApiKeys.Fetch.
  generalize (finish_response (Resp:=FetchResponse) ApiKeys.Fetch (V 4) reply). by intros o [= -> _].
Qed.

(** Which partition the answer holds. *)
Definition parsed : option (list RecordBatch) :=
  match finish_response (Resp:=FetchResponse) ApiKeys.Fetch (V 4) reply with
  | Ok resp =>
      match fetch_responses resp with
      | [t] => match frs_partitions t with [p] => Some (records_0 (frs_records p)) | _ => None end
      | _ => None
      end
  | _ => None
  end.

Lemma parsed_stored : parsed = Some stored.
Proof. vm_compute. reflexivity. Qed.

Lemma stores : broker_stores client stored.
Proof.
  intros b offset x y m w resp w' t p Hreq Ht Hp He. exists [], []. split; [|done]. rewrite app_nil_r. simpl.
  apply fetch_answer in Hreq. pose proof parsed_stored as Hs. unfold parsed in Hs.
  rewrite Hreq, Ht, Hp in Hs. congruence.
Qed.

Lemma stored_ok : store_ok (H:=ref_chrono) stored.
Proof.
  split.
  - assert (map st_offset (broker_log stored) = [3; 4; 5; 8]) as -> by (vm_compute; reflexivity).
    repeat constructor; lia.
  - repeat constructor; simpl; lia.
  - repeat constructor.
Qed.

(** Three records from offset 4 on, in two fetches. *)
Local Abbreviation sample_run :=
  (collect (rsasl:=RefNetwork.ref_rsasl) (CH:=ref_chrono) 3 client 3 2
    (StreamConsumer_build (StreamConsumerBuilder_new (StartAt 4))) world).

Lemma sample_run_ok : exists xs s w', sample_run = Some (xs, s, w') /\ map rao_offset xs = [4; 5; 8].
Proof.
  assert (Ho : match sample_run with Some (xs, _, _) => map rao_offset xs | None => [] end = [4; 5; 8])
    by (vm_compute; reflexivity).
  revert Ho. generalize sample_run. intros [[[xs s] w']|] Ho; [|discriminate Ho]. eauto.
Qed.
End LogBroker.

Lemma consumer_reads_broker_log_witness :
  exists xs read rest, map rao_offset xs = [4; 5; 8] /\
    stored_from 4 (broker_log LogBroker.stored) = read ++ rest /\ Forall2 sees xs read.
Proof.
  destruct LogBroker.sample_run_ok as (xs & s & w' & Hr & Ho). apply collect_run in Hr. exists xs.
  destruct (consumer_reads_broker_log 3 LogBroker.client LogBroker.stored
    (StreamConsumerBuilder_new (StartAt 4)) 4 LogBroker.world xs s w'
    LogBroker.stores LogBroker.stored_ok eq_refl Hr) as (read & rest & Hrest & Hs).
  exists read, rest. split; [exact Ho|]. split; [exact Hrest|exact Hs].
Defined.
