(* ===== verification/ReferenceBroker.v ===== *)
(** * A broker that follows the protocol

    The broker is not part of the program.  What the client relies on is the
    class [PartitionBroker]: a broker stores record batches for a partition; it
    reads requests and writes answers by the message schemas of the protocol
    ([Schema]); a Produce request that it answers without an error code is in
    its log at the offset of the answer; and a Fetch request that it answers
    without one returns consecutive batches of the log around the offset asked
    for.  It may refuse requests, throttle, or not answer.  [EndToEnd] proves
    what the client makes of such a broker.

    The class has an instance: a broker of one partition that keeps its log as
    bytes.  Between it and the caller is the reader task of the messenger
    ([reader_step]), which matches the answer with the request. *)

From Stdlib Require Import ZArith Lia.
From stdpp Require Import base list numbers gmap.
From S2P Require Import Prelude Bytes Wire VecBuilder Varint Primitives PrimitiveLaws Record.
From S2P Require Import Codec RecordBatch ApiKey ErrorCode Versioned Header DataMessages Schema SchemaLaws.
From S2P Require Import RequestSchemas ResponseSchemas MessageSchemas Support Messenger Io Backoff.
From S2P Require Import Transport Session Aggregator Partition Consumer ConsumerLog BrokerLog.

Local Open Scope Z_scope.
Local Open Scope rust_scope.

(** ** What the client relies on *)

(** The request header of version 1: the key and the version of the request, a
    correlation ID, and the client ID. *)
Definition header_layout (key version : Z) (hb : list byte) : Prop :=
  exists id cid, zlen cid < 2 ^ 15 /\
    hb = be_bytes 2 key ++ be_bytes 2 version ++ be_bytes 4 id ++ be_bytes 2 (zlen cid) ++ cid.

(** A batch as it is stored: its records, at the offset it was given. *)
Definition stores_as (base : Z) (sent stored : RecordBatch) : Prop :=
  base_offset stored = base /\ first_timestamp stored = first_timestamp sent /\ records stored = records sent.

Section laws.
Context {VC : VarIntCrate} {CC : Codecs} {prof : Profile}.
Context (N : Type) `{!Network N} (topic : rstring) (partition : Z).

(** The body of a request for one partition with the bytes [d]. *)
Definition produces (version : Z) (d body : list byte) : Prop :=
  exists transaction acks timeout, dec_message record_batches version produce_request body =
    Some (VStruct [transaction; acks; timeout;
            VArray [VStruct [VString topic; VArray [VStruct [VInt partition; VBytes d] []]] []]] [], []).

(** An answer with the error code 0 and a base offset. *)
Definition acknowledges (version base : Z) (answer : val) : Prop :=
  exists more throttle, view_message record_batches version true produce_response answer =
    VStruct [VArray [VStruct [VString topic;
               VArray [VStruct (VInt partition :: VInt 0 :: VInt base :: more) []]] []]; throttle] [].

Definition fetches (offset : Z) (body : list byte) : Prop :=
  exists replica wait min_bytes max_bytes isolation bytes,
    dec_message record_batches 4 fetch_request body =
    Some (VStruct [replica; wait; min_bytes; max_bytes; isolation;
            VArray [VStruct [VString topic; VArray [VStruct [VInt partition; VInt offset; bytes] []]] []]] [], []).

(** An answer with the error code 0 and record batches. *)
Definition returns (batches : list RecordBatch) (answer : val) : Prop :=
  exists throttle high_watermark stable aborted, view_message record_batches 4 true fetch_response answer =
    VStruct [throttle; VArray [VStruct [VString topic;
               VArray [VStruct [VInt partition; VInt 0; high_watermark; stable; aborted; VRecords batches] []]] []]] [].

Class PartitionBroker : Type := {
  (** the log of the partition *)
  pb_log : N -> list RecordBatch;
  pb_produce : forall stream size id hb body v d sent n response n',
    exchange stream size id (hb ++ body) false n = Some (Ok response, n') ->
    header_layout 0 v hb -> 3 <= v <= 7 -> produces v d body -> record_batches d = Some [sent] ->
    exists answer bytes, enc_message record_batches v produce_response answer = Some bytes /\
      resp_data response = cursor bytes /\
      forall base, acknowledges v base answer -> exists b, b ∈ pb_log n' /\ stores_as base sent b;
  pb_fetch : forall stream size id hb body offset n response n',
    exchange stream size id (hb ++ body) false n = Some (Ok response, n') ->
    header_layout 1 4 hb -> fetches offset body ->
    exists answer bytes, enc_message record_batches 4 fetch_response answer = Some bytes /\
      resp_data response = cursor bytes /\
      forall batches, returns batches answer -> exists before after,
        pb_log n' = before ++ batches ++ after /\
        Forall (fun e => st_offset e < offset) (broker_log before) /\
        (stored_from offset (broker_log (pb_log n')) <> [] -> stored_from offset (broker_log batches) <> []);
}.
End laws.

(** ** A broker that keeps its log as bytes *)
Record Broker : Type := mkBroker {
  bk_slept : list Z;
  bk_bytes : list byte;
  bk_next : Z;
}.

(** The base offset is in the first eight bytes of a batch, outside of what
    its checksum covers. *)
Definition set_base (base : Z) (bs : list byte) : list byte := be_bytes 8 base ++ drop 8 bs.

#[local] Instance RecordHeader_eq_dec : EqDecision RecordHeader.
Proof. solve_decision. Defined.
#[local] Instance Record_eq_dec : EqDecision Record_.
Proof. solve_decision. Defined.
#[local] Instance ControlBatchRecord_eq_dec : EqDecision ControlBatchRecord.
Proof. solve_decision. Defined.
#[local] Instance ControlBatchOrRecords_eq_dec : EqDecision ControlBatchOrRecords.
Proof. solve_decision. Defined.

Section broker.
Context {VC : VarIntCrate} {CC : Codecs} {prof : Profile}.
(** The topic and the partition it leads. *)
Variable topic : rstring.
Variable partition : Z.

Definition bk_log (bk : Broker) : list RecordBatch := default [] (record_batches (bk_bytes bk)).

Definition produce_answer (code base : Z) : val :=
  VStruct
    [VArray [VStruct [VString topic;
       VArray [VStruct [VInt partition; VInt code; VInt base; VInt (-1); VInt 0] []]] []];
     VInt 0] [].

Definition fetch_answer (next : Z) (records : list byte) : val :=
  VStruct
    [VInt 0;
     VArray [VStruct [VString topic;
       VArray [VStruct [VInt partition; VInt 0; VInt next; VInt next; VNull; VBytes records] []]] []]] [].

(** Appends the one batch of a request, if it is in the log then; [87] is
    [INVALID_RECORD]. *)
Definition append_batch (d : list byte) (bk : Broker) : Z * Z * Broker :=
  match record_batches d with
  | Some [sent] =>
      let base := bk_next bk in
      let bk' := mkBroker (bk_slept bk) (bk_bytes bk ++ set_base base d) (base + last_offset_delta sent + 1) in
      if existsb (fun b => bool_decide (stores_as base sent b)) (bk_log bk') then (0, base, bk') else (87, -1, bk)
  | _ => (87, -1, bk)
  end.

(** [3] is [UNKNOWN_TOPIC_OR_PARTITION]. *)
Definition serve_produce (version : Z) (body : list byte) (bk : Broker) : option (list byte * Broker) :=
  '(x, rest) ← dec_message record_batches version produce_request body;
  match x, rest with
  | VStruct [_; _; _; VArray [VStruct [VString t; VArray [VStruct [VInt p; VBytes d] _]] _]] _, [] =>
      let '(code, base, bk) :=
        if decide (t = topic /\ p = partition) then append_batch d bk else (3, -1, bk) in
      reply ← enc_message record_batches version produce_response (produce_answer code base);
      Some (reply, bk)
  | _, _ => None
  end.

(** Whatever the offset, the whole log is returned. *)
Definition serve_fetch (version : Z) (bk : Broker) : option (list byte * Broker) :=
  reply ← enc_message record_batches version fetch_response (fetch_answer (bk_next bk) (bk_bytes bk));
  Some (reply, bk).

Definition serve_body (key version : Z) (body : list byte) (bk : Broker) : option (list byte * Broker) :=
  if key =? 0 then serve_produce version body bk
  else if key =? 1 then serve_fetch version bk
  else None.

Definition parse_header (buf : list byte) : option (Z * Z * list byte) :=
  '(key, buf) ← dec_int 2 buf;
  '(version, buf) ← dec_int 2 buf;
  '(len, buf) ← dec_int 2 (drop 4 buf);
  Some (key, version, drop (Z.to_nat len) buf).

(** What the reader task makes of an answer for the one request that waits. *)
Definition deliver (id : Z) (tagged : bool) (msg : list byte) : option (outcome RequestError Response) :=
  match reader_step (Ok msg) (RequestMap {[id := mkActiveRequest 0 tagged]}) with
  | Ok (_, [(_, r)], _) => Some r
  | _ => None
  end.

#[local] Instance broker_timer : Timer Broker := {|
  thread_rng := fun lo hi bk => if f64_lt lo hi && f64_valid lo then Some (lo, bk) else None;
  sleep_for d bk := mkBroker (bk_slept bk ++ [d]) (bk_bytes bk) (bk_next bk);
  slept := bk_slept;
|}.

#[local] Instance broker_sockets : Sockets Broker := {|
  TcpStream := unit;
  TlsStream := unit;
  ClientConfig := unit;
  ServerName := unit;
  tcp_connect _ := io_lift (Ok tt);
  socks5_connect s _ := io_lift (Ok s);
  server_name_try_from _ := Some tt;
  tls_connect _ _ s := io_lift (Ok s);
|}.

Definition broker_network : Network Broker := {|
  shuffle A l bk := (l, bk);
  exchange _ _ id buf tagged := fun bk =>
    '(key, version, body) ← parse_header buf;
    '(reply, bk) ← serve_body key version body bk;
    header ← enc_message record_batches 0 response_header (VStruct [VInt id] []);
    r ← deliver id tagged (header ++ reply);
    Some (r, bk);
|}.

(** ** It follows the protocol *)
Lemma dec_int_be w z rest : in_signed (8 * Z.of_nat w) z -> dec_int w (be_bytes w z ++ rest) = Some (z, rest).
Proof. intros Hz. apply dec_enc_int, enc_int_some. by split. Qed.

Lemma parse_header_layout key version hb body :
  header_layout key version hb -> in_signed 16 key -> in_signed 16 version ->
  parse_header (hb ++ body) = Some (key, version, body).
Proof.
  intros (id & cid & Hl & ->) Hk Hv. unfold parse_header. rewrite <-!app_assoc.
  rewrite dec_int_be by done. cbn [mbind option_bind]. rewrite dec_int_be by done. cbn [mbind option_bind].
  rewrite drop_app_length' by (symmetry; apply length_be_bytes).
  rewrite dec_int_be by (pose proof (zlen_nonneg cid); unfold in_signed; lia). cbn [mbind option_bind].
  unfold zlen. by rewrite Nat2Z.id, drop_app_length.
Qed.

Lemma deliver_ok id header body :
  enc_message record_batches 0 response_header (VStruct [VInt id] []) = Some header ->
  exists h, deliver id false (header ++ body) = Some (Ok (mkResponse h (cursor body) (zlen (header ++ body)))).
Proof.
  intros Hh. destruct (ResponseHeader_reads (V 0) ltac:(cbn; lia) _ _ (cursor body) Hh) as (h & Hr & Hv).
  exists h. unfold deliver, reader_step. change (header +> cursor body) with (cursor (header ++ body)) in Hr. rewrite Hr.
  assert (int32 (response_correlation_id h) = id) as -> by (cbn in Hv; unfold Int32_val in Hv; congruence).
  by rewrite lookup_singleton_eq.
Qed.

(** What an answered exchange did. *)
Lemma exchange_served stream size id key version hb body n response n' :
  exchange (Network:=broker_network) stream size id (hb ++ body) false n = Some (Ok response, n') ->
  header_layout key version hb -> in_signed 16 key -> in_signed 16 version ->
  exists reply, serve_body key version body n = Some (reply, n') /\ resp_data response = cursor reply.
Proof.
  intros Hx Hh Hk Hv. cbn [exchange broker_network] in Hx. rewrite (parse_header_layout _ _ _ _ Hh Hk Hv) in Hx.
  cbn [mbind option_bind] in Hx. apply bind_Some in Hx as ([reply n1] & Hs & Hx).
  apply bind_Some in Hx as (header & Henc & Hx). apply bind_Some in Hx as (r & Hd & [= -> ->]).
  destruct (deliver_ok id header reply Henc) as (h & Hd'). rewrite Hd' in Hd. injection Hd as <-. by exists reply.
Qed.

Lemma append_batch_stored d sent bk base bk' :
  record_batches d = Some [sent] -> append_batch d bk = (0, base, bk') ->
  exists b, b ∈ bk_log bk' /\ stores_as base sent b.
Proof.
  unfold append_batch. intros ->. destruct (existsb _ _) eqn:He; intros [= <- <-].
  apply existsb_exists in He as (b & Hin & Hb%bool_decide_eq_true). exists b. by rewrite list_elem_of_In.
Qed.

Lemma produce_answer_view v code base base' :
  3 <= v <= 7 -> acknowledges topic partition v base' (produce_answer code base) -> code = 0 /\ base' = base.
Proof.
  intros Hv (more & th & Heq).
  assert (v = 3 \/ v = 4 \/ v = 5 \/ v = 6 \/ v = 7) as [-> |[-> |[-> |[-> | ->]]]] by lia;
    cbn in Heq; injection Heq; intros; by subst.
Qed.

#[export] Instance reference_broker : PartitionBroker Broker (Network0:=broker_network) topic partition.
Proof.
  refine {| pb_log := bk_log : Broker -> list RecordBatch |}.
  - intros stream size id hb body v d sent n response n' Hx Hh Hv (tx & acks & timeout & Hdec) Hd.
    destruct (exchange_served _ _ _ _ _ _ _ _ _ _ Hx Hh) as (reply & Hs & Hr); [by vm_compute|unfold in_signed; lia|].
    unfold serve_body, serve_produce in Hs. cbn [Z.eqb] in Hs. rewrite Hdec in Hs. cbn [mbind option_bind] in Hs.
    rewrite decide_True in Hs by done. destruct (append_batch d n) as [[code base] bk1] eqn:Happ.
    apply bind_Some in Hs as (bytes & Henc & [= <- <-]). exists (produce_answer code base), bytes.
    split; [done|]. split; [done|]. intros base' (-> & ->)%produce_answer_view; [|done].
    by eapply append_batch_stored.
  - intros stream size id hb body offset n response n' Hx Hh _.
    destruct (exchange_served _ _ _ _ _ _ _ _ _ _ Hx Hh) as (reply & Hs & Hr); [by vm_compute|by vm_compute|].
    unfold serve_body, serve_fetch in Hs. cbn [Z.eqb] in Hs.
    apply bind_Some in Hs as (bytes & Henc & [= <- <-]). exists (fetch_answer (bk_next n) (bk_bytes n)), bytes.
    split; [done|]. split; [done|]. intros batches (th & hw & st & ab & Heq). exists [], [].
    assert (bk_log n = batches) as ->.
    { unfold bk_log. cbn in Heq. injection Heq as _ _ _ _ Heq. by destruct (record_batches (bk_bytes n)); simplify_eq/=. }
    rewrite app_nil_r. split; [done|]. split; [constructor|done].
Defined.
End broker.
