(* ===== verification/EndToEnd.v ===== *)
(** * The client and a broker together

    A partition client produces records and fetches them back, over any network
    whose broker follows the protocol ([PartitionBroker]): every layer of the
    client takes part, from the records of the API down to the bytes of the
    messages and back, with all its retries. *)

From Stdlib Require Import ZArith Lia Sorted.
From stdpp Require Import base list numbers gmap.
From S2P Require Import Prelude Bytes Wire VecBuilder Varint Primitives PrimitiveLaws Record.
From S2P Require Import Codec RecordBatch RefCrates ApiKey ErrorCode Versioned Header DataMessages Schema SchemaLaws.
From S2P Require Import RequestSchemas ResponseSchemas MessageSchemas Support MetadataCache Messenger Io Backoff.
From S2P Require Import Topology Transport Session BrokerCache Connection Aggregator Partition PartitionProps Retry.
From S2P Require Import Controller PartitionClient Consumer ConsumerLog BrokerLog ConsumerClient ReferenceBroker.
Import ClientErrors.

Local Open Scope Z_scope.
Local Open Scope rust_scope.

(** ** Error codes that were read

    A reader makes an error of a code with [Error_new], so that the code zero
    is no error. *)
Lemma error_code_zero z e : e = Error_new z -> error_val e = VInt 0 -> e = None.
Proof.
  intros -> He. pose proof (error_val_new (mkInt16 z)) as H. cbn [int16] in H. rewrite H in He.
  injection He as ->. done.
Qed.

Lemma produce_errors version s resp s' :
  read_versioned (A:=ProduceResponse) version s = Ok (resp, s') ->
  Forall (fun t => Forall (fun p => exists z, prr_error p = Error_new z) (partition_responses t))
    (produce_responses resp).
Proof.
  unfold read_versioned, ProduceResponse_ReadVersioned, ProduceResponse_read_versioned.
  intros (u & s1 & _ & (ts & s2 & Hts & (th & s3 & _ & [= <- <-])%rbind_ok)%rbind_ok)%rbind_ok. simpl.
  revert Hts. apply read_vec_forall. clear. intros s t s'.
  unfold read_versioned, ProduceResponseResponse_ReadVersioned, ProduceResponseResponse_read_versioned.
  intros (u & s1 & _ & (n & s2 & _ & (ps & s3 & Hps & [= <- <-])%rbind_ok)%rbind_ok)%rbind_ok. simpl.
  revert Hps. apply read_vec_forall. clear. intros s p s'.
  unfold read_versioned, ProduceResponsePartitionResponse_ReadVersioned, ProduceResponsePartitionResponse_read_versioned.
  intros (u & s1 & _ & (i & s2 & _ & (e & s3 & _ & (o & s4 & _ & (a & s5 & _ & (l & s6 & _
    & [= <- <-])%rbind_ok)%rbind_ok)%rbind_ok)%rbind_ok)%rbind_ok)%rbind_ok. by eexists.
Qed.

Lemma fetch_errors {VC : VarIntCrate} {CC : Codecs} {prof : Profile} version s resp s' :
  read_versioned (A:=FetchResponse) version s = Ok (resp, s') ->
  Forall (fun t => Forall (fun p => exists z, frs_error_code p = Error_new z) (frs_partitions t))
    (fetch_responses resp).
Proof.
  unfold read_versioned, FetchResponse_ReadVersioned, FetchResponse_read_versioned.
  intros (u & s1 & _ & (th & s2 & _ & (ts & s3 & Hts & [= <- <-])%rbind_ok)%rbind_ok)%rbind_ok. simpl.
  revert Hts. apply read_vec_forall. clear. intros s t s'.
  unfold read_versioned, FetchResponseTopic_ReadVersioned, FetchResponseTopic_read_versioned.
  intros (u & s1 & _ & (n & s2 & _ & (ps & s3 & Hps & [= <- <-])%rbind_ok)%rbind_ok)%rbind_ok. simpl.
  revert Hps. apply read_vec_forall. clear. intros s p s'.
  unfold read_versioned, FetchResponsePartition_ReadVersioned, FetchResponsePartition_read_versioned.
  intros (u & s1 & _ & (i & s2 & _ & (e & s3 & _ & (h & s4 & _ & (l & s5 & _ & (a & s6 & _ & (r & s7 & _
    & [= <- <-])%rbind_ok)%rbind_ok)%rbind_ok)%rbind_ok)%rbind_ok)%rbind_ok)%rbind_ok. by eexists.
Qed.

(** ** One request *)
Section batches.
Context {VC : VarIntCrate} {VO : VarIntCrateOk} {CC : Codecs} {CO : CodecsOk} {prof : Profile}.

Lemma write_many_one (b : RecordBatch) : write_many write [b] = write b.
Proof. cbn [write_many]. unfold wseq, wnil. destruct (write b) as [d|e|q]; cbn; [by rewrite app_nil_r|done..]. Qed.

Lemma record_batches_one b d : wf b -> write b = Ok d -> record_batches d = Some [b].
Proof.
  intros Hb Hd. unfold record_batches.
  destruct (records_loop_app [b] d [] (length d) [] ltac:(by constructor)) as (g & _ & Heq).
  - by rewrite write_many_one.
  - by rewrite app_nil_r.
  - rewrite app_nil_r in Heq. rewrite Heq. by destruct g.
Qed.
End batches.

(** The header of a request has the layout of the protocol. *)
Lemma header_written key version id cid hb :
  write_versioned (V 1) (mkRequestHeader key version (mkInt32 id)
    (Some (mkNullableString (Some cid))) (Some TaggedFields_default)) = Ok hb ->
  header_layout (int16 (Int16_from_ApiKey key)) (vnum version) hb.
Proof.
  unfold write_versioned, RequestHeader_WriteVersioned, RequestHeader_write_versioned. cbv zeta.
  change (vnum (V 1) <=? 2) with true. change (1 <=? vnum (V 1)) with true. change (2 <=? vnum (V 1)) with false.
  cbn [oassert obind]. intros (a & x1 & Ha & (b & x2 & Hb & (c & x3 & Hc & (d & x4 & Hd & He & ->)%wseq_ok & ->)%wseq_ok
    & ->)%wseq_ok & ->)%wseq_ok.
  cbn in Ha, Hb, Hc, He. injection Ha as <-. injection Hb as <-. injection Hc as <-. injection He as <-.
  assert (write (mkNullableString (Some cid)) = Ok d) as Hn.
  { unfold write_when, wr_or, wr in Hd. by apply omap_err_ok in Hd. }
  rewrite nullable_string_write in Hn. destruct (Z.ltb_spec (zlen cid) (2 ^ 15)); [|done]. injection Hn as <-.
  exists id, cid. split; [done|]. rewrite app_nil_r. by destruct version.
Qed.

Section request.
Context {N : Type} `{!Network N}.
Local Abbreviation World := (World (N:=N)).

(** A request that is answered is one exchange. *)
Lemma request_exchange {Req Resp}
    `{RequestBody Req Resp, WriteVersionedType Req, ReadVersionedType Resp} (b : MessengerTransport) (msg : Req)
    (w : World) resp w' :
  request (Resp:=Resp) b msg w = Some (Ok resp, w') ->
  vnum (range_min (API_VERSION_RANGE (Req:=Req) (Resp:=Resp))) <=
    vnum (range_max (API_VERSION_RANGE (Req:=Req) (Resp:=Resp))) ->
  vnum (range_max (API_VERSION_RANGE (Req:=Req) (Resp:=Resp))) <
    vnum (FIRST_TAGGED_FIELD_IN_REQUEST_VERSION (Req:=Req) (Resp:=Resp)) ->
  vnum (range_max (API_VERSION_RANGE (Req:=Req) (Resp:=Resp))) <
    vnum (FIRST_TAGGED_FIELD_IN_RESPONSE_VERSION (Req:=Req) (Resp:=Resp)) ->
  exists v id hb body response rest,
    vnum (range_min (API_VERSION_RANGE (Req:=Req) (Resp:=Resp))) <= vnum v <=
      vnum (range_max (API_VERSION_RANGE (Req:=Req) (Resp:=Resp))) /\
    header_layout (int16 (Int16_from_ApiKey (API_KEY (Req:=Req) (Resp:=Resp)))) (vnum v) hb /\
    write_versioned v msg = Ok body /\
    exchange (stream b) (max_message_size b) id (hb ++ body) false (w_net w) = Some (Ok response, w_net w') /\
    read_versioned v (resp_data response) = Ok (resp, rest).
Proof.
  intros Hrun Hne Hreq Hresp. revert Hrun. unfold request, request_with_version_ranges.
  destruct (version_get _ _ ≫= _) as [v|] eqn:Hv; [|done].
  unfold io_bind at 1, fetch_correlation_id. set (id := default 0 _). unfold io_bind at 1, io_lift at 1.
  unfold prepare_request. rewrite Hv. cbn [ok_or obind].
  apply bind_Some in Hv as (r & _ & (Hm1 & Hm2 & Hm3)%match_versions_some).
  unfold version_le. rewrite !(proj2 (Z.leb_gt _ _)) by lia.
  destruct (write_versioned (V 1) _) as [hb|e|p] eqn:Hhb; cbn [obind]; [|done|done].
  destruct (write_versioned v msg) as [body|e|p] eqn:Hb; cbn [omap_err obind]; [|done|done].
  unfold io_bind, with_net, io_lift. cbn [prepared_buf use_tagged_fields_in_response w_net set_counters].
  destruct (exchange _ _ _ _ _ _) as [[[response|e|p] n']|] eqn:Hx; [|done..].
  intros [= Hf <-]. unfold finish_response in Hf. cbn [body_api_version] in Hf.
  destruct (read_versioned v (resp_data response)) as [[x rest]|e|p] eqn:Hr; cbn [omap_err obind] in Hf; [|done|done].
  destruct (negb _); [done|]. injection Hf as ->. exists v, id, hb, body, response, rest.
  split; [lia|]. split; [by eapply header_written|done].
Qed.
End request.

(** ** What the answers say *)
Section answers.
Context {VC : VarIntCrate} {VO : VarIntCrateOk} {CC : Codecs} {CO : CodecsOk} {prof : Profile}.
Context {CH : Chrono} {HO : ChronoOk} {rsasl : Rsasl}.
Context {N : Type} `{!Network N} (t : rstring) (p : Z) `{PB : !PartitionBroker N t p}.
Local Abbreviation World := (World (N:=N)).
Implicit Types w : World.
Hypothesis topic_utf8 : rstring_wf t.
Hypothesis partition_i32 : in_signed 32 p.

(** The body of a produce request. *)
Lemma produce_body v b body :
  3 <= vnum v <= 7 -> wf b ->
  write_versioned v (mkProduceRequest (mkNullableString None) (mkInt16 (-1)) (mkInt32 30000)
    [mkProduceRequestTopicData (mkString_ t)
       [mkProduceRequestPartitionData (mkInt32 p) (mkRecords [b])]]) = Ok body ->
  exists d, write b = Ok d /\ produces t p (vnum v) d body.
Proof using topic_utf8 partition_i32 VO CO.
  intros Hv Hb Hw. set (req := mkProduceRequest _ _ _ _) in Hw.
  assert (wf req) as Hwf.
  { split; [done|]. split; [by vm_compute|]. split; [by vm_compute|]. constructor; [|constructor].
    split; [done|]. constructor; [|constructor]. split; [done|]. constructor; [done|constructor]. }
  apply (ProduceRequest_writes v Hv req Hwf) in Hw.
  assert (exists d, write b = Ok d /\ records_block (mkRecords [b]) = VBytes d) as (d & Hd & Hrec).
  { unfold records_block. cbn [records_0]. rewrite write_many_one. destruct (write b) as [d|e|q] eqn:Hd; [by eauto|exfalso..];
      revert Hw; assert (vnum v = 3 \/ vnum v = 4 \/ vnum v = 5 \/ vnum v = 6 \/ vnum v = 7)
        as [-> |[-> |[-> |[-> | ->]]]] by lia; cbn; unfold records_block; cbn [records_0]; rewrite write_many_one, Hd; cbn;
      rewrite topic_utf8; cbn; intros Hw;
      repeat match goal with H : (_ +o+ _)%schema = Some _ |- _ => apply oapp_some in H as (? & ? & ? & ? & ?) end; done. }
  exists d. split; [done|]. unfold produces. rewrite <-(app_nil_r body).
  rewrite (dec_enc_message _ (vnum v) produce_request _ _ [] Hw). do 3 eexists.
  assert (vnum v = 3 \/ vnum v = 4 \/ vnum v = 5 \/ vnum v = 6 \/ vnum v = 7) as [-> |[-> |[-> |[-> | ->]]]] by lia;
    unfold view_message, req; cbn; by rewrite Hrec.
Qed.

(** The response that the client reads from an answer. *)
Lemma produce_acknowledged v answer bytes resp rest rt rp :
  3 <= vnum v <= 7 -> enc_message record_batches (vnum v) produce_response answer = Some bytes ->
  read_versioned v (cursor bytes) = Ok (resp, rest) ->
  produce_responses resp = [rt] -> string_ (prr_name rt) = t -> partition_responses rt = [rp] ->
  int32 (prr_index rp) = p -> prr_error rp = None ->
  acknowledges t p (vnum v) (int64 (prr_base_offset rp)) answer.
Proof using VO CO.
  intros Hv Henc Hread Hrt Hname Hrp Hidx Herr.
  destruct (ProduceResponse_reads v Hv _ _ (cursor []) Henc) as (resp' & Hr & Hview).
  rewrite src_app_cursor in Hr. rewrite Hr in Hread. injection Hread as -> _.
  unfold acknowledges. assert (view_message record_batches (vnum v) true produce_response answer =
    view_message record_batches (vnum v) false produce_response (ProduceResponse_val resp)) as -> by (symmetry; exact Hview).
  destruct resp as [ts th]. cbn [produce_responses] in Hrt. subst ts. destruct rt as [name ps]. cbn in Hname, Hrp. subst ps.
  destruct rp as [idx err base la ls]. cbn in Hidx, Herr |- *. subst err.
  destruct name as [name]. cbn in Hname. rewrite <-Hidx, <-Hname.
  assert (vnum v = 3 \/ vnum v = 4 \/ vnum v = 5 \/ vnum v = 6 \/ vnum v = 7) as [-> |[-> |[-> |[-> | ->]]]] by lia;
    by do 2 eexists.
Qed.

(** The body of a fetch request. *)
Lemma fetch_body offset bytes_start bytes_end max_wait_ms body :
  in_signed 64 offset -> in_signed 32 bytes_start -> in_signed 32 bytes_end -> in_signed 32 max_wait_ms ->
  write_versioned (V 4) (build_fetch_request offset bytes_start bytes_end max_wait_ms p t) = Ok body ->
  fetches t p offset body.
Proof using topic_utf8 partition_i32 VO CO.
  intros Ho Hs He Hm Hw. set (req := build_fetch_request _ _ _ _ _ _) in Hw.
  assert (in_signed 32 (saturating_pred bytes_end)) as He'.
  { unfold in_signed, saturating_pred in *. lia. }
  assert (wf req) as Hwf.
  { split; [by vm_compute|]. split; [done|]. split; [done|]. split; [done|]. constructor; [|constructor].
    split; [done|]. constructor; [|constructor]. by split. }
  apply (FetchRequest_writes (V 4) ltac:(cbn; lia) req Hwf) in Hw.
  unfold fetches. rewrite <-(app_nil_r body), (dec_enc_message _ 4 fetch_request _ _ [] Hw). by do 6 eexists.
Qed.

Lemma fetch_returned answer bytes resp rest rt rp :
  enc_message record_batches 4 fetch_response answer = Some bytes ->
  read_versioned (V 4) (cursor bytes) = Ok (resp, rest) ->
  fetch_responses resp = [rt] -> string_ (frs_topic rt) = t -> frs_partitions rt = [rp] ->
  int32 (frs_partition_index rp) = p -> frs_error_code rp = None ->
  returns t p (records_0 (frs_records rp)) answer.
Proof using VO CO.
  intros Henc Hread Hrt Hname Hrp Hidx Herr.
  destruct (FetchResponse_reads (V 4) ltac:(cbn; lia) _ _ (cursor []) Henc) as (resp' & Hr & Hview).
  rewrite src_app_cursor in Hr. rewrite Hr in Hread. injection Hread as -> _.
  unfold returns. assert (view_message record_batches 4 true fetch_response answer =
    view_message record_batches 4 false fetch_response (FetchResponse_val resp)) as -> by (symmetry; exact Hview).
  destruct resp as [th ts]. cbn [fetch_responses] in Hrt. subst ts. destruct rt as [name ps]. cbn in Hname, Hrp. subst ps.
  destruct rp as [idx err hw ls ab recs]. cbn in Hidx, Herr |- *. subst err.
  destruct name as [name]. cbn in Hname. rewrite <-Hidx, <-Hname.
  destruct recs as [recs]. by do 4 eexists.
Qed.

(** A produce call that succeeds: its batch is in the log. *)
Lemma produce_stored fuel (self : PartitionClient (N:=N)) first rs c w offsets w1 :
  topic self = t -> partition self = p ->
  Forall client_record_wf (first :: rs) -> zlen (first :: rs) < 2 ^ 31 ->
  produce fuel self (first :: rs) c w = Some (Ok offsets, w1) ->
  exists sent batch base, produce_batch (first :: rs) c = Ok sent /\
    batch ∈ pb_log N t p (w_net w1) /\ stores_as base sent batch /\
    (in_signed 64 base -> base + zlen (first :: rs) <= 2 ^ 63 -> offsets = seqZ base (zlen (first :: rs))).
Proof using topic_utf8 partition_i32 VO CO HO PB.
  intros Ht Hp Hrs Hlen Hrun. apply produce_result in Hrun as [[[=] _]|[_ (_ & req & b & w0 & resp & rt & rp & Hreq &
    Hrun & Hrt & Hname & Hrp & Hidx & Herr & Hoff)]]; [|lia].
  rewrite Ht, Hp in *. destruct (produce_batch_ok first rs c Hrs Hlen) as (sent & Hsent & _ & _ & Hwf).
  unfold build_produce_request in Hreq. rewrite Hsent in Hreq. injection Hreq as <-.
  assert (at_offset 0 sent = sent) as Hzero.
  { unfold produce_batch in Hsent. apply obind_ok in Hsent as (l & _ & [= <-]). done. }
  specialize (Hwf 0 ltac:(by vm_compute)). rewrite Hzero in Hwf.
  apply request_exchange in Hrun as (v & id & hb & body & response & rest & Hv & Hh & Hbody & Hx & Hread);
    [|cbn; lia..]. cbn in Hv, Hh.
  destruct (produce_body v sent body Hv Hwf Hbody) as (d & Hd & Hprod).
  destruct (pb_produce _ _ _ _ _ _ _ _ _ _ _ _ _ _ Hx Hh Hv Hprod (record_batches_one sent d Hwf Hd))
    as (answer & bytes & Henc & Hdata & Hack).
  rewrite Hdata in Hread.
  destruct (Hack _ (produce_acknowledged v _ _ _ _ _ _ Hv Henc Hread Hrt Hname Hrp Hidx Herr)) as (batch & Hin & Hst).
  by exists sent, batch, (int64 (prr_base_offset rp)).
Qed.

(** A fetch that succeeds: its records are those of a slice of the log. *)
Lemma fetch_slice fuel (self : PartitionClient (N:=N)) offset bytes_start bytes_end max_wait_ms w got hw w' :
  topic self = t -> partition self = p ->
  in_signed 64 offset -> in_signed 32 bytes_start -> in_signed 32 bytes_end -> in_signed 32 max_wait_ms ->
  client_fetch_records fuel self offset bytes_start bytes_end max_wait_ms w = Some (Ok (got, hw), w') ->
  exists before batches after, pb_log N t p (w_net w') = before ++ batches ++ after /\
    Forall (fun e => st_offset e < offset) (broker_log before) /\
    (stored_from offset (broker_log (pb_log N t p (w_net w'))) <> [] -> stored_from offset (broker_log batches) <> []) /\
    extract_records batches offset = Ok got.
Proof using topic_utf8 partition_i32 VO CO PB.
  intros Ht Hp Ho Hs He Hm Hrun. apply PartitionClient.fetch_result in Hrun as (b & w0 & resp & rt & rp & Hrun & Hrt & Hname & Hrp &
    Hidx & Herr & Hex & _).
  rewrite Ht, Hp in *.
  apply request_exchange in Hrun as (v & id & hb & body & response & rest & Hv & Hh & Hbody & Hx & Hread);
    [|cbn; lia..]. cbn in Hv, Hh.
  assert (v = V 4) as -> by (destruct v as [[v]]; cbn in Hv; unfold V; do 2 f_equal; lia).
  apply fetch_body in Hbody; [|done..].
  destruct (pb_fetch _ _ _ _ _ _ _ _ _ _ _ _ Hx Hh Hbody) as (answer & bytes & Henc & Hdata & Hret).
  rewrite Hdata in Hread.
  destruct (Hret _ (fetch_returned _ _ _ _ _ _ Henc Hread Hrt Hname Hrp Hidx Herr)) as (before & after & Hlog & Hb & Hne).
  by exists before, (records_0 (frs_records rp)), after.
Qed.
End answers.

(** ** Slices of a log *)
Section slices.
Context {CH : Chrono} {HO : ChronoOk} {prof : Profile}.

(** Two runs of batches that start at the same record agree. *)
Lemma extract_agree store before batches after s1 s2 s3 o got xs :
  Forall readable (broker_log store) -> store = before ++ batches ++ after -> store = s1 ++ s2 ++ s3 ->
  extract_records before o = Ok [] -> extract_records s1 o = Ok [] ->
  extract_records batches o = Ok got -> extract_records s2 o = Ok xs ->
  got `prefix_of` xs \/ xs `prefix_of` got.
Proof.
  intros Hr Hs1 Hs2 Hb1 Hb2 Hg Hx. destruct (extract_log store o Hr) as (l & Hl & _). pose proof Hl as Hl2.
  rewrite Hs1, !extract_records_app, Hb1, Hg in Hl. rewrite Hs2, !extract_records_app, Hb2, Hx in Hl2. cbn [obind] in Hl, Hl2.
  destruct (extract_records after o) as [y1|e|q]; cbn [obind] in Hl; [|done|done]. injection Hl as <-.
  destruct (extract_records s3 o) as [y2|e|q]; cbn [obind] in Hl2; [|done|done]. injection Hl2 as Heq.
  eapply (prefix_weak_total _ _ (got ++ y1)); [by eexists|]. exists y2. simpl in *. congruence.
Qed.

Lemma sorted_before (l1 l2 : list StoredRecord) e x :
  StronglySorted Z.lt (map st_offset (l1 ++ x :: l2)) -> e ∈ l1 -> st_offset e < st_offset x.
Proof.
  induction l1 as [|y l1 IH]; simpl; [by intros _ ?%elem_of_nil|].
  intros [Hs Hy]%StronglySorted_inv [->|Hin]%elem_of_cons; [|by apply IH].
  rewrite List.Forall_forall in Hy. apply Hy. rewrite map_app. apply in_or_app. right. by left.
Qed.

(** The log of a produced batch. *)
Lemma produced_log first rs c sent base b i r :
  Forall client_record_wf (first :: rs) -> zlen (first :: rs) < 2 ^ 31 -> produce_batch (first :: rs) c = Ok sent ->
  stores_as base sent b -> (first :: rs) !! i = Some r ->
  exists e, batch_log b !! i = Some e /\ st_offset e = base + Z.of_nat i.
Proof.
  intros Hrs Hlen Hsent (Hbase & _ & Hrec) Hi. destruct (produce_batch_ok first rs c Hrs Hlen) as (sent' & Hs & Hr & _).
  rewrite Hsent in Hs. injection Hs as <-. unfold batch_log. rewrite Hrec, Hr.
  rewrite list_lookup_fmap, list_lookup_imap, Hi. eexists. split; [done|]. cbn. rewrite Hbase.
  apply lookup_lt_Some in Hi. unfold zlen in Hlen. rewrite wrap_signed_id by (unfold in_signed; lia). done.
Qed.

Lemma produced_extract first rs c sent base b o :
  Forall client_record_wf (first :: rs) -> zlen (first :: rs) < 2 ^ 31 -> produce_batch (first :: rs) c = Ok sent ->
  stores_as base sent b -> - 2 ^ 63 <= base -> base + zlen (first :: rs) <= 2 ^ 63 ->
  extract_records [b] o = Ok (omap id (imap (fetched (record_timestamp first) base o) (first :: rs))).
Proof.
  intros Hrs Hlen Hsent (Hbase & Hts & Hrec) Hlo Hhi.
  destruct (produce_batch_ok first rs c Hrs Hlen) as (sent' & Hs & Hr & Hft & _).
  rewrite Hsent in Hs. injection Hs as <-. rewrite <-(extract_stored first rs sent base o) by done.
  unfold extract_records. cbn [try_map]. unfold extract_batch. by rewrite Hbase, Hts, Hrec.
Qed.
End slices.

(** ** Properties *)
Section property.
Context {VC : VarIntCrate} {VO : VarIntCrateOk} {CC : Codecs} {CO : CodecsOk} {prof : Profile}.
Context {CH : Chrono} {HO : ChronoOk} {rsasl : Rsasl}.
Context {N : Type} `{!Network N} (t : rstring) (p : Z) `{PB : !PartitionBroker N t p}.
Local Abbreviation World := (World (N:=N)).
Implicit Types w : World.

Lemma list_elem_of_not_nil {A} (x : A) l : x ∈ l -> l <> [].
Proof. intros Hx ->. by apply elem_of_nil in Hx. Qed.

Lemma batch_in_log b store i e : b ∈ store -> batch_log b !! i = Some e -> e ∈ broker_log store.
Proof.
  intros Hin He. unfold broker_log. apply list_elem_of_In, in_concat. exists (batch_log b).
  split; [by apply in_map, list_elem_of_In|]. apply list_elem_of_In. by eapply list_elem_of_lookup_2.
Qed.

(** The offsets of a produced batch that is still in the log. *)
Lemma produced_range first rs c sent base b store :
  Forall client_record_wf (first :: rs) -> zlen (first :: rs) < 2 ^ 31 -> produce_batch (first :: rs) c = Ok sent ->
  stores_as base sent b -> b ∈ store -> store_ok store ->
  - 2 ^ 63 <= base /\ base + zlen (first :: rs) <= 2 ^ 63.
Proof.
  intros Hrs Hlen Hsent Hst Hin Hok.
  assert (forall i r, (first :: rs) !! i = Some r -> - 2 ^ 63 <= base + Z.of_nat i < 2 ^ 63 - 1) as Hr.
  { intros i r Hi. destruct (produced_log _ _ _ _ _ _ _ _ Hrs Hlen Hsent Hst Hi) as (e & He & <-).
    apply (proj1 (list.Forall_forall _ _) (store_range _ Hok)). by eapply batch_in_log. }
  pose proof (Hr 0%nat first eq_refl) as H0. destruct (lookup_lt_is_Some_2 (first :: rs) (length rs)) as [r Hi]; [simpl; lia|].
  specialize (Hr _ _ Hi). unfold zlen. simpl length. lia.
Qed.

(** What was stored before the batch has smaller offsets. *)
Lemma produced_before first rs c sent base b store s1 s2 offset :
  Forall client_record_wf (first :: rs) -> zlen (first :: rs) < 2 ^ 31 -> produce_batch (first :: rs) c = Ok sent ->
  stores_as base sent b -> store_ok store -> store = s1 ++ b :: s2 -> base <= offset ->
  Forall (fun e => st_offset e < offset) (broker_log s1).
Proof.
  intros Hrs Hlen Hsent Hst Hok Hsplit Ho.
  destruct (produced_log _ _ _ _ _ _ 0 first Hrs Hlen Hsent Hst eq_refl) as (e & He0 & Heo).
  assert (exists l, broker_log store = broker_log s1 ++ e :: l) as (l & Hbl).
  { rewrite Hsplit. change (b :: s2) with ([b] ++ s2). rewrite !broker_log_app. unfold broker_log at 2. simpl.
    destruct (batch_log b) as [|e' l]; [done|]. injection He0 as ->. rewrite app_nil_r.
    by exists (l ++ broker_log s2). }
  apply list.Forall_forall. intros x Hx. pose proof (store_sorted _ Hok) as Hsorted. rewrite Hbl in Hsorted.
  pose proof (sorted_before _ _ _ _ Hsorted Hx). lia.
Qed.

(** C9: what a broker acknowledged can be read back.  For every broker that
    follows the protocol, whether it throttles, refuses or drops requests: when
    a produce call returns offsets, these are consecutive, and a fetch at one of
    them, by any client of the partition and after any number of retries, that
    succeeds while the batch is still stored returns at least one record; its
    records, from that offset on and for as long as the batch or the result
    goes, are those of the call, with their offsets, keys, values and headers,
    and their timestamps as they were stored.  Requests and answers pass through
    every layer of the client as bytes. *)
Theorem acknowledged_records_readable fuel fuel' (self self' : PartitionClient (N:=N)) first rs c
    offset bytes_start bytes_end max_wait_ms w offsets w1 w2 got hw w3 :
  rstring_wf t -> in_signed 32 p ->
  topic self = t -> partition self = p -> topic self' = t -> partition self' = p ->
  Forall client_record_wf (first :: rs) -> zlen (first :: rs) < 2 ^ 31 ->
  in_signed 32 bytes_start -> in_signed 32 bytes_end -> in_signed 32 max_wait_ms -> in_signed 64 offset ->
  produce fuel self (first :: rs) c w = Some (Ok offsets, w1) ->
  client_fetch_records fuel' self' offset bytes_start bytes_end max_wait_ms w2 = Some (Ok (got, hw), w3) ->
  offset ∈ offsets ->
  (forall b, b ∈ pb_log N t p (w_net w1) -> b ∈ pb_log N t p (w_net w3)) ->
  store_ok (pb_log N t p (w_net w3)) ->
  exists base, offsets = seqZ base (zlen (first :: rs)) /\ got <> [] /\
    let produced := omap id (imap (fetched (record_timestamp first) base offset) (first :: rs)) in
    got `prefix_of` produced \/ produced `prefix_of` got.
Proof.
  intros Hutf Hp32 Ht Hp Ht' Hp' Hrs Hlen Hs He Hm Ho64 Hprod Hfetch Ho Hkept Hok.
  destruct (produce_stored t p Hutf Hp32 fuel self first rs c w offsets w1 Ht Hp Hrs Hlen Hprod)
    as (sent & b & base & Hsent & Hin%Hkept & Hst & Hoffsets).
  destruct (produced_range _ _ _ _ _ _ _ Hrs Hlen Hsent Hst Hin Hok) as [Hlo Hhi].
  assert (offsets = seqZ base (zlen (first :: rs))) as ->.
  { apply Hoffsets; [|done]. pose proof (zlen_nonneg rs). rewrite zlen_cons in Hhi. unfold in_signed. lia. }
  exists base. split; [done|]. apply elem_of_seqZ in Ho.
  destruct (fetch_slice t p Hutf Hp32 fuel' self' offset _ _ _ w2 got hw w3 Ht' Hp' Ho64 Hs He Hm Hfetch)
    as (before & batches & after & Hlog & Hbefore & Hne & Hex).
  set (store := pb_log N t p (w_net w3)) in *. pose proof (store_ok_readable _ Hok) as Hread.
  assert (Hsub : forall a x y, store = a ++ x ++ y -> Forall readable (broker_log a) /\ Forall readable (broker_log x)).
  { intros a x y Heq. rewrite Heq, !broker_log_app, !Forall_app in Hread. tauto. }
  split.
  - destruct (extract_log batches offset (proj2 (Hsub _ _ _ Hlog))) as (l' & Hl' & Hsees). rewrite Hex in Hl'.
    injection Hl' as <-. intros ->. apply Forall2_nil_inv_l in Hsees. apply Hne; [|done].
    destruct (lookup_lt_is_Some_2 (first :: rs) (Z.to_nat (offset - base))) as [r Hi]; [unfold zlen in Ho; lia|].
    destruct (produced_log _ _ _ _ _ _ _ _ Hrs Hlen Hsent Hst Hi) as (e & He' & Heo).
    apply (list_elem_of_not_nil e), list_elem_of_filter. split; [lia|]. by eapply batch_in_log.
  - apply list_elem_of_split in Hin as (s1 & s2 & Hsplit).
    eapply (extract_agree store before batches after s1 [b] s2); try done.
    + by apply extract_before; [apply (Hsub _ _ _ Hlog)|].
    + apply extract_before; [by apply (Hsub s1 [b] s2)|].
      by apply (produced_before first rs c sent base b store s1 s2); [..|lia].
    + by eapply produced_extract.
Qed.
End property.

(** ** A topic "t", two records, and a broker that has stored nothing yet *)
#[local] Existing Instance debug_profile.
#[local] Existing Instance RefNetwork.ref_rsasl.

Module Sample.
Definition sample_topic : rstring := ascii_string [116].
Local Instance sample_network : Network Broker := broker_network sample_topic 0.

Definition client : PartitionClient (N:=Broker) :=
  mkPartitionClient sample_topic 0
    (mkBrokerConnector [] CARGO_PKG_NAME None None None 1000 BackoffConfig_default) BackoffConfig_default
    UnknownTopicError.

Definition connection : MessengerTransport (N:=Broker) :=
  mkMessengerTransport (Plain (tt : TcpStream (N:=Broker))) 1000 CARGO_PKG_NAME 0
    [(ApiKeys.Produce, mkApiVersionRange (V 0) (V 9)); (ApiKeys.Fetch, mkApiVersionRange (V 0) (V 12))].

Definition world (bk : Broker) : World (N:=Broker) :=
  mkWorld bk [0] ∅ (mkBrokerCell None 0) MetadataCache_default (mkBrokerCell None 0)
    (mkCurrentBroker (Some connection) 1 None None).

Definition record_1 : ClientRecord := PartitionProps.sample_client_record 1.
Definition record_2 : ClientRecord := PartitionProps.sample_client_record 2.

Definition run_produce :=
  produce (CH:=ref_chrono) 1 client [record_1; record_2] Compression_Gzip (world (mkBroker [] [] 0)).
Definition sample_fetch (w : World (N:=Broker)) := client_fetch_records (CH:=ref_chrono) 1 client 1 1 1000 500 w.

(** The log after both calls: two records at the offsets 0 and 1. *)
Definition fetched_state : option (list Z * list RecordAndOffset * World (N:=Broker) * World (N:=Broker)) :=
  match run_produce with
  | Some (Ok offsets, w1) =>
      match sample_fetch w1 with
      | Some (Ok (got, _), w3) => Some (offsets, got, w1, w3)
      | _ => None
      end
  | _ => None
  end.

Definition log_summary (w : World (N:=Broker)) : list (Z * Z) :=
  map (fun e => (st_offset e, st_millis e)) (broker_log (bk_log (w_net w))).

Lemma fetched_summary :
  match fetched_state with
  | Some (offsets, got, w1, w3) => Some (offsets, map rao_offset got, log_summary w3, bool_decide (bk_bytes (w_net w1) = bk_bytes (w_net w3)))
  | None => None
  end = Some ([0; 1], [1], [(0, 1); (1, 2)], true).
Proof. vm_compute. reflexivity. Qed.

Lemma sample_store_ok store :
  map (fun e => (st_offset e, st_millis e)) (broker_log store) = [(0, 1); (1, 2)] -> store_ok (H:=ref_chrono) store.
Proof.
  intros Hs. destruct (broker_log store) as [|e1 [|e2 [|]]] eqn:Hl; try discriminate Hs.
  injection Hs as H1 H2 H3 H4. split; rewrite Hl; simpl; rewrite ?H1, ?H3.
  - repeat constructor; lia.
  - repeat constructor; lia.
  - repeat constructor; by rewrite ?H2, ?H4.
Qed.

Lemma same_log bk bk' : bool_decide (bk_bytes bk = bk_bytes bk') = true ->
  forall b, b ∈ bk_log bk -> b ∈ bk_log bk'.
Proof. intros Heq%bool_decide_eq_true b. unfold bk_log. by rewrite Heq. Qed.

Lemma offset_1 : 1 ∈ [0; 1].
Proof. set_solver. Qed.

Lemma records_ok : Forall client_record_wf [record_1; record_2].
Proof. repeat constructor; apply PartitionProps.sample_client_record_wf; lia. Qed.
End Sample.

Lemma acknowledged_records_readable_witness :
  exists got, got <> [] /\
    (got `prefix_of` [mkRecordAndOffset Sample.record_2 1] \/ [mkRecordAndOffset Sample.record_2 1] `prefix_of` got).
Proof.
  pose proof Sample.fetched_summary as Hsum. unfold Sample.fetched_state in Hsum.
  destruct Sample.run_produce as [[[offsets|e|p] w1]|] eqn:Hp; try discriminate Hsum.
  destruct (Sample.sample_fetch w1) as [[[[got hw]|e|p] w3]|] eqn:Hf; try discriminate Hsum.
  injection Hsum as Hoff Hgot Hlog Hsame. subst offsets.
  destruct (acknowledged_records_readable Sample.sample_topic 0 1 1 Sample.client Sample.client Sample.record_1
    [Sample.record_2] Compression_Gzip 1 1 1000 500 (Sample.world (mkBroker [] [] 0)) [0; 1] w1 w1 got hw w3)
    as (base & Hbase & Hne & Hpre).
  1,3-6: reflexivity.
  - split; vm_compute; congruence.
  - exact Sample.records_ok.
  - reflexivity.
  - split; vm_compute; congruence.
  - split; vm_compute; congruence.
  - split; vm_compute; congruence.
  - split; vm_compute; congruence.
  - exact Hp.
  - exact Hf.
  - exact Sample.offset_1.
  - exact (Sample.same_log _ _ Hsame).
  - exact (Sample.sample_store_ok _ Hlog).
  - exists got. split; [exact Hne|]. 
    assert (base = 0) as Hb by (injection Hbase as Hb _; simpl in Hb; lia). subst base. exact Hpre.
Defined.
